(** * MetroCity: a shallow embedding of the routing and movement engine

    The Python sources (Line.py, Train.py, Passenger.py, Station.py, City.py,
    Simulation.py) are embedded as state-passing functions over an explicit
    object store.  Python objects that are shared and mutated in place
    (station nodes, stations, trains, passengers) live in arenas and are
    referred to by handle; a method that mutates [self] or a neighbour
    returns the updated store. *)

From stdpp Require Import base option list gmap strings sorting.
From Stdlib Require Import ZArith Lia SpecFloat.

Local Open Scope Z_scope.

(** ** Python outcomes *)

Module Py.

(** The exceptions the embedded code can raise. *)
Inductive exn :=
| IndexError
| AttributeError
| TypeError
| ValueError
| OverflowError.

(** Outcome of running a method: a value, an uncaught exception, or
    [Stuck] when the run leaves the model (a handle that points at nothing,
    or a random source that is used up before a loop ends). *)
Inductive result (A : Type) :=
| Ok (a : A)
| Raise (e : exn)
| Stuck.
Arguments Ok {A} a.
Arguments Raise {A} e.
Arguments Stuck {A}.

Definition bind {A B} (m : result A) (f : A → result B) : result B :=
  match m with
  | Ok a => f a
  | Raise e => Raise e
  | Stuck => Stuck
  end.

Definition returns {A} (m : result A) : Prop := ∃ a, m = Ok a.

(** Reading a handle; a handle outside the arena is not a Python state. *)
Definition deref {A} (o : option A) : result A :=
  match o with Some a => Ok a | None => Stuck end.

(** [l[i]] for a Python list: negative indices count from the end. *)
Definition index {A} (l : list A) (i : Z) : result A :=
  let n := Z.of_nat (length l) in
  if bool_decide (0 ≤ i < n) then deref (l !! Z.to_nat i)
  else if bool_decide (- n ≤ i < 0) then deref (l !! Z.to_nat (n + i))
  else Raise IndexError.

(** [l.insert(i, x)]: the index is clamped into [0 .. len(l)]. *)
Definition insert {A} (l : list A) (i : Z) (x : A) : list A :=
  let n := Z.of_nat (length l) in
  let k := if bool_decide (i < 0) then Z.max 0 (n + i) else Z.min i n in
  take (Z.to_nat k) l ++ x :: drop (Z.to_nat k) l.

(** [l.remove(x)]: drops the first element equal to [x]. *)
Fixpoint remove {A} `{EqDecision A} (x : A) (l : list A) : result (list A) :=
  match l with
  | [] => Raise ValueError
  | y :: l' =>
      if decide (x = y) then Ok l'
      else match remove x l' with
           | Ok r => Ok (y :: r)
           | Raise e => Raise e
           | Stuck => Stuck
           end
  end.

(** [for x in l: s = f(s, x)] where the body may raise. *)
Fixpoint for_each {S A} (f : S → A → result S) (l : list A) (s : S) : result S :=
  match l with
  | [] => Ok s
  | x :: l' => bind (f s x) (for_each f l')
  end.

(** [[g(x) for x in l]] where [g] may raise. *)
Fixpoint map_m {A B} (g : A → result B) (l : list A) : result (list B) :=
  match l with
  | [] => Ok []
  | x :: l' => bind (g x) (λ y, bind (map_m g l') (λ ys, Ok (y :: ys)))
  end.

(** [[x for x in l if g(x)]] where [g] may raise. *)
Fixpoint filter_m {A} (g : A → result bool) (l : list A) : result (list A) :=
  match l with
  | [] => Ok []
  | x :: l' =>
      bind (g x) (λ b, bind (filter_m g l') (λ ys, Ok (if b then x :: ys else ys)))
  end.

(** Python floats are IEEE doubles.  [float(z)] for an integer operand of
    a float operation rounds to the nearest double; an integer beyond the
    doubles raises. *)
Definition float_of_int (z : Z) : result spec_float :=
  match binary_normalize 53 1024 z 0 false with
  | S754_infinity _ => Raise OverflowError
  | x => Ok x
  end.

(** [x * y] for two floats. *)
Definition float_mul (x y : spec_float) : spec_float := SFmul 53 1024 x y.

(** [int(x)] for a float: truncation towards zero. *)
Definition int_of_float (x : spec_float) : result Z :=
  match x with
  | S754_zero _ => Ok 0
  | S754_finite sign m e =>
      let a := if bool_decide (0 ≤ e) then Z.pos m * 2 ^ e
               else Z.pos m `div` 2 ^ (- e) in
      Ok (if sign then - a else a)
  | S754_infinity _ => Raise OverflowError
  | S754_nan => Raise ValueError
  end.

End Py.

Import Py.

(** [result] is a monad; the code below uses stdpp's [x ← m; k]. *)
Global Instance result_ret : MRet result := @Ok.
Global Instance result_bind : MBind result := λ A B f m, Py.bind m f.

(** ** Data model *)

(** Handles.  A station is identified by its place in [City.stations] (which
    is also its [idx]), a line by its place in [City.lines], a train by its
    place in [City.trains]; station nodes and passengers are allocated in
    arenas of their own. *)
Abbreviation station_ref := nat.
Abbreviation line_ref := nat.
Abbreviation train_ref := nat.
Abbreviation node_ref := nat.
Abbreviation passenger_ref := nat.

(** What a [previous_node] / [next_node] field can hold.  The fields are
    untyped in the source: [add_station] stores nodes in them and
    [make_circular] stores stations. *)
Inductive link :=
| ToNode (a : node_ref)
| ToStation (s : station_ref).

Global Instance link_eq_dec : EqDecision link.
Proof. solve_decision. Defined.

(** class Station_Node *)
Record Station_Node := {
  station : station_ref;
  previous_node : option link;
  next_node : option link;
}.

Definition set_previous_node (v : option link) (nd : Station_Node) : Station_Node :=
  {| station := station nd; previous_node := v; next_node := next_node nd |}.
Definition set_next_node (v : option link) (nd : Station_Node) : Station_Node :=
  {| station := station nd; previous_node := previous_node nd; next_node := v |}.

(** The arena of station nodes: a node's handle is its index. *)
Abbreviation heap := (list Station_Node).

(** class Line: [color] identifies the line, [station_nodes] is the Python
    list of node objects. *)
Record Line := {
  color : string;
  station_nodes : list node_ref;
}.

Definition set_station_nodes (ns : list node_ref) (l : Line) : Line :=
  {| color := color l; station_nodes := ns |}.

(** Following a link field: [x.next_node] (or [x.previous_node]) has just
    been read and an attribute of the object found there is read next.
    [None] and stations have no node attributes. *)
Definition follow (h : heap) (v : option link) : result (node_ref * Station_Node) :=
  match v with
  | Some (ToNode a) => nd ← deref (h !! a); Ok (a, nd)
  | Some (ToStation _) => Raise AttributeError
  | None => Raise AttributeError
  end.

(** [x.f = v] where [x] is what a link field holds.  Assigning to [None]
    raises; assigning to a station would create a new attribute on the
    station object, which leaves this model. *)
Definition update_link (h : heap) (v : option link)
    (f : Station_Node → Station_Node) : result heap :=
  match v with
  | Some (ToNode a) => nd ← deref (h !! a); Ok (<[a := f nd]> h)
  | Some (ToStation _) => Stuck
  | None => Raise AttributeError
  end.

(** [a.f = v] for a node [a]. *)
Definition update_node (h : heap) (a : node_ref)
    (f : Station_Node → Station_Node) : result heap :=
  nd ← deref (h !! a); Ok (<[a := f nd]> h).

(** Allocation of a fresh [Station_Node(station, previous_node, next_node)]. *)
Definition new_node (h : heap) (s : station_ref) (p n : option link)
    : heap * node_ref :=
  (h ++ [{| station := s; previous_node := p; next_node := n |}], length h).

(** ** Line.py *)

Module LineM.

(** [[node.station for node in self.station_nodes]] *)
Definition stations_of (h : heap) (l : Line) : result (list station_ref) :=
  map_m (λ a, nd ← deref (h !! a); Ok (station nd)) (station_nodes l).

(** Line.is_circular *)
Definition is_circular (h : heap) (l : Line) : result bool :=
  if bool_decide (Z.of_nat (length (station_nodes l)) ≤ 1) then Ok false
  else
    first ← index (station_nodes l) 0;
    last ← index (station_nodes l) (-1);
    nd ← deref (h !! last);
    Ok (bool_decide (next_node nd = Some (ToNode first))).

(** Line.find_node *)
Fixpoint find_node_in (h : heap) (ns : list node_ref) (s : station_ref)
    : result (option node_ref) :=
  match ns with
  | [] => Ok None
  | a :: ns' =>
      nd ← deref (h !! a);
      if decide (station nd = s) then Ok (Some a) else find_node_in h ns' s
  end.

Definition find_node (h : heap) (l : Line) (s : station_ref)
    : result (option node_ref) :=
  find_node_in h (station_nodes l) s.

(** Line.add_station *)
Definition add_station (h : heap) (l : Line) (s : station_ref) (position : Z)
    : result (heap * Line * bool) :=
  let n := Z.of_nat (length (station_nodes l)) in
  if bool_decide (n = 0) && bool_decide (position ≤ 0) then
    let '(h1, a) := new_node h s None None in
    Ok (h1, set_station_nodes [a] l, true)
  else
    ss ← stations_of h l;
    if bool_decide (s ∈ ss) then Ok (h, l, false)
    else if bool_decide (position < -2) || bool_decide (position > n) then
      Ok (h, l, false)
    else if bool_decide (position = -1) || bool_decide (position = n) then
      last ← index (station_nodes l) (-1);
      let '(h1, a) := new_node h s (Some (ToNode last)) None in
      h2 ← update_node h1 last (set_next_node (Some (ToNode a)));
      Ok (h2, set_station_nodes (station_nodes l ++ [a]) l, true)
    else if bool_decide (position = 0) then
      first ← index (station_nodes l) 0;
      let '(h1, a) := new_node h s None (Some (ToNode first)) in
      h2 ← update_node h1 first (set_previous_node (Some (ToNode a)));
      Ok (h2, set_station_nodes (Py.insert (station_nodes l) 0 a) l, true)
    else
      before ← index (station_nodes l) (position - 1);
      after ← index (station_nodes l) position;
      let '(h1, a) := new_node h s (Some (ToNode before)) (Some (ToNode after)) in
      h2 ← update_node h1 after (set_previous_node (Some (ToNode a)));
      h3 ← update_node h2 before (set_next_node (Some (ToNode a)));
      Ok (h3, set_station_nodes (Py.insert (station_nodes l) position a) l, true).

(** Line.remove_station *)
Definition remove_station (h : heap) (l : Line) (s : station_ref)
    : result (heap * Line * bool) :=
  found ← find_node h l s;
  match found with
  | None => Ok (h, l, false)
  | Some a =>
      nd ← deref (h !! a);
      h1 ← (match previous_node nd with
            | None => Ok h
            | Some p => update_link h (Some p) (set_next_node (next_node nd))
            end);
      nd1 ← deref (h1 !! a);
      h2 ← (match next_node nd1 with
            | None => Ok h1
            | Some q => update_link h1 (Some q) (set_previous_node (previous_node nd1))
            end);
      ns ← Py.remove a (station_nodes l);
      Ok (h2, set_station_nodes ns l, true)
  end.

(** Line.make_circular: each assignment evaluates its right-hand side
    first; what is stored is the [.station] of the opposite end node. *)
Definition make_circular (h : heap) (l : Line) : result heap :=
  last ← index (station_nodes l) (-1);
  lastnd ← deref (h !! last);
  first ← index (station_nodes l) 0;
  h1 ← update_node h first (set_previous_node (Some (ToStation (station lastnd))));
  first' ← index (station_nodes l) 0;
  firstnd ← deref (h1 !! first');
  last' ← index (station_nodes l) (-1);
  update_node h1 last' (set_next_node (Some (ToStation (station firstnd)))).

(** Line.break_circular *)
Definition break_circular (h : heap) (l : Line) : result heap :=
  first ← index (station_nodes l) 0;
  h1 ← update_node h first (set_previous_node None);
  last ← index (station_nodes l) (-1);
  update_node h1 last (set_next_node None).

(** Line.next_station.  The result pairs the node to go to ([None] in the
    "not found" cases) with the new direction. *)
Definition next_station (h : heap) (l : Line) (station_node : option node_ref)
    (direction : Z) : result (option node_ref * Z) :=
  match station_node with
  | None => Ok (None, 0)
  | Some a =>
      if bool_decide (a ∉ station_nodes l) then Ok (None, 0)
      else if bool_decide (length (station_nodes l) = 1%nat) then
        Ok (Some a, direction)
      else if bool_decide (direction = 1) then
        nd ← deref (h !! a);
        '(b, nxt) ← follow h (next_node nd);
        if bool_decide (next_node nxt = None) then Ok (Some b, -1)
        else Ok (Some b, 1)
      else if bool_decide (direction = -1) then
        nd ← deref (h !! a);
        '(b, prv) ← follow h (previous_node nd);
        if bool_decide (previous_node prv = None) then Ok (Some b, 1)
        else Ok (Some b, -1)
      else Ok (None, 0)
  end.

End LineM.

(** ** Stations, trains, passengers and the city *)

(** Where a passenger is: [Passenger.position] holds a Station or a Train. *)
Inductive place :=
| AtStation (s : station_ref)
| OnTrain (t : train_ref).

Global Instance place_eq_dec : EqDecision place.
Proof. solve_decision. Defined.

(** class Passenger (the trace and history attributes are not modelled;
    tracing is off by default). *)
Record Passenger := {
  starttime : Z;
  origin : station_ref;
  destination : station_ref;
  position : place;
}.

Definition set_position (v : place) (p : Passenger) : Passenger :=
  {| starttime := starttime p; origin := origin p;
     destination := destination p; position := v |}.

(** class Station (the spawn rate, a float that only feeds the Poisson
    draw, is left out: any count can come out of that draw). *)
Record Station := {
  station_idx : nat;
  station_position : Z * Z;
  station_passengers : list passenger_ref;
}.

Definition set_station_passengers (v : list passenger_ref) (s : Station) : Station :=
  {| station_idx := station_idx s; station_position := station_position s;
     station_passengers := v |}.

Inductive train_state := AT_STATION | LEFT_STATION.

Global Instance train_state_eq_dec : EqDecision train_state.
Proof. solve_decision. Defined.

Definition FOREWARD : Z := 1.
Definition BACKWARD : Z := -1.
Definition MAX_WAGONS : Z := 5.
Definition WAGON_CAPACITY : Z := 6.

(** class Train *)
Record Train := {
  capacity : Z;
  train_passengers : list passenger_ref;
  state : train_state;
  line : option line_ref;
  direction : Z;
  station_node : option node_ref;
  train_idx : nat;
}.

Definition set_capacity (v : Z) (t : Train) : Train :=
  {| capacity := v; train_passengers := train_passengers t; state := state t;
     line := line t; direction := direction t; station_node := station_node t;
     train_idx := train_idx t |}.
Definition set_train_passengers (v : list passenger_ref) (t : Train) : Train :=
  {| capacity := capacity t; train_passengers := v; state := state t;
     line := line t; direction := direction t; station_node := station_node t;
     train_idx := train_idx t |}.
Definition set_state (v : train_state) (t : Train) : Train :=
  {| capacity := capacity t; train_passengers := train_passengers t; state := v;
     line := line t; direction := direction t; station_node := station_node t;
     train_idx := train_idx t |}.
Definition set_line_field (v : option line_ref) (t : Train) : Train :=
  {| capacity := capacity t; train_passengers := train_passengers t; state := state t;
     line := v; direction := direction t; station_node := station_node t;
     train_idx := train_idx t |}.
Definition set_direction (v : Z) (t : Train) : Train :=
  {| capacity := capacity t; train_passengers := train_passengers t; state := state t;
     line := line t; direction := v; station_node := station_node t;
     train_idx := train_idx t |}.
Definition set_station_node (v : option node_ref) (t : Train) : Train :=
  {| capacity := capacity t; train_passengers := train_passengers t; state := state t;
     line := line t; direction := direction t; station_node := v;
     train_idx := train_idx t |}.

(** Distances of the distance map: numpy floats that are either a hop count
    or [inf]. *)
Inductive dist :=
| Hops (n : nat)
| Inf.

Global Instance dist_eq_dec : EqDecision dist.
Proof. solve_decision. Defined.
Global Instance dist_inhabited : Inhabited dist := populate Inf.

(** [a + b] *)
Definition dadd (a b : dist) : dist :=
  match a, b with
  | Hops x, Hops y => Hops (x + y)
  | _, _ => Inf
  end.

(** [a > b] *)
Definition dgtb (a b : dist) : bool :=
  match a, b with
  | Hops x, Hops y => bool_decide (y < x)%nat
  | Inf, Hops _ => true
  | _, Inf => false
  end.

(** [a <= b] as a proposition, for statements. *)
Definition dle (a b : dist) : Prop :=
  match a, b with
  | Hops x, Hops y => (x ≤ y)%nat
  | _, Inf => True
  | Inf, Hops _ => False
  end.

(** A route option: the [(line.color, direction)] tuples of the navmap. *)
Abbreviation routes := (gset (string * Z)).

(** Square numpy arrays, as rows of cells. *)
Abbreviation matrix A := (list (list A)).

Definition mfull {A} (n : nat) (x : A) : matrix A := replicate n (replicate n x).

(** [m[i, j]] for indices inside the array. *)
Definition mget {A} `{Inhabited A} (m : matrix A) (i j : nat) : A :=
  (m !!! i) !!! j.

(** [m[i, j] = v] for indices inside the array. *)
Definition mset {A} (m : matrix A) (i j : nat) (v : A) : matrix A :=
  alter (λ row, <[j := v]> row) i m.

(** [m[i, j]] with numpy's bounds check. *)
Definition mget_checked {A} (m : matrix A) (i j : nat) : result A :=
  match m !! i with
  | Some row => match row !! j with Some x => Ok x | None => Raise IndexError end
  | None => Raise IndexError
  end.

(** class City.  [nodes] and [passengers] are the arenas of the station
    nodes and passengers that the Python objects point into. *)
Record City := {
  time : Z;
  stations : list Station;
  lines : list Line;
  trains : list Train;
  max_trains : Z;
  max_lines : Z;
  free_wagons : Z;
  edgelength : Z;
  distmap : option (matrix dist);
  navmap : option (matrix routes);
  arrived_passengers : list Z;
  nodes : heap;
  passengers : list Passenger;
}.

Definition set_time (v : Z) (c : City) : City :=
  {| time := v; stations := stations c; lines := lines c; trains := trains c;
     max_trains := max_trains c; max_lines := max_lines c;
     free_wagons := free_wagons c; edgelength := edgelength c;
     distmap := distmap c; navmap := navmap c;
     arrived_passengers := arrived_passengers c; nodes := nodes c;
     passengers := passengers c |}.
Definition set_stations (v : list Station) (c : City) : City :=
  {| time := time c; stations := v; lines := lines c; trains := trains c;
     max_trains := max_trains c; max_lines := max_lines c;
     free_wagons := free_wagons c; edgelength := edgelength c;
     distmap := distmap c; navmap := navmap c;
     arrived_passengers := arrived_passengers c; nodes := nodes c;
     passengers := passengers c |}.
Definition set_lines (v : list Line) (c : City) : City :=
  {| time := time c; stations := stations c; lines := v; trains := trains c;
     max_trains := max_trains c; max_lines := max_lines c;
     free_wagons := free_wagons c; edgelength := edgelength c;
     distmap := distmap c; navmap := navmap c;
     arrived_passengers := arrived_passengers c; nodes := nodes c;
     passengers := passengers c |}.
Definition set_trains (v : list Train) (c : City) : City :=
  {| time := time c; stations := stations c; lines := lines c; trains := v;
     max_trains := max_trains c; max_lines := max_lines c;
     free_wagons := free_wagons c; edgelength := edgelength c;
     distmap := distmap c; navmap := navmap c;
     arrived_passengers := arrived_passengers c; nodes := nodes c;
     passengers := passengers c |}.
Definition set_free_wagons (v : Z) (c : City) : City :=
  {| time := time c; stations := stations c; lines := lines c; trains := trains c;
     max_trains := max_trains c; max_lines := max_lines c;
     free_wagons := v; edgelength := edgelength c;
     distmap := distmap c; navmap := navmap c;
     arrived_passengers := arrived_passengers c; nodes := nodes c;
     passengers := passengers c |}.
Definition set_edgelength (v : Z) (c : City) : City :=
  {| time := time c; stations := stations c; lines := lines c; trains := trains c;
     max_trains := max_trains c; max_lines := max_lines c;
     free_wagons := free_wagons c; edgelength := v;
     distmap := distmap c; navmap := navmap c;
     arrived_passengers := arrived_passengers c; nodes := nodes c;
     passengers := passengers c |}.
Definition set_maps (d : matrix dist) (nv : matrix routes) (c : City) : City :=
  {| time := time c; stations := stations c; lines := lines c; trains := trains c;
     max_trains := max_trains c; max_lines := max_lines c;
     free_wagons := free_wagons c; edgelength := edgelength c;
     distmap := Some d; navmap := Some nv;
     arrived_passengers := arrived_passengers c; nodes := nodes c;
     passengers := passengers c |}.
Definition set_arrived_passengers (v : list Z) (c : City) : City :=
  {| time := time c; stations := stations c; lines := lines c; trains := trains c;
     max_trains := max_trains c; max_lines := max_lines c;
     free_wagons := free_wagons c; edgelength := edgelength c;
     distmap := distmap c; navmap := navmap c;
     arrived_passengers := v; nodes := nodes c;
     passengers := passengers c |}.
Definition set_nodes (v : heap) (c : City) : City :=
  {| time := time c; stations := stations c; lines := lines c; trains := trains c;
     max_trains := max_trains c; max_lines := max_lines c;
     free_wagons := free_wagons c; edgelength := edgelength c;
     distmap := distmap c; navmap := navmap c;
     arrived_passengers := arrived_passengers c; nodes := v;
     passengers := passengers c |}.
Definition set_passengers (v : list Passenger) (c : City) : City :=
  {| time := time c; stations := stations c; lines := lines c; trains := trains c;
     max_trains := max_trains c; max_lines := max_lines c;
     free_wagons := free_wagons c; edgelength := edgelength c;
     distmap := distmap c; navmap := navmap c;
     arrived_passengers := arrived_passengers c; nodes := nodes c;
     passengers := v |}.

(** City.__init__ *)
Definition City_init : City :=
  {| time := 0; stations := []; lines := []; trains := [];
     max_trains := 3; max_lines := 3; free_wagons := 0; edgelength := 10;
     distmap := None; navmap := None; arrived_passengers := [];
     nodes := []; passengers := [] |}.

(** ** City._update_navmap *)

Module NavMap.

(** Line.trains, seen from the city: the trains whose [line] is line [l]. *)
Definition trains_of (c : City) (l : line_ref) : list Train :=
  filter (λ t, line t = Some l) (trains c).

(** The directions a train can have on line [l]. *)
Definition directions_of (c : City) (l : line_ref) (ln : Line) : result (gset Z) :=
  circ ← LineM.is_circular (nodes c) ln;
  if circ : bool then Ok (list_to_set (direction <$> trains_of c l))
  else Ok ({[ -1; 1 ]} : gset Z).

Abbreviation maps := (matrix dist * matrix routes)%type.

(** The two arrays as the initialisation fills them: [inf] off the
    diagonal, 0 on it, and an empty set in every cell. *)
Definition fresh_maps (n : nat) : maps :=
  (foldl (λ d i, mset d i i (Hops 0)) (mfull n Inf) (seq 0 n), mfull n ∅).

(** The initialisation of [distmap] and [navmap].  The cells of [navmap]
    are filled in a loop over [numpy.nditer], which refuses an array
    without elements: in a city without stations the method raises
    ValueError here. *)
Definition init_maps (n : nat) : result maps :=
  if bool_decide (n = 0%nat) then Raise ValueError else Ok (fresh_maps n).

(** One round of [for i in range(len(station_idxs)-1)].  The two stations
    compared are distinct objects whenever both subscripts are in range,
    so each test reduces to the subscripts not raising. *)
Definition connect (c : City) (col : string) (directions : gset Z)
    (s : maps) (i : nat) : result maps :=
  let '(d, nv) := s in
  '(d1, nv1) ←
    (if bool_decide (1 ∈ directions) then
       _ ← index (stations c) (Z.of_nat i);
       _ ← index (stations c) (Z.of_nat (i + 1));
       Ok (mset d i (i + 1) (Hops 1),
           mset nv i (i + 1) ({[ (col, 1) ]} ∪ mget nv i (i + 1)))
     else Ok (d, nv));
  if bool_decide (-1 ∈ directions) then
    _ ← index (stations c) (Z.of_nat (i + 1));
    _ ← index (stations c) (Z.of_nat i);
    Ok (mset d1 (i + 1) i (Hops 1),
        mset nv1 (i + 1) i ({[ (col, -1) ]} ∪ mget nv1 (i + 1) i))
  else Ok (d1, nv1).

(** The body of [for line in self.lines]; [station_idxs] is used for its
    length only, which is that of [line.station_nodes]. *)
Definition connect_line (c : City) (s : maps) (ll : line_ref * Line) : result maps :=
  let '(l, ln) := ll in
  directions ← directions_of c l ln;
  for_each (connect c (color ln) directions)
           (seq 0 (length (station_nodes ln) - 1)) s.

(** The body of [for k, i, j in itertools.product(range(n), repeat=3)]. *)
Definition relax (s : maps) (kij : nat * nat * nat) : maps :=
  let '(d, nv) := s in
  let '(k, i, j) := kij in
  let via := dadd (mget d i k) (mget d k j) in
  let nv1 :=
    if bool_decide (mget d i j = via)
    then mset nv i j (mget nv i j ∪ mget nv i k) else nv in
  if dgtb (mget d i j) via
  then (mset d i j via, mset nv1 i j (mget nv1 i k))
  else (d, nv1).

(** [itertools.product(range(n), repeat=3)]: the last index runs fastest. *)
Definition triples (n : nat) : list (nat * nat * nat) :=
  k ← seq 0 n; i ← seq 0 n; j ← seq 0 n; [(k, i, j)].

(** The two tables [_update_navmap] computes. *)
Definition compute (c : City) : result maps :=
  let n := length (stations c) in
  s0 ← init_maps n;
  s ← for_each (connect_line c) (imap pair (lines c)) s0;
  Ok (foldl relax s (triples n)).

(** City._update_navmap *)
Definition _update_navmap (c : City) : result City :=
  '(d, nv) ← compute c;
  Ok (set_maps d nv c).

End NavMap.

(** ** Access to the objects of a city *)

Definition get_train (c : City) (t : train_ref) : result Train :=
  deref (trains c !! t).
Definition put_train (c : City) (t : train_ref) (tr : Train) : City :=
  set_trains (<[t := tr]> (trains c)) c.
Definition get_station (c : City) (s : station_ref) : result Station :=
  deref (stations c !! s).
Definition put_station (c : City) (s : station_ref) (st : Station) : City :=
  set_stations (<[s := st]> (stations c)) c.
Definition get_line (c : City) (l : line_ref) : result Line :=
  deref (lines c !! l).
Definition get_passenger (c : City) (p : passenger_ref) : result Passenger :=
  deref (passengers c !! p).
Definition put_passenger (c : City) (p : passenger_ref) (x : Passenger) : City :=
  set_passengers (<[p := x]> (passengers c)) c.

(** [x.attr] where [x] may be [None]. *)
Definition attr {A} (o : option A) : result A :=
  match o with Some a => Ok a | None => Raise AttributeError end.

(** [self.station_node.station] of a train, as a station handle. *)
Definition station_of_train (c : City) (tr : Train) : result station_ref :=
  a ← attr (station_node tr);
  nd ← deref (nodes c !! a);
  Ok (station nd).

(** [st.passengers.append(p)] *)
Definition station_append (c : City) (s : station_ref) (p : passenger_ref) : result City :=
  st ← get_station c s;
  Ok (put_station c s (set_station_passengers (station_passengers st ++ [p]) st)).

(** ** Train.py *)

Module TrainM.

(** Train.__init__ *)
Definition init (c : City) : Train :=
  {| capacity := WAGON_CAPACITY; train_passengers := []; state := AT_STATION;
     line := None; direction := FOREWARD; station_node := None;
     train_idx := length (trains c) |}.

(** Train.set_line.  The method returns [False] when the station is not on
    the line and falls off its end (returning [None]) otherwise; the result
    is [Some false] and [None] respectively.  With [station=None] the
    method reads [line.station_node], which no Line has. *)
Definition set_line (c : City) (t : train_ref) (l : option line_ref)
    (st : option station_ref) (dir : Z) : result (City * option bool) :=
  tr ← get_train c t;
  match st with
  | None => Raise AttributeError
  | Some s =>
      l' ← attr l;
      ln ← get_line c l';
      found ← LineM.find_node (nodes c) ln s;
      match found with
      | None => Ok (c, Some false)
      | Some a =>
          Ok (put_train c t
                (set_direction dir
                   (set_line_field (Some l')
                      (set_state AT_STATION
                         (set_station_node (Some a) tr)))), None)
      end
  end.

Definition wagons (tr : Train) : Z := capacity tr `div` WAGON_CAPACITY.

(** Train.add_wagon *)
Definition add_wagon (c : City) (t : train_ref) : result (City * bool) :=
  tr ← get_train c t;
  if bool_decide (MAX_WAGONS ≤ wagons tr) then Ok (c, false)
  else Ok (put_train c t (set_capacity (capacity tr + WAGON_CAPACITY) tr), true).

(** [self.passengers.pop()] *)
Definition pop (ps : list passenger_ref) : result (list passenger_ref * passenger_ref) :=
  match last ps with
  | Some p => Ok (removelast ps, p)
  | None => Raise IndexError
  end.

(** The loop [while len(self.passengers) > self.capacity] of remove_wagon.
    Every round pops one passenger, so [fuel] above the number of
    passengers on board is never used up. *)
Fixpoint evict (fuel : nat) (c : City) (t : train_ref) : result City :=
  tr ← get_train c t;
  if bool_decide (Z.of_nat (length (train_passengers tr)) > capacity tr) then
    match fuel with
    | O => Stuck
    | S fuel' =>
        '(ps, p) ← pop (train_passengers tr);
        let c1 := put_train c t (set_train_passengers ps tr) in
        s ← station_of_train c1 tr;
        c2 ← station_append c1 s p;
        evict fuel' c2 t
    end
  else Ok c.

(** Train.remove_wagon *)
Definition remove_wagon (c : City) (t : train_ref) : result (City * bool) :=
  tr ← get_train c t;
  if bool_decide (wagons tr ≤ 1) then Ok (c, false)
  else
    let tr1 := set_capacity (capacity tr - WAGON_CAPACITY) tr in
    c2 ← evict (S (length (train_passengers tr))) (put_train c t tr1) t;
    Ok (c2, true).

(** Train.move *)
Definition move (c : City) (t : train_ref) : result City :=
  tr ← get_train c t;
  if decide (state tr = AT_STATION) then
    Ok (put_train c t (set_state LEFT_STATION tr))
  else
    l ← attr (line tr);
    ln ← get_line c l;
    '(node, dir) ← LineM.next_station (nodes c) ln (station_node tr) (direction tr);
    Ok (put_train c t
          (set_direction dir (set_station_node node (set_state AT_STATION tr)))).

(** Train.can_enter *)
Definition can_enter (c : City) (tr : Train) (s : station_ref) : result bool :=
  if decide (state tr = AT_STATION) then
    s' ← station_of_train c tr;
    Ok (bool_decide (s' = s)
        && bool_decide (Z.of_nat (length (train_passengers tr)) < capacity tr))
  else Ok false.

(** Train.can_exit *)
Definition can_exit (tr : Train) : bool := bool_decide (state tr = AT_STATION).

End TrainM.

(** ** Random draws

    [numpy.random] is modelled by a list of draws that the code consumes
    from the front; a run that needs more draws than the list holds is
    [Stuck]. *)

Abbreviation draws := (list nat).

(** [numpy.random.choice(self.city.stations)]: raises on an empty list. *)
Definition choice (n : nat) (rnd : draws) : result (station_ref * draws) :=
  if bool_decide (n = 0%nat) then Raise ValueError
  else match rnd with
       | [] => Stuck
       | r :: rest => Ok ((r `mod` n)%nat, rest)
       end.

(** [numpy.random.randint(low, high, 2)]: two integers of
    [low .. high - 1]; raises when there is none. *)
Definition randint2 (low high : Z) (rnd : draws) : result (Z * Z * draws) :=
  if bool_decide (high ≤ low) then Raise ValueError
  else match rnd with
       | r1 :: r2 :: rest =>
           Ok (low + Z.of_nat r1 `mod` (high - low),
               low + Z.of_nat r2 `mod` (high - low), rest)
       | _ => Stuck
       end.

(** [numpy.random.poisson(self.avgrate)]: any count can come out. *)
Definition poisson (rnd : draws) : result (nat * draws) :=
  match rnd with
  | [] => Stuck
  | r :: rest => Ok (r, rest)
  end.

(** ** Passenger.py *)

Module PassengerM.

(** The loop [while destination != origin: destination = choice(...)] of
    the constructor; [cur] is [None] before the first draw. *)
Fixpoint draw_destination (fuel : nat) (n : nat) (orig : station_ref)
    (cur : option station_ref) (rnd : draws) : result (station_ref * draws) :=
  match cur with
  | Some d =>
      if bool_decide (d ≠ orig) then
        match fuel with
        | O => Stuck
        | S fuel' =>
            '(d', rnd') ← choice n rnd;
            draw_destination fuel' n orig (Some d') rnd'
        end
      else Ok (d, rnd)
  | None =>
      match fuel with
      | O => Stuck
      | S fuel' =>
          '(d', rnd') ← choice n rnd;
          draw_destination fuel' n orig (Some d') rnd'
      end
  end.

(** Passenger.__init__ *)
Definition init (c : City) (orig dest : option station_ref) (rnd : draws)
    : result (Passenger * draws) :=
  let n := length (stations c) in
  '(o, rnd1) ← (match orig with
                | None => choice n rnd
                | Some o => Ok (o, rnd)
                end);
  '(d, rnd2) ← (match dest with
                | None => draw_destination (S (length rnd1)) n o None rnd1
                | Some d => Ok (d, rnd1)
                end);
  (* the history line reads origin.idx and destination.idx *)
  _ ← get_station c o;
  _ ← get_station c d;
  Ok ({| starttime := time c; origin := o; destination := d;
         position := AtStation o |}, rnd2).

(** Passenger.navigate_step_to *)
Definition navigate_step_to (c : City) (p : Passenger) (s : station_ref)
    : result routes :=
  to ← get_station c s;
  match position p with
  | OnTrain t =>
      tr ← get_train c t;
      at_ ← station_of_train c tr;
      from ← get_station c at_;
      match navmap c with
      | None => Raise TypeError
      | Some nv => mget_checked nv (station_idx from) (station_idx to)
      end
  | AtStation s0 =>
      from ← get_station c s0;
      match navmap c with
      | None => Raise TypeError
      | Some nv => mget_checked nv (station_idx from) (station_idx to)
      end
  end.

(** [(t.line.color, t.direction)] *)
Definition heading (c : City) (tr : Train) : result (string * Z) :=
  l ← attr (line tr);
  ln ← get_line c l;
  Ok (color ln, direction tr).

(** First part of Passenger.move: on a train, get off when the train does
    not head for the destination and is at a station. *)
Definition alight (c : City) (p : passenger_ref) : result City :=
  x ← get_passenger c p;
  match position x with
  | AtStation _ => Ok c
  | OnTrain t =>
      tr ← get_train c t;
      hd ← heading c tr;
      opts ← navigate_step_to c x (destination x);
      if bool_decide (hd ∉ opts) && TrainM.can_exit tr then
        ps ← Py.remove p (train_passengers tr);
        let c1 := put_train c t (set_train_passengers ps tr) in
        tr1 ← get_train c1 t;
        s ← station_of_train c1 tr1;
        c2 ← station_append c1 s p;
        Ok (put_passenger c2 p (set_position (AtStation s) x))
      else Ok c
  end.

(** Second part: on a station, board the first train that can be entered
    here and heads for the destination.  The list of candidate trains is
    built in full before the loop starts. *)
Definition board (c : City) (p : passenger_ref) : result City :=
  x ← get_passenger c p;
  match position x with
  | OnTrain _ => Ok c
  | AtStation s =>
      candidates ←
        filter_m (λ t, tr ← get_train c t;
                       ok ← TrainM.can_enter c tr s;
                       if ok : bool then
                         hd ← heading c tr;
                         opts ← navigate_step_to c x (destination x);
                         Ok (bool_decide (hd ∈ opts))
                       else Ok false)
                 (seq 0 (length (trains c)));
      match candidates with
      | [] => Ok c
      | t :: _ =>
          st ← get_station c s;
          ps ← Py.remove p (station_passengers st);
          let c1 := put_station c s (set_station_passengers ps st) in
          tr ← get_train c1 t;
          let c2 := put_train c1 t
                      (set_train_passengers (train_passengers tr ++ [p]) tr) in
          Ok (put_passenger c2 p (set_position (OnTrain t) x))
      end
  end.

(** City.passenger_arrived *)
Definition passenger_arrived (c : City) (x : Passenger) : City :=
  set_arrived_passengers (arrived_passengers c ++ [time c - starttime x]) c.

(** Third part: at the destination, report the arrival and leave the
    station's list. *)
Definition arrive (c : City) (p : passenger_ref) : result City :=
  x ← get_passenger c p;
  if decide (position x = AtStation (destination x)) then
    let c1 := passenger_arrived c x in
    st ← get_station c1 (destination x);
    ps ← Py.remove p (station_passengers st);
    Ok (put_station c1 (destination x) (set_station_passengers ps st))
  else Ok c.

(** Passenger.move *)
Definition move (c : City) (p : passenger_ref) : result City :=
  c1 ← alight c p;
  c2 ← board c1 p;
  arrive c2 p.

End PassengerM.

(** ** Station.py *)

Module StationM.

(** The loop [dest = self; while dest == self: dest = choice(...)]. *)
Fixpoint draw_other (fuel : nat) (n : nat) (self dest : station_ref)
    (rnd : draws) : result (station_ref * draws) :=
  if bool_decide (dest = self) then
    match fuel with
    | O => Stuck
    | S fuel' =>
        '(d', rnd') ← choice n rnd;
        draw_other fuel' n self d' rnd'
    end
  else Ok (dest, rnd).

(** One round of the [for] loop of spawn_passengers. *)
Definition spawn_one (s : station_ref) (cr : City * draws) (_ : nat)
    : result (City * draws) :=
  let '(c, rnd) := cr in
  '(dest, rnd1) ← draw_other (S (length rnd)) (length (stations c)) s s rnd;
  '(x, rnd2) ← PassengerM.init c (Some s) (Some dest) rnd1;
  let p := length (passengers c) in
  let c1 := set_passengers (passengers c ++ [x]) c in
  c2 ← station_append c1 s p;
  Ok (c2, rnd2).

(** Station.spawn_passengers *)
Definition spawn_passengers (cr : City * draws) (s : station_ref)
    : result (City * draws) :=
  let '(c, rnd) := cr in
  '(k, rnd1) ← poisson rnd;
  for_each (spawn_one s) (seq 0 k) (c, rnd1).

End StationM.

(** ** Python's [sorted(l, key=...)]

    [sorted] is a stable sort: the result is ordered by key and elements
    with equal keys keep their order.  Insertion from the right, placing an
    element in front of the first one whose key is not smaller, is such a
    sort. *)

Section Sorted.
Context {A : Type} (key : A → Z).

Fixpoint insert_by (x : A) (l : list A) : list A :=
  match l with
  | [] => [x]
  | y :: l' => if bool_decide (key x ≤ key y) then x :: y :: l'
               else y :: insert_by x l'
  end.

Definition sorted (l : list A) : list A := foldr insert_by [] l.
End Sorted.

(** ** City.py *)

(** The colours [sorted(ImageColor.colormap)[9:35:2]] as listed in the
    docstring of class Line (the colour table itself belongs to the imaging
    library). *)
Definition palette : list string :=
  [ "blue"; "brown"; "cadetblue"; "chocolate"; "cornflowerblue"; "crimson";
    "darkblue"; "darkgoldenrod"; "darkgreen"; "darkkhaki"; "darkolivegreen";
    "darkorchid"; "darksalmon" ]%string.

Module CityM.

(** [x in self.lines], [x in self.trains], [x in self.stations]: every
    object of a kind was appended to the city's list when it was made, so
    membership is the handle being that of an existing entry. *)
Definition known {A} (l : list A) (o : option nat) : bool :=
  match o with
  | Some i => bool_decide (is_Some (l !! i))
  | None => false
  end.

(** City._random_position *)
Definition _random_position (c : City) (rnd : draws) : result (Z * Z * draws) :=
  randint2 ((- edgelength c) `div` 2) (edgelength c `div` 2) rnd.

(** The loop [while tuple(pos) in stations_pos: pos =
    self._random_position()] of add_station.  Every round takes draws, so
    [fuel] above the number of draws left is never used up; with the
    draws used up before a free position comes the run is [Stuck]. *)
Fixpoint free_position (fuel : nat) (c : City) (stations_pos : list (Z * Z))
    (pos : Z * Z) (rnd : draws) : result (Z * Z * draws) :=
  if bool_decide (pos ∈ stations_pos) then
    match fuel with
    | O => Stuck
    | S fuel' =>
        '(pos', rnd') ← _random_position c rnd;
        free_position fuel' c stations_pos pos' rnd'
    end
  else Ok (pos, rnd).

(** City.add_station *)
Definition add_station (c : City) (rnd : draws)
    : result (City * station_ref * draws) :=
  let stations_pos := station_position <$> stations c in
  '(pos0, rnd0) ← _random_position c rnd;
  '(pos, rnd1) ← free_position (S (length rnd0)) c stations_pos pos0 rnd0;
  let s := length (stations c) in
  let c1 := set_stations
              (stations c ++ [{| station_idx := s; station_position := pos;
                                 station_passengers := [] |}]) c in
  c2 ← NavMap._update_navmap c1;
  Ok (c2, s, rnd1).

(** Line.__init__ *)
Definition Line_init (c : City) : result Line :=
  col ← index palette (Z.of_nat (length (lines c)));
  Ok {| color := col; station_nodes := [] |}.

(** City.add_line *)
Definition add_line (c : City) : result (City * option line_ref) :=
  if bool_decide (Z.of_nat (length (lines c)) < max_lines c) then
    ln ← Line_init c;
    Ok (set_lines (lines c ++ [ln]) c, Some (length (lines c)))
  else Ok (c, None).

(** City.clear_line: after the membership test the method reads
    [self.line], an attribute the city does not have. *)
Definition clear_line (c : City) (l : option line_ref) : result (City * bool) :=
  if negb (known (lines c) l) then Ok (c, false)
  else Raise AttributeError.

(** City.add_train *)
Definition add_train (c : City) (l : option line_ref) (st : option station_ref)
    (dir : Z) : result (City * option train_ref) :=
  if bool_decide (Z.of_nat (length (trains c)) < max_trains c) then
    let t := length (trains c) in
    let c1 := set_trains (trains c ++ [TrainM.init c]) c in
    match l with
    | None => Ok (c1, Some t)
    | Some l' =>
        '(c2, _) ← TrainM.set_line c1 t l st dir;
        ln ← get_line c2 l';
        circ ← LineM.is_circular (nodes c2) ln;
        c3 ← (if circ || bool_decide (length (NavMap.trains_of c2 l') = 1%nat)
              then NavMap._update_navmap c2 else Ok c2);
        Ok (c3, Some t)
    end
  else Ok (c, None).

(** City.move_train: the first statement reads [self.city], an attribute
    the city does not have. *)
Definition move_train (c : City) (t : option train_ref) (l : option line_ref)
    (st : option station_ref) (dir : option Z) : result (City * bool) :=
  Raise AttributeError.

(** City.remove_train: after the membership test the method reads
    [train.station], an attribute trains do not have. *)
Definition remove_train (c : City) (t : option train_ref) : result (City * bool) :=
  if negb (known (trains c) t) then Ok (c, false)
  else Raise AttributeError.

(** City.add_wagon: the condition reads [self.city]. *)
Definition add_wagon (c : City) (t : option train_ref) : result (City * bool) :=
  Raise AttributeError.

(** City.remove_wagon: [self.city] is read once the train has dropped a
    wagon. *)
Definition remove_wagon (c : City) (t : option train_ref) : result (City * bool) :=
  t' ← attr t;
  '(c1, ok) ← TrainM.remove_wagon c t';
  if ok : bool then Raise AttributeError else Ok (c1, false).

(** City.add_station_to_line *)
Definition add_station_to_line (c : City) (l : option line_ref)
    (s : option station_ref) (index : Z) : result (City * bool) :=
  match l, s with
  | Some l', Some s' =>
      if negb (known (lines c) l) || negb (known (stations c) s) then Ok (c, false)
      else
        ln ← get_line c l';
        '(h, ln', ok) ← LineM.add_station (nodes c) ln s' index;
        Ok (set_nodes h (set_lines (<[l' := ln']> (lines c)) c), ok)
  | _, _ => Ok (c, false)
  end.

(** City.remove_station_from_line *)
Definition remove_station_from_line (c : City) (l : option line_ref)
    (s : option station_ref) : result (City * bool) :=
  match l with
  | Some l' =>
      if negb (known (lines c) l) then Ok (c, false)
      else
        ln ← get_line c l';
        match s with
        | None => Ok (c, false)
        | Some s' =>
            '(h, ln', ok) ← LineM.remove_station (nodes c) ln s';
            Ok (set_nodes h (set_lines (<[l' := ln']> (lines c)) c), ok)
        end
  | None => Ok (c, false)
  end.

(** City.move_station_in_line: the call to remove_station_from_line passes
    one argument more than the method takes. *)
Definition move_station_in_line (c : City) (l : option line_ref)
    (s : option station_ref) (index : option Z) : result (City * bool) :=
  Raise TypeError.

(** [[p for t in self.trains for p in t.passengers]] *)
Definition on_trains (c : City) : list passenger_ref :=
  t ← trains c; train_passengers t.

(** [[p for s in self.stations for p in s.passengers]] *)
Definition on_stations (c : City) : list passenger_ref :=
  s ← stations c; station_passengers s.

(** [sorted(ps, key=lambda p: p.starttime)] for a list of passenger
    objects: the keys are read off the objects, then the list is sorted. *)
Definition sorted_by_starttime (c : City) (ps : list passenger_ref)
    : result (list passenger_ref) :=
  keyed ← map_m (λ p, x ← get_passenger c p; Ok (starttime x, p)) ps;
  Ok (snd <$> sorted fst keyed).

(** City.all_passengers *)
Definition all_passengers (c : City) : result (list passenger_ref) :=
  riding ← sorted_by_starttime c (on_trains c);
  waiting ← sorted_by_starttime c (on_stations c);
  Ok (riding ++ waiting).

End CityM.

(** ** Simulation.py *)

Module SimulationM.

Definition NEW_STATION_INTERVAL : Z := 50.
Definition CITY_EXPANSION_INTERVAL : Z := 25.

(** [CITY_EXPANSION_RATE = 1.1]: the double nearest to 1.1,
    0x1.199999999999ap+0. *)
Definition CITY_EXPANSION_RATE : spec_float :=
  S754_finite false 4953959590107546 (-52).

(** [int(self.CITY_EXPANSION_RATE * self.city.edgelength)] *)
Definition expanded (edge : Z) : result Z :=
  x ← float_of_int edge;
  int_of_float (float_mul CITY_EXPANSION_RATE x).

(** The tuple [_parse_action] returns for one command, without the list of
    error messages: [(obj_type, obj, action, station, line, direction,
    index, success)].  Objects are given by handle; [obj] is a train, a
    station or a line according to [obj_type]. *)
Record action := {
  obj_type : option string;
  obj : option nat;
  act : option string;
  act_station : option station_ref;
  act_line : option line_ref;
  act_direction : option Z;
  act_index : option Z;
  success : bool;
}.

Definition equals (o : option string) (s : string) : bool :=
  bool_decide (o = Some s).

(** The body of [for act in actions['actions']]: the new city and the new
    value of the variable [success] (messages printed are not kept). *)
Definition apply_action (c : City) (a : action) : result (City * bool) :=
  if negb (success a) then Ok (c, false)
  else if equals (obj_type a) "train" && equals (act a) "add" then
    let dir := default 1 (act_direction a) in
    '(c1, t) ← CityM.add_train c (act_line a) (act_station a) dir;
    Ok (c1, bool_decide (is_Some t))
  else if equals (obj_type a) "train" && equals (act a) "remove" then
    '(c1, _) ← CityM.remove_train c (obj a);
    Ok (c1, true)
  else if equals (obj_type a) "train" && equals (act a) "move" then
    '(c1, _) ← CityM.move_train c (obj a) (act_line a) (act_station a)
                 (act_direction a);
    Ok (c1, true)
  else if equals (obj_type a) "train" && equals (act a) "extend" then
    CityM.add_wagon c (obj a)
  else if equals (obj_type a) "train" && equals (act a) "shrink" then
    CityM.remove_wagon c (obj a)
  else if equals (obj_type a) "line" && equals (act a) "add" then
    '(c1, l) ← CityM.add_line c;
    Ok (c1, bool_decide (is_Some l))
  else if equals (obj_type a) "line" && equals (act a) "remove" then
    (* self.city.clear_line() is called without the line *)
    Raise TypeError
  else if equals (obj_type a) "station" && equals (act a) "add" then
    idx ← (match act_index a with
           | Some i => Ok i
           | None => l ← attr (act_line a);
                     ln ← get_line c l;
                     Ok (Z.of_nat (length (station_nodes ln)))
           end);
    CityM.add_station_to_line c (act_line a) (obj a) idx
  else if equals (obj_type a) "station" && equals (act a) "remove" then
    CityM.remove_station_from_line c (act_line a) (obj a)
  else if equals (obj_type a) "station" && equals (act a) "move" then
    CityM.move_station_in_line c (act_line a) (obj a) (act_index a)
  else Ok (c, true).

(** Simulation._process_user_actions; [None] stands for the empty string
    (no actions given). *)
Definition _process_user_actions (c : City) (batch : option (list action))
    : result (City * bool) :=
  match batch with
  | None => Ok (c, true)
  | Some actions =>
      '(c1, ok) ← for_each (λ s a, apply_action s.1 a) actions (c, true);
      c2 ← NavMap._update_navmap c1;
      Ok (c2, ok)
  end.

(** The last loop of simulate_step: [for passenger in
    self.city.all_passengers(): passenger.move()].  The list is built
    once, before the first passenger moves. *)
Definition move_passengers (c : City) : result City :=
  ps ← CityM.all_passengers c;
  for_each PassengerM.move ps c.

(** Simulation.simulate_step (the growth of the spawn rates is left out
    with that attribute). *)
Definition simulate_step (c : City) (rnd : draws) : result (City * draws) :=
  c0 ← (if bool_decide (time c `mod` CITY_EXPANSION_INTERVAL = 0)
        then edge ← expanded (edgelength c); Ok (set_edgelength edge c)
        else Ok c);
  '(c1, rnd0) ← (if bool_decide (time c0 > 0)
                    && bool_decide (time c0 `mod` NEW_STATION_INTERVAL = 0)
                 then '(c', _, rnd') ← CityM.add_station c0 rnd; Ok (c', rnd')
                 else Ok (c0, rnd));
  c2 ← for_each TrainM.move (seq 0 (length (trains c1))) c1;
  '(c3, rnd') ← for_each StationM.spawn_passengers
                  (seq 0 (length (stations c2))) (c2, rnd0);
  c4 ← move_passengers c3;
  Ok (set_time (time c4 + 1) c4, rnd').

End SimulationM.

(** * Properties of the embedded code *)

(** ** Well-formed lines *)

(** Every node of the list is an object of the arena. *)
Definition nodes_valid (h : heap) (ns : list node_ref) : Prop :=
  Forall (λ a, is_Some (h !! a)) ns.

(** The list is an open chain: no node occurs twice, each node's
    [previous_node] is the node before it in the list and its [next_node]
    the node after it, and the two ends hold [None].  This is the shape
    [Line.add_station] builds. *)
Definition linked (h : heap) (ns : list node_ref) : Prop :=
  NoDup ns ∧
  ∀ (i : nat) a, ns !! i = Some a →
    ∃ nd, h !! a = Some nd ∧
          previous_node nd = match i with
                             | O => None
                             | S j => ToNode <$> ns !! j
                             end ∧
          next_node nd = ToNode <$> ns !! S i.

(** The heap once a fresh node for station [s] has been linked into the
    chain [ns] in front of place [k]: the node is allocated with its two
    neighbours, then the node after it and the node before it are pointed
    at it. *)
Definition spliced (h : heap) (ns : list node_ref) (k : nat) (s : station_ref)
    : heap :=
  let a := length h in
  let before := match k with O => None | S j => ns !! j end in
  let after := ns !! k in
  let h1 := h ++ [{| station := s; previous_node := ToNode <$> before;
                     next_node := ToNode <$> after |}] in
  let h2 := match after with
            | Some b => alter (set_previous_node (Some (ToNode a))) b h1
            | None => h1
            end in
  match before with
  | Some b => alter (set_next_node (Some (ToNode a))) b h2
  | None => h2
  end.

(** A line of two stations laid out by [add_station]. *)
Definition two_nodes : heap :=
  [ {| station := 0%nat; previous_node := None; next_node := Some (ToNode 1%nat) |};
    {| station := 1%nat; previous_node := Some (ToNode 0%nat); next_node := None |} ].
Definition two_line : Line := {| color := "blue"; station_nodes := [0; 1]%nat |}.

(** A line of three stations. *)
Definition three_nodes : heap :=
  [ {| station := 0%nat; previous_node := None; next_node := Some (ToNode 1%nat) |};
    {| station := 1%nat; previous_node := Some (ToNode 0%nat); next_node := Some (ToNode 2%nat) |};
    {| station := 2%nat; previous_node := Some (ToNode 1%nat); next_node := None |} ].
Definition three_line : Line := {| color := "blue"; station_nodes := [0; 1; 2]%nat |}.

Definition empty_line : Line := {| color := "blue"; station_nodes := [] |}.

(** The stations along a line, in order (a node missing from the arena
    shows as [None]). *)
Definition station_seq (h : heap) (ns : list node_ref) : list (option station_ref) :=
  (λ a, station <$> h !! a) <$> ns.

Definition on_line (h : heap) (l : Line) (s : station_ref) : Prop :=
  Some s ∈ station_seq h (station_nodes l).

(** Where [insert(station, position)] puts the new node for a position in
    [0 .. length] or the append value [-1]. *)
Definition insertion_point (l : Line) (position : Z) : nat :=
  if bool_decide (position = -1) then length (station_nodes l)
  else Z.to_nat position.

(** [n] stations with no one waiting. *)
Definition quiet_stations (n : nat) : list Station :=
  (λ i, {| station_idx := i; station_position := (Z.of_nat i, 0);
           station_passengers := [] |}) <$> seq 0 n.

(** A fresh train put on line 0 at node [a], heading [dir]. *)
Definition train_at (a : node_ref) (dir : Z) : Train :=
  {| capacity := WAGON_CAPACITY; train_passengers := []; state := AT_STATION;
     line := Some 0%nat; direction := dir; station_node := Some a;
     train_idx := 0 |}.

(** Stations 0-1-2 on one open line, one train at station 0 heading +1. *)
Definition city_abc : City :=
  {| time := 0; stations := quiet_stations 3; lines := [three_line];
     trains := [train_at 0 1]; max_trains := 3; max_lines := 3;
     free_wagons := 0; edgelength := 10; distmap := None; navmap := None;
     arrived_passengers := []; nodes := three_nodes; passengers := [] |}.

(** Where train 0 is after [k] calls of [Train.move]:
    (state, station node, direction). *)
Definition train_after (k : nat) (c : City)
    : result (train_state * option node_ref * Z) :=
  c' ← for_each (λ c _, TrainM.move c 0%nat) (seq 0 k) c;
  tr ← get_train c' 0%nat;
  Ok (state tr, station_node tr, direction tr).

(** ** The navigation map *)

(** An [n] by [n] array. *)
Definition square {A} (n : nat) (m : matrix A) : Prop :=
  length m = n ∧ Forall (λ row, length row = n) m.

(** The smaller of two distances. *)
Definition dmin (a b : dist) : dist := if dgtb a b then b else a.

(** The distance half of [NavMap.relax]: the distances never depend on the
    route sets. *)
Definition relax_dist (d : matrix dist) (kij : nat * nat * nat) : matrix dist :=
  let '(k, i, j) := kij in
  let via := dadd (mget d i k) (mget d k j) in
  if dgtb (mget d i j) via then mset d i j via else d.

(** The lines of the city are laid out over existing nodes and none has more
    nodes than the city has stations (a station is on a line at most once). *)
Definition lines_fit (c : City) : Prop :=
  Forall (λ ln, nodes_valid (nodes c) (station_nodes ln) ∧
                (length (station_nodes ln) ≤ length (stations c))%nat) (lines c).

(** The index pairs of one sweep over the array, row by row. *)
Definition pairs (n : nat) : list (nat * nat) :=
  i ← seq 0 n; j ← seq 0 n; [(i, j)].

(** The value a cell holds after the sweep through midpoint [k]. *)
Definition relaxed (d : matrix dist) (k i j : nat) : dist :=
  dmin (mget d i j) (dadd (mget d i k) (mget d k j)).

(** The array satisfies the triangle inequality through every midpoint below
    [m], and its diagonal is zero. *)
Definition closed_below (n m : nat) (d : matrix dist) : Prop :=
  square n d ∧
  (∀ i, (i < n)%nat → mget d i i = Hops 0) ∧
  (∀ i j k, (i < n)%nat → (j < n)%nat → (k < m)%nat →
            dle (mget d i j) (dadd (mget d i k) (mget d k j))).

(** What every stage of [_update_navmap] keeps true of the two arrays: both
    are [n] by [n], the diagonal holds distance zero and no route option, and
    no other cell holds distance zero. *)
Definition diagonal_clear (n : nat) (s : NavMap.maps) : Prop :=
  square n s.1 ∧ square n s.2 ∧
  (∀ i, (i < n)%nat → mget s.1 i i = Hops 0 ∧ mget s.2 i i = ∅) ∧
  (∀ i j, (i < n)%nat → (j < n)%nat → i ≠ j → mget s.1 i j ≠ Hops 0).

(** Scenario B: four stations on one line whose nodes are linked into a
    ring (the last node's [next_node] is the first node), and one train on
    that line heading +1. *)
Definition ring_nodes : heap :=
  [ {| station := 0%nat; previous_node := Some (ToNode 3%nat); next_node := Some (ToNode 1%nat) |};
    {| station := 1%nat; previous_node := Some (ToNode 0%nat); next_node := Some (ToNode 2%nat) |};
    {| station := 2%nat; previous_node := Some (ToNode 1%nat); next_node := Some (ToNode 3%nat) |};
    {| station := 3%nat; previous_node := Some (ToNode 2%nat); next_node := Some (ToNode 0%nat) |} ].
Definition ring_line : Line := {| color := "blue"; station_nodes := [0; 1; 2; 3]%nat |}.

Definition city_ring : City :=
  {| time := 0; stations := quiet_stations 4; lines := [ring_line];
     trains := [train_at 0 1]; max_trains := 3; max_lines := 3;
     free_wagons := 0; edgelength := 10; distmap := None; navmap := None;
     arrived_passengers := []; nodes := ring_nodes; passengers := [] |}.

(** The distance map the rebuild produces for such a city. *)
Definition ring_distances : matrix dist :=
  [ [Hops 0; Hops 1; Hops 2; Hops 3];
    [Inf;    Hops 0; Hops 1; Hops 2];
    [Inf;    Inf;    Hops 0; Hops 1];
    [Inf;    Inf;    Inf;    Hops 0] ].

(** The same four stations laid out as an open line by [add_station], and
    the nodes once [Line.make_circular] has run on that line. *)
Definition four_nodes : heap :=
  [ {| station := 0%nat; previous_node := None; next_node := Some (ToNode 1%nat) |};
    {| station := 1%nat; previous_node := Some (ToNode 0%nat); next_node := Some (ToNode 2%nat) |};
    {| station := 2%nat; previous_node := Some (ToNode 1%nat); next_node := Some (ToNode 3%nat) |};
    {| station := 3%nat; previous_node := Some (ToNode 2%nat); next_node := None |} ].

Definition made_circular_nodes : heap :=
  [ {| station := 0%nat; previous_node := Some (ToStation 3%nat); next_node := Some (ToNode 1%nat) |};
    {| station := 1%nat; previous_node := Some (ToNode 0%nat); next_node := Some (ToNode 2%nat) |};
    {| station := 2%nat; previous_node := Some (ToNode 1%nat); next_node := Some (ToNode 3%nat) |};
    {| station := 3%nat; previous_node := Some (ToNode 2%nat); next_node := Some (ToStation 0%nat) |} ].

Definition city_made_circular : City :=
  {| time := 0; stations := quiet_stations 4; lines := [ring_line];
     trains := [train_at 0 1]; max_trains := 3; max_lines := 3;
     free_wagons := 0; edgelength := 10; distmap := None; navmap := None;
     arrived_passengers := []; nodes := made_circular_nodes; passengers := [] |}.

(** The distance map of four stations in a row served in both directions. *)
Definition row_distances : matrix dist :=
  [ [Hops 0; Hops 1; Hops 2; Hops 3];
    [Hops 1; Hops 0; Hops 1; Hops 2];
    [Hops 2; Hops 1; Hops 0; Hops 1];
    [Hops 3; Hops 2; Hops 1; Hops 0] ].

(** ** Trains and passengers *)

(** No train carries more passengers than its capacity. *)
Definition fits (tr : Train) : Prop :=
  Z.of_nat (length (train_passengers tr)) ≤ capacity tr.

Definition within_capacity (c : City) : Prop := Forall fits (trains c).

(** The train stands on a node of the arena whose station exists. *)
Definition placed (c : City) (tr : Train) (s : station_ref) : Prop :=
  ∃ a nd, station_node tr = Some a ∧ nodes c !! a = Some nd ∧ station nd = s ∧
          is_Some (stations c !! s).

(** A train with [w] wagons and the passengers [ps] on board, standing at
    node 0 of line 0. *)
Definition loaded_train (w : Z) (ps : list passenger_ref) : Train :=
  {| capacity := w * WAGON_CAPACITY; train_passengers := ps; state := AT_STATION;
     line := Some 0%nat; direction := 1; station_node := Some 0%nat;
     train_idx := 0 |}.

(** A passenger from station [o] to station [d], now at [pos]. *)
Definition traveller (o d : station_ref) (pos : place) : Passenger :=
  {| starttime := 0; origin := o; destination := d; position := pos |}.

(** Scenario C with one wagon more: stations 0-1-2, a train of two wagons
    at station 0 carrying the eight passengers 0..7 (boarded in that
    order), all bound for station 2. *)
Definition city_full : City :=
  {| time := 5; stations := quiet_stations 3; lines := [three_line];
     trains := [loaded_train 2 (seq 0 8)]; max_trains := 3; max_lines := 3;
     free_wagons := 0; edgelength := 10; distmap := None; navmap := None;
     arrived_passengers := []; nodes := three_nodes;
     passengers := replicate 8 (traveller 1 2 (OnTrain 0)) |}.

(** The train is in service: it stands on a node whose station exists and
    it is assigned to an existing line. *)
Definition deployed (c : City) (tr : Train) : Prop :=
  (∃ s, placed c tr s) ∧ ∃ l ln, line tr = Some l ∧ lines c !! l = Some ln.

(** Every train that stands at a station is in service.  (A train between
    stations is never asked whether it can be boarded.) *)
Definition standing_trains_deployed (c : City) : Prop :=
  Forall (λ tr, state tr = AT_STATION → deployed c tr) (trains c).

(** Every station's [idx] is its place in the city's list, as
    [City.add_station] assigns it. *)
Definition stations_indexed (c : City) : Prop :=
  ∀ s st, stations c !! s = Some st → station_idx st = s.

(** All the places where passengers are held, with multiplicity. *)
Definition held (c : City) : list passenger_ref :=
  CityM.on_trains c ++ CityM.on_stations c.

(** Stations 0-1-2 on one open line; passenger 0, bound for station 2,
    rides the line's train, which stands at station 2 heading -1. *)
Definition city_ride : City :=
  {| time := 9; stations := quiet_stations 3; lines := [three_line];
     trains := [ {| capacity := WAGON_CAPACITY; train_passengers := [0%nat];
                    state := AT_STATION; line := Some 0%nat; direction := -1;
                    station_node := Some 2%nat; train_idx := 0 |} ];
     max_trains := 3; max_lines := 3; free_wagons := 0; edgelength := 10;
     distmap := None; navmap := None; arrived_passengers := [];
     nodes := three_nodes;
     passengers := [ {| starttime := 4; origin := 0%nat; destination := 2%nat;
                        position := OnTrain 0%nat |} ] |}.

(** ** The evaluation order of passengers *)

(** The start time of the passenger a handle stands for. *)
Definition start_of (c : City) (p : passenger_ref) : Z :=
  default 0 (starttime <$> passengers c !! p).

(** Sorted by start time, oldest first. *)
Definition oldest_first (c : City) (l : list passenger_ref) : Prop :=
  StronglySorted (λ p q, start_of c p ≤ start_of c q) l.

(** Passengers with equal start times keep the order they had in [l0]. *)
Definition same_order_among_equals (c : City) (l0 l : list passenger_ref) : Prop :=
  ∀ k, filter (λ p, start_of c p = k) l = filter (λ p, start_of c p = k) l0.

(** Every handle held in a container stands for a passenger. *)
Definition passengers_exist (c : City) : Prop :=
  Forall (λ p, is_Some (passengers c !! p)) (held c).

(** Two passengers ride the train (handles 0 and 1, started at 7 and 3), two
    wait at station 0 (handles 2 and 3, started at 5 and 1). *)
Definition city_mixed : City :=
  {| time := 9;
     stations := [ {| station_idx := 0; station_position := (0, 0);
                      station_passengers := [2; 3]%nat |};
                   {| station_idx := 1; station_position := (1, 0);
                      station_passengers := [] |};
                   {| station_idx := 2; station_position := (2, 0);
                      station_passengers := [] |} ];
     lines := [three_line];
     trains := [ loaded_train 1 [0; 1]%nat ];
     max_trains := 3; max_lines := 3; free_wagons := 0; edgelength := 10;
     distmap := None; navmap := None; arrived_passengers := [];
     nodes := three_nodes;
     passengers :=
       [ {| starttime := 7; origin := 1%nat; destination := 2%nat; position := OnTrain 0%nat |};
         {| starttime := 3; origin := 1%nat; destination := 2%nat; position := OnTrain 0%nat |};
         {| starttime := 5; origin := 0%nat; destination := 2%nat; position := AtStation 0%nat |};
         {| starttime := 1; origin := 0%nat; destination := 2%nat; position := AtStation 0%nat |} ] |}.

(** ** User commands *)

(** What [_parse_action] returns for
    [{"object_type": "line", "object_id": "blue", "action": "remove"}]
    when line 0 is the blue line. *)
Definition clear_blue_line : SimulationM.action :=
  {| SimulationM.obj_type := Some "line"; SimulationM.obj := Some 0%nat;
     SimulationM.act := Some "remove"; SimulationM.act_station := None;
     SimulationM.act_line := None; SimulationM.act_direction := None;
     SimulationM.act_index := None; SimulationM.success := true |}.

(** [{"object_type": "train", "object_id": 0, "action": "move",
      "line": "blue", "station": 1, "direction": 1}] *)
Definition move_train_0 : SimulationM.action :=
  {| SimulationM.obj_type := Some "train"; SimulationM.obj := Some 0%nat;
     SimulationM.act := Some "move"; SimulationM.act_station := Some 1%nat;
     SimulationM.act_line := Some 0%nat; SimulationM.act_direction := Some 1;
     SimulationM.act_index := None; SimulationM.success := true |}.

(** [{"object_type": "train", "action": "add", "line": "blue"}]: a train
    for the blue line, the station left out. *)
Definition add_train_no_station : SimulationM.action :=
  {| SimulationM.obj_type := Some "train"; SimulationM.obj := None;
     SimulationM.act := Some "add"; SimulationM.act_station := None;
     SimulationM.act_line := Some 0%nat; SimulationM.act_direction := None;
     SimulationM.act_index := None; SimulationM.success := true |}.


(** * Further parts of the program *)

(** ** City.py: the lookup tables *)

(** [{key(x): x for x in l}]: the objects are stored by handle, which is
    their place in the list; a key met twice keeps the later object. *)
Definition dict_of {K} `{Countable K} {A} (key : A → K) (l : list A) : gmap K nat :=
  foldl (λ m ix, <[key ix.2 := ix.1]> m) ∅ (imap pair l).

(** City.station_ids *)
Definition station_ids (c : City) : gmap nat station_ref :=
  dict_of station_idx (stations c).

(** City.line_colors *)
Definition line_colors (c : City) : gmap string line_ref :=
  dict_of color (lines c).

(** City.train_ids *)
Definition train_ids (c : City) : gmap nat train_ref :=
  dict_of train_idx (trains c).

(** ** Simulation.py: the end of the simulation *)

Definition MAX_WAITING_TIME : Z := 25.

(** Simulation.continue_simulation.  The list of waiting times is built
    first; [max] is only taken of a list that is not empty. *)
Definition continue_simulation (c : City) (max_iterations : Z) : result bool :=
  ps ← CityM.all_passengers c;
  waiting_times ← map_m (λ p, x ← get_passenger c p; Ok (time c - starttime x)) ps;
  Ok (bool_decide (time c < max_iterations)
      && (bool_decide (length waiting_times = 0%nat)
          || match waiting_times with
             | [] => false
             | w :: ws => bool_decide (foldl Z.max w ws < MAX_WAITING_TIME)
             end)).

(** Simulation.initialize_simulation: the new city and the list
    [new_stations], which the constructor left empty. *)
Definition initialize_simulation (rnd : draws)
    : result (City * list station_ref * draws) :=
  for_each (λ (st : City * list station_ref * draws) _,
              let '(c, new_stations, r) := st in
              '(c', s, r') ← CityM.add_station c r;
              Ok (c', new_stations ++ [s], r'))
           (seq 0 5) (City_init, [], rnd).

(** * Further statements *)

(** ** Lines *)

(** The heap once the node at place [i] of the chain [ns] has been
    unhooked: the node before it is pointed at the node after it, and the
    node after it at the node before it. *)
Definition unspliced (h : heap) (ns : list node_ref) (i : nat) : heap :=
  let before := match i with O => None | S j => ns !! j end in
  let after := ns !! S i in
  let h1 := match before with
            | Some b => alter (set_next_node (ToNode <$> after)) b h
            | None => h
            end in
  match after with
  | Some b => alter (set_previous_node (ToNode <$> before)) b h1
  | None => h1
  end.

(** The first place of the line where station [s] is found. *)
Definition first_at (h : heap) (ns : list node_ref) (s : station_ref) (i : nat) : Prop :=
  station_seq h ns !! i = Some (Some s) ∧
  ∀ j, (j < i)%nat → station_seq h ns !! j ≠ Some (Some s).

(** ** Trains *)

(** Train [tr] rides line [ln] and stands at (or last left) the node at
    place [i] of it, and its direction does not point off the end of the
    line: heading +1 there is a node after place [i], heading -1 there is
    one before it.  On a line of a single node any direction will do. *)
Definition rides (c : City) (tr : Train) (ln : Line) (i : nat) : Prop :=
  (∃ l, line tr = Some l ∧ lines c !! l = Some ln) ∧
  linked (nodes c) (station_nodes ln) ∧
  (∃ a, station_node tr = Some a ∧ station_nodes ln !! i = Some a) ∧
  (length (station_nodes ln) = 1%nat
   ∨ (direction tr = 1 ∧ (S i < length (station_nodes ln))%nat)
   ∨ (direction tr = -1 ∧ (0 < i)%nat)).

Definition on_track (c : City) (tr : Train) : Prop := ∃ ln i, rides c tr ln i.

(** The place a train at place [i] of a line of [n] nodes arrives at next,
    and the direction it has on arrival. *)
Definition ahead (n i : nat) (dir : Z) : nat * Z :=
  if bool_decide (n = 1%nat) then (i, dir)
  else if bool_decide (dir = 1) then
    (S i, if bool_decide (S (S i) = n) then -1 else 1)
  else (pred i, if bool_decide (pred i = 0%nat) then 1 else -1).

(** The number of wagons is between 1 and [MAX_WAGONS] and the capacity is
    that many times [WAGON_CAPACITY]. *)
Definition well_sized (tr : Train) : Prop :=
  ∃ w, 1 ≤ w ≤ MAX_WAGONS ∧ capacity tr = w * WAGON_CAPACITY.

(** The train [City.add_train] leaves in the city when it has put a new
    train on line [l] at node [a], heading [dir]. *)
Definition commissioned (c : City) (l : line_ref) (a : node_ref) (dir : Z) : Train :=
  {| capacity := WAGON_CAPACITY; train_passengers := []; state := AT_STATION;
     line := Some l; direction := dir; station_node := Some a;
     train_idx := length (trains c) |}.

(** City [c'] has the stations, lines, nodes, passengers and clock of
    [c]. *)
Definition same_network (c c' : City) : Prop :=
  stations c' = stations c ∧ lines c' = lines c ∧ nodes c' = nodes c ∧
  passengers c' = passengers c ∧ time c' = time c.

(** ** The navigation map *)

(** Wherever the distance between two different stations is finite there is
    a route option, and every route option names a line of the city and a
    direction. *)
Definition routed (n : nat) (c : City) (s : NavMap.maps) : Prop :=
  (∀ i j, (i < n)%nat → (j < n)%nat → i ≠ j →
          mget s.1 i j ≠ Inf → mget s.2 i j ≠ ∅) ∧
  (∀ i j o, (i < n)%nat → (j < n)%nat → o ∈ mget s.2 i j →
            (∃ ln, ln ∈ lines c ∧ o.1 = color ln) ∧ (o.2 = 1 ∨ o.2 = -1)).

Definition symmetric (n : nat) (d : matrix dist) : Prop :=
  ∀ i j, (i < n)%nat → (j < n)%nat → mget d i j = mget d j i.

(** No station from place [m] on is at a finite distance from another
    one. *)
Definition cut_off (n m : nat) (d : matrix dist) : Prop :=
  ∀ i j, (i < n)%nat → (j < n)%nat → i ≠ j → (m ≤ i)%nat ∨ (m ≤ j)%nat →
         mget d i j = Inf.

(** Two cities that [_update_navmap] cannot tell apart: as many stations,
    the same trains, and lines that agree one by one in colour, number of
    nodes and circularity. *)
Definition same_layout (c1 c2 : City) : Prop :=
  length (stations c1) = length (stations c2) ∧
  trains c1 = trains c2 ∧
  Forall2 (λ ln1 ln2, color ln1 = color ln2
                      ∧ length (station_nodes ln1) = length (station_nodes ln2)
                      ∧ LineM.is_circular (nodes c1) ln1
                        = LineM.is_circular (nodes c2) ln2)
          (lines c1) (lines c2).

(** Stations 0-1-2 on one open line and a fourth station, 3, on none. *)
Definition city_outpost : City := set_stations (quiet_stations 4) city_abc.

(** The line of [city_abc] with its three nodes holding the stations 2, 0
    and 1, in that order. *)
Definition shuffled_nodes : heap :=
  [ {| station := 2%nat; previous_node := None; next_node := Some (ToNode 1%nat) |};
    {| station := 0%nat; previous_node := Some (ToNode 0%nat); next_node := Some (ToNode 2%nat) |};
    {| station := 1%nat; previous_node := Some (ToNode 1%nat); next_node := None |} ].

(** ** Passengers *)

(** The passengers the city has accounted for: those held by a train or a
    station, and those whose arrival has been recorded. *)
Definition accounted (c : City) : nat :=
  (length (held c) + length (arrived_passengers c))%nat.

(** The start times of the passenger objects, in the order of their
    creation. *)
Definition start_times (c : City) : list Z := starttime <$> passengers c.

(** What a step of Passenger.move leaves alone. *)
Definition steady (c c' : City) : Prop :=
  time c' = time c ∧ lines c' = lines c ∧ nodes c' = nodes c ∧
  navmap c' = navmap c ∧ distmap c' = distmap c ∧
  length (trains c') = length (trains c) ∧
  length (stations c') = length (stations c) ∧
  start_times c' = start_times c.

(** [city_ride] with maps in place in which no route option is known:
    passenger 0 rides the train, which stands at the passenger's
    destination. *)
Definition city_arriving : City := set_maps (mfull 3 Inf) (mfull 3 ∅) city_ride.

(** City [c] is city [c0] later in the same tick: same clock, lines, nodes
    and numbers of trains and stations; [k] passengers have been created
    since, all with the start time [time c0], and the passengers accounted
    for are [k] more. *)
Definition grown (c0 c : City) (k : nat) : Prop :=
  time c = time c0 ∧ lines c = lines c0 ∧ nodes c = nodes c0 ∧
  length (trains c) = length (trains c0) ∧
  length (stations c) = length (stations c0) ∧
  start_times c = start_times c0 ++ replicate k (time c0) ∧
  accounted c = (accounted c0 + k)%nat.

(** Train [tr] can take passenger [x] waiting at station [s]: it stands at
    that station with a free place, and its line and direction are a route
    option from there to the passenger's destination. *)
Definition takes (c : City) (x : Passenger) (s : station_ref) (tr : Train) : Prop :=
  state tr = AT_STATION ∧ station_of_train c tr = Ok s ∧
  Z.of_nat (length (train_passengers tr)) < capacity tr ∧
  ∃ hd opts, PassengerM.heading c tr = Ok hd
             ∧ PassengerM.navigate_step_to c x (destination x) = Ok opts
             ∧ hd ∈ opts.

(** Passenger 0 waits at station 0 for station 2; train 0 stands at station
    1 and train 1 at station 0, both heading +1 on the blue line, and the
    map knows the blue line heading +1 as the way from 0 to 2. *)
Definition city_boarding : City :=
  {| time := 3;
     stations := [ {| station_idx := 0; station_position := (0, 0);
                      station_passengers := [0%nat] |};
                   {| station_idx := 1; station_position := (1, 0);
                      station_passengers := [] |};
                   {| station_idx := 2; station_position := (2, 0);
                      station_passengers := [] |} ];
     lines := [three_line];
     trains := [train_at 1 1; train_at 0 1];
     max_trains := 3; max_lines := 3; free_wagons := 0; edgelength := 10;
     distmap := Some (mfull 3 Inf);
     navmap := Some (mset (mfull 3 ∅) 0 2 {[ ("blue"%string, 1) ]});
     arrived_passengers := []; nodes := three_nodes;
     passengers := [ {| starttime := 2; origin := 0%nat; destination := 2%nat;
                        position := AtStation 0%nat |} ] |}.

(** ** The city *)

(** Trains carry their place in the city's list as their id, and lines the
    colour the palette has at their place. *)
Definition trains_indexed (c : City) : Prop :=
  ∀ t tr, trains c !! t = Some tr → train_idx tr = t.

Definition colours_in_order (c : City) : Prop :=
  ∀ l ln, lines c !! l = Some ln → palette !! l = Some (color ln).

(** Every object carries its key of creation. *)
Definition catalogued (c : City) : Prop :=
  stations_indexed c ∧ trains_indexed c ∧ colours_in_order c.

(** The key [k] is found at place [i] of the list and at no later place. *)
Definition last_with {K A} (key : A → K) (l : list A) (k : K) (i : nat) : Prop :=
  (∃ a, l !! i = Some a ∧ key a = k) ∧
  ∀ j b, (i < j)%nat → l !! j = Some b → key b ≠ k.

(** The network as the city's own methods lay it out: every line is an open
    chain of nodes that hold different stations of the city, and no node is
    on two lines. *)
Definition well_laid (c : City) : Prop :=
  (∀ l ln, lines c !! l = Some ln →
     linked (nodes c) (station_nodes ln)
     ∧ NoDup (station_seq (nodes c) (station_nodes ln))
     ∧ ∀ s, on_line (nodes c) ln s → (s < length (stations c))%nat)
  ∧ (∀ l1 l2 ln1 ln2 a, lines c !! l1 = Some ln1 → lines c !! l2 = Some ln2 →
       a ∈ station_nodes ln1 → a ∈ station_nodes ln2 → l1 = l2).

(** The stations stand at different positions. *)
Definition spread (c : City) : Prop := NoDup (station_position <$> stations c).

(** Position [pos] lies in the city square, whose side runs from
    [-edgelength // 2] up to, but not including, [edgelength // 2]. *)
Definition in_square (c : City) (pos : Z * Z) : Prop :=
  (- edgelength c) `div` 2 ≤ pos.1 < edgelength c `div` 2 ∧
  (- edgelength c) `div` 2 ≤ pos.2 < edgelength c `div` 2.

(** Every position of the city square holds a station. *)
Definition square_full (c : City) : Prop :=
  ∀ pos, in_square c pos → pos ∈ station_position <$> stations c.

(** The city with a new last station at [pos]. *)
Definition with_station (c : City) (pos : Z * Z) : City :=
  set_stations
    (stations c ++ [{| station_idx := length (stations c);
                       station_position := pos; station_passengers := [] |}]) c.

(** The time a passenger has been under way. *)
Definition waited (c : City) (p : passenger_ref) : Z := time c - start_of c p.

(** A parsed command without station, direction or index. *)
Definition command (ty a : string) (o : option nat) (l : option line_ref)
    : SimulationM.action :=
  {| SimulationM.obj_type := Some ty; SimulationM.obj := o;
     SimulationM.act := Some a; SimulationM.act_station := None;
     SimulationM.act_line := l; SimulationM.act_direction := None;
     SimulationM.act_index := None; SimulationM.success := true |}.

(** Put station 3 at the end of line 0, take station 1 off it, open a second
    line. *)
Definition batch_outpost : list SimulationM.action :=
  [ command "station" "add" (Some 3%nat) (Some 0%nat);
    command "station" "remove" (Some 1%nat) (Some 0%nat);
    command "line" "add" None None ].

(** A command the parser has rejected. *)
Definition rejected : SimulationM.action :=
  {| SimulationM.obj_type := None; SimulationM.obj := None;
     SimulationM.act := None; SimulationM.act_station := None;
     SimulationM.act_line := None; SimulationM.act_direction := None;
     SimulationM.act_index := None; SimulationM.success := false |}.

(** A city whose square has one position, taken by its only station. *)
Definition city_tiny : City :=
  set_edgelength 1 (with_station City_init (-1, -1)).

(** * Proofs *)

(** ** The result monad and Python lists *)

Lemma bind_Ok {A B} (m : result A) (f : A → result B) (b : B) :
  (m ≫= f) = Ok b → ∃ a, m = Ok a ∧ f a = Ok b.
Proof. destruct m; simpl; intros; try discriminate. eauto. Qed.

Lemma index_nat {A} (l : list A) (i : nat) x :
  l !! i = Some x → index l (Z.of_nat i) = Ok x.
Proof.
  intros Hi. pose proof (lookup_lt_Some _ _ _ Hi) as Hlt.
  unfold index. case_bool_decide; [|lia].
  by rewrite Nat2Z.id, Hi.
Qed.

Lemma index_head {A} (l : list A) x : l !! 0%nat = Some x → index l 0 = Ok x.
Proof. apply (index_nat l 0). Qed.

Lemma index_back {A} (l : list A) (k : nat) x :
  (0 < k ≤ length l)%nat → l !! (length l - k)%nat = Some x →
  index l (- Z.of_nat k) = Ok x.
Proof.
  intros Hk Hi. pose proof (lookup_lt_Some _ _ _ Hi) as Hlt.
  unfold index. repeat case_bool_decide; try lia.
  replace (Z.to_nat (Z.of_nat (length l) + - Z.of_nat k)) with (length l - k)%nat by lia.
  by rewrite Hi.
Qed.

Lemma index_last {A} (l : list A) x : last l = Some x → index l (-1) = Ok x.
Proof.
  intros Hl. rewrite last_lookup in Hl.
  pose proof (lookup_lt_Some _ _ _ Hl).
  apply (index_back l 1); [lia|]. by replace (length l - 1)%nat with (pred (length l)) by lia.
Qed.

Lemma index_out {A} (l : list A) (i : Z) :
  ¬ (- Z.of_nat (length l) ≤ i < Z.of_nat (length l)) → index l i = Raise IndexError.
Proof.
  intros Hi. unfold index.
  repeat case_bool_decide; try lia. done.
Qed.

Lemma update_node_Ok h a f nd :
  h !! a = Some nd → update_node h a f = Ok (<[a := f nd]> h).
Proof. intros Ha. unfold update_node. by rewrite Ha. Qed.

(** ** Line.make_circular and Line.is_circular *)

Section Circular.
Variables (h : heap) (l : Line).
Hypothesis Hlen : (2 ≤ length (station_nodes l))%nat.
Hypothesis Hvalid : nodes_valid h (station_nodes l).

Lemma ends_exist :
  ∃ a b fnd lnd,
    station_nodes l !! 0%nat = Some a ∧ last (station_nodes l) = Some b ∧
    h !! a = Some fnd ∧ h !! b = Some lnd.
Proof.
  destruct (station_nodes l) as [|a ns] eqn:E; [simpl in Hlen; lia|].
  destruct (last (a :: ns)) as [b|] eqn:Hb.
  2:{ apply last_None in Hb. discriminate. }
  pose proof Hb as Hin. rewrite last_lookup in Hin.
  apply list_elem_of_lookup_2 in Hin.
  unfold nodes_valid in Hvalid. rewrite Forall_forall in Hvalid.
  destruct (Hvalid a) as [fnd Hf]; [left|].
  destruct (Hvalid b Hin) as [lnd Hl].
  by exists a, b, fnd, lnd.
Qed.

Lemma make_circular_links_stations :
  ∃ h', LineM.make_circular h l = Ok h' ∧ LineM.is_circular h' l = Ok false.
Proof.
  destruct ends_exist as (a & b & fnd & lnd & Hf & Hl & Hhf & Hhl).
  pose proof (index_head _ _ Hf) as If. pose proof (index_last _ _ Hl) as Il.
  set (h1 := <[a := set_previous_node (Some (ToStation (station lnd))) fnd]> h).
  assert (∃ fnd1, h1 !! a = Some fnd1) as [fnd1 Hf1].
  { apply lookup_lt_is_Some. unfold h1. rewrite length_insert.
    by apply lookup_lt_Some in Hhf. }
  assert (∃ lnd1, h1 !! b = Some lnd1) as [lnd1 Hl1].
  { apply lookup_lt_is_Some. unfold h1. rewrite length_insert.
    by apply lookup_lt_Some in Hhl. }
  eexists. split.
  - unfold LineM.make_circular. rewrite Il, If. simpl.
    rewrite Hhl. simpl. rewrite (update_node_Ok _ _ _ _ Hhf). simpl.
    fold h1. rewrite Hf1. simpl. by rewrite (update_node_Ok _ _ _ _ Hl1).
  - unfold LineM.is_circular. rewrite bool_decide_eq_false_2 by lia.
    rewrite If, Il. simpl.
    rewrite list_lookup_insert_eq by (by apply lookup_lt_Some in Hl1).
    simpl. first [done | by rewrite bool_decide_eq_false_2].
Qed.

Lemma break_circular_opens :
  ∃ h', LineM.break_circular h l = Ok h' ∧ LineM.is_circular h' l = Ok false.
Proof.
  destruct ends_exist as (a & b & fnd & lnd & Hf & Hl & Hhf & Hhl).
  pose proof (index_head _ _ Hf) as If. pose proof (index_last _ _ Hl) as Il.
  set (h1 := <[a := set_previous_node None fnd]> h).
  assert (∃ lnd1, h1 !! b = Some lnd1) as [lnd1 Hl1].
  { apply lookup_lt_is_Some. unfold h1. rewrite length_insert.
    by apply lookup_lt_Some in Hhl. }
  eexists. split.
  - unfold LineM.break_circular. rewrite If. simpl.
    rewrite (update_node_Ok _ _ _ _ Hhf). simpl. rewrite Il. simpl.
    fold h1. by rewrite (update_node_Ok _ _ _ _ Hl1).
  - unfold LineM.is_circular. rewrite bool_decide_eq_false_2 by lia.
    rewrite If, Il. simpl.
    rewrite list_lookup_insert_eq by (by apply lookup_lt_Some in Hl1).
    simpl. first [done | by rewrite bool_decide_eq_false_2].
Qed.
End Circular.

(** ** Line.next_station on an open chain *)

Section Chain.
Variables (h : heap) (l : Line).
Hypothesis Hlinked : linked h (station_nodes l).

Lemma linked_node i a :
  station_nodes l !! i = Some a →
  ∃ nd, h !! a = Some nd ∧
        previous_node nd = match i with
                           | O => None
                           | S j => ToNode <$> station_nodes l !! j
                           end ∧
        next_node nd = ToNode <$> station_nodes l !! S i.
Proof. destruct Hlinked as [_ H]. apply H. Qed.

Lemma linked_valid : nodes_valid h (station_nodes l).
Proof.
  apply Forall_forall. intros a Ha.
  apply list_elem_of_lookup in Ha as [i Hi].
  destruct (linked_node _ _ Hi) as (nd & Hnd & _). by exists nd.
Qed.

Lemma linked_not_circular : LineM.is_circular h l = Ok false.
Proof.
  unfold LineM.is_circular. case_bool_decide; [done|].
  assert (2 ≤ length (station_nodes l))%nat as Hlen by lia.
  destruct (ends_exist h l Hlen linked_valid)
    as (a & b & fnd & lnd & Hf & Hl & Hhf & Hhl).
  rewrite (index_head _ _ Hf), (index_last _ _ Hl). simpl.
  rewrite last_lookup in Hl.
  destruct (linked_node _ _ Hl) as (nd & Hnd & _ & Hnext).
  rewrite Hnd. simpl. rewrite Hnext.
  rewrite (lookup_ge_None_2 (station_nodes l)) by lia.
  simpl. first [done | by rewrite bool_decide_eq_false_2].
Qed.

Lemma next_station_forward i a b :
  station_nodes l !! i = Some a → station_nodes l !! S i = Some b →
  LineM.next_station h l (Some a) 1
  = Ok (Some b, if bool_decide (S (S i) = length (station_nodes l)) then -1 else 1).
Proof.
  intros Ha Hb. unfold LineM.next_station.
  rewrite bool_decide_eq_false_2.
  2:{ intros Hn. apply Hn. by eapply list_elem_of_lookup_2. }
  pose proof (lookup_lt_Some _ _ _ Hb) as Hlt.
  rewrite bool_decide_eq_false_2 by lia.
  rewrite bool_decide_eq_true_2 by done.
  destruct (linked_node _ _ Ha) as (nd & Hnd & _ & Hnext).
  destruct (linked_node _ _ Hb) as (nd' & Hnd' & _ & Hnext').
  rewrite Hnd. simpl. rewrite Hnext, Hb. simpl. rewrite Hnd'. simpl.
  rewrite Hnext'.
  destruct (station_nodes l !! S (S i)) as [x|] eqn:Hx; simpl.
  - apply lookup_lt_Some in Hx.
    repeat case_bool_decide; simplify_eq; first [done | lia].
  - apply lookup_ge_None in Hx.
    repeat case_bool_decide; simplify_eq; first [done | lia].
Qed.

Lemma next_station_backward i a b :
  station_nodes l !! S i = Some a → station_nodes l !! i = Some b →
  LineM.next_station h l (Some a) (-1)
  = Ok (Some b, if bool_decide (i = 0%nat) then 1 else -1).
Proof.
  intros Ha Hb. unfold LineM.next_station.
  rewrite bool_decide_eq_false_2.
  2:{ intros Hn. apply Hn. by eapply list_elem_of_lookup_2. }
  pose proof (lookup_lt_Some _ _ _ Ha) as Hlt.
  rewrite bool_decide_eq_false_2 by lia.
  rewrite bool_decide_eq_false_2 by done.
  rewrite bool_decide_eq_true_2 by done.
  destruct (linked_node _ _ Ha) as (nd & Hnd & Hprev & _).
  destruct (linked_node _ _ Hb) as (nd' & Hnd' & Hprev' & _).
  rewrite Hnd. simpl. rewrite Hprev, Hb. simpl. rewrite Hnd'. simpl.
  rewrite Hprev'. destruct i as [|j].
  - repeat case_bool_decide; simplify_eq; first [done | lia].
  - destruct (lookup_lt_is_Some_2 (station_nodes l) j) as [x Hx]; [lia|].
    rewrite Hx. simpl.
    repeat case_bool_decide; simplify_eq; first [done | lia].
Qed.

(** At the last node heading +1 the look-ahead reads [next_node] of
    [None]; likewise at the first node heading -1. *)
Lemma next_station_off_the_end a :
  (2 ≤ length (station_nodes l))%nat → last (station_nodes l) = Some a →
  LineM.next_station h l (Some a) 1 = Raise AttributeError.
Proof.
  intros Hlen Ha. rewrite last_lookup in Ha. unfold LineM.next_station.
  rewrite bool_decide_eq_false_2.
  2:{ intros Hn. apply Hn. by eapply list_elem_of_lookup_2. }
  rewrite bool_decide_eq_false_2 by lia.
  rewrite bool_decide_eq_true_2 by done.
  destruct (linked_node _ _ Ha) as (nd & Hnd & _ & Hnext).
  rewrite Hnd. simpl. rewrite Hnext.
  by rewrite lookup_ge_None_2 by lia.
Qed.

Lemma next_station_off_the_start a :
  (2 ≤ length (station_nodes l))%nat → station_nodes l !! 0%nat = Some a →
  LineM.next_station h l (Some a) (-1) = Raise AttributeError.
Proof.
  intros Hlen Ha. unfold LineM.next_station.
  rewrite bool_decide_eq_false_2.
  2:{ intros Hn. apply Hn. by eapply list_elem_of_lookup_2. }
  rewrite bool_decide_eq_false_2 by lia.
  rewrite bool_decide_eq_false_2 by done.
  rewrite bool_decide_eq_true_2 by done.
  destruct (linked_node _ _ Ha) as (nd & Hnd & Hprev & _).
  rewrite Hnd. simpl. by rewrite Hprev.
Qed.
End Chain.

(** ** Line.add_station *)

Lemma stations_of_seq h l :
  nodes_valid h (station_nodes l) →
  ∃ ss, LineM.stations_of h l = Ok ss ∧ station_seq h (station_nodes l) = Some <$> ss.
Proof.
  unfold LineM.stations_of, station_seq, nodes_valid.
  induction (station_nodes l) as [|a ns IH]; intros Hv.
  - by exists [].
  - apply Forall_cons in Hv as [[nd Hnd] Hv].
    destruct (IH Hv) as (ss & Hss & Heq).
    exists (station nd :: ss). split.
    + simpl. rewrite Hnd. simpl. by rewrite Hss.
    + rewrite !fmap_cons, Hnd. simpl. by rewrite Heq.
Qed.

Lemma station_seq_update h ns a nd nd' :
  h !! a = Some nd → station nd' = station nd →
  station_seq (<[a := nd']> h) ns = station_seq h ns.
Proof.
  intros Ha Hst. unfold station_seq. apply map_ext. intros b.
  destruct (decide (a = b)) as [->|Hne].
  - rewrite list_lookup_insert_eq by (by eapply lookup_lt_Some).
    rewrite Ha. simpl. by rewrite Hst.
  - by rewrite list_lookup_insert_ne.
Qed.

Lemma station_seq_alloc h ns nd :
  nodes_valid h ns → station_seq (h ++ [nd]) ns = station_seq h ns.
Proof.
  intros Hv. unfold station_seq. apply Forall_fmap_ext_1.
  eapply Forall_impl; [exact Hv|]. intros a [x Hx]. simpl.
  by rewrite (lookup_app_l_Some _ _ _ _ Hx), Hx.
Qed.

Lemma station_seq_insert_at h ns k a s :
  (station <$> h !! a) = Some s →
  station_seq h (take k ns ++ a :: drop k ns)
  = take k (station_seq h ns) ++ Some s :: drop k (station_seq h ns).
Proof.
  intros Ha. unfold station_seq.
  rewrite fmap_app, fmap_cons, fmap_take, fmap_drop. by rewrite Ha.
Qed.

Lemma update_node_valid h a f :
  is_Some (h !! a) →
  ∃ nd, h !! a = Some nd ∧ update_node h a f = Ok (<[a := f nd]> h).
Proof. intros [nd Hnd]. exists nd. split; [done|]. by apply update_node_Ok. Qed.

Lemma insert_in_range {A} (l : list A) (i : Z) (x : A) :
  0 ≤ i ≤ Z.of_nat (length l) →
  Py.insert l i x = take (Z.to_nat i) l ++ x :: drop (Z.to_nat i) l.
Proof.
  intros Hi. unfold Py.insert. rewrite bool_decide_eq_false_2 by lia.
  by rewrite Z.min_l by lia.
Qed.

Section AddStation.
Variables (h : heap) (l : Line) (s : station_ref).
Hypothesis Hvalid : nodes_valid h (station_nodes l).

Lemma add_station_first position :
  station_nodes l = [] → position ≤ 0 →
  LineM.add_station h l s position
  = Ok (h ++ [{| station := s; previous_node := None; next_node := None |}],
        set_station_nodes [length h] l, true).
Proof.
  intros Hnil Hpos. unfold LineM.add_station. rewrite Hnil. simpl.
  by rewrite bool_decide_eq_true_2 by done.
Qed.

Lemma add_station_first_rejected position :
  station_nodes l = [] → 0 < position →
  LineM.add_station h l s position = Ok (h, l, false).
Proof.
  intros Hnil Hpos. unfold LineM.add_station, LineM.stations_of.
  rewrite Hnil. simpl.
  repeat case_bool_decide; simpl; try done; try lia.
Qed.

Lemma add_station_present position :
  station_nodes l ≠ [] → on_line h l s →
  LineM.add_station h l s position = Ok (h, l, false).
Proof.
  intros Hne Hon. unfold LineM.add_station.
  rewrite (bool_decide_eq_false_2 (Z.of_nat _ = 0)).
  2:{ destruct (station_nodes l); [done | simpl; lia]. }
  simpl. destruct (stations_of_seq h l Hvalid) as (ss & -> & Hseq). simpl.
  rewrite bool_decide_eq_true_2; [done|].
  unfold on_line in Hon. rewrite Hseq in Hon.
  apply list_elem_of_fmap in Hon as (x & [= ->] & Hx). done.
Qed.

Lemma add_station_out_of_range position :
  station_nodes l ≠ [] → ¬ on_line h l s →
  position < -2 ∨ Z.of_nat (length (station_nodes l)) < position →
  LineM.add_station h l s position = Ok (h, l, false).
Proof.
  intros Hne Hoff Hpos. unfold LineM.add_station.
  rewrite (bool_decide_eq_false_2 (Z.of_nat _ = 0)).
  2:{ destruct (station_nodes l); [done | simpl; lia]. }
  simpl. destruct (stations_of_seq h l Hvalid) as (ss & -> & Hseq). simpl.
  rewrite bool_decide_eq_false_2.
  2:{ intros Hin. apply Hoff. unfold on_line. rewrite Hseq.
      apply list_elem_of_fmap. eauto. }
  destruct Hpos.
  - by rewrite (bool_decide_eq_true_2 (position < -2)) by done.
  - rewrite (bool_decide_eq_true_2 (position > _)) by lia.
    by rewrite orb_true_r.
Qed.
End AddStation.

Lemma index_in_range {A} (l : list A) (i : Z) :
  0 ≤ i < Z.of_nat (length l) → ∃ x, l !! Z.to_nat i = Some x ∧ index l i = Ok x.
Proof.
  intros Hi. destruct (lookup_lt_is_Some_2 l (Z.to_nat i)) as [x Hx]; [lia|].
  exists x. split; [done|]. rewrite <- (Z2Nat.id i) by lia. by apply index_nat.
Qed.

Lemma index_last_nonempty {A} (l : list A) :
  l ≠ [] → ∃ x, last l = Some x ∧ index l (-1) = Ok x.
Proof.
  intros Hne. destruct (last l) as [x|] eqn:Hx.
  - exists x. split; [done|]. by apply index_last.
  - by apply last_None in Hx.
Qed.

Lemma valid_lookup h ns (i : nat) a :
  nodes_valid h ns → ns !! i = Some a → is_Some (h !! a).
Proof.
  intros Hv Hi. unfold nodes_valid in Hv. rewrite Forall_forall in Hv.
  apply Hv. by eapply list_elem_of_lookup_2.
Qed.

Lemma fresh_lookup (h : heap) nd : (h ++ [nd]) !! length h = Some nd.
Proof. by rewrite lookup_app_r, Nat.sub_diag. Qed.

Section AddStationInserts.
Variables (h : heap) (l : Line) (s : station_ref) (position : Z).
Hypothesis Hvalid : nodes_valid h (station_nodes l).
Hypothesis Hne : station_nodes l ≠ [].
Hypothesis Hoff : ¬ on_line h l s.
Hypothesis Hpos :
  0 ≤ position ≤ Z.of_nat (length (station_nodes l)) ∨ position = -1.

Let k := insertion_point l position.
Let ns' := take k (station_nodes l) ++ length h :: drop k (station_nodes l).

Lemma add_station_inserts :
  ∃ h', LineM.add_station h l s position = Ok (h', set_station_nodes ns' l, true)
        ∧ length h' = S (length h)
        ∧ station_seq h' ns'
          = take k (station_seq h (station_nodes l))
            ++ Some s :: drop k (station_seq h (station_nodes l)).
Proof.
  assert (0 < length (station_nodes l))%nat as Hlen.
  { destruct (station_nodes l); [done | simpl; lia]. }
  unfold LineM.add_station.
  rewrite (bool_decide_eq_false_2 (Z.of_nat _ = 0)) by lia. simpl.
  destruct (stations_of_seq h l Hvalid) as (ss & -> & Hseq). simpl.
  rewrite bool_decide_eq_false_2.
  2:{ intros Hin. apply Hoff. unfold on_line. rewrite Hseq.
      apply list_elem_of_fmap. eauto. }
  rewrite (bool_decide_eq_false_2 (position < -2)) by lia.
  rewrite (bool_decide_eq_false_2 (position > _)) by lia. simpl.
  destruct (decide (position = -1 ∨ position = Z.of_nat (length (station_nodes l))))
    as [Hend|Hmid].
  - (* append *)
    assert (bool_decide (position = -1)
            || bool_decide (position = Z.of_nat (length (station_nodes l))) = true)
      as -> by (destruct Hend; repeat case_bool_decide; simpl; done || lia).
    destruct (index_last_nonempty _ Hne) as (z & Hz & ->). simpl.
    rewrite last_lookup in Hz.
    destruct (valid_lookup _ _ _ _ Hvalid Hz) as [znd Hznd].
    rewrite (update_node_Ok _ _ _ znd) by (by apply lookup_app_l_Some).
    simpl.
    assert (k = length (station_nodes l)) as Hk.
    { unfold k, insertion_point. case_bool_decide; lia. }
    assert (ns' = station_nodes l ++ [length h]) as Hns'.
    { unfold ns'. rewrite Hk. by rewrite take_ge, drop_ge by lia. }
    eexists. split; [by rewrite Hns'|]. split.
    + by rewrite length_insert, length_app, Nat.add_1_r.
    + destruct (decide (z = length h)) as [->|Hzne].
      { apply lookup_lt_Some in Hznd. lia. }
      unfold ns'. rewrite (station_seq_insert_at _ _ _ _ s).
      2:{ rewrite list_lookup_insert_ne by done. by rewrite fresh_lookup. }
      erewrite station_seq_update; [|by apply lookup_app_l_Some|done].
      by rewrite station_seq_alloc.
  - assert (bool_decide (position = -1)
            || bool_decide (position = Z.of_nat (length (station_nodes l))) = false)
      as -> by (repeat case_bool_decide; simpl; done || tauto).
    assert (k = Z.to_nat position) as Hk.
    { unfold k, insertion_point. case_bool_decide; [tauto | done]. }
    assert (0 ≤ position < Z.of_nat (length (station_nodes l))) as Hin by lia.
    case_bool_decide as Hzero.
    + (* prepend *)
      destruct (index_in_range (station_nodes l) 0) as (a & Ha & ->); [lia|].
      simpl. destruct (valid_lookup _ _ _ _ Hvalid Ha) as [nd Hnd].
      rewrite (update_node_Ok _ _ _ nd) by (by apply lookup_app_l_Some).
      simpl. rewrite insert_in_range by lia.
      eexists. split; [by unfold ns'; rewrite Hk, Hzero|]. split.
      * by rewrite length_insert, length_app, Nat.add_1_r.
      * destruct (decide (a = length h)) as [->|Hane].
        { apply lookup_lt_Some in Hnd. lia. }
        unfold ns'. rewrite (station_seq_insert_at _ _ _ _ s).
        2:{ rewrite list_lookup_insert_ne by done. by rewrite fresh_lookup. }
        erewrite station_seq_update; [|by apply lookup_app_l_Some|done].
        by rewrite station_seq_alloc.
    + (* in the middle *)
      destruct (index_in_range (station_nodes l) (position - 1))
        as (a & Ha & ->); [lia|].
      destruct (index_in_range (station_nodes l) position)
        as (b & Hb & ->); [lia|].
      simpl.
      destruct (valid_lookup _ _ _ _ Hvalid Ha) as [and Hand].
      destruct (valid_lookup _ _ _ _ Hvalid Hb) as [bnd Hbnd].
      rewrite (update_node_Ok _ _ _ bnd) by (by apply lookup_app_l_Some).
      simpl.
      destruct (update_node_valid
                  (<[b := set_previous_node (Some (ToNode (length h))) bnd]>
                     (h ++ [{| station := s; previous_node := Some (ToNode a);
                               next_node := Some (ToNode b) |}]))
                  a (set_next_node (Some (ToNode (length h)))))
        as (and' & Hand' & ->).
      { apply lookup_lt_is_Some. rewrite length_insert, length_app.
        apply lookup_lt_Some in Hand. lia. }
      simpl. rewrite insert_in_range by lia.
      eexists. split; [by unfold ns'; rewrite Hk|]. split.
      * by rewrite !length_insert, length_app, Nat.add_1_r.
      * destruct (decide (a = length h)) as [->|Hane].
        { apply lookup_lt_Some in Hand. lia. }
        destruct (decide (b = length h)) as [->|Hbne].
        { apply lookup_lt_Some in Hbnd. lia. }
        unfold ns'. rewrite (station_seq_insert_at _ _ _ _ s).
        2:{ rewrite !list_lookup_insert_ne by done. by rewrite fresh_lookup. }
        erewrite station_seq_update; [|exact Hand'|done].
        erewrite station_seq_update; [|by apply lookup_app_l_Some|done].
        by rewrite station_seq_alloc.
Qed.
End AddStationInserts.

(** ** Line.add_station keeps the chain *)

Lemma splice_lookup {A} (l : list A) (k j : nat) (x : A) :
  (k ≤ length l)%nat →
  (take k l ++ x :: drop k l) !! j
  = if decide (j < k)%nat then l !! j
    else if decide (j = k) then Some x else l !! pred j.
Proof.
  intros Hk. case_decide.
  - rewrite lookup_app_l by (rewrite length_take; lia). by rewrite lookup_take_lt.
  - rewrite lookup_app_r by (rewrite length_take; lia).
    rewrite length_take, Nat.min_l by lia.
    case_decide as Hjk.
    + subst. by rewrite Nat.sub_diag.
    + destruct (j - k)%nat as [|d] eqn:Hd; [lia|]. simpl.
      rewrite lookup_drop. f_equal. lia.
Qed.

Section Splice.
Variables (h h' : heap) (ns : list node_ref) (k : nat) (s : station_ref).
Hypothesis Hlinked : linked h ns.
Hypothesis Hk : (k ≤ length ns)%nat.
Let f : node_ref := length h.
Hypothesis Hnew :
  h' !! f = Some {| station := s;
                    previous_node := match k with
                                     | O => None
                                     | S j => ToNode <$> ns !! j
                                     end;
                    next_node := ToNode <$> ns !! k |}.
Hypothesis Hold :
  ∀ (i : nat) a nd, ns !! i = Some a → h !! a = Some nd →
    ∃ nd', h' !! a = Some nd'
           ∧ previous_node nd'
             = (if decide (i = k) then Some (ToNode f) else previous_node nd)
           ∧ next_node nd'
             = (if decide (S i = k) then Some (ToNode f) else next_node nd).

Lemma fresh_not_linked : f ∉ ns.
Proof.
  intros [i Hi]%list_elem_of_lookup_1.
  destruct Hlinked as [_ Hl]. destruct (Hl _ _ Hi) as (nd & Hnd & _).
  apply lookup_lt_Some in Hnd. unfold f in Hnd. lia.
Qed.

Lemma splice_linked : linked h' (take k ns ++ f :: drop k ns).
Proof.
  destruct Hlinked as [Hnd Hl]. split.
  - rewrite <- Permutation_middle. apply NoDup_cons. split.
    + rewrite take_drop. apply fresh_not_linked.
    + by rewrite take_drop.
  - intros i a. rewrite splice_lookup by done. intros Hi.
    destruct (decide (i < k)%nat) as [Hlt|Hge];
      [|destruct (decide (i = k)) as [->|Hne]].
    + destruct (Hl _ _ Hi) as (nd & Hx & Hp & Hn).
      destruct (Hold _ _ _ Hi Hx) as (nd' & Hx' & Hp' & Hn').
      exists nd'. split; [done|]. split.
      * rewrite Hp'. destruct (decide (i = k)); [lia|]. rewrite Hp.
        destruct i as [|j]; [done|]. cbv iota.
        rewrite splice_lookup by done. destruct (decide (j < k)%nat); [done|lia].
      * rewrite Hn', splice_lookup by done.
        destruct (decide (S i = k)) as [<-|Hne].
        -- destruct (decide (S i < S i)%nat); [lia|].
           destruct (decide (S i = S i)); done.
        -- destruct (decide (S i < k)%nat); [done|lia].
    + simplify_eq. eexists. split; [exact Hnew|]. simpl. split.
      * destruct k as [|j]; [done|].
        rewrite splice_lookup by done. destruct (decide (j < S j)%nat); [done|lia].
      * rewrite splice_lookup by done.
        destruct (decide (S k < k)%nat); [lia|].
        destruct (decide (S k = k)); [lia|done].
    + destruct i as [|j]; [lia|]. simpl in Hi.
      destruct (Hl _ _ Hi) as (nd & Hx & Hp & Hn).
      destruct (Hold _ _ _ Hi Hx) as (nd' & Hx' & Hp' & Hn').
      exists nd'. split; [done|]. split.
      * rewrite Hp', splice_lookup by done.
        destruct (decide (j < k)%nat); [lia|].
        destruct (decide (j = k)) as [->|Hjk]; [done|].
        rewrite Hp. destruct j as [|j']; [lia|]. done.
      * rewrite Hn'. destruct (decide (S j = k)); [lia|]. rewrite Hn.
        rewrite splice_lookup by done.
        destruct (decide (S (S j) < k)%nat); [lia|].
        destruct (decide (S (S j) = k)); [lia|done].
Qed.
End Splice.

Lemma insert_alter {A} (g : A → A) (l : list A) (i : nat) (x : A) :
  l !! i = Some x → <[i := g x]> l = alter g i l.
Proof.
  intros Hi. apply list_eq. intros j. destruct (decide (i = j)) as [<-|Hne].
  - rewrite list_lookup_insert_eq by (by eapply lookup_lt_Some).
    by rewrite list_lookup_alter_eq, Hi.
  - by rewrite list_lookup_insert_ne, list_lookup_alter_ne.
Qed.

Lemma update_node_alter h a g h' :
  update_node h a g = Ok h' → is_Some (h !! a) ∧ h' = alter g a h.
Proof.
  unfold update_node. destruct (h !! a) as [nd|] eqn:Ha; simpl; [|done].
  intros [= <-]. split; [by eexists|]. by apply insert_alter.
Qed.

Lemma index_Ok_inv {A} (l : list A) (i : Z) x :
  index l i = Ok x →
  ∃ j : nat, l !! j = Some x ∧
    (0 ≤ i ∧ j = Z.to_nat i
     ∨ - Z.of_nat (length l) ≤ i < 0 ∧ j = Z.to_nat (Z.of_nat (length l) + i)).
Proof.
  unfold index. repeat case_bool_decide; try done.
  - destruct (l !! Z.to_nat i) eqn:E; simpl; [|done]. intros [= ->].
    exists (Z.to_nat i). split; [done|]. left. lia.
  - destruct (l !! Z.to_nat _) eqn:E; simpl; [|done]. intros [= ->].
    eexists. split; [exact E|]. right. lia.
Qed.

Lemma linked_lookup h ns (i : nat) a :
  linked h ns → ns !! i = Some a → is_Some (h !! a) ∧ a ≠ length h.
Proof.
  intros [_ Hl] Hi. destruct (Hl _ _ Hi) as (nd & Hnd & _).
  split; [by eexists|]. apply lookup_lt_Some in Hnd. lia.
Qed.

Section Spliced.
Variables (h : heap) (ns : list node_ref) (k : nat) (s : station_ref).
Hypothesis Hlinked : linked h ns.
Hypothesis Hk : (k ≤ length ns)%nat.

Lemma spliced_linked : linked (spliced h ns k s) (take k ns ++ length h :: drop k ns).
Proof.
  apply (splice_linked h _ ns k s Hlinked Hk).
  - unfold spliced.
    set (before := match k with O => None | S j => ns !! j end).
    assert (match k with O => None | S j => ToNode <$> ns !! j end
            = ToNode <$> before) as -> by (by destruct k).
    assert (∀ b, before = Some b → b ≠ length h) as Hb.
    { intros b Hbef. unfold before in Hbef. destruct k as [|j]; [done|].
      by eapply (linked_lookup h ns). }
    assert (∀ b, ns !! k = Some b → b ≠ length h) as Ha
      by (intros b ?; by eapply (linked_lookup h ns)).
    destruct before as [b|]; [rewrite list_lookup_alter_ne by (by apply Hb)|];
      (destruct (ns !! k) as [b'|];
         [rewrite list_lookup_alter_ne by (by apply Ha)|]);
      apply fresh_lookup.
  - intros i a nd Hi Hnd. unfold spliced.
    destruct Hlinked as [Hdup _].
    set (a0 := length h).
    set (h1 := h ++ _).
    assert (h1 !! a = Some nd) as H1 by (by apply lookup_app_l_Some).
    set (h2 := match ns !! k with
               | Some b => alter (set_previous_node (Some (ToNode a0))) b h1
               | None => h1
               end).
    assert (h2 !! a = Some (if decide (i = k)
                            then set_previous_node (Some (ToNode a0)) nd
                            else nd)) as H2.
    { unfold h2. destruct (decide (i = k)) as [->|Hne].
      - by rewrite Hi, list_lookup_alter_eq, H1.
      - destruct (ns !! k) as [b|] eqn:Hb; [|done].
        rewrite list_lookup_alter_ne; [done|].
        intros ->. apply Hne. by eapply NoDup_lookup. }
    clearbody h2.
    set (x2 := if decide (i = k)
               then set_previous_node (Some (ToNode a0)) nd else nd) in H2.
    exists (if decide (S i = k) then set_next_node (Some (ToNode a0)) x2 else x2).
    split.
    + destruct (decide (S i = k)) as [<-|Hne].
      * by rewrite Hi, list_lookup_alter_eq, H2.
      * destruct k as [|j]; [exact H2|].
        destruct (ns !! j) as [b|] eqn:Hb; [|exact H2].
        rewrite list_lookup_alter_ne; [exact H2|].
        intros ->. apply Hne. f_equal. by eapply NoDup_lookup.
    + unfold x2. repeat case_decide; try lia; by destruct nd.
Qed.
End Spliced.

Lemma spliced_eq h ns k s before after :
  match k with O => None | S j => ns !! j end = before →
  ns !! k = after →
  spliced h ns k s
  = let h1 := h ++ [{| station := s; previous_node := ToNode <$> before;
                       next_node := ToNode <$> after |}] in
    let h2 := match after with
              | Some b => alter (set_previous_node (Some (ToNode (length h)))) b h1
              | None => h1
              end in
    match before with
    | Some b => alter (set_next_node (Some (ToNode (length h)))) b h2
    | None => h2
    end.
Proof. by intros <- <-. Qed.

(** Every successful [add_station] is a splice of a fresh node into the
    chain: the new heap and the new node list are those of [spliced] for
    some place [k]. *)
Lemma add_station_splices h l s position h' l' :
  linked h (station_nodes l) →
  LineM.add_station h l s position = Ok (h', l', true) →
  ∃ k, (k ≤ length (station_nodes l))%nat
       ∧ h' = spliced h (station_nodes l) k s
       ∧ station_nodes l'
         = take k (station_nodes l) ++ length h :: drop k (station_nodes l).
Proof.
  intros Hlinked. unfold LineM.add_station.
  destruct (bool_decide (_ = 0) && bool_decide (position ≤ 0)) eqn:Hfirst.
  - apply andb_true_iff in Hfirst as [Hn%bool_decide_eq_true _].
    assert (station_nodes l = []) as Hnil by (apply length_zero_iff_nil; lia).
    simpl. intros [= <- <-]. exists 0%nat. by rewrite Hnil.
  - intros (ss & _ & Hrun)%bind_Ok.
    destruct (bool_decide (s ∈ ss)); [done|].
    destruct (bool_decide (position < -2) || bool_decide (position > _))
      eqn:Hrange; [done|].
    apply orb_false_iff in Hrange as [Hlo%bool_decide_eq_false Hhi%bool_decide_eq_false].
    destruct (bool_decide (position = -1) || bool_decide (position = _)) eqn:Hend.
    + (* append *)
      apply bind_Ok in Hrun as (z & Hz & Hrun). cbn in Hrun.
      apply bind_Ok in Hrun as (h2 & Hupd & Hrun). simplify_eq.
      apply update_node_alter in Hupd as [_ ->].
      apply index_Ok_inv in Hz as (j & Hj & [[Hneg _]|[_ ->]]);
        [by apply Z.leb_le in Hneg|].
      exists (length (station_nodes l)). split; [lia|]. split.
      * rewrite (spliced_eq _ _ _ _ (Some z) None); [done| |by apply lookup_ge_None_2].
        pose proof (lookup_lt_Some _ _ _ Hj).
        destruct (length (station_nodes l)) as [|n] eqn:Hlen; [lia|].
        rewrite <- Hj. f_equal. lia.
      * simpl. by rewrite take_ge, drop_ge by lia.
    + apply orb_false_iff in Hend as [Hm1%bool_decide_eq_false Hn%bool_decide_eq_false].
      set (k := Z.to_nat (if bool_decide (position < 0)
                          then Z.max 0 (Z.of_nat (length (station_nodes l)) + position)
                          else Z.min position (Z.of_nat (length (station_nodes l))))).
      assert (k ≤ length (station_nodes l))%nat as Hk.
      { unfold k. destruct (bool_decide (position < 0)) eqn:Hsign; [|lia].
        apply bool_decide_eq_true in Hsign. lia. }
      destruct (bool_decide (position = 0)) eqn:Hzero.
      * (* prepend *)
        apply bool_decide_eq_true in Hzero.
        apply bind_Ok in Hrun as (z & Hz & Hrun). cbn in Hrun.
        apply bind_Ok in Hrun as (h2 & Hupd & Hrun). simplify_eq.
        apply update_node_alter in Hupd as [_ ->].
        apply index_Ok_inv in Hz as (j & Hj & [[_ ->]|[? _]]); [|lia].
        exists k. split; [done|]. split; [|done].
        assert (k = 0%nat) as ->
          by (unfold k; rewrite bool_decide_eq_false_2 by lia; lia).
        by rewrite (spliced_eq _ _ _ _ None (Some z)).
      * (* in the middle *)
        apply bool_decide_eq_false in Hzero.
        apply bind_Ok in Hrun as (a & Ha & Hrun).
        apply bind_Ok in Hrun as (b & Hb & Hrun). cbn in Hrun.
        apply bind_Ok in Hrun as (h2 & Hupd2 & Hrun).
        apply bind_Ok in Hrun as (h3 & Hupd3 & Hrun). simplify_eq.
        apply update_node_alter in Hupd2 as [_ ->].
        apply update_node_alter in Hupd3 as [_ ->].
        apply index_Ok_inv in Ha as (ja & Hja & Hcasea).
        apply index_Ok_inv in Hb as (jb & Hjb & Hcaseb).
        exists k. split; [done|]. split; [|done].
        assert (jb = k ∧ k = S ja) as [-> Hkeq].
        { unfold k. destruct (bool_decide (position < 0)) eqn:Hsign.
          - apply bool_decide_eq_true in Hsign. lia.
          - apply bool_decide_eq_false in Hsign. lia. }
        rewrite (spliced_eq _ _ _ _ (Some a) (Some b)); [done| |done].
        by rewrite Hkeq.
Qed.

Lemma add_station_linked h l s position h' l' :
  linked h (station_nodes l) →
  LineM.add_station h l s position = Ok (h', l', true) →
  linked h' (station_nodes l').
Proof.
  intros Hlinked Hrun.
  destruct (add_station_splices _ _ _ _ _ _ Hlinked Hrun) as (k & Hk & -> & ->).
  by apply spliced_linked.
Qed.

(** A new line is a chain, so every line grown by [add_station] alone is
    one. *)
Lemma empty_linked h : linked h [].
Proof. split; [apply NoDup_nil_2 | intros i a Hi; by rewrite lookup_nil in Hi]. Qed.

(** ** The claims about lines *)

(** Position -2 passes the range check and is served by the general case:
    on a line of three or more stations the new node goes in front of the
    last two. *)
Lemma add_station_before_last_two h l s :
  nodes_valid h (station_nodes l) →
  (3 ≤ length (station_nodes l))%nat →
  ¬ on_line h l s →
  let ns := station_nodes l in
  let k := (length ns - 2)%nat in
  ∃ h', LineM.add_station h l s (-2)
        = Ok (h', set_station_nodes (take k ns ++ length h :: drop k ns) l, true)
        ∧ station_seq h' (take k ns ++ length h :: drop k ns)
          = take k (station_seq h ns) ++ Some s :: drop k (station_seq h ns).
Proof.
  intros Hvalid Hlen Hoff ns k. subst ns k. unfold LineM.add_station.
  rewrite (bool_decide_eq_false_2 (Z.of_nat _ = 0)) by lia. simpl.
  destruct (stations_of_seq h l Hvalid) as (ss & -> & Hseq). simpl.
  rewrite bool_decide_eq_false_2.
  2:{ intros Hin. apply Hoff. unfold on_line. rewrite Hseq.
      apply list_elem_of_fmap. eauto. }
  rewrite (bool_decide_eq_false_2 (_ > _)) by lia.
  rewrite (bool_decide_eq_false_2 (-2 = Z.of_nat _)) by lia.
  destruct (lookup_lt_is_Some_2 (station_nodes l) (length (station_nodes l) - 3))
    as [a Ha]; [lia|].
  destruct (lookup_lt_is_Some_2 (station_nodes l) (length (station_nodes l) - 2))
    as [b Hb]; [lia|].
  change (-2 - 1) with (- Z.of_nat 3).
  rewrite (index_back (station_nodes l) 3 a) by (done || lia).
  change (index (station_nodes l) (-2))
    with (index (station_nodes l) (- Z.of_nat 2)).
  rewrite (index_back (station_nodes l) 2 b) by (done || lia).
  simpl.
  destruct (valid_lookup _ _ _ _ Hvalid Ha) as [and Hand].
  destruct (valid_lookup _ _ _ _ Hvalid Hb) as [bnd Hbnd].
  rewrite (update_node_Ok _ _ _ bnd) by (by apply lookup_app_l_Some).
  simpl.
  destruct (update_node_valid
              (<[b := set_previous_node (Some (ToNode (length h))) bnd]>
                 (h ++ [{| station := s; previous_node := Some (ToNode a);
                           next_node := Some (ToNode b) |}]))
              a (set_next_node (Some (ToNode (length h)))))
    as (and' & Hand' & ->).
  { apply lookup_lt_is_Some. rewrite length_insert, length_app.
    apply lookup_lt_Some in Hand. lia. }
  simpl.
  assert (Py.insert (station_nodes l) (-2) (length h)
          = take (length (station_nodes l) - 2) (station_nodes l)
            ++ length h :: drop (length (station_nodes l) - 2) (station_nodes l))
    as ->.
  { unfold Py.insert. rewrite bool_decide_eq_true_2 by lia.
    by replace (Z.to_nat (Z.max 0 (Z.of_nat (length (station_nodes l)) + -2)))
      with (length (station_nodes l) - 2)%nat by lia. }
  eexists. split; [done|].
  destruct (decide (a = length h)) as [->|Hane].
  { apply lookup_lt_Some in Hand. lia. }
  destruct (decide (b = length h)) as [->|Hbne].
  { apply lookup_lt_Some in Hbnd. lia. }
  rewrite (station_seq_insert_at _ _ _ _ s).
  2:{ rewrite !list_lookup_insert_ne by done. by rewrite fresh_lookup. }
  erewrite station_seq_update; [|exact Hand'|done].
  erewrite station_seq_update; [|by apply lookup_app_l_Some|done].
  by rewrite station_seq_alloc.
Qed.

(** On a line of one or two stations the same case subscripts the node
    list out of range. *)
Lemma add_station_short_line h l s :
  nodes_valid h (station_nodes l) →
  (0 < length (station_nodes l) < 3)%nat →
  ¬ on_line h l s →
  LineM.add_station h l s (-2) = Raise IndexError.
Proof.
  intros Hvalid Hlen Hoff. unfold LineM.add_station.
  rewrite (bool_decide_eq_false_2 (Z.of_nat _ = 0)) by lia. simpl.
  destruct (stations_of_seq h l Hvalid) as (ss & -> & Hseq). simpl.
  rewrite bool_decide_eq_false_2.
  2:{ intros Hin. apply Hoff. unfold on_line. rewrite Hseq.
      apply list_elem_of_fmap. eauto. }
  rewrite (bool_decide_eq_false_2 (_ > _)) by lia.
  rewrite (bool_decide_eq_false_2 (-2 = Z.of_nat _)) by lia.
  by rewrite (index_out _ (-2 - 1)) by lia.
Qed.

(** Closed decidable facts are settled by evaluation. *)
Ltac by_evaluation :=
  refine (bool_decide_unpack _ _); vm_compute; exact I.

Lemma three_line_linked : linked three_nodes (station_nodes three_line).
Proof.
  split.
  - simpl. by_evaluation.
  - intros [|[|[|i]]] a Hi; simplify_eq/=; eexists; (split; [reflexivity|done]).
Qed.

Lemma three_line_valid : nodes_valid three_nodes (station_nodes three_line).
Proof. apply linked_valid, three_line_linked. Qed.

Lemma two_line_valid : nodes_valid two_nodes (station_nodes two_line).
Proof. repeat constructor; simpl; eauto. Qed.

(** On the open line 0-1-2, next_station at the last node with direction
    +1 does not return that node with direction -1; it raises
    AttributeError when it reads [next_node] of the [None] that follows the
    last node. *)
Example next_station_at_tail :
  LineM.is_circular three_nodes three_line = Ok false ∧
  LineM.next_station three_nodes three_line (Some 2%nat) 1 = Raise AttributeError ∧
  LineM.next_station three_nodes three_line (Some 2%nat) 1 ≠ Ok (Some 2%nat, -1) ∧
  LineM.next_station three_nodes three_line (Some 0%nat) (-1) = Raise AttributeError.
Proof. repeat split; done. Qed.

(** C2: what the code does.  On every line that is an open chain of at
    least two nodes (such a line is not circular), next_station called at
    the last node with direction +1 raises AttributeError, and so does the
    call at the first node with direction -1: the method looks one node
    ahead and reads [next_node] (or [previous_node]) of the [None] beyond
    the end.  The direction is turned on arrival instead: called with
    direction +1 at a node that has a successor it returns the successor,
    with the direction already turned to -1 exactly when the successor is
    the last node; called with direction -1 at a node that has a
    predecessor it returns the predecessor, with the direction turned to +1
    exactly when that is the first node.  A train that stands at the last
    node heading +1 (City.add_train puts it there when asked for the last
    station with the default direction) has its Train.move end in that
    exception once it has left the station. *)
Theorem next_station_turns_on_arrival (h : heap) (l : Line) :
  linked h (station_nodes l) →
  (2 ≤ length (station_nodes l))%nat →
  LineM.is_circular h l = Ok false ∧
  (∀ a, last (station_nodes l) = Some a →
        LineM.next_station h l (Some a) 1 = Raise AttributeError) ∧
  (∀ a, station_nodes l !! 0%nat = Some a →
        LineM.next_station h l (Some a) (-1) = Raise AttributeError) ∧
  (∀ (i : nat) a b,
     station_nodes l !! i = Some a → station_nodes l !! S i = Some b →
     LineM.next_station h l (Some a) 1
     = Ok (Some b, if bool_decide (S (S i) = length (station_nodes l)) then -1 else 1)) ∧
  (∀ (i : nat) a b,
     station_nodes l !! S i = Some a → station_nodes l !! i = Some b →
     LineM.next_station h l (Some a) (-1)
     = Ok (Some b, if bool_decide (i = 0%nat) then 1 else -1)) ∧
  (∀ c t tr k a,
     nodes c = h → lines c !! k = Some l → trains c !! t = Some tr →
     line tr = Some k → state tr = LEFT_STATION →
     station_node tr = Some a →
     (last (station_nodes l) = Some a ∧ direction tr = 1
      ∨ station_nodes l !! 0%nat = Some a ∧ direction tr = -1) →
     TrainM.move c t = Raise AttributeError).
Proof.
  intros Hl Hlen. split; [by apply linked_not_circular|].
  split; [intros; by apply next_station_off_the_end|].
  split; [intros; by apply next_station_off_the_start|].
  split; [intros; by eapply next_station_forward|].
  split; [intros; by eapply next_station_backward|].
  intros c t tr k a <- Hk Ht Hline Hstate Hnode Hend.
  unfold TrainM.move, get_train, get_line. rewrite Ht. simpl.
  rewrite decide_False by congruence.
  rewrite Hline. simpl. rewrite Hk. simpl. rewrite Hnode.
  destruct Hend as [[Ha ->]|[Ha ->]].
  - by rewrite (next_station_off_the_end _ _ Hl a Hlen Ha).
  - by rewrite (next_station_off_the_start _ _ Hl a Hlen Ha).
Qed.

Lemma next_station_turns_on_arrival_witness :
  linked three_nodes (station_nodes three_line) ∧
  (2 ≤ length (station_nodes three_line))%nat ∧
  LineM.next_station three_nodes three_line (Some 2%nat) 1 = Raise AttributeError ∧
  LineM.next_station three_nodes three_line (Some 0%nat) (-1) = Raise AttributeError ∧
  LineM.next_station three_nodes three_line (Some 1%nat) 1 = Ok (Some 2%nat, -1) ∧
  LineM.next_station three_nodes three_line (Some 1%nat) (-1) = Ok (Some 0%nat, 1) ∧
  ∃ c1 t c2,
    CityM.add_train (set_trains [] city_abc) (Some 0%nat) (Some 2%nat) 1
    = Ok (c1, Some t) ∧
    TrainM.move c1 t = Ok c2 ∧
    TrainM.move c2 t = Raise AttributeError.
Proof.
  split; [apply three_line_linked|]. split; [simpl; lia|].
  destruct (next_station_turns_on_arrival three_nodes three_line three_line_linked)
    as (_ & Hend & Hstart & Hfwd & Hbwd & Hmove); [simpl; lia|].
  split; [by apply Hend|]. split; [by apply Hstart|].
  split; [apply (Hfwd 1%nat 1%nat 2%nat); reflexivity|].
  split; [apply (Hbwd 0%nat 1%nat 0%nat); reflexivity|].
  eexists _, _, _. split; [vm_compute; reflexivity|].
  split; [vm_compute; reflexivity|].
  eapply (Hmove _ 0%nat _ 0%nat 2%nat); try reflexivity. by left.
Defined.

(** The bounce scenario of the specification: stations 0-1-2, a train at
    station 0 heading +1.  The train dwells one call at each stop, arrives
    at station 2 already heading -1, and is back at station 0 heading +1
    after eight calls. *)
Example bounce_on_three_stations :
  train_after 0 city_abc = Ok (AT_STATION, Some 0%nat, 1) ∧
  train_after 2 city_abc = Ok (AT_STATION, Some 1%nat, 1) ∧
  train_after 4 city_abc = Ok (AT_STATION, Some 2%nat, -1) ∧
  train_after 6 city_abc = Ok (AT_STATION, Some 1%nat, -1) ∧
  train_after 8 city_abc = Ok (AT_STATION, Some 0%nat, 1).
Proof. repeat split; vm_compute; reflexivity. Qed.

(** C3: what the code does.  For every line with at least two nodes,
    make_circular completes and is_circular is still false afterwards: the
    tail's [next_node] now holds the head's station, not the head node.
    After break_circular, is_circular is false as the claim says. *)
Theorem make_circular_not_circular (h : heap) (l : Line) :
  (2 ≤ length (station_nodes l))%nat →
  nodes_valid h (station_nodes l) →
  (∃ h', LineM.make_circular h l = Ok h' ∧ LineM.is_circular h' l = Ok false) ∧
  (∃ h', LineM.break_circular h l = Ok h' ∧ LineM.is_circular h' l = Ok false).
Proof.
  intros Hlen Hvalid. split.
  - by apply make_circular_links_stations.
  - by apply break_circular_opens.
Qed.

Lemma make_circular_not_circular_witness :
  (2 ≤ length (station_nodes two_line))%nat ∧
  nodes_valid two_nodes (station_nodes two_line) ∧
  ∃ h', LineM.make_circular two_nodes two_line = Ok h' ∧
        LineM.is_circular h' two_line = Ok false.
Proof.
  split; [simpl; lia|]. split; [apply two_line_valid|].
  apply (make_circular_not_circular two_nodes two_line); [simpl; lia|].
  apply two_line_valid.
Defined.

(** C8, as the claim states it, fails: an insert into an empty line at
    position 1 does not ignore the position, it is rejected; and position
    -2, which is neither in 0..length nor the append value, is accepted on a
    line of three stations. *)
Lemma add_station_counterexample :
  LineM.add_station [] empty_line 0%nat 1 = Ok ([], empty_line, false) ∧
  (¬ ∃ h' l', LineM.add_station [] empty_line 0%nat 1 = Ok (h', l', true)) ∧
  (∃ h', LineM.add_station three_nodes three_line 7%nat (-2)
         = Ok (h', set_station_nodes [0; 3; 1; 2]%nat three_line, true)).
Proof.
  split; [reflexivity|]. split.
  - intros (h' & l' & H). discriminate H.
  - eexists. reflexivity.
Qed.

(** C8 (amended): for every line whose nodes exist.  On an empty line the
    insert succeeds when position <= 0 (the position is then ignored) and
    fails, leaving the line unchanged, when position > 0.  On a non-empty
    line it fails, leaving the line unchanged, when the station is already on
    the line, or when position < -2 or position > length; and for a station
    not yet on the line and a position in 0..length or -1 (append) it
    succeeds and the line's station sequence is the old one with the station
    inserted at that position.  Position -2, which the range check lets
    through, succeeds on a line of three or more stations and puts the
    station in front of the last two. *)
Theorem add_station_contract (h : heap) (l : Line) (s : station_ref) (position : Z) :
  nodes_valid h (station_nodes l) →
  let ns := station_nodes l in
  let n := Z.of_nat (length ns) in
  let k := insertion_point l position in
  (n = 0 → position ≤ 0 →
     LineM.add_station h l s position
     = Ok (h ++ [{| station := s; previous_node := None; next_node := None |}],
           set_station_nodes [length h] l, true)) ∧
  (n = 0 → 0 < position → LineM.add_station h l s position = Ok (h, l, false)) ∧
  (0 < n → on_line h l s → LineM.add_station h l s position = Ok (h, l, false)) ∧
  (0 < n → ¬ on_line h l s → position < -2 ∨ n < position →
     LineM.add_station h l s position = Ok (h, l, false)) ∧
  (0 < n → ¬ on_line h l s → 0 ≤ position ≤ n ∨ position = -1 →
     ∃ h', LineM.add_station h l s position
           = Ok (h', set_station_nodes (take k ns ++ length h :: drop k ns) l, true)
           ∧ station_seq h' (take k ns ++ length h :: drop k ns)
             = take k (station_seq h ns) ++ Some s :: drop k (station_seq h ns)) ∧
  (3 ≤ n → ¬ on_line h l s → position = -2 →
     let k2 := (length ns - 2)%nat in
     ∃ h', LineM.add_station h l s position
           = Ok (h', set_station_nodes (take k2 ns ++ length h :: drop k2 ns) l, true)
           ∧ station_seq h' (take k2 ns ++ length h :: drop k2 ns)
             = take k2 (station_seq h ns) ++ Some s :: drop k2 (station_seq h ns)).
Proof.
  intros Hvalid ns n k.
  assert (n = 0 → ns = []) as Hnil.
  { unfold n, ns. destruct (station_nodes l); [done | simpl; lia]. }
  assert (0 < n → ns ≠ []) as Hcons.
  { unfold n, ns. destruct (station_nodes l); [simpl; lia | done]. }
  repeat split.
  - intros. apply add_station_first; auto.
  - intros. apply add_station_first_rejected; auto.
  - intros. apply add_station_present; auto.
  - intros. apply add_station_out_of_range; auto.
  - intros Hn Hoff Hpos.
    destruct (add_station_inserts h l s position Hvalid (Hcons Hn) Hoff Hpos)
      as (h' & Hrun & _ & Hseq).
    by exists h'.
  - intros Hn Hoff ->. apply add_station_before_last_two; [done | | done].
    unfold n, ns in Hn. lia.
Qed.

Lemma add_station_contract_witness :
  nodes_valid three_nodes (station_nodes three_line) ∧
  LineM.add_station three_nodes three_line 1%nat 1 = Ok (three_nodes, three_line, false) ∧
  LineM.add_station three_nodes three_line 7%nat 4 = Ok (three_nodes, three_line, false) ∧
  ∃ h', LineM.add_station three_nodes three_line 7%nat 1
        = Ok (h', set_station_nodes [0; 3; 1; 2]%nat three_line, true)
        ∧ station_seq h' [0; 3; 1; 2]%nat = [Some 0; Some 7; Some 1; Some 2]%nat.
Proof.
  split; [apply three_line_valid|].
  destruct (add_station_contract three_nodes three_line 1%nat 1 three_line_valid)
    as (_ & _ & Hpresent & _).
  destruct (add_station_contract three_nodes three_line 7%nat 4 three_line_valid)
    as (_ & _ & _ & Hrange & _).
  destruct (add_station_contract three_nodes three_line 7%nat 1 three_line_valid)
    as (_ & _ & _ & _ & Hins & _).
  split; [apply Hpresent; [simpl; lia | unfold on_line; by_evaluation]|].
  split; [apply Hrange; [simpl; lia | unfold on_line; by_evaluation | simpl; lia]|].
  apply Hins; [simpl; lia | unfold on_line; by_evaluation | simpl; lia].
Defined.


(** ** Square arrays *)

Section Matrix.
Context {A : Type} `{Inhabited A}.
Implicit Types m : matrix A.

Lemma mfull_square n (x : A) : square n (mfull n x).
Proof.
  split; [apply length_replicate|].
  apply Forall_replicate, length_replicate.
Qed.

Lemma mget_mfull n (x : A) i j : (i < n)%nat → (j < n)%nat → mget (mfull n x) i j = x.
Proof.
  intros Hi Hj. unfold mget, mfull.
  by rewrite !lookup_total_replicate_2.
Qed.

Lemma mset_square n m i j v : square n m → square n (mset m i j v).
Proof.
  intros [Hlen Hrows]. split; [by unfold mset; rewrite length_alter|].
  apply Forall_lookup. intros r row Hr.
  rewrite Forall_lookup in Hrows. unfold mset in Hr.
  destruct (decide (i = r)) as [->|Hne].
  - rewrite list_lookup_alter_eq in Hr.
    destruct (m !! r) as [row0|] eqn:E; simplify_eq/=.
    rewrite length_insert. by eapply Hrows.
  - rewrite list_lookup_alter_ne in Hr by done. by eapply Hrows.
Qed.

Lemma mget_mset_eq n m i j v :
  square n m → (i < n)%nat → (j < n)%nat → mget (mset m i j v) i j = v.
Proof.
  intros [Hlen Hrows] Hi Hj. unfold mget, mset.
  rewrite list_lookup_total_alter_eq by lia.
  apply list_lookup_total_insert_eq.
  rewrite Forall_lookup in Hrows.
  erewrite (Hrows i); [done|]. apply list_lookup_lookup_total_lt. lia.
Qed.

Lemma mget_mset_ne m i j v i' j' :
  (i, j) ≠ (i', j') → mget (mset m i j v) i' j' = mget m i' j'.
Proof.
  intros Hne. unfold mget, mset.
  rewrite list_lookup_total_alter. case_decide as Hc; [|done].
  destruct Hc as [-> _]. apply list_lookup_total_insert_ne. congruence.
Qed.

Lemma mget_checked_square n m i j :
  square n m → (i < n)%nat → (j < n)%nat → mget_checked m i j = Ok (mget m i j).
Proof.
  intros [Hlen Hrows] Hi Hj. unfold mget_checked, mget.
  rewrite Forall_lookup in Hrows.
  assert (m !! i = Some (m !!! i)) as Hrow
    by (apply list_lookup_lookup_total_lt; lia).
  rewrite Hrow.
  assert ((m !!! i) !! j = Some ((m !!! i) !!! j)) as Hcell.
  { apply list_lookup_lookup_total_lt. rewrite (Hrows i _ Hrow). lia. }
  by rewrite Hcell.
Qed.
End Matrix.

(** ** Arithmetic of distances *)

Ltac dist_cases :=
  repeat match goal with x : dist |- _ => destruct x end;
  unfold dmin, dle, dadd, dgtb in *; simpl in *;
  repeat case_bool_decide; simpl in *; simplify_eq; try done; try lia.

Lemma dle_refl a : dle a a.
Proof. dist_cases. Qed.

Lemma dmin_zero a : dmin (Hops 0) a = Hops 0.
Proof. dist_cases. Qed.

Lemma dadd_zero_r a : dadd a (Hops 0) = a.
Proof. dist_cases. f_equal; lia. Qed.

Lemma dadd_zero_l a : dadd (Hops 0) a = a.
Proof. dist_cases. Qed.

Lemma dmin_self_l a b : dmin a (dadd a b) = a.
Proof. dist_cases. Qed.

Lemma dmin_self_r a b : dmin a (dadd b a) = a.
Proof. dist_cases. Qed.

Lemma dadd_is_zero a b : dadd a b = Hops 0 → a = Hops 0 ∧ b = Hops 0.
Proof. intros Hab. dist_cases. split; f_equal; lia. Qed.

Lemma dgtb_zero a : dgtb (Hops 0) a = false.
Proof. dist_cases. Qed.

(** The heart of the Floyd-Warshall step: if the triangle inequality holds
    through [k], it still holds through [k] once every cell has been relaxed
    through [m]. *)
Lemma relax_keeps_triangle (a b c e f g g' : dist) :
  dle a (dadd e f) → dle c (dadd g' f) → dle b (dadd e g) →
  dle (dmin a (dadd b c)) (dadd (dmin e (dadd b g')) (dmin f (dadd g c))).
Proof. intros. dist_cases. Qed.

Lemma relax_adds_triangle (a b c : dist) : dle (dmin a (dadd b c)) (dadd b c).
Proof. dist_cases. Qed.

(** ** One sweep of the relaxation *)

Lemma relax_fst s t : (NavMap.relax s t).1 = relax_dist s.1 t.
Proof.
  destruct s as [d nv], t as [[k i] j]. unfold NavMap.relax, relax_dist. simpl.
  by destruct (dgtb _ _).
Qed.

Lemma foldl_relax_fst l s : (foldl NavMap.relax s l).1 = foldl relax_dist s.1 l.
Proof.
  revert s. induction l as [|t l IH]; intros s; [done|].
  simpl. by rewrite IH, relax_fst.
Qed.

Lemma foldl_bind {A B C} (f : A → C → A) (g : B → list C) (l : list B) (a : A) :
  foldl f a (l ≫= g) = foldl (λ a x, foldl f a (g x)) a l.
Proof.
  revert a. induction l as [|x l IH]; intros a; [done|].
  by rewrite bind_cons, foldl_app, IH.
Qed.

Lemma elem_of_pairs n i j : (i, j) ∈ pairs n ↔ (i < n)%nat ∧ (j < n)%nat.
Proof.
  unfold pairs. rewrite list_elem_of_bind. split.
  - intros (i' & (j' & Hij & Hj)%list_elem_of_bind & Hi).
    apply list_elem_of_singleton in Hij. simplify_eq.
    apply elem_of_seq in Hi, Hj. lia.
  - intros [Hi Hj]. exists i. split; [|apply elem_of_seq; lia].
    apply list_elem_of_bind. exists j. split; [by apply list_elem_of_singleton|].
    apply elem_of_seq; lia.
Qed.

Lemma NoDup_pairs n : NoDup (pairs n).
Proof.
  unfold pairs. apply NoDup_bind.
  - intros i i' [a b] _ _ (j & Hj & _)%list_elem_of_bind (j' & Hj' & _)%list_elem_of_bind.
    apply list_elem_of_singleton in Hj, Hj'. congruence.
  - intros i _. apply NoDup_bind.
    + intros j j' p _ _ Hj Hj'.
      apply list_elem_of_singleton in Hj, Hj'. congruence.
    + intros j _. apply NoDup_singleton.
    + apply NoDup_seq.
  - apply NoDup_seq.
Qed.

Lemma tag_pairs (k : nat) (l1 l2 : list nat) :
  (i ← l1; j ← l2; [(k, i, j)])
  = (λ p, (k, p.1, p.2)) <$> (i ← l1; j ← l2; [(i, j)]).
Proof.
  induction l1 as [|i l1 IH]; [done|].
  rewrite !bind_cons, fmap_app, IH. f_equal.
  clear. induction l2 as [|j l2 IH]; [done|].
  by rewrite !bind_cons, fmap_app, IH.
Qed.

Lemma triples_by_phase n :
  NavMap.triples n = k ← seq 0 n; (λ p, (k, p.1, p.2)) <$> pairs n.
Proof.
  unfold NavMap.triples, pairs. apply list_bind_ext; [|done]. intros k.
  apply tag_pairs.
Qed.

Section Phase.
Variables (n k : nat) (d0 : matrix dist).
Hypothesis Hsq : square n d0.
Hypothesis Hk : (k < n)%nat.
Hypothesis Hkk : mget d0 k k = Hops 0.

Lemma relaxed_row j : relaxed d0 k k j = mget d0 k j.
Proof. unfold relaxed. rewrite Hkk. apply dmin_self_r. Qed.

Lemma relaxed_col i : relaxed d0 k i k = mget d0 i k.
Proof. unfold relaxed. rewrite Hkk. apply dmin_self_l. Qed.

Lemma phase_prefix (ps : list (nat * nat)) :
  NoDup ps → Forall (λ p, (p.1 < n)%nat ∧ (p.2 < n)%nat) ps →
  let d := foldl relax_dist d0 ((λ p, (k, p.1, p.2)) <$> ps) in
  square n d ∧
  ∀ i j, (i < n)%nat → (j < n)%nat →
         mget d i j = if bool_decide ((i, j) ∈ ps) then relaxed d0 k i j
                      else mget d0 i j.
Proof.
  induction ps as [|[i0 j0] ps IH] using rev_ind; intros Hnd Hin d.
  - split; [done|]. intros i j _ _.
    rewrite bool_decide_eq_false_2; [done | apply not_elem_of_nil].
  - apply NoDup_app in Hnd as (Hnd & Hfresh & _).
    apply Forall_app in Hin as [Hin Hij0].
    apply Forall_singleton in Hij0 as [Hi0 Hj0]. simpl in Hi0, Hj0.
    destruct (IH Hnd Hin) as [Hsq' Hcur]. clear IH.
    assert ((i0, j0) ∉ ps) as Hnew.
    { intros Hel. apply (Hfresh _ Hel). by apply list_elem_of_singleton. }
    unfold d. rewrite fmap_app, foldl_app. simpl.
    set (cur := foldl relax_dist d0 ((λ p, (k, p.1, p.2)) <$> ps)) in *.
    assert (mget cur i0 j0 = mget d0 i0 j0) as Hc.
    { rewrite Hcur by done. by rewrite bool_decide_eq_false_2. }
    assert (mget cur i0 k = mget d0 i0 k) as Hl.
    { rewrite Hcur by done. case_bool_decide; [apply relaxed_col | done]. }
    assert (mget cur k j0 = mget d0 k j0) as Hr.
    { rewrite Hcur by done. case_bool_decide; [apply relaxed_row | done]. }
    rewrite Hc, Hl, Hr.
    destruct (dgtb (mget d0 i0 j0) (dadd (mget d0 i0 k) (mget d0 k j0))) eqn:Hgt.
    + split; [by apply mset_square|]. intros i j Hi Hj.
      destruct (decide ((i0, j0) = (i, j))) as [Heq|Hne].
      * simplify_eq. rewrite (mget_mset_eq n) by done.
        rewrite bool_decide_eq_true_2 by (apply elem_of_app; right; by left).
        unfold relaxed, dmin. by rewrite Hgt.
      * rewrite mget_mset_ne by done. rewrite Hcur by done.
        assert ((i, j) ∈ ps ++ [(i0, j0)] ↔ (i, j) ∈ ps) as Hiff
          by (rewrite elem_of_app, list_elem_of_singleton; intuition congruence).
        by rewrite (bool_decide_ext _ _ Hiff).
    + split; [done|]. intros i j Hi Hj. rewrite Hcur by done.
      destruct (decide ((i0, j0) = (i, j))) as [Heq|Hne].
      * simplify_eq. rewrite bool_decide_eq_false_2 by done.
        rewrite bool_decide_eq_true_2 by (apply elem_of_app; right; by left).
        unfold relaxed, dmin. by rewrite Hgt.
      * assert ((i, j) ∈ ps ++ [(i0, j0)] ↔ (i, j) ∈ ps) as Hiff
          by (rewrite elem_of_app, list_elem_of_singleton; intuition congruence).
        by rewrite (bool_decide_ext _ _ Hiff).
Qed.

Lemma phase_relaxes :
  let d := foldl relax_dist d0 ((λ p, (k, p.1, p.2)) <$> pairs n) in
  square n d ∧
  ∀ i j, (i < n)%nat → (j < n)%nat → mget d i j = relaxed d0 k i j.
Proof.
  destruct (phase_prefix (pairs n)) as [Hsq' Hd].
  - apply NoDup_pairs.
  - apply Forall_forall. intros [i j] Hij. by apply elem_of_pairs.
  - split; [done|]. intros i j Hi Hj. rewrite Hd by done.
    by rewrite bool_decide_eq_true_2 by (by apply elem_of_pairs).
Qed.
End Phase.

(** ** The relaxation closes the distances under the triangle inequality *)

Lemma closed_below_step n m d :
  (m < n)%nat → closed_below n m d →
  closed_below n (S m) (foldl relax_dist d ((λ p, (m, p.1, p.2)) <$> pairs n)).
Proof.
  intros Hm (Hsq & Hdiag & Htri).
  destruct (phase_relaxes n m d Hsq Hm (Hdiag m Hm)) as [Hsq' Hd].
  split; [done|]. split.
  - intros i Hi. rewrite Hd by done. unfold relaxed.
    rewrite (Hdiag i Hi). apply dmin_zero.
  - intros i j k Hi Hj Hk.
    assert (k < n)%nat as Hkn by lia.
    rewrite !Hd by done. unfold relaxed.
    destruct (decide (k = m)) as [->|Hne].
    + rewrite (Hdiag m Hm), dmin_self_l, dmin_self_r.
      apply relax_adds_triangle.
    + apply relax_keeps_triangle; apply Htri; done || lia.
Qed.

Lemma relaxation_closes n d :
  closed_below n 0 d → closed_below n n (foldl relax_dist d (NavMap.triples n)).
Proof.
  intros H0. rewrite triples_by_phase, foldl_bind.
  assert (∀ m, (m ≤ n)%nat →
            closed_below n m
              (foldl (λ a k, foldl relax_dist a ((λ p, (k, p.1, p.2)) <$> pairs n))
                     d (seq 0 m))) as Hall.
  { induction m as [|m IH]; intros Hm; [done|].
    rewrite seq_S, foldl_app. simpl. apply closed_below_step; [lia|].
    apply IH. lia. }
  by apply Hall.
Qed.

(** ** Invariants of loops that may raise *)

Lemma for_each_app {S A} (f : S → A → result S) l1 l2 s :
  for_each f (l1 ++ l2) s = for_each f l1 s ≫= for_each f l2.
Proof.
  revert s. induction l1 as [|x l1 IH]; intros s; [done|].
  simpl. destruct (f s x); simpl; [apply IH | done | done].
Qed.

Lemma for_each_inv {S A} (P : S → Prop) (f : S → A → result S) l s s' :
  (∀ s x s', x ∈ l → P s → f s x = Ok s' → P s') →
  P s → for_each f l s = Ok s' → P s'.
Proof.
  revert s. induction l as [|x l IH]; intros s Hstep Hs Hrun.
  - by simplify_eq/=.
  - simpl in Hrun. destruct (f s x) as [s1| |] eqn:E; simplify_eq/=.
    apply (IH s1); [|by eapply Hstep; [left|..]|done].
    intros ??? Hin. apply Hstep. by right.
Qed.

Lemma for_each_total {S A} (P : S → Prop) (f : S → A → result S) l s :
  (∀ s x, x ∈ l → P s → ∃ s', f s x = Ok s' ∧ P s') →
  P s → ∃ s', for_each f l s = Ok s' ∧ P s'.
Proof.
  revert s. induction l as [|x l IH]; intros s Hstep Hs.
  - by exists s.
  - destruct (Hstep s x) as (s1 & Hf & Hs1); [by left | done |].
    simpl. rewrite Hf. simpl. apply IH; [|done].
    intros ?? Hin. apply Hstep. by right.
Qed.

(** ** The stages of [_update_navmap] keep the diagonal clear *)

Lemma fill_diagonal n l d :
  square n d → Forall (λ i, (i < n)%nat) l →
  let d' := foldl (λ d i, mset d i i (Hops 0)) d l in
  square n d' ∧
  ∀ i j, (i < n)%nat → (j < n)%nat →
         mget d' i j = if bool_decide (i = j ∧ i ∈ l) then Hops 0 else mget d i j.
Proof.
  revert d. induction l as [|x l IH]; intros d Hsq Hl d'.
  - split; [done|]. intros i j _ _. rewrite bool_decide_eq_false_2; [done|].
    intros [_ Hin]. by apply not_elem_of_nil in Hin.
  - apply Forall_cons in Hl as [Hx Hl].
    destruct (IH (mset d x x (Hops 0)) (mset_square _ _ _ _ _ Hsq) Hl) as [Hsq' Hd].
    split; [done|]. intros i j Hi Hj. unfold d'. simpl. rewrite Hd by done.
    destruct (decide ((x, x) = (i, j))) as [Heq|Hne].
    + simplify_eq. rewrite (mget_mset_eq n) by done.
      rewrite (bool_decide_eq_true_2 (j = j ∧ j ∈ j :: l)) by (split; [done | left]).
      by destruct (bool_decide _).
    + rewrite mget_mset_ne by done.
      assert ((i = j ∧ i ∈ x :: l) ↔ (i = j ∧ i ∈ l)) as Hiff.
      { rewrite elem_of_cons. intuition congruence. }
      by rewrite (bool_decide_ext _ _ Hiff).
Qed.

Lemma init_maps_clear n : diagonal_clear n (NavMap.fresh_maps n).
Proof.
  unfold NavMap.fresh_maps.
  destruct (fill_diagonal n (seq 0 n) (mfull n Inf)) as [Hsq Hd].
  { apply mfull_square. }
  { apply Forall_forall. intros i Hi. apply elem_of_seq in Hi. lia. }
  split; [done|]. split; [apply mfull_square|]. simpl. split.
  - intros i Hi. split.
    + rewrite Hd by done. rewrite bool_decide_eq_true_2; [done|].
      split; [done|]. apply elem_of_seq. lia.
    + by apply mget_mfull.
  - intros i j Hi Hj Hne. rewrite Hd by done.
    rewrite bool_decide_eq_false_2 by (by intros [? _]).
    by rewrite mget_mfull.
Qed.

Lemma set_edge_clear (n : nat) (s : NavMap.maps) (i j : nat) (v : routes) :
  i ≠ j → diagonal_clear n s →
  diagonal_clear n (mset s.1 i j (Hops 1), mset s.2 i j v).
Proof.
  intros Hne (Hd & Hnv & Hdiag & Hoff).
  split; [by apply mset_square|]. split; [by apply mset_square|]. simpl. split.
  - intros x Hx. rewrite !mget_mset_ne by congruence. by apply Hdiag.
  - intros x y Hx Hy Hxy.
    destruct (decide ((i, j) = (x, y))) as [Heq|Hneq].
    + simplify_eq. by rewrite (mget_mset_eq n).
    + rewrite mget_mset_ne by done. by apply Hoff.
Qed.

Lemma connect_clear (n : nat) (c : City) (col : string) (dirs : gset Z)
    (s : NavMap.maps) (i : nat) (s' : NavMap.maps) :
  diagonal_clear n s → NavMap.connect c col dirs s i = Ok s' → diagonal_clear n s'.
Proof.
  intros Hs Hrun. destruct s as [d nv]. unfold NavMap.connect in Hrun.
  apply bind_Ok in Hrun as ([d1 nv1] & Hfst & Hsnd).
  assert (diagonal_clear n (d1, nv1)) as H1.
  { destruct (bool_decide (1 ∈ dirs)); [|by simplify_eq].
    apply bind_Ok in Hfst as (? & _ & Hfst).
    apply bind_Ok in Hfst as (? & _ & Hfst). simplify_eq.
    apply (set_edge_clear n (d, nv)); [lia | done]. }
  destruct (bool_decide (-1 ∈ dirs)); [|by simplify_eq].
  apply bind_Ok in Hsnd as (? & _ & Hsnd).
  apply bind_Ok in Hsnd as (? & _ & Hsnd). simplify_eq.
  apply (set_edge_clear n (d1, nv1)); [lia | done].
Qed.

Lemma connect_line_clear (n : nat) (c : City) (s : NavMap.maps)
    (ll : line_ref * Line) (s' : NavMap.maps) :
  diagonal_clear n s → NavMap.connect_line c s ll = Ok s' → diagonal_clear n s'.
Proof.
  intros Hs Hrun. destruct ll as [l ln]. unfold NavMap.connect_line in Hrun.
  apply bind_Ok in Hrun as (dirs & _ & Hrun).
  eapply (for_each_inv (diagonal_clear n)); [|exact Hs|exact Hrun].
  intros ???? ?. by apply connect_clear.
Qed.

Lemma relax_clear (n : nat) (s : NavMap.maps) (k i j : nat) :
  (k < n)%nat → (i < n)%nat → (j < n)%nat →
  diagonal_clear n s → diagonal_clear n (NavMap.relax s (k, i, j)).
Proof.
  intros Hk Hi Hj (Hd & Hnv & Hdiag & Hoff). destruct s as [d nv]. simpl in *.
  unfold NavMap.relax.
  destruct (decide (i = j)) as [->|Hne].
  - (* a diagonal cell: its distance is zero, nothing is shorter *)
    destruct (Hdiag j Hj) as [Hz He]. rewrite Hz, dgtb_zero.
    case_bool_decide as Hvia; [|exact (conj Hd (conj Hnv (conj Hdiag Hoff)))].
    symmetry in Hvia. apply dadd_is_zero in Hvia as [Hjk _].
    destruct (decide (j = k)) as [->|Hjk'];
      [|by destruct (Hoff j k Hj Hk Hjk')].
    rewrite He, (left_id_L ∅ (∪)).
    split; [done|]. split; [by apply mset_square|]. simpl. split; [|done].
    intros x Hx. destruct (decide (x = k)) as [->|Hxk].
    + by rewrite (mget_mset_eq n).
    + rewrite mget_mset_ne by congruence. by apply Hdiag.
  - (* an off-diagonal cell: the diagonal is left alone *)
    set (via := dadd (mget d i k) (mget d k j)).
    assert (via ≠ Hops 0) as Hvia.
    { intros [Hik Hkj]%dadd_is_zero.
      destruct (decide (i = k)) as [->|Hik']; [by apply (Hoff k j) | by apply (Hoff i k)]. }
    set (nv1 := if bool_decide (mget d i j = via)
                then mset nv i j (mget nv i j ∪ mget nv i k) else nv).
    assert (square n nv1 ∧ ∀ x, (x < n)%nat → mget nv1 x x = ∅) as [Hnv1 Hdiag1].
    { unfold nv1. case_bool_decide.
      - split; [by apply mset_square|]. intros x Hx.
        rewrite mget_mset_ne by congruence. by apply Hdiag.
      - split; [done|]. intros x Hx. by apply Hdiag. }
    destruct (dgtb (mget d i j) via).
    + split; [by apply mset_square|]. split; [by apply mset_square|]. simpl. split.
      * intros x Hx. rewrite !mget_mset_ne by congruence.
        split; [by apply Hdiag | by apply Hdiag1].
      * intros x y Hx Hy Hxy.
        destruct (decide ((i, j) = (x, y))) as [Heq|Hneq].
        -- simplify_eq. by rewrite (mget_mset_eq n).
        -- rewrite mget_mset_ne by done. by apply Hoff.
    + split; [done|]. split; [done|]. simpl. split; [|done].
      intros x Hx. split; [by apply Hdiag | by apply Hdiag1].
Qed.

Lemma elem_of_triples n k i j :
  (k, i, j) ∈ NavMap.triples n → (k < n)%nat ∧ (i < n)%nat ∧ (j < n)%nat.
Proof.
  unfold NavMap.triples.
  intros (k' & (i' & (j' & Hx & Hj)%list_elem_of_bind & Hi)%list_elem_of_bind & Hk)
    %list_elem_of_bind.
  apply list_elem_of_singleton in Hx. simplify_eq.
  apply elem_of_seq in Hk, Hi, Hj. lia.
Qed.

Lemma foldl_inv {S A} (P : S → Prop) (f : S → A → S) l s :
  (∀ s x, x ∈ l → P s → P (f s x)) → P s → P (foldl f s l).
Proof.
  revert s. induction l as [|x l IH]; intros s Hstep Hs; [done|].
  simpl. apply IH; [|apply Hstep; [left | done]].
  intros ?? Hin. apply Hstep. by right.
Qed.

Lemma relaxation_clear (n : nat) (s : NavMap.maps) :
  diagonal_clear n s → diagonal_clear n (foldl NavMap.relax s (NavMap.triples n)).
Proof.
  intros Hs. apply foldl_inv; [|done].
  intros s' [[k i] j] (Hk & Hi & Hj)%elem_of_triples Hs'. by apply relax_clear.
Qed.

(** ** [_update_navmap] as a whole *)

(** The rebuild needs a station: in a city without one it raises, and a
    rebuild that completes has gone through the edge loop and the
    relaxation from the freshly filled arrays. *)
Lemma compute_no_stations (c : City) :
  stations c = [] → NavMap.compute c = Raise ValueError.
Proof. intros Hnone. unfold NavMap.compute. by rewrite Hnone. Qed.

Lemma init_maps_Ok (n : nat) : n ≠ 0%nat → NavMap.init_maps n = Ok (NavMap.fresh_maps n).
Proof. intros Hn. unfold NavMap.init_maps. by rewrite bool_decide_eq_false_2. Qed.

Lemma compute_stages (c : City) (r : NavMap.maps) :
  NavMap.compute c = Ok r →
  stations c ≠ [] ∧
  ∃ s, for_each (NavMap.connect_line c) (imap pair (lines c))
         (NavMap.fresh_maps (length (stations c))) = Ok s
       ∧ foldl NavMap.relax s (NavMap.triples (length (stations c))) = r.
Proof.
  unfold NavMap.compute, NavMap.init_maps. case_bool_decide as Hn; [done|].
  cbn [mbind result_bind Py.bind].
  intros (s & Hedges & [= Hrelax])%bind_Ok. split; [|by exists s].
  intros Hnone. by rewrite Hnone in Hn.
Qed.

Lemma compute_clear (c : City) (d : matrix dist) (nv : matrix routes) :
  NavMap.compute c = Ok (d, nv) →
  diagonal_clear (length (stations c)) (d, nv) ∧
  closed_below (length (stations c)) (length (stations c)) d.
Proof.
  intros (_ & s & Hedges & Hrelax)%compute_stages.
  set (n := length (stations c)) in *.
  assert (diagonal_clear n s) as Hs.
  { eapply (for_each_inv (diagonal_clear n)); [|apply init_maps_clear|exact Hedges].
    intros ???? ?. by apply connect_line_clear. }
  split.
  - rewrite <- Hrelax. by apply relaxation_clear.
  - replace d with (foldl NavMap.relax s (NavMap.triples n)).1 by (by rewrite Hrelax).
    rewrite foldl_relax_fst. apply relaxation_closes.
    destruct Hs as (Hsq & _ & Hdiag & _).
    split; [done|]. split; [intros i Hi; by apply Hdiag | lia].
Qed.

Lemma is_circular_total h l :
  nodes_valid h (station_nodes l) → ∃ b, LineM.is_circular h l = Ok b.
Proof.
  intros Hvalid. unfold LineM.is_circular. case_bool_decide as Hlen; [by eexists|].
  assert (2 ≤ length (station_nodes l))%nat as Hlen' by lia.
  destruct (ends_exist h l Hlen' Hvalid) as (a & b & fnd & lnd & Hf & Hl & Hhf & Hhl).
  rewrite (index_head _ _ Hf), (index_last _ _ Hl). simpl. rewrite Hhl. simpl.
  by eexists.
Qed.

Lemma connect_total (c : City) (col : string) (dirs : gset Z) (s : NavMap.maps)
    (i : nat) :
  (i + 1 < length (stations c))%nat → ∃ s', NavMap.connect c col dirs s i = Ok s'.
Proof.
  intros Hi. destruct s as [d nv]. unfold NavMap.connect.
  destruct (lookup_lt_is_Some_2 (stations c) i) as [x Hx]; [lia|].
  destruct (lookup_lt_is_Some_2 (stations c) (i + 1)) as [y Hy]; [lia|].
  rewrite (index_nat _ _ _ Hx), (index_nat _ _ _ Hy).
  destruct (bool_decide (1 ∈ dirs)), (bool_decide (-1 ∈ dirs)); simpl; by eexists.
Qed.

Lemma compute_total (c : City) :
  stations c ≠ [] → lines_fit c → ∃ d nv, NavMap.compute c = Ok (d, nv).
Proof.
  intros Hsome Hfit. unfold NavMap.compute.
  rewrite init_maps_Ok by (by destruct (stations c)).
  cbn [mbind result_bind Py.bind].
  destruct (for_each_total (λ _, True) (NavMap.connect_line c)
              (imap pair (lines c)) (NavMap.fresh_maps (length (stations c))))
    as (s & Hs & _); [|done|].
  - intros s [l ln] Hin _.
    apply list_elem_of_lookup in Hin as [i Hi].
    rewrite list_lookup_imap in Hi.
    destruct (lines c !! i) as [ln'|] eqn:Hln; simplify_eq/=.
    unfold lines_fit in Hfit. rewrite Forall_lookup in Hfit.
    destruct (Hfit _ _ Hln) as [Hvalid Hlen].
    unfold NavMap.connect_line, NavMap.directions_of.
    destruct (is_circular_total _ _ Hvalid) as [b ->]. simpl.
    assert (∀ dirs : gset Z,
              ∃ s', for_each (NavMap.connect c (color ln) dirs)
                      (seq 0 (length (station_nodes ln) - 1)) s = Ok s') as Hloop.
    { intros dirs.
      destruct (for_each_total (λ _, True) (NavMap.connect c (color ln) dirs)
                  (seq 0 (length (station_nodes ln) - 1)) s) as (s' & Hs' & _);
        [|done|by exists s'].
      intros s0 k Hk _. apply elem_of_seq in Hk.
      destruct (connect_total c (color ln) dirs s0 k) as [s1 Hs1]; [lia|].
      by exists s1. }
    destruct b; simpl.
    + destruct (Hloop (list_to_set (direction <$> NavMap.trains_of c l)))
        as [s' Hs']. by exists s'.
    + destruct (Hloop {[ -1; 1 ]}) as [s' Hs']. by exists s'.
  - rewrite Hs. simpl. destruct (foldl _ _ _) as [d nv]. by exists d, nv.
Qed.

Lemma update_navmap_total (c : City) :
  stations c ≠ [] → lines_fit c → ∃ c', NavMap._update_navmap c = Ok c'.
Proof.
  intros Hsome Hfit. destruct (compute_total c Hsome Hfit) as (d & nv & Hrun).
  unfold NavMap._update_navmap. rewrite Hrun. simpl. by eexists.
Qed.

Lemma update_navmap_no_stations (c : City) :
  stations c = [] → NavMap._update_navmap c = Raise ValueError.
Proof.
  intros Hnone. unfold NavMap._update_navmap. by rewrite compute_no_stations.
Qed.

(** C4: what the rebuild leaves in the distance map.  In a city without
    stations [_update_navmap] raises ValueError.  Whenever it completes -
    and it does for every city that has a station and whose lines are laid
    out over existing nodes with no more nodes than there are stations - the
    new distance map satisfies distance(i,j) <= distance(i,k) +
    distance(k,j) for all stations i, j, k, and distance(i,i) = 0. *)
Theorem navmap_closure (c : City) :
  (stations c = [] → NavMap._update_navmap c = Raise ValueError) ∧
  (stations c ≠ [] → lines_fit c → ∃ c', NavMap._update_navmap c = Ok c') ∧
  ∀ c', NavMap._update_navmap c = Ok c' →
    ∃ d, distmap c' = Some d ∧ stations c' = stations c ∧
      ∀ i j k, (i < length (stations c))%nat → (j < length (stations c))%nat →
               (k < length (stations c))%nat →
               dle (mget d i j) (dadd (mget d i k) (mget d k j)) ∧
               mget d i i = Hops 0.
Proof.
  split; [apply update_navmap_no_stations|]. split.
  - apply update_navmap_total.
  - intros c' Hrun. unfold NavMap._update_navmap in Hrun.
    apply bind_Ok in Hrun as ([d nv] & Hcomp & Hset). simplify_eq/=.
    exists d. split; [done|]. split; [done|].
    destruct (compute_clear c d nv Hcomp) as [_ (_ & Hdiag & Htri)].
    intros i j k Hi Hj Hk. split; [by apply Htri | by apply Hdiag].
Qed.

Lemma lines_fit_abc : lines_fit city_abc.
Proof.
  apply Forall_singleton. split; [apply three_line_valid | simpl; lia].
Qed.

Lemma navmap_closure_witness :
  stations city_abc ≠ [] ∧ lines_fit city_abc ∧
  NavMap._update_navmap City_init = Raise ValueError ∧
  ∃ c' d, NavMap._update_navmap city_abc = Ok c' ∧ distmap c' = Some d ∧
          dle (mget d 0 2) (dadd (mget d 0 1) (mget d 1 2)) ∧
          mget d 0 0 = Hops 0.
Proof.
  assert (stations city_abc ≠ []) as Hsome by done.
  split; [exact Hsome|]. split; [apply lines_fit_abc|].
  split; [by apply (navmap_closure City_init)|].
  destruct (navmap_closure city_abc) as (_ & Htotal & Hclosed).
  destruct (Htotal Hsome lines_fit_abc) as [c' Hrun].
  destruct (Hclosed c' Hrun) as (d & Hd & _ & Htri).
  exists c', d. split; [done|]. split; [done|].
  apply (Htri 0 2 1)%nat; simpl; lia.
Defined.



(** ** Scenario B: a one-way ring *)

Lemma bind_ret {A B} (a : A) (f : A → result B) : (Ok a ≫= f) = f a.
Proof. reflexivity. Qed.

Lemma for_each_cons {S A} (f : S → A → result S) x l s :
  for_each f (x :: l) s = f s x ≫= for_each f l.
Proof. reflexivity. Qed.

Lemma for_each_nil {S A} (f : S → A → result S) s : for_each f [] s = Ok s.
Proof. reflexivity. Qed.

Section Ring.
Variables (c : City) (ln : Line) (tr : Train).
Hypothesis Hstations : length (stations c) = 4%nat.
Hypothesis Hlines : lines c = [ln].
Hypothesis Hnodes : length (station_nodes ln) = 4%nat.
Hypothesis Hring : LineM.is_circular (nodes c) ln = Ok true.
Hypothesis Htrains : NavMap.trains_of c 0 = [tr].
Hypothesis Hforward : direction tr = 1.

Lemma ring_directions : NavMap.directions_of c 0 ln = Ok {[ 1 ]}.
Proof.
  unfold NavMap.directions_of. rewrite Hring, bind_ret, Htrains.
  rewrite list_fmap_singleton, Hforward. reflexivity.
Qed.

Lemma ring_connect (s : NavMap.maps) (i : nat) :
  (i + 1 < 4)%nat →
  ∃ nv, NavMap.connect c (color ln) {[ 1 ]} s i
        = Ok (mset s.1 i (S i) (Hops 1), nv).
Proof.
  intros Hi. destruct s as [d nv]. unfold NavMap.connect.
  rewrite <- (Nat.add_1_r i).
  destruct (lookup_lt_is_Some_2 (stations c) i) as [x Hx]; [lia|].
  destruct (lookup_lt_is_Some_2 (stations c) (i + 1)) as [y Hy]; [lia|].
  rewrite (index_nat _ _ _ Hx), (index_nat _ _ _ Hy).
  rewrite (bool_decide_eq_true_2 (1 ∈ ({[1]} : gset Z)))
    by (by apply elem_of_singleton).
  rewrite (bool_decide_eq_false_2 (-1 ∈ ({[1]} : gset Z)))
    by (by intros ?%elem_of_singleton).
  rewrite !bind_ret. by eexists.
Qed.

Lemma ring_edges (s : NavMap.maps) :
  ∃ nv, NavMap.connect_line c s (0%nat, ln)
        = Ok (mset (mset (mset s.1 0 1 (Hops 1)) 1 2 (Hops 1)) 2 3 (Hops 1), nv).
Proof.
  unfold NavMap.connect_line. rewrite ring_directions, bind_ret, Hnodes.
  change (seq 0 (4 - 1)) with [0; 1; 2]%nat.
  destruct (ring_connect s 0) as [nv0 H0]; [lia|].
  destruct (ring_connect (mset s.1 0 1 (Hops 1), nv0) 1) as [nv1 H1]; [lia|].
  destruct (ring_connect (mset (mset s.1 0 1 (Hops 1)) 1 2 (Hops 1), nv1) 2)
    as [nv2 H2]; [lia|].
  exists nv2. cbn [fst] in H1, H2.
  rewrite for_each_cons, H0, bind_ret.
  rewrite for_each_cons, H1, bind_ret.
  rewrite for_each_cons, H2, bind_ret.
  apply for_each_nil.
Qed.

Lemma ring_relaxed (nv : matrix routes) :
  (foldl NavMap.relax
     (mset (mset (mset (NavMap.fresh_maps 4).1 0 1 (Hops 1)) 1 2 (Hops 1))
           2 3 (Hops 1), nv)
     (NavMap.triples 4)).1 = ring_distances.
Proof. rewrite foldl_relax_fst. cbn [fst]. vm_compute. reflexivity. Qed.

Lemma ring_compute : ∃ nv, NavMap.compute c = Ok (ring_distances, nv).
Proof.
  unfold NavMap.compute. rewrite Hlines, Hstations.
  rewrite init_maps_Ok by done. rewrite bind_ret.
  change (imap pair [ln]) with [(0%nat, ln)].
  destruct (ring_edges (NavMap.fresh_maps 4)) as [nv He].
  rewrite for_each_cons, He, bind_ret, for_each_nil, bind_ret.
  pose proof (ring_relaxed nv) as Hr.
  set (r := foldl NavMap.relax _ _) in *. clearbody r.
  destruct r as [d nv']. exists nv'. simpl in Hr. by rewrite Hr.
Qed.
End Ring.

(** The same scenario set up through [Line.make_circular]: the line does
    not count as circular, both directions are entered, and the stations
    are as far apart as on an open line. *)
Section MadeCircular.
Variables (c : City) (ln : Line).
Hypothesis Hstations : length (stations c) = 4%nat.
Hypothesis Hlines : lines c = [ln].
Hypothesis Hnodes : length (station_nodes ln) = 4%nat.
Hypothesis Hopen : LineM.is_circular (nodes c) ln = Ok false.

Lemma row_connect (s : NavMap.maps) (i : nat) :
  (i + 1 < 4)%nat →
  ∃ nv, NavMap.connect c (color ln) {[ -1; 1 ]} s i
        = Ok (mset (mset s.1 i (S i) (Hops 1)) (S i) i (Hops 1), nv).
Proof.
  intros Hi. destruct s as [d nv]. unfold NavMap.connect.
  rewrite <- (Nat.add_1_r i).
  destruct (lookup_lt_is_Some_2 (stations c) i) as [x Hx]; [lia|].
  destruct (lookup_lt_is_Some_2 (stations c) (i + 1)) as [y Hy]; [lia|].
  rewrite (index_nat _ _ _ Hx), (index_nat _ _ _ Hy).
  rewrite (bool_decide_eq_true_2 (1 ∈ ({[-1; 1]} : gset Z)))
    by (apply elem_of_union; right; by apply elem_of_singleton).
  rewrite (bool_decide_eq_true_2 (-1 ∈ ({[-1; 1]} : gset Z)))
    by (apply elem_of_union; left; by apply elem_of_singleton).
  rewrite !bind_ret. by eexists.
Qed.

Lemma row_edges (s : NavMap.maps) :
  ∃ nv, NavMap.connect_line c s (0%nat, ln)
        = Ok (mset (mset (mset (mset (mset (mset s.1
                0 1 (Hops 1)) 1 0 (Hops 1))
                1 2 (Hops 1)) 2 1 (Hops 1))
                2 3 (Hops 1)) 3 2 (Hops 1), nv).
Proof.
  unfold NavMap.connect_line, NavMap.directions_of.
  rewrite Hopen, !bind_ret, Hnodes.
  change (seq 0 (4 - 1)) with [0; 1; 2]%nat.
  destruct (row_connect s 0) as [nv0 H0]; [lia|].
  destruct (row_connect (mset (mset s.1 0 1 (Hops 1)) 1 0 (Hops 1), nv0) 1)
    as [nv1 H1]; [lia|].
  destruct (row_connect
              (mset (mset (mset (mset s.1 0 1 (Hops 1)) 1 0 (Hops 1))
                       1 2 (Hops 1)) 2 1 (Hops 1), nv1) 2)
    as [nv2 H2]; [lia|].
  exists nv2. cbn [fst] in H1, H2.
  rewrite for_each_cons, H0, bind_ret.
  rewrite for_each_cons, H1, bind_ret.
  rewrite for_each_cons, H2, bind_ret.
  apply for_each_nil.
Qed.

Lemma row_relaxed (nv : matrix routes) :
  (foldl NavMap.relax
     (mset (mset (mset (mset (mset (mset (NavMap.fresh_maps 4).1
        0 1 (Hops 1)) 1 0 (Hops 1)) 1 2 (Hops 1)) 2 1 (Hops 1))
        2 3 (Hops 1)) 3 2 (Hops 1), nv)
     (NavMap.triples 4)).1 = row_distances.
Proof. rewrite foldl_relax_fst. cbn [fst]. vm_compute. reflexivity. Qed.

Lemma row_compute : ∃ nv, NavMap.compute c = Ok (row_distances, nv).
Proof.
  unfold NavMap.compute. rewrite Hlines, Hstations.
  rewrite init_maps_Ok by done. rewrite bind_ret.
  change (imap pair [ln]) with [(0%nat, ln)].
  destruct (row_edges (NavMap.fresh_maps 4)) as [nv He].
  rewrite for_each_cons, He, bind_ret, for_each_nil, bind_ret.
  pose proof (row_relaxed nv) as Hr.
  set (r := foldl NavMap.relax _ _) in *. clearbody r.
  destruct r as [d nv']. exists nv'. simpl in Hr. by rewrite Hr.
Qed.
End MadeCircular.

Example made_circular_distances :
  LineM.make_circular four_nodes ring_line = Ok made_circular_nodes ∧
  LineM.is_circular made_circular_nodes ring_line = Ok false ∧
  ∃ c', NavMap._update_navmap city_made_circular = Ok c' ∧
        distmap c' = Some row_distances ∧
        mget row_distances 1 0 = Hops 1.
Proof.
  split; [reflexivity|]. split; [reflexivity|].
  destruct (row_compute city_made_circular ring_line) as [nv Hrun];
    try reflexivity.
  unfold NavMap._update_navmap. rewrite Hrun, bind_ret.
  eexists. split; [reflexivity|]. by split.
Qed.

(** C1: what the rebuild computes in scenario B.  For every city of four
    stations whose one line is circular with four nodes and whose one train
    on that line runs in direction +1, the rebuild completes; the -1 edges
    are indeed absent, but the edge that closes the ring (last station back
    to first) is never entered either, so distance(i, i-1) is infinite for
    i = 1, 2, 3 instead of 3; only distance(0, 3) is 3. *)
Theorem one_way_ring_distances (c : City) (ln : Line) (tr : Train) :
  length (stations c) = 4%nat →
  lines c = [ln] →
  length (station_nodes ln) = 4%nat →
  LineM.is_circular (nodes c) ln = Ok true →
  NavMap.trains_of c 0 = [tr] →
  direction tr = 1 →
  ∃ c', NavMap._update_navmap c = Ok c' ∧
        distmap c' = Some ring_distances ∧
        mget ring_distances 1 0 = Inf ∧
        mget ring_distances 2 1 = Inf ∧
        mget ring_distances 3 2 = Inf ∧
        mget ring_distances 0 3 = Hops 3.
Proof.
  intros Hst Hl Hn Hc Ht Hd.
  destruct (ring_compute c ln tr Hst Hl Hn Hc Ht Hd) as [nv Hrun].
  unfold NavMap._update_navmap. rewrite Hrun, bind_ret.
  eexists. split; [reflexivity|]. repeat split.
Qed.

Lemma one_way_ring_distances_witness :
  LineM.is_circular (nodes city_ring) ring_line = Ok true ∧
  NavMap.trains_of city_ring 0 = [train_at 0 1] ∧
  ∃ c', NavMap._update_navmap city_ring = Ok c' ∧
        distmap c' = Some ring_distances ∧
        mget ring_distances 1 0 = Inf ∧
        mget ring_distances 2 1 = Inf ∧
        mget ring_distances 3 2 = Inf ∧
        mget ring_distances 0 3 = Hops 3.
Proof.
  split; [reflexivity|]. split; [reflexivity|].
  apply (one_way_ring_distances city_ring ring_line (train_at 0 1));
    reflexivity.
Defined.


(** ** Updates of the city's registries *)

Lemma put_train_trains c t tr : trains (put_train c t tr) = <[t := tr]> (trains c).
Proof. reflexivity. Qed.

Lemma put_station_trains c s st : trains (put_station c s st) = trains c.
Proof. reflexivity. Qed.

Lemma put_passenger_trains c p x : trains (put_passenger c p x) = trains c.
Proof. reflexivity. Qed.

Lemma put_train_put_train c t a b :
  put_train (put_train c t a) t b = put_train c t b.
Proof.
  unfold put_train, set_trains. simpl. by rewrite list_insert_insert_eq.
Qed.

Lemma put_station_put_station c s a b :
  put_station (put_station c s a) s b = put_station c s b.
Proof.
  unfold put_station, set_stations. simpl. by rewrite list_insert_insert_eq.
Qed.

Lemma put_train_put_station c t tr s st :
  put_train (put_station c s st) t tr = put_station (put_train c t tr) s st.
Proof. reflexivity. Qed.

Lemma put_train_id c t tr : trains c !! t = Some tr → put_train c t tr = c.
Proof.
  intros Ht. destruct c. unfold put_train, set_trains. simpl in *.
  by rewrite list_insert_id.
Qed.

Lemma put_station_id c s st : stations c !! s = Some st → put_station c s st = c.
Proof.
  intros Hs. destruct c. unfold put_station, set_stations. simpl in *.
  by rewrite list_insert_id.
Qed.

Lemma get_put_train c t tr :
  is_Some (trains c !! t) → get_train (put_train c t tr) t = Ok tr.
Proof.
  intros Ht. unfold get_train. rewrite put_train_trains.
  rewrite list_lookup_insert_eq; [done|]. by apply lookup_lt_is_Some.
Qed.

Lemma get_put_station c s st :
  is_Some (stations c !! s) → get_station (put_station c s st) s = Ok st.
Proof.
  intros Hs. unfold get_station, put_station. simpl.
  rewrite list_lookup_insert_eq; [done|]. by apply lookup_lt_is_Some.
Qed.

Lemma set_train_passengers_id tr :
  set_train_passengers (train_passengers tr) tr = tr.
Proof. by destruct tr. Qed.

Lemma set_station_passengers_id st :
  set_station_passengers (station_passengers st) st = st.
Proof. by destruct st. Qed.

Lemma get_train_Ok c t tr : trains c !! t = Some tr → get_train c t = Ok tr.
Proof. intros Ht. unfold get_train. by rewrite Ht. Qed.

Lemma get_station_Ok c s st : stations c !! s = Some st → get_station c s = Ok st.
Proof. intros Hs. unfold get_station. by rewrite Hs. Qed.

(** ** Train.remove_wagon *)

Lemma pop_snoc ps p : TrainM.pop (ps ++ [p]) = Ok (ps, p).
Proof.
  unfold TrainM.pop. rewrite last_snoc. by rewrite removelast_last.
Qed.

Section Evict.
Variables (t : train_ref) (s : station_ref) (a : node_ref) (nd : Station_Node).
Hypothesis Hnd : station nd = s.

(** The loop pops from the end until the count is within [capacity]; the
    passengers popped are appended to the station in popping order. *)
Lemma evict_drops fuel c tr st :
  trains c !! t = Some tr → station_node tr = Some a → nodes c !! a = Some nd →
  stations c !! s = Some st → 0 ≤ capacity tr →
  (length (train_passengers tr) < fuel)%nat →
  let k := (length (train_passengers tr) `min` Z.to_nat (capacity tr))%nat in
  TrainM.evict fuel c t
  = Ok (put_station
          (put_train c t (set_train_passengers (take k (train_passengers tr)) tr))
          s (set_station_passengers
               (station_passengers st ++ reverse (drop k (train_passengers tr))) st)).
Proof.
  revert c tr st. induction fuel as [|fuel IH]; intros c tr st Ht Ha Hn Hs Hcap Hfuel k;
    [lia|].
  simpl. unfold get_train at 1. rewrite Ht. simpl.
  case_bool_decide as Hover.
  - (* one passenger too many: pop and go round again *)
    destruct (train_passengers tr) as [|p0 ps0] eqn:Hps using rev_ind;
      [simpl in Hover; lia|]. clear IHps0.
    rename p0 into p. rename ps0 into ps.
    rewrite pop_snoc. simpl.
    rewrite length_app in Hover, Hfuel. simpl in Hover, Hfuel.
    set (tr0 := set_train_passengers ps tr).
    unfold station_of_train. rewrite Ha. simpl.
    rewrite Hn. simpl. rewrite Hnd.
    unfold station_append, get_station. simpl. rewrite Hs. simpl.
    set (st1 := set_station_passengers (station_passengers st ++ [p]) st).
    rewrite (IH (put_station (put_train c t tr0) s st1) tr0 st1).
    + simpl. rewrite !put_train_put_station, put_train_put_train.
      rewrite put_station_put_station.
      assert (k = Z.to_nat (capacity tr)) as Hk.
      { unfold k. rewrite length_app. simpl. lia. }
      assert ((length ps `min` Z.to_nat (capacity tr))%nat = Z.to_nat (capacity tr))
        as -> by lia.
      rewrite Hk. f_equal. f_equal.
      * destruct tr. unfold tr0, set_train_passengers. simpl in *. f_equal.
        rewrite take_app_le by lia. done.
      * destruct st. unfold st1, set_station_passengers. simpl. f_equal.
        rewrite drop_app_le by lia. rewrite reverse_app. simpl.
        by rewrite <- app_assoc.
    + simpl. apply list_lookup_insert_eq. by eapply lookup_lt_Some.
    + done.
    + done.
    + simpl. apply list_lookup_insert_eq. by eapply lookup_lt_Some.
    + done.
    + simpl. lia.
  - (* within capacity: nothing to do *)
    assert (k = length (train_passengers tr)) as Hk by (unfold k; lia).
    rewrite Hk, firstn_all, drop_all. simpl. rewrite app_nil_r.
    by rewrite set_train_passengers_id, set_station_passengers_id,
      (put_train_id _ _ _ Ht), (put_station_id _ _ _ Hs).
Qed.
End Evict.

Lemma wagons_above_one tr : 1 < TrainM.wagons tr → 6 ≤ capacity tr - WAGON_CAPACITY.
Proof.
  unfold TrainM.wagons, WAGON_CAPACITY. intros Hw.
  pose proof (Z.mul_div_le (capacity tr) 6). lia.
Qed.

Lemma remove_wagon_refused c t tr :
  trains c !! t = Some tr → TrainM.wagons tr ≤ 1 →
  TrainM.remove_wagon c t = Ok (c, false).
Proof.
  intros Ht Hw. unfold TrainM.remove_wagon, get_train. rewrite Ht. simpl.
  by rewrite bool_decide_eq_true_2.
Qed.

Lemma remove_wagon_evicts c t tr a nd st :
  trains c !! t = Some tr → 1 < TrainM.wagons tr →
  station_node tr = Some a → nodes c !! a = Some nd →
  stations c !! station nd = Some st →
  let cap := capacity tr - WAGON_CAPACITY in
  let k := (length (train_passengers tr) `min` Z.to_nat cap)%nat in
  TrainM.remove_wagon c t
  = Ok (put_station
          (put_train c t
             (set_train_passengers (take k (train_passengers tr)) (set_capacity cap tr)))
          (station nd)
          (set_station_passengers
             (station_passengers st ++ reverse (drop k (train_passengers tr))) st),
        true).
Proof.
  intros Ht Hw Ha Hn Hs cap k.
  pose proof (wagons_above_one tr Hw) as Hcap.
  unfold TrainM.remove_wagon. rewrite (get_train_Ok _ _ _ Ht), bind_ret.
  rewrite bool_decide_eq_false_2 by lia.
  rewrite (evict_drops t (station nd) a nd eq_refl _ _ (set_capacity cap tr) st).
  - rewrite bind_ret. simpl. by rewrite put_train_put_train.
  - simpl. apply list_lookup_insert_eq. by eapply lookup_lt_Some.
  - done.
  - done.
  - done.
  - simpl. fold cap. lia.
  - simpl. lia.
Qed.

(** ** Operations keep every train within its capacity *)

Lemma within_capacity_put_train c t tr :
  within_capacity c → fits tr → within_capacity (put_train c t tr).
Proof.
  unfold within_capacity. rewrite put_train_trains. intros Hc Htr.
  by apply Forall_insert.
Qed.

Lemma within_capacity_same_trains c c' :
  trains c' = trains c → within_capacity c → within_capacity c'.
Proof. unfold within_capacity. by intros ->. Qed.

Lemma within_capacity_lookup c t tr :
  within_capacity c → trains c !! t = Some tr → fits tr.
Proof. unfold within_capacity. rewrite Forall_lookup. eauto. Qed.

Lemma evict_fits fuel c t c' :
  within_capacity (set_trains (delete t (trains c)) c) →
  TrainM.evict fuel c t = Ok c' → within_capacity c'.
Proof.
  revert c. induction fuel as [|fuel IH]; intros c Hothers Hrun.
  - simpl in Hrun. unfold get_train in Hrun.
    destruct (trains c !! t) as [tr|] eqn:Ht; simplify_eq/=.
    case_bool_decide; simplify_eq/=.
    unfold within_capacity in *. simpl in Hothers.
    rewrite <- (list_insert_id _ _ _ Ht), insert_take_drop
      by (by eapply lookup_lt_Some).
    rewrite delete_take_drop in Hothers.
    apply Forall_app in Hothers as [H1 H2].
    apply Forall_app. split; [done|]. apply Forall_cons. split; [|done].
    unfold fits. lia.
  - simpl in Hrun. unfold get_train in Hrun.
    destruct (trains c !! t) as [tr|] eqn:Ht; simplify_eq/=.
    case_bool_decide.
    + apply bind_Ok in Hrun as ([ps p] & Hpop & Hrun).
      apply bind_Ok in Hrun as (s & Hs & Hrun).
      apply bind_Ok in Hrun as (c2 & Hc2 & Hrun).
      apply (IH c2); [|done].
      unfold station_append in Hc2.
      apply bind_Ok in Hc2 as (st & _ & Hc2). simplify_eq/=.
      unfold within_capacity in *. simpl in *.
      rewrite delete_take_drop in *.
      rewrite take_insert_ge, drop_insert_lt by lia. done.
    + simplify_eq/=.
      unfold within_capacity in *. simpl in Hothers.
      rewrite <- (list_insert_id _ _ _ Ht), insert_take_drop
        by (by eapply lookup_lt_Some).
      rewrite delete_take_drop in Hothers.
      apply Forall_app in Hothers as [H1 H2].
      apply Forall_app. split; [done|]. apply Forall_cons. split; [|done].
      unfold fits. lia.
Qed.

Lemma within_capacity_delete c t :
  within_capacity c → within_capacity (set_trains (delete t (trains c)) c).
Proof.
  unfold within_capacity. simpl. apply Forall_delete.
Qed.

Lemma remove_wagon_fits c t c' b :
  within_capacity c → TrainM.remove_wagon c t = Ok (c', b) → within_capacity c'.
Proof.
  intros Hc Hrun. unfold TrainM.remove_wagon in Hrun.
  apply bind_Ok in Hrun as (tr & Ht & Hrun).
  case_bool_decide; [by simplify_eq|].
  apply bind_Ok in Hrun as (c2 & Hev & Hrun). simplify_eq.
  eapply evict_fits; [|exact Hev].
  unfold within_capacity in *. simpl.
  rewrite delete_take_drop, take_insert_ge, drop_insert_lt by lia.
  rewrite <- delete_take_drop. by apply Forall_delete.
Qed.

Lemma add_wagon_fits c t c' b :
  within_capacity c → TrainM.add_wagon c t = Ok (c', b) → within_capacity c'.
Proof.
  intros Hc Hrun. unfold TrainM.add_wagon in Hrun.
  apply bind_Ok in Hrun as (tr & Ht & Hrun).
  unfold get_train in Ht. destruct (trains c !! t) as [tr'|] eqn:E; simplify_eq/=.
  case_bool_decide; simplify_eq; [done|].
  apply within_capacity_put_train; [done|].
  pose proof (within_capacity_lookup _ _ _ Hc E) as Hfit.
  unfold fits, WAGON_CAPACITY in *. simpl. lia.
Qed.

Lemma train_move_fits c t c' :
  within_capacity c → TrainM.move c t = Ok c' → within_capacity c'.
Proof.
  intros Hc Hrun. unfold TrainM.move in Hrun.
  apply bind_Ok in Hrun as (tr & Ht & Hrun).
  unfold get_train in Ht. destruct (trains c !! t) as [tr'|] eqn:E; simplify_eq/=.
  pose proof (within_capacity_lookup _ _ _ Hc E) as Hfit.
  case_decide.
  - simplify_eq. by apply within_capacity_put_train.
  - apply bind_Ok in Hrun as (l & _ & Hrun).
    apply bind_Ok in Hrun as (ln & _ & Hrun).
    apply bind_Ok in Hrun as ([node dir] & _ & Hrun). simplify_eq.
    by apply within_capacity_put_train.
Qed.


(** ** Where a new passenger is bound for *)

(** The constructor's loop runs while the destination differs from the
    origin, so what it returns is the origin. *)
Lemma draw_destination_is_origin fuel n o cur rnd d rnd' :
  PassengerM.draw_destination fuel n o cur rnd = Ok (d, rnd') → d = o.
Proof.
  revert cur rnd. induction fuel as [|fuel IH]; intros cur rnd Hrun.
  - destruct cur as [d0|]; simpl in Hrun; [|done].
    case_bool_decide as Hne; [done|]. by simplify_eq.
  - destruct cur as [d0|]; simpl in Hrun.
    + case_bool_decide as Hne.
      * apply bind_Ok in Hrun as ([d1 rnd1] & _ & Hrun). by eapply IH.
      * by simplify_eq.
    + apply bind_Ok in Hrun as ([d1 rnd1] & _ & Hrun). by eapply IH.
Qed.

Lemma init_default_destination c orig rnd p rnd' :
  PassengerM.init c orig None rnd = Ok (p, rnd') → destination p = origin p.
Proof.
  intros Hrun. unfold PassengerM.init in Hrun.
  apply bind_Ok in Hrun as ([o rnd1] & _ & Hrun).
  apply bind_Ok in Hrun as ([d rnd2] & Hdraw & Hrun).
  apply draw_destination_is_origin in Hdraw.
  apply bind_Ok in Hrun as (? & _ & Hrun).
  apply bind_Ok in Hrun as (? & _ & Hrun). by simplify_eq/=.
Qed.

(** Drawing the origin itself ends the loop at once. *)
Lemma init_default_returns c o st rest :
  stations c !! o = Some st →
  PassengerM.init c (Some o) None (o :: rest)
  = Ok ({| starttime := time c; origin := o; destination := o;
           position := AtStation o |}, rest).
Proof.
  intros Hst. pose proof (lookup_lt_Some _ _ _ Hst) as Hlt.
  unfold PassengerM.init. rewrite bind_ret. cbn beta iota.
  assert (PassengerM.draw_destination (S (length (o :: rest)))
            (length (stations c)) o None (o :: rest) = Ok (o, rest)) as ->.
  { simpl. unfold choice. rewrite bool_decide_eq_false_2 by lia. simpl.
    rewrite Nat.mod_small by lia.
    by rewrite bool_decide_eq_false_2 by (by intros ?). }
  rewrite bind_ret. cbn beta iota.
  by rewrite (get_station_Ok _ _ _ Hst), !bind_ret.
Qed.

(** The loop of spawn_passengers runs while the destination is the station
    itself, so what it returns is another station. *)
Lemma draw_other_differs fuel n s d rnd d' rnd' :
  StationM.draw_other fuel n s d rnd = Ok (d', rnd') → d' ≠ s.
Proof.
  revert d rnd. induction fuel as [|fuel IH]; intros d rnd Hrun; simpl in Hrun.
  - case_bool_decide; [done|]. by simplify_eq.
  - case_bool_decide.
    + apply bind_Ok in Hrun as ([d1 rnd1] & _ & Hrun). by eapply IH.
    + by simplify_eq.
Qed.

Lemma spawn_one_differs s c rnd k c' rnd' :
  StationM.spawn_one s (c, rnd) k = Ok (c', rnd') →
  ∃ x, passengers c' = passengers c ++ [x] ∧ origin x = s ∧
       destination x ≠ origin x.
Proof.
  intros Hrun. unfold StationM.spawn_one in Hrun.
  apply bind_Ok in Hrun as ([dest rnd1] & Hdraw & Hrun).
  apply draw_other_differs in Hdraw.
  apply bind_Ok in Hrun as ([x rnd2] & Hinit & Hrun).
  apply bind_Ok in Hrun as (c2 & Happ & Hrun). simplify_eq/=.
  unfold station_append in Happ.
  apply bind_Ok in Happ as (st & _ & Happ). simplify_eq/=.
  unfold PassengerM.init in Hinit. simpl in Hinit.
  apply bind_Ok in Hinit as (? & _ & Hinit).
  apply bind_Ok in Hinit as (? & _ & Hinit). simplify_eq/=.
  eexists. split; [done|]. split; done.
Qed.

Lemma spawn_passengers_differ s c rnd c' rnd' :
  StationM.spawn_passengers (c, rnd) s = Ok (c', rnd') →
  ∃ new, passengers c' = passengers c ++ new ∧
         Forall (λ x, origin x = s ∧ destination x ≠ origin x) new.
Proof.
  intros Hrun. unfold StationM.spawn_passengers in Hrun.
  apply bind_Ok in Hrun as ([k rnd1] & _ & Hrun).
  revert Hrun. generalize (seq 0 k). intros l. revert c rnd1.
  induction l as [|i l IH]; intros c rnd1 Hrun.
  - simplify_eq/=. exists []. by rewrite app_nil_r.
  - rewrite for_each_cons in Hrun.
    apply bind_Ok in Hrun as ([c1 rnd2] & Hone & Hrun).
    destruct (spawn_one_differs _ _ _ _ _ _ Hone) as (x & Hx & Ho & Hd).
    destruct (IH _ _ Hrun) as (new & Hnew & Hall).
    exists (x :: new). split.
    + by rewrite Hnew, Hx, <- app_assoc.
    + by apply Forall_cons.
Qed.

(** C7: what the two creation paths do.  A passenger spawned at a station
    gets a destination other than its origin, as the claim says.  A
    passenger constructed with the default destination gets the origin
    itself: the constructor's loop runs while the destination differs from
    the origin, so it ends exactly when the two are equal. *)
Theorem passenger_destination (c : City) :
  (∀ s rnd c' rnd',
     StationM.spawn_passengers (c, rnd) s = Ok (c', rnd') →
     ∃ new, passengers c' = passengers c ++ new ∧
            Forall (λ x, origin x = s ∧ destination x ≠ origin x) new) ∧
  (∀ orig rnd p rnd',
     PassengerM.init c orig None rnd = Ok (p, rnd') →
     destination p = origin p) ∧
  (∀ o st rest,
     stations c !! o = Some st →
     ∃ p, PassengerM.init c (Some o) None (o :: rest) = Ok (p, rest) ∧
          destination p = o ∧ origin p = o).
Proof.
  split; [|split].
  - intros. by eapply spawn_passengers_differ.
  - intros. by eapply init_default_destination.
  - intros o st rest Hst. eexists. split; [by eapply init_default_returns|done].
Qed.

Lemma passenger_destination_witness :
  ∃ p, PassengerM.init city_abc (Some 0%nat) None [2; 1; 0]%nat = Ok (p, [])
       ∧ destination p = origin p.
Proof.
  exists {| starttime := 0; origin := 0%nat; destination := 0%nat;
            position := AtStation 0%nat |}.
  split; [reflexivity|].
  destruct (passenger_destination city_abc) as (_ & Hdefault & _).
  apply (Hdefault (Some 0%nat) [2; 1; 0]%nat _ []). reflexivity.
Defined.

(** ** Python list removal *)

Lemma remove_Permutation `{EqDecision A} (x : A) l l' :
  Py.remove x l = Ok l' → l ≡ₚ x :: l'.
Proof.
  revert l'. induction l as [|y l IH]; intros l' Hrun; simpl in Hrun; [done|].
  case_decide as Hxy; [by simplify_eq|].
  destruct (Py.remove x l) as [r| |] eqn:E; simplify_eq.
  rewrite (IH r eq_refl). apply Permutation_swap.
Qed.

Lemma remove_length `{EqDecision A} (x : A) l l' :
  Py.remove x l = Ok l' → length l = S (length l').
Proof. intros Hrun. by rewrite (remove_Permutation _ _ _ Hrun). Qed.

Lemma remove_present `{EqDecision A} (x : A) l :
  x ∈ l → ∃ l', Py.remove x l = Ok l'.
Proof.
  induction l as [|y l IH]; intros Hin; [by apply elem_of_nil in Hin|].
  simpl. case_decide; [by eexists|].
  apply elem_of_cons in Hin as [?|Hin]; [done|].
  destruct (IH Hin) as [l' ->]. by eexists.
Qed.

Lemma remove_snoc_fresh `{EqDecision A} (x : A) l :
  x ∉ l → Py.remove x (l ++ [x]) = Ok l.
Proof.
  induction l as [|y l IH]; intros Hnin; simpl.
  - by rewrite decide_True.
  - apply not_elem_of_cons in Hnin as [Hne Hnin].
    rewrite decide_False by done. by rewrite (IH Hnin).
Qed.

Lemma filter_m_head {A} (g : A → result bool) l x rest :
  filter_m g l = Ok (x :: rest) → g x = Ok true.
Proof.
  revert x rest. induction l as [|y l IH]; intros x rest Hrun; simpl in Hrun; [done|].
  apply bind_Ok in Hrun as (b & Hb & Hrun).
  apply bind_Ok in Hrun as (ys & Hys & Hrun).
  destruct b; simplify_eq; [done|]. by eapply IH.
Qed.

Lemma filter_m_none {A} (g : A → result bool) l :
  Forall (λ x, g x = Ok false) l → filter_m g l = Ok [].
Proof.
  induction 1 as [|x l Hx _ IH]; [done|]. simpl. rewrite Hx. simpl. by rewrite IH.
Qed.

(** ** Moving a passenger keeps every train within its capacity *)

Lemma station_append_trains c s p c' :
  station_append c s p = Ok c' → trains c' = trains c.
Proof.
  unfold station_append. intros (st & _ & Hrun)%bind_Ok. by simplify_eq.
Qed.

Lemma alight_fits c p c' :
  within_capacity c → PassengerM.alight c p = Ok c' → within_capacity c'.
Proof.
  intros Hc Hrun. unfold PassengerM.alight in Hrun.
  apply bind_Ok in Hrun as (x & _ & Hrun).
  destruct (position x) as [s0|t]; [by simplify_eq|].
  apply bind_Ok in Hrun as (tr & Htr & Hrun).
  apply bind_Ok in Hrun as (hd & _ & Hrun).
  apply bind_Ok in Hrun as (opts & _ & Hrun).
  destruct (bool_decide (hd ∉ opts) && TrainM.can_exit tr); [|by simplify_eq].
  apply bind_Ok in Hrun as (ps & Hps & Hrun).
  apply bind_Ok in Hrun as (tr1 & _ & Hrun).
  apply bind_Ok in Hrun as (s & _ & Hrun).
  apply bind_Ok in Hrun as (c2 & Happ & Hrun). simplify_eq.
  apply (within_capacity_same_trains (put_train c t (set_train_passengers ps tr))).
  { rewrite put_passenger_trains. by apply station_append_trains in Happ. }
  apply within_capacity_put_train; [done|].
  unfold get_train in Htr. destruct (trains c !! t) as [tr'|] eqn:E; simplify_eq/=.
  pose proof (within_capacity_lookup _ _ _ Hc E) as Hfit.
  apply remove_length in Hps. unfold fits in *. simpl. lia.
Qed.

Lemma board_fits c p c' :
  within_capacity c → PassengerM.board c p = Ok c' → within_capacity c'.
Proof.
  intros Hc Hrun. unfold PassengerM.board in Hrun.
  apply bind_Ok in Hrun as (x & _ & Hrun).
  destruct (position x) as [s|t0]; [|by simplify_eq].
  apply bind_Ok in Hrun as (candidates & Hcand & Hrun).
  destruct candidates as [|t rest]; [by simplify_eq|].
  apply filter_m_head in Hcand.
  apply bind_Ok in Hcand as (tr & Htr & Hcand).
  apply bind_Ok in Hcand as (ok & Henter & Hrest).
  apply bind_Ok in Hrun as (st & _ & Hrun).
  apply bind_Ok in Hrun as (ps & _ & Hrun).
  apply bind_Ok in Hrun as (tr1 & Htr1 & Hrun). simplify_eq.
  rewrite put_train_put_station.
  apply (within_capacity_same_trains
           (put_train c t (set_train_passengers (train_passengers tr1 ++ [p]) tr1)));
    [done|].
  apply within_capacity_put_train; [done|].
  unfold get_train in Htr, Htr1. simpl in Htr1.
  destruct (trains c !! t) as [tr'|] eqn:E; simplify_eq/=.
  destruct ok.
  - unfold TrainM.can_enter in Henter. case_decide; [|done].
    apply bind_Ok in Henter as (s' & _ & Henter). simplify_eq.
    apply andb_prop in Henter as [_ Hroom]. apply bool_decide_eq_true in Hroom.
    unfold fits. simpl. rewrite length_app. simpl. lia.
  - discriminate.
Qed.

Lemma arrive_fits c p c' :
  within_capacity c → PassengerM.arrive c p = Ok c' → within_capacity c'.
Proof.
  intros Hc Hrun. unfold PassengerM.arrive in Hrun.
  apply bind_Ok in Hrun as (x & _ & Hrun).
  case_decide; [|by simplify_eq].
  apply bind_Ok in Hrun as (st & _ & Hrun).
  apply bind_Ok in Hrun as (ps & _ & Hrun). by simplify_eq.
Qed.

Lemma passenger_move_fits c p c' :
  within_capacity c → PassengerM.move c p = Ok c' → within_capacity c'.
Proof.
  intros Hc Hrun. unfold PassengerM.move in Hrun.
  apply bind_Ok in Hrun as (c1 & H1 & Hrun).
  apply bind_Ok in Hrun as (c2 & H2 & Hrun).
  eauto using alight_fits, board_fits, arrive_fits.
Qed.

Lemma update_navmap_trains c c' :
  NavMap._update_navmap c = Ok c' → trains c' = trains c.
Proof.
  unfold NavMap._update_navmap. intros ([d nv] & _ & Hrun)%bind_Ok.
  by simplify_eq.
Qed.

Lemma spawn_passengers_fits c rnd s c' rnd' :
  within_capacity c → StationM.spawn_passengers (c, rnd) s = Ok (c', rnd') →
  within_capacity c'.
Proof.
  intros Hc Hrun. unfold StationM.spawn_passengers in Hrun.
  apply bind_Ok in Hrun as ([k rnd1] & _ & Hrun).
  apply (for_each_inv (λ cr, within_capacity cr.1)) in Hrun; [done| |done].
  intros [c0 r0] i [c1 r1] _ Hc0 Hone. simpl in *.
  unfold StationM.spawn_one in Hone.
  apply bind_Ok in Hone as ([dest r2] & _ & Hone).
  apply bind_Ok in Hone as ([x r3] & _ & Hone).
  apply bind_Ok in Hone as (c2 & Happ & Hone). simplify_eq.
  apply station_append_trains in Happ.
  by apply (within_capacity_same_trains c0).
Qed.

(** The stages of City.add_station and of a tick. *)
Lemma free_position_free fuel c taken pos rnd pos' rnd' :
  CityM.free_position fuel c taken pos rnd = Ok (pos', rnd') → pos' ∉ taken.
Proof.
  revert pos rnd. induction fuel as [|fuel IH]; intros pos rnd; simpl.
  - case_bool_decide; [done|]. by intros [= <- <-].
  - case_bool_decide; [|by intros [= <- <-]].
    intros ([[x y] r] & _ & Hrun)%bind_Ok. by eapply IH.
Qed.

Lemma add_station_stages c rnd c' s rnd' :
  CityM.add_station c rnd = Ok (c', s, rnd') →
  s = length (stations c) ∧
  ∃ pos, (pos ∉ station_position <$> stations c) ∧
    NavMap._update_navmap
      (set_stations
         (stations c ++ [{| station_idx := length (stations c);
                            station_position := pos;
                            station_passengers := [] |}]) c) = Ok c'.
Proof.
  unfold CityM.add_station.
  intros ([pos0 rnd0] & _ & Hrun)%bind_Ok.
  apply bind_Ok in Hrun as ([pos rnd1] & Hfree & Hrun).
  apply bind_Ok in Hrun as (c2 & Hnav & [= <- <- <-]).
  split; [done|]. exists pos. split; [|done]. by eapply free_position_free.
Qed.

Lemma simulate_step_stages c rnd c' rnd' :
  SimulationM.simulate_step c rnd = Ok (c', rnd') →
  ∃ c0 c1 rnd0 c2 c3 c4,
    (if bool_decide (time c `mod` SimulationM.CITY_EXPANSION_INTERVAL = 0)
     then ∃ edge, SimulationM.expanded (edgelength c) = Ok edge
                  ∧ c0 = set_edgelength edge c
     else c0 = c) ∧
    (if bool_decide (time c > 0)
        && bool_decide (time c `mod` SimulationM.NEW_STATION_INTERVAL = 0)
     then ∃ s, CityM.add_station c0 rnd = Ok (c1, s, rnd0)
     else c1 = c0 ∧ rnd0 = rnd) ∧
    for_each TrainM.move (seq 0 (length (trains c1))) c1 = Ok c2 ∧
    for_each StationM.spawn_passengers (seq 0 (length (stations c2))) (c2, rnd0)
    = Ok (c3, rnd') ∧
    SimulationM.move_passengers c3 = Ok c4 ∧
    c' = set_time (time c4 + 1) c4.
Proof.
  unfold SimulationM.simulate_step.
  intros (c0 & H0 & Hrun)%bind_Ok.
  apply bind_Ok in Hrun as ([c1 rnd0] & H1 & Hrun).
  apply bind_Ok in Hrun as (c2 & H2 & Hrun).
  apply bind_Ok in Hrun as ([c3 rnd3] & H3 & Hrun).
  apply bind_Ok in Hrun as (c4 & H4 & [= <- <-]).
  exists c0, c1, rnd0, c2, c3, c4.
  assert (time c0 = time c) as Ht.
  { destruct (bool_decide (time c `mod` _ = 0)); [|by injection H0 as <-].
    by apply bind_Ok in H0 as (edge & _ & [= <-]). }
  rewrite Ht in H1.
  split; [|split; [|done]].
  - destruct (bool_decide (time c `mod` _ = 0)); [|by injection H0 as <-].
    apply bind_Ok in H0 as (edge & He & [= <-]). by exists edge.
  - destruct (_ && _); [|by injection H1 as <- <-].
    apply bind_Ok in H1 as ([[c1' s] r] & Hadd & [= <- <-]). by exists s.
Qed.

Lemma simulate_step_fits c rnd c' rnd' :
  within_capacity c → SimulationM.simulate_step c rnd = Ok (c', rnd') →
  within_capacity c'.
Proof.
  intros Hc (ce & c1 & rnd0 & c2 & c3 & c4 & H0 & H1 & H2 & H3 & H4 & ->)
    %simulate_step_stages.
  apply (within_capacity_same_trains c4); [done|].
  assert (within_capacity ce) as Hce.
  { destruct (bool_decide (time c `mod` _ = 0)); [|by subst].
    destruct H0 as (edge & _ & ->). by apply (within_capacity_same_trains c). }
  assert (within_capacity c1) as Hc1.
  { destruct (_ && _); [|by destruct H1 as [-> _]].
    destruct H1 as (s & (_ & pos & _ & Hnav)%add_station_stages).
    apply update_navmap_trains in Hnav.
    by apply (within_capacity_same_trains ce). }
  assert (within_capacity c2) as Hc2.
  { eapply (for_each_inv within_capacity); [|exact Hc1|exact H2].
    intros ???? ?. by apply train_move_fits. }
  assert (within_capacity c3) as Hc3.
  { apply (for_each_inv (λ cr, within_capacity cr.1)) in H3; [done| |done].
    intros [c0 r0] s [c5 r5] _ Hc0 Hsp. by eapply spawn_passengers_fits. }
  unfold SimulationM.move_passengers in H4.
  apply bind_Ok in H4 as (ps & _ & H4).
  eapply (for_each_inv within_capacity); [|exact Hc3|exact H4].
  intros ???? ?. by apply passenger_move_fits.
Qed.

Lemma set_line_fits c t l st dir c' r :
  within_capacity c → TrainM.set_line c t l st dir = Ok (c', r) →
  within_capacity c'.
Proof.
  intros Hc Hrun. unfold TrainM.set_line in Hrun.
  apply bind_Ok in Hrun as (tr & Htr & Hrun).
  destruct st as [s|]; [|done].
  apply bind_Ok in Hrun as (l' & _ & Hrun).
  apply bind_Ok in Hrun as (ln & _ & Hrun).
  apply bind_Ok in Hrun as (found & _ & Hrun).
  destruct found as [a|]; simplify_eq; [|done].
  apply within_capacity_put_train; [done|].
  unfold get_train in Htr. destruct (trains c !! t) as [tr'|] eqn:E; simplify_eq/=.
  exact (within_capacity_lookup _ _ _ Hc E).
Qed.

Lemma add_train_fits c l st dir c' r :
  within_capacity c → CityM.add_train c l st dir = Ok (c', r) →
  within_capacity c'.
Proof.
  intros Hc Hrun. unfold CityM.add_train in Hrun.
  case_bool_decide; [|by simplify_eq].
  assert (within_capacity (set_trains (trains c ++ [TrainM.init c]) c)) as Hc1.
  { unfold within_capacity. simpl. apply Forall_app. split; [done|].
    apply Forall_singleton. unfold fits. simpl. unfold WAGON_CAPACITY. lia. }
  destruct l as [l'|]; [|by simplify_eq].
  apply bind_Ok in Hrun as ([c2 r2] & Hset & Hrun).
  apply bind_Ok in Hrun as (ln & _ & Hrun).
  apply bind_Ok in Hrun as (circ & _ & Hrun).
  apply bind_Ok in Hrun as (c3 & Hnav & Hrun). simplify_eq.
  pose proof (set_line_fits _ _ _ _ _ _ _ Hc1 Hset) as Hc2.
  destruct (_ || _); [|by simplify_eq].
  apply update_navmap_trains in Hnav.
  by apply (within_capacity_same_trains c2).
Qed.

Lemma apply_action_fits c a c' ok :
  within_capacity c → SimulationM.apply_action c a = Ok (c', ok) →
  within_capacity c'.
Proof.
  intros Hc Hrun. unfold SimulationM.apply_action in Hrun.
  repeat (match type of Hrun with
          | (if ?b then _ else _) = _ => destruct b
          end); try by simplify_eq.
  - apply bind_Ok in Hrun as ([c1 t] & Hadd & Hrun). simplify_eq.
    by eapply add_train_fits.
  - apply bind_Ok in Hrun as ([c1 t] & Hrm & Hrun). simplify_eq.
    unfold CityM.remove_train in Hrm. by destruct (negb _); simplify_eq.
  - apply bind_Ok in Hrun as (t & _ & Hrun).
    apply bind_Ok in Hrun as ([c1 b] & Hrm & Hrun).
    destruct b; simplify_eq. by eapply remove_wagon_fits.
  - apply bind_Ok in Hrun as ([c1 l] & Hadd & Hrun). simplify_eq.
    unfold CityM.add_line in Hadd. case_bool_decide; [|by simplify_eq].
    apply bind_Ok in Hadd as (ln & _ & Hadd). by simplify_eq.
  - apply bind_Ok in Hrun as (idx & _ & Hrun).
    unfold CityM.add_station_to_line in Hrun.
    destruct (SimulationM.act_line a) as [l|], (SimulationM.obj a) as [s|]; try by simplify_eq.
    destruct (_ || _); [by simplify_eq|].
    apply bind_Ok in Hrun as (ln & _ & Hrun).
    apply bind_Ok in Hrun as ([[h ln'] b] & _ & Hrun). by simplify_eq.
  - unfold CityM.remove_station_from_line in Hrun.
    destruct (SimulationM.act_line a) as [l|]; [|by simplify_eq].
    destruct (negb _); [by simplify_eq|].
    apply bind_Ok in Hrun as (ln & _ & Hrun).
    destruct (SimulationM.obj a) as [s|]; [|by simplify_eq].
    apply bind_Ok in Hrun as ([[h ln'] b] & _ & Hrun). by simplify_eq.
Qed.

Lemma process_user_actions_fits c batch c' ok :
  within_capacity c → SimulationM._process_user_actions c batch = Ok (c', ok) →
  within_capacity c'.
Proof.
  intros Hc Hrun. unfold SimulationM._process_user_actions in Hrun.
  destruct batch as [actions|]; [|by simplify_eq].
  apply bind_Ok in Hrun as ([c1 ok1] & Hloop & Hrun).
  apply bind_Ok in Hrun as (c2 & Hnav & Hrun). simplify_eq.
  apply update_navmap_trains in Hnav.
  apply (within_capacity_same_trains c1); [done|].
  apply (for_each_inv (λ s, within_capacity s.1)) in Hloop; [done| |done].
  intros [c0 b0] a [c3 b3] _ Hc0 Hact. by eapply apply_action_fits.
Qed.

Lemma remove_wagon_result c t tr c' b :
  trains c !! t = Some tr → TrainM.remove_wagon c t = Ok (c', b) →
  (b = false ↔ TrainM.wagons tr ≤ 1).
Proof.
  intros Ht Hrun. unfold TrainM.remove_wagon in Hrun.
  rewrite (get_train_Ok _ _ _ Ht), bind_ret in Hrun.
  case_bool_decide; [by simplify_eq|].
  apply bind_Ok in Hrun as (c2 & _ & Hrun). simplify_eq. split; [done | lia].
Qed.

(** C6: Train.remove_wagon and the capacity invariant.  remove_wagon
    returns False, changing nothing, exactly when the train has at most one
    wagon.  Otherwise - for a train standing at a station - it returns True,
    the capacity drops by one wagon, the passengers that no longer fit are
    popped from the end of the onboard list (the most recently boarded
    first) and appended in that order to the queue of the train's
    current/last station, and the count is then within the new capacity.
    A new city has every train within its capacity, and every tick and
    every command batch that completes keeps it so. *)
Theorem remove_wagon_keeps_capacity (c : City) (t : train_ref) (tr : Train) :
  trains c !! t = Some tr →
  (TrainM.wagons tr ≤ 1 → TrainM.remove_wagon c t = Ok (c, false)) ∧
  (∀ c' b, TrainM.remove_wagon c t = Ok (c', b) →
           (b = false ↔ TrainM.wagons tr ≤ 1)) ∧
  (1 < TrainM.wagons tr →
   ∀ a nd st,
     station_node tr = Some a → nodes c !! a = Some nd →
     stations c !! station nd = Some st →
     let cap := capacity tr - WAGON_CAPACITY in
     let k := (length (train_passengers tr) `min` Z.to_nat cap)%nat in
     TrainM.remove_wagon c t
     = Ok (put_station
             (put_train c t
                (set_train_passengers (take k (train_passengers tr))
                   (set_capacity cap tr)))
             (station nd)
             (set_station_passengers
                (station_passengers st ++ reverse (drop k (train_passengers tr))) st),
           true)
     ∧ Z.of_nat (length (take k (train_passengers tr))) ≤ cap) ∧
  (∀ c' b, within_capacity c → TrainM.remove_wagon c t = Ok (c', b) →
           within_capacity c') ∧
  (∀ rnd c' rnd', within_capacity c →
                  SimulationM.simulate_step c rnd = Ok (c', rnd') →
                  within_capacity c') ∧
  (∀ batch c' ok, within_capacity c →
                  SimulationM._process_user_actions c batch = Ok (c', ok) →
                  within_capacity c') ∧
  within_capacity City_init.
Proof.
  intros Ht. split; [|split; [|split; [|split; [|split; [|split]]]]].
  - intros. by apply remove_wagon_refused with tr.
  - intros. by eapply remove_wagon_result.
  - intros Hw a nd st Ha Hn Hs cap k. split.
    + by apply (remove_wagon_evicts c t tr a nd st).
    + pose proof (wagons_above_one tr Hw). rewrite length_take. fold cap. lia.
  - intros. by eapply remove_wagon_fits.
  - intros. by eapply simulate_step_fits.
  - intros. by eapply process_user_actions_fits.
  - apply Forall_nil_2.
Qed.

Lemma remove_wagon_keeps_capacity_witness :
  trains city_full !! 0%nat = Some (loaded_train 2 (seq 0 8)) ∧
  ∃ c', TrainM.remove_wagon city_full 0 = Ok (c', true) ∧
        (train_passengers <$> trains c' !! 0%nat) = Some [0; 1; 2; 3; 4; 5]%nat ∧
        (capacity <$> trains c' !! 0%nat) = Some 6 ∧
        (station_passengers <$> stations c' !! 0%nat) = Some [7; 6]%nat.
Proof.
  split; [reflexivity|].
  destruct (remove_wagon_keeps_capacity city_full 0 (loaded_train 2 (seq 0 8)) eq_refl)
    as (_ & _ & Hevict & _).
  destruct (Hevict eq_refl 0%nat
              {| station := 0%nat; previous_node := None;
                 next_node := Some (ToNode 1%nat) |}
              {| station_idx := 0; station_position := (0, 0); station_passengers := [] |}
              eq_refl eq_refl eq_refl) as [Hrun _].
  eexists. split; [exact Hrun|]. repeat split.
Defined.


(** ** A passenger whose train stands at the destination *)

Lemma get_passenger_Ok c p x : passengers c !! p = Some x → get_passenger c p = Ok x.
Proof. intros Hp. unfold get_passenger. by rewrite Hp. Qed.

Lemma get_line_Ok c l ln : lines c !! l = Some ln → get_line c l = Ok ln.
Proof. intros Hl. unfold get_line. by rewrite Hl. Qed.

Lemma station_of_train_placed c tr s :
  placed c tr s → station_of_train c tr = Ok s.
Proof.
  intros (a & nd & Ha & Hnd & Hs & _). unfold station_of_train.
  rewrite Ha. simpl. rewrite Hnd. simpl. by rewrite Hs.
Qed.

Lemma heading_deployed c tr :
  deployed c tr → ∃ hd, PassengerM.heading c tr = Ok hd.
Proof.
  intros (_ & l & ln & Hl & Hln). unfold PassengerM.heading.
  rewrite Hl. simpl. rewrite (get_line_Ok _ _ _ Hln). simpl. by eexists.
Qed.

Lemma bind_insert {A B} (f : A → list B) (l : list A) (i : nat) (a b : A) :
  l !! i = Some a →
  l ≫= f = (take i l ≫= f) ++ f a ++ (drop (S i) l ≫= f) ∧
  <[i := b]> l ≫= f = (take i l ≫= f) ++ f b ++ (drop (S i) l ≫= f).
Proof.
  intros Hi. pose proof (lookup_lt_Some _ _ _ Hi) as Hlt. split.
  - rewrite <- (take_drop_middle l i a Hi) at 1. by rewrite bind_app, bind_cons.
  - rewrite insert_take_drop by done. by rewrite bind_app, bind_cons.
Qed.

Lemma filter_m_raise {A} (g : A → result bool) pre x post e :
  Forall (λ y, g y = Ok false) pre → g x = Raise e →
  filter_m g (pre ++ x :: post) = Raise e.
Proof.
  intros Hpre Hx. induction Hpre as [|y pre Hy _ IH]; simpl.
  - by rewrite Hx.
  - rewrite Hy. simpl. by rewrite IH.
Qed.

Section Arrival.
Variables (c : City) (nv : matrix routes).
Variables (p : passenger_ref) (x : Passenger) (t : train_ref) (tr : Train).
Variable (st : Station).
Let s := destination x.

Hypothesis Hnav : navmap c = Some nv.
Hypothesis Hsquare : square (length (stations c)) nv.
Hypothesis Hclear : ∀ i, (i < length (stations c))%nat → mget nv i i = ∅.
Hypothesis Hidx : stations_indexed c.
Hypothesis Htr : deployed c tr.
Hypothesis Hp : passengers c !! p = Some x.
Hypothesis Hpos : position x = OnTrain t.
Hypothesis Ht : trains c !! t = Some tr.
Hypothesis Hstate : state tr = AT_STATION.
Hypothesis Hat : placed c tr s.
Hypothesis Hst : stations c !! s = Some st.
Hypothesis Hin : p ∈ train_passengers tr.

Lemma no_option_at_destination : mget_checked nv (station_idx st) (station_idx st) = Ok ∅.
Proof.
  rewrite (Hidx _ _ Hst). pose proof (lookup_lt_Some _ _ _ Hst) as Hlt.
  rewrite (mget_checked_square (length (stations c))) by done.
  by rewrite Hclear.
Qed.

(** The city once the passenger has stepped off. *)
Let off (ps : list passenger_ref) : City :=
  put_passenger
    (put_station (put_train c t (set_train_passengers ps tr)) s
       (set_station_passengers (station_passengers st ++ [p]) st))
    p (set_position (AtStation s) x).

Lemma alight_at_destination ps :
  Py.remove p (train_passengers tr) = Ok ps →
  PassengerM.alight c p = Ok (off ps).
Proof.
  intros Hps. unfold PassengerM.alight.
  rewrite (get_passenger_Ok _ _ _ Hp), bind_ret, Hpos.
  rewrite (get_train_Ok _ _ _ Ht), bind_ret.
  destruct (heading_deployed _ _ Htr) as [hd ->]. rewrite bind_ret.
  unfold PassengerM.navigate_step_to. fold s.
  rewrite (get_station_Ok _ _ _ Hst), bind_ret, Hpos.
  rewrite (get_train_Ok _ _ _ Ht), bind_ret.
  rewrite (station_of_train_placed _ _ _ Hat), bind_ret.
  rewrite (get_station_Ok _ _ _ Hst), bind_ret, Hnav.
  rewrite no_option_at_destination, bind_ret.
  rewrite bool_decide_eq_true_2 by apply not_elem_of_empty.
  unfold TrainM.can_exit. rewrite bool_decide_eq_true_2 by done.
  cbn [andb]. rewrite Hps, bind_ret. cbn zeta.
  rewrite get_put_train by eauto. rewrite bind_ret.
  assert (station_of_train (put_train c t (set_train_passengers ps tr))
            (set_train_passengers ps tr) = Ok s) as ->.
  { apply station_of_train_placed. destruct Hat as (a & nd & ? & ? & ? & ?).
    by exists a, nd. }
  rewrite bind_ret. unfold station_append.
  assert (get_station (put_train c t (set_train_passengers ps tr)) s = Ok st) as ->
    by (by apply get_station_Ok).
  by rewrite !bind_ret.
Qed.

Lemma deployed_off ps tr' : deployed c tr' → deployed (off ps) tr'.
Proof.
  intros [(s' & a & nd & Ha & Hnd & Hs & Hex) Hline]. split; [|done].
  exists s', a, nd. repeat split; try done. simpl.
  apply lookup_lt_is_Some. rewrite length_insert. by apply lookup_lt_is_Some.
Qed.

Lemma off_train ps t' tr' :
  trains (off ps) !! t' = Some tr' →
  (∀ tr0, trains c !! t' = Some tr0 → deployed c tr0) →
  deployed (off ps) tr'.
Proof.
  simpl. intros Hlk Hdep. apply deployed_off.
  destruct (decide (t = t')) as [<-|Hne].
  - rewrite list_lookup_insert_eq in Hlk by (by eapply lookup_lt_Some).
    simplify_eq. destruct Htr as [Hpl Hln]. split; [|done].
    destruct Hpl as (s' & a & nd & ?). by exists s', a, nd.
  - rewrite list_lookup_insert_ne in Hlk by done. by eapply Hdep.
Qed.

Lemma off_state ps t' tr' :
  trains (off ps) !! t' = Some tr' →
  ∃ tr0, trains c !! t' = Some tr0 ∧ state tr0 = state tr'
         ∧ station_node tr0 = station_node tr'.
Proof.
  simpl. intros Hlk. destruct (decide (t = t')) as [<-|Hne].
  - rewrite list_lookup_insert_eq in Hlk by (by eapply lookup_lt_Some).
    simplify_eq. by exists tr.
  - rewrite list_lookup_insert_ne in Hlk by done. by exists tr'.
Qed.

Lemma off_station ps :
  get_station (off ps) s
  = Ok (set_station_passengers (station_passengers st ++ [p]) st).
Proof.
  unfold get_station. simpl. rewrite list_lookup_insert_eq; [done|].
  by eapply lookup_lt_Some.
Qed.

Lemma off_passenger ps :
  get_passenger (off ps) p = Ok (set_position (AtStation s) x).
Proof.
  unfold get_passenger. simpl. rewrite list_lookup_insert_eq; [done|].
  by eapply lookup_lt_Some.
Qed.

(** The test the boarding scan puts to train [t']. *)
Let asked (ps : list passenger_ref) (t' : train_ref) : result bool :=
  tr' ← get_train (off ps) t';
  ok ← TrainM.can_enter (off ps) tr' s;
  if ok : bool then
    hd ← PassengerM.heading (off ps) tr';
    opts ← PassengerM.navigate_step_to (off ps) (set_position (AtStation s) x) s;
    Ok (bool_decide (hd ∈ opts))
  else Ok false.

Lemma board_scans ps :
  PassengerM.board (off ps) p
  = (candidates ← filter_m (asked ps) (seq 0 (length (trains c)));
     match candidates with
     | [] => Ok (off ps)
     | t' :: _ =>
         st' ← get_station (off ps) s;
         qs ← Py.remove p (station_passengers st');
         let c1 := put_station (off ps) s (set_station_passengers qs st') in
         tr' ← get_train c1 t';
         let c2 := put_train c1 t'
                     (set_train_passengers (train_passengers tr' ++ [p]) tr') in
         Ok (put_passenger c2 p
               (set_position (OnTrain t') (set_position (AtStation s) x)))
     end).
Proof.
  unfold PassengerM.board. rewrite off_passenger, bind_ret.
  cbn [position destination set_position]. fold s.
  assert (length (trains (off ps)) = length (trains c)) as ->
    by (simpl; by rewrite length_insert).
  reflexivity.
Qed.

(** A train that stands in service, or is between stations, is not
    boarded: at the destination there is no route option. *)
Lemma not_boarded ps t' :
  (t' < length (trains c))%nat →
  (∀ tr0, trains c !! t' = Some tr0 → state tr0 = AT_STATION → deployed c tr0) →
  asked ps t' = Ok false.
Proof.
  intros Hlt Hdep. unfold asked.
  destruct (lookup_lt_is_Some_2 (trains (off ps)) t') as [tr' Htr'].
  { simpl. by rewrite length_insert. }
  rewrite (get_train_Ok _ _ _ Htr'), bind_ret.
  unfold TrainM.can_enter. case_decide as Hstanding; [|done].
  destruct (off_state _ _ _ Htr') as (tr0 & Htr0 & Hst0 & _).
  assert (deployed (off ps) tr') as [[s' Hpl] Hline].
  { apply (off_train ps t'); [done|]. intros tr1 Htr1. apply Hdep; [done|].
    simplify_eq. congruence. }
  rewrite (station_of_train_placed _ _ _ Hpl), bind_ret, bind_ret.
  destruct (_ && _); [|done].
  destruct (heading_deployed (off ps) tr') as [hd ->]; [by split; eauto|].
  rewrite bind_ret. unfold PassengerM.navigate_step_to.
  cbn [position destination set_position].
  rewrite off_station, !bind_ret.
  assert (navmap (off ps) = Some nv) as -> by done.
  cbn [station_idx set_station_passengers].
  rewrite no_option_at_destination, bind_ret.
  by rewrite bool_decide_eq_false_2 by apply not_elem_of_empty.
Qed.

(** A train that stands without a station node makes the scan raise. *)
Lemma stranded_raises ps t' tr' :
  trains c !! t' = Some tr' → state tr' = AT_STATION → station_node tr' = None →
  asked ps t' = Raise AttributeError.
Proof.
  intros Ht' Hstanding Hnone. unfold asked.
  destruct (lookup_lt_is_Some_2 (trains (off ps)) t') as [tr1 Htr1].
  { simpl. rewrite length_insert. by eapply lookup_lt_Some. }
  rewrite (get_train_Ok _ _ _ Htr1), bind_ret.
  destruct (off_state _ _ _ Htr1) as (tr0 & Htr0 & Hst0 & Hnode0).
  simplify_eq. unfold TrainM.can_enter.
  rewrite decide_True by congruence.
  unfold station_of_train. rewrite <- Hnode0, Hnone. reflexivity.
Qed.

Lemma no_train_to_board ps :
  standing_trains_deployed c → PassengerM.board (off ps) p = Ok (off ps).
Proof.
  intros Hdep. rewrite board_scans, filter_m_none; [done|].
  apply Forall_forall. intros t' Ht'. apply elem_of_seq in Ht'.
  apply not_boarded; [lia|]. intros tr0 Htr0.
  unfold standing_trains_deployed in Hdep. rewrite Forall_lookup in Hdep.
  by eapply Hdep.
Qed.

Lemma scan_raises ps t' tr' :
  trains c !! t' = Some tr' → state tr' = AT_STATION → station_node tr' = None →
  (∀ t0 tr0, (t0 < t')%nat → trains c !! t0 = Some tr0 →
             state tr0 = AT_STATION → deployed c tr0) →
  PassengerM.board (off ps) p = Raise AttributeError.
Proof.
  intros Ht' Hstanding Hnone Hbefore. rewrite board_scans.
  pose proof (lookup_lt_Some _ _ _ Ht') as Hlt.
  replace (length (trains c)) with (t' + S (length (trains c) - S t'))%nat by lia.
  rewrite seq_app. cbn [seq]. rewrite Nat.add_0_l.
  rewrite (filter_m_raise _ _ _ _ AttributeError); [done| |by eapply stranded_raises].
  apply Forall_forall. intros t0 Ht0. apply elem_of_seq in Ht0.
  apply not_boarded; [lia|]. intros tr0 Htr0. apply (Hbefore t0); [lia|done].
Qed.

(** The city once the arrival has been recorded. *)
Let gone (ps qs : list passenger_ref) : City :=
  put_station
    (PassengerM.passenger_arrived (off ps) (set_position (AtStation s) x)) s
    (set_station_passengers qs
       (set_station_passengers (station_passengers st ++ [p]) st)).

Lemma arrive_at_destination ps :
  ∃ qs, Py.remove p (station_passengers st ++ [p]) = Ok qs ∧
        PassengerM.arrive (off ps) p = Ok (gone ps qs).
Proof.
  destruct (remove_present p (station_passengers st ++ [p])) as [qs Hqs].
  { apply elem_of_app. right. by left. }
  exists qs. split; [done|].
  unfold PassengerM.arrive. rewrite off_passenger, bind_ret.
  cbn [position destination set_position]. fold s.
  rewrite decide_True by done. cbn zeta.
  assert (get_station
            (PassengerM.passenger_arrived (off ps) (set_position (AtStation s) x)) s
          = Ok (set_station_passengers (station_passengers st ++ [p]) st)) as ->
    by apply off_station.
  rewrite bind_ret. cbn [station_passengers set_station_passengers].
  by rewrite Hqs, bind_ret.
Qed.

Lemma move_at_destination :
  standing_trains_deployed c →
  ∃ ps qs,
    Py.remove p (train_passengers tr) = Ok ps ∧
    Py.remove p (station_passengers st ++ [p]) = Ok qs ∧
    PassengerM.move c p = Ok (gone ps qs).
Proof.
  intros Hdep.
  destruct (remove_present p (train_passengers tr) Hin) as [ps Hps].
  destruct (arrive_at_destination ps) as (qs & Hqs & Harr).
  exists ps, qs. split; [done|]. split; [done|].
  unfold PassengerM.move.
  rewrite (alight_at_destination ps Hps), bind_ret.
  by rewrite no_train_to_board, bind_ret.
Qed.

Lemma move_beside_stranded t' tr' :
  trains c !! t' = Some tr' → state tr' = AT_STATION → station_node tr' = None →
  (∀ t0 tr0, (t0 < t')%nat → trains c !! t0 = Some tr0 →
             state tr0 = AT_STATION → deployed c tr0) →
  PassengerM.move c p = Raise AttributeError.
Proof.
  intros Ht' Hstanding Hnone Hbefore.
  destruct (remove_present p (train_passengers tr) Hin) as [ps Hps].
  unfold PassengerM.move.
  rewrite (alight_at_destination ps Hps), bind_ret.
  by rewrite (scan_raises ps t' tr').
Qed.

Lemma gone_from_everywhere ps qs :
  Py.remove p (train_passengers tr) = Ok ps →
  Py.remove p (station_passengers st ++ [p]) = Ok qs →
  NoDup (held c) → p ∉ held (gone ps qs).
Proof.
  intros Hps Hqs Hnd. unfold held, CityM.on_trains, CityM.on_stations in *.
  cbn [gone off trains stations put_station put_train put_passenger
       set_stations set_trains set_passengers
       PassengerM.passenger_arrived set_arrived_passengers].
  rewrite list_insert_insert_eq.
  destruct (bind_insert (λ t0, train_passengers t0) (trains c) t tr
              (set_train_passengers ps tr) Ht) as [Hbefore Hafter].
  rewrite Hafter. rewrite Hbefore in Hnd. cbn [train_passengers set_train_passengers].
  apply remove_Permutation in Hps. rewrite Hps in Hnd.
  assert (p ∉ (take t (trains c) ≫= λ t0, train_passengers t0) ++ ps
               ++ (drop (S t) (trains c) ≫= λ t0, train_passengers t0)
               ++ (stations c ≫= λ s0, station_passengers s0)) as Hfresh.
  { rewrite <- !app_assoc in Hnd.
    rewrite (Permutation_app_comm (take t (trains c) ≫= λ t0, train_passengers t0))
      in Hnd.
    simpl in Hnd. rewrite <- !app_assoc in Hnd.
    apply NoDup_cons in Hnd as [Hnin _].
    intros Hel. apply Hnin.
    rewrite !elem_of_app in Hel. rewrite !elem_of_app. tauto. }
  assert (p ∉ station_passengers st) as Hnst.
  { intros Hel. apply Hfresh. rewrite !elem_of_app. right. right. right.
    apply list_elem_of_bind. exists st. split; [done|].
    by eapply list_elem_of_lookup_2. }
  rewrite (remove_snoc_fresh _ _ Hnst) in Hqs. simplify_eq.
  assert (set_station_passengers (station_passengers st)
            (set_station_passengers (station_passengers st ++ [p]) st) = st) as ->
    by (by destruct st).
  rewrite (list_insert_id _ _ _ Hst).
  rewrite <- !app_assoc. exact Hfresh.
Qed.
End Arrival.

Lemma update_navmap_sets c c' :
  NavMap._update_navmap c = Ok c' →
  ∃ d nv, NavMap.compute c = Ok (d, nv) ∧ c' = set_maps d nv c.
Proof.
  unfold NavMap._update_navmap. intros ([d nv] & Hcomp & Hrun)%bind_Ok.
  simplify_eq. by exists d, nv.
Qed.

(** C10: the diagonal of the navigation map and what follows from it.
    After every rebuild that completes, the route-option set from each
    station to itself is empty.  In any later state that still holds this
    map (over the same stations, each with its own index), take a
    passenger riding a train in service that stands at the passenger's
    destination.  If every train standing at a station is in service, the
    passenger steps off, boards no train, is reported as arrived, and -
    being held in one place only - is held nowhere afterwards.  But if some
    train stands without a station node (City.add_train leaves such a train
    when it is called without a line, or with a station that is not on the
    line) and the standing trains before it in the city's list are in
    service, Passenger.move raises AttributeError: the boarding scan asks
    every train whether it can be entered, and Train.can_enter reads
    [station_node.station]. *)
Theorem arrival_on_clear_diagonal (c0 c1 : City) :
  NavMap._update_navmap c0 = Ok c1 →
  ∃ nv, navmap c1 = Some nv ∧
    (∀ i, (i < length (stations c1))%nat → mget_checked nv i i = Ok ∅) ∧
    ∀ c p x t tr,
      navmap c = Some nv → length (stations c) = length (stations c1) →
      stations_indexed c → deployed c tr →
      passengers c !! p = Some x → position x = OnTrain t →
      trains c !! t = Some tr → state tr = AT_STATION →
      placed c tr (destination x) → p ∈ train_passengers tr →
      (standing_trains_deployed c →
       ∃ c', PassengerM.move c p = Ok c' ∧
             arrived_passengers c' = arrived_passengers c ++ [time c - starttime x] ∧
             (NoDup (held c) → p ∉ held c')) ∧
      (∀ t' tr',
         trains c !! t' = Some tr' → state tr' = AT_STATION →
         station_node tr' = None →
         (∀ t0 tr0, (t0 < t')%nat → trains c !! t0 = Some tr0 →
                    state tr0 = AT_STATION → deployed c tr0) →
         PassengerM.move c p = Raise AttributeError).
Proof.
  intros Hrun. apply update_navmap_sets in Hrun as (d & nv & Hcomp & ->).
  destruct (compute_clear _ _ _ Hcomp) as [(_ & Hsq & Hdiag & _) _].
  simpl in Hsq, Hdiag.
  exists nv. split; [done|]. split.
  - intros i Hi. simpl in Hi.
    rewrite (mget_checked_square (length (stations c0))) by done.
    f_equal. by apply Hdiag.
  - intros c p x t tr Hnav Hlen Hidx Htr Hp Hpos Ht Hstate Hat Hin.
    simpl in Hlen. pose proof Hat as (a & nd & _ & _ & _ & [st Hst]).
    rewrite <- Hlen in Hsq, Hdiag. split.
    + intros Hdep.
      destruct (move_at_destination c nv p x t tr st Hnav Hsq
                  (λ i Hi, proj2 (Hdiag i Hi)) Hidx Htr Hp Hpos Ht Hstate Hat Hst Hin
                  Hdep)
        as (ps & qs & Hps & Hqs & Hmove).
      eexists. split; [exact Hmove|]. split; [done|].
      by eapply gone_from_everywhere.
    + intros t' tr' Ht' Hstanding Hnone Hbefore.
      exact (move_beside_stranded c nv p x t tr st Hnav Hsq
               (λ i Hi, proj2 (Hdiag i Hi)) Hidx Htr Hp Hpos Ht Hstate Hat Hst Hin
               t' tr' Ht' Hstanding Hnone Hbefore).
Qed.

Lemma lines_fit_ride : lines_fit city_ride.
Proof.
  apply Forall_singleton. split; [apply three_line_valid | simpl; lia].
Qed.

Lemma arrival_on_clear_diagonal_witness :
  (∃ c1 c', NavMap._update_navmap city_ride = Ok c1 ∧
            PassengerM.move c1 0 = Ok c' ∧
            arrived_passengers c' = [5] ∧
            0%nat ∉ held c') ∧
  (∃ c2 c3, CityM.add_train city_ride None None 1 = Ok (c2, Some 1%nat) ∧
            NavMap._update_navmap c2 = Ok c3 ∧
            PassengerM.move c3 0 = Raise AttributeError).
Proof.
  set (x := {| starttime := 4; origin := 0%nat; destination := 2%nat;
               position := OnTrain 0%nat |}).
  set (tr := {| capacity := WAGON_CAPACITY; train_passengers := [0%nat];
                state := AT_STATION; line := Some 0%nat; direction := -1;
                station_node := Some 2%nat; train_idx := 0 |}).
  assert (∀ c, stations c = stations city_ride → nodes c = nodes city_ride →
               lines c = lines city_ride →
               stations_indexed c ∧ deployed c tr ∧ placed c tr (destination x))
    as Hshape.
  { intros c Hs Hn Hl. split; [|split].
    - intros i st Hst. rewrite Hs in Hst.
      destruct i as [|[|[|i]]]; simpl in Hst; by simplify_eq.
    - split.
      + exists 2%nat, 2%nat. eexists. rewrite Hn, Hs. repeat split; simpl; eauto.
      + exists 0%nat, three_line. by rewrite Hl.
    - exists 2%nat. eexists. rewrite Hn, Hs. repeat split; simpl; eauto. }
  split.
  - destruct (update_navmap_total city_ride) as [c1 Hc1];
      [done | apply lines_fit_ride |].
    destruct (arrival_on_clear_diagonal _ _ Hc1) as (nv' & Hnv' & _ & Hmove).
    pose proof Hc1 as (d & nv & _ & ->)%update_navmap_sets.
    destruct (Hshape (set_maps d nv city_ride)) as (Hidx & Htr & Hat); [done..|].
    destruct (Hmove (set_maps d nv city_ride) 0%nat x 0%nat tr
                Hnv' eq_refl Hidx Htr eq_refl eq_refl eq_refl eq_refl Hat)
      as [Harrive _]; [simpl; by left|].
    destruct Harrive as (c' & Hc' & Harr & Hgone).
    { apply Forall_singleton. by intros _. }
    exists (set_maps d nv city_ride), c'.
    split; [done|]. split; [done|]. split; [done|].
    apply Hgone. unfold held. simpl. apply NoDup_singleton.
  - set (c2 := set_trains (trains city_ride ++ [TrainM.init city_ride]) city_ride).
    destruct (update_navmap_total c2) as [c3 Hc3];
      [done | apply lines_fit_ride |].
    exists c2, c3. split; [reflexivity|]. split; [done|].
    destruct (arrival_on_clear_diagonal _ _ Hc3) as (nv' & Hnv' & _ & Hmove).
    pose proof Hc3 as (d & nv & _ & ->)%update_navmap_sets.
    destruct (Hshape (set_maps d nv c2)) as (Hidx & Htr & Hat); [done..|].
    destruct (Hmove (set_maps d nv c2) 0%nat x 0%nat tr
                Hnv' eq_refl Hidx Htr eq_refl eq_refl eq_refl eq_refl Hat)
      as [_ Hraise]; [simpl; by left|].
    apply (Hraise 1%nat (TrainM.init city_ride)); [done..|].
    intros [|t0] tr0 Hlt Ht0 _; [|lia]. by injection Ht0 as <-.
Defined.


(** ** [sorted] is a stable sort *)

Section SortedFacts.
Context {A : Type} (key : A → Z).

Lemma insert_by_Permutation x l : insert_by key x l ≡ₚ x :: l.
Proof.
  induction l as [|y l IH]; simpl; [done|].
  case_bool_decide; [done|]. rewrite IH. apply Permutation_swap.
Qed.

Lemma sorted_Permutation l : sorted key l ≡ₚ l.
Proof.
  induction l as [|x l IH]; [done|].
  unfold sorted in *. simpl. by rewrite insert_by_Permutation, IH.
Qed.

Lemma insert_by_ordered x l :
  StronglySorted (λ a b, key a ≤ key b) l →
  StronglySorted (λ a b, key a ≤ key b) (insert_by key x l).
Proof.
  induction 1 as [|y l Hl IH Hy]; simpl.
  - by repeat constructor.
  - case_bool_decide as Hxy.
    + constructor; [by constructor|]. constructor; [done|].
      eapply Forall_impl; [exact Hy|]. simpl. lia.
    + constructor; [done|]. rewrite insert_by_Permutation.
      constructor; [lia | done].
Qed.

Lemma sorted_ordered l : StronglySorted (λ a b, key a ≤ key b) (sorted key l).
Proof.
  induction l as [|x l IH]; [constructor|].
  unfold sorted in *. simpl. by apply insert_by_ordered.
Qed.

Lemma insert_by_filter (P : A → Prop) `{∀ a, Decision (P a)} x l :
  (∀ a b, P a → P b → key a = key b) →
  filter P (insert_by key x l) = filter P (x :: l).
Proof.
  intros Hkey. induction l as [|y l IH]; simpl; [done|].
  case_bool_decide as Hxy; [done|].
  rewrite filter_cons, IH, !filter_cons.
  destruct (decide (P y)) as [Hy|Hy], (decide (P x)) as [Hx|Hx]; try done.
  pose proof (Hkey _ _ Hx Hy). lia.
Qed.

Lemma sorted_filter (P : A → Prop) `{∀ a, Decision (P a)} l :
  (∀ a b, P a → P b → key a = key b) →
  filter P (sorted key l) = filter P l.
Proof.
  intros Hkey. induction l as [|x l IH]; [done|].
  unfold sorted in *. simpl. rewrite insert_by_filter by done.
  by rewrite !filter_cons, IH.
Qed.
End SortedFacts.

(** ** City.all_passengers *)

Lemma map_m_keys (c : City) ps keyed :
  map_m (λ p, x ← get_passenger c p; Ok (starttime x, p)) ps = Ok keyed →
  keyed = (λ p, (start_of c p, p)) <$> ps.
Proof.
  revert keyed. induction ps as [|p ps IH]; intros keyed Hrun; simpl in Hrun.
  - by simplify_eq.
  - apply bind_Ok in Hrun as ([k q] & Hk & Hrun).
    apply bind_Ok in Hrun as (ks & Hks & Hrun). simplify_eq.
    apply bind_Ok in Hk as (x & Hx & Hk). simplify_eq.
    rewrite (IH ks Hks). simpl. f_equal. f_equal.
    unfold get_passenger in Hx. unfold start_of.
    by destruct (passengers c !! q); simplify_eq/=.
Qed.

Lemma map_m_keys_total (c : City) ps :
  Forall (λ p, is_Some (passengers c !! p)) ps →
  ∃ keyed, map_m (λ p, x ← get_passenger c p; Ok (starttime x, p)) ps = Ok keyed.
Proof.
  induction 1 as [|p ps [x Hx] _ [keyed IH]]; [by eexists|].
  simpl. unfold get_passenger at 1. rewrite Hx. simpl. rewrite IH. simpl.
  by eexists.
Qed.

Lemma ordered_by_tag (c : City) (l : list (Z * passenger_ref)) :
  Forall (λ kp, kp.1 = start_of c kp.2) l →
  StronglySorted (λ a b, a.1 ≤ b.1) l →
  oldest_first c (snd <$> l).
Proof.
  intros Htag Hsorted. unfold oldest_first.
  induction Hsorted as [|[k p] l Hl IH Hhd]; [constructor|].
  apply Forall_cons in Htag as [Hk Htag]. simpl in Hk.
  rewrite fmap_cons. constructor; [by apply IH|].
  apply Forall_fmap. apply Forall_forall. intros [k' p'] Hin. simpl.
  rewrite Forall_forall in Hhd, Htag.
  pose proof (Hhd _ Hin) as Hle. pose proof (Htag _ Hin) as Hk'. simpl in *. lia.
Qed.

Lemma sorted_by_starttime_spec (c : City) ps l :
  CityM.sorted_by_starttime c ps = Ok l →
  l ≡ₚ ps ∧ oldest_first c l ∧ same_order_among_equals c ps l.
Proof.
  intros Hrun. unfold CityM.sorted_by_starttime in Hrun.
  apply bind_Ok in Hrun as (keyed & Hkeyed & Hrun). simplify_eq.
  apply map_m_keys in Hkeyed as ->.
  set (tag := λ p, (start_of c p, p)).
  assert (∀ qs : list passenger_ref, snd <$> (tag <$> qs) = qs) as Hsnd.
  { intros qs. rewrite <- list_fmap_compose. apply list_fmap_id. }
  split; [|split].
  - rewrite sorted_Permutation. by rewrite Hsnd.
  - apply ordered_by_tag; [|apply sorted_ordered].
    rewrite sorted_Permutation. apply Forall_fmap. by apply Forall_true.
  - intros k.
    assert (∀ L : list (Z * passenger_ref),
              Forall (λ kp, kp.1 = start_of c kp.2) L →
              filter (λ p, start_of c p = k) (snd <$> L)
              = snd <$> filter (λ kp, kp.1 = k) L) as Hcomm.
    { induction 1 as [|[k' p'] L Hk' _ IH]; [done|]. simpl in Hk'.
      rewrite fmap_cons, !filter_cons. simpl. rewrite IH.
      rewrite <- Hk'. by destruct (decide (k' = k)). }
    rewrite Hcomm.
    2:{ rewrite sorted_Permutation. apply Forall_fmap. by apply Forall_true. }
    rewrite (sorted_filter fst (λ kp, kp.1 = k)) by (intros ?? -> ->; done).
    rewrite <- Hcomm by (apply Forall_fmap; by apply Forall_true).
    by rewrite Hsnd.
Qed.

Lemma sorted_by_starttime_total (c : City) ps :
  Forall (λ p, is_Some (passengers c !! p)) ps →
  ∃ l, CityM.sorted_by_starttime c ps = Ok l.
Proof.
  intros Hps. destruct (map_m_keys_total c ps Hps) as [keyed Hk].
  unfold CityM.sorted_by_starttime. rewrite Hk. simpl. by eexists.
Qed.

Lemma all_passengers_spec (c : City) l :
  CityM.all_passengers c = Ok l →
  ∃ riding waiting,
    l = riding ++ waiting ∧
    riding ≡ₚ CityM.on_trains c ∧ waiting ≡ₚ CityM.on_stations c ∧
    oldest_first c riding ∧ oldest_first c waiting ∧
    same_order_among_equals c (CityM.on_trains c) riding ∧
    same_order_among_equals c (CityM.on_stations c) waiting.
Proof.
  intros Hrun. unfold CityM.all_passengers in Hrun.
  apply bind_Ok in Hrun as (riding & Hr & Hrun).
  apply bind_Ok in Hrun as (waiting & Hw & Hrun). simplify_eq.
  destruct (sorted_by_starttime_spec _ _ _ Hr) as (? & ? & ?).
  destruct (sorted_by_starttime_spec _ _ _ Hw) as (? & ? & ?).
  by exists riding, waiting.
Qed.

Lemma all_passengers_total (c : City) :
  passengers_exist c → ∃ l, CityM.all_passengers c = Ok l.
Proof.
  unfold passengers_exist, held. intros [Hr Hw]%Forall_app.
  destruct (sorted_by_starttime_total c _ Hr) as [riding Hriding].
  destruct (sorted_by_starttime_total c _ Hw) as [waiting Hwaiting].
  unfold CityM.all_passengers. rewrite Hriding, bind_ret, Hwaiting, bind_ret.
  by eexists.
Qed.

(** C9: the order in which a tick evaluates passengers.  all_passengers
    returns the passengers held on trains, sorted by start time oldest
    first, followed by the passengers held at stations, sorted the same way
    (equal start times keep their order); it returns whenever every handle
    held stands for a passenger.  A tick that completes runs Passenger.move
    over exactly that list, built once from the state left by the spawn
    phase (which takes the random draws the tick was given, less those a
    new station has used), and then advances the clock. *)
Theorem passengers_in_evaluation_order (c : City) :
  (∀ l, CityM.all_passengers c = Ok l →
        ∃ riding waiting,
          l = riding ++ waiting ∧
          riding ≡ₚ CityM.on_trains c ∧ waiting ≡ₚ CityM.on_stations c ∧
          oldest_first c riding ∧ oldest_first c waiting ∧
          same_order_among_equals c (CityM.on_trains c) riding ∧
          same_order_among_equals c (CityM.on_stations c) waiting) ∧
  (passengers_exist c → ∃ l, CityM.all_passengers c = Ok l) ∧
  (∀ rnd c' rnd',
     SimulationM.simulate_step c rnd = Ok (c', rnd') →
     ∃ c2 rnd0 c3 ps c4,
       (bool_decide (time c > 0)
        && bool_decide (time c `mod` SimulationM.NEW_STATION_INTERVAL = 0) = false →
        rnd0 = rnd) ∧
       for_each StationM.spawn_passengers (seq 0 (length (stations c2))) (c2, rnd0)
       = Ok (c3, rnd') ∧
       CityM.all_passengers c3 = Ok ps ∧
       for_each PassengerM.move ps c3 = Ok c4 ∧
       c' = set_time (time c4 + 1) c4).
Proof.
  split; [|split].
  - apply all_passengers_spec.
  - apply all_passengers_total.
  - intros rnd c' rnd'
      (c0 & c1 & rnd0 & c2 & c3 & c4 & _ & Hadd & _ & Hspawn & Hmove & ->)
      %simulate_step_stages.
    unfold SimulationM.move_passengers in Hmove.
    apply bind_Ok in Hmove as (ps & Hps & Hmove).
    exists c2, rnd0, c3, ps, c4. split; [|done].
    intros Hquiet. rewrite Hquiet in Hadd. by destruct Hadd.
Qed.

Lemma passengers_in_evaluation_order_witness :
  passengers_exist city_mixed ∧
  CityM.on_trains city_mixed = [0; 1]%nat ∧
  CityM.on_stations city_mixed = [2; 3]%nat ∧
  CityM.all_passengers city_mixed = Ok [1; 0; 3; 2]%nat ∧
  ∃ riding waiting,
    [1; 0; 3; 2]%nat = riding ++ waiting ∧
    riding ≡ₚ [0; 1]%nat ∧ waiting ≡ₚ [2; 3]%nat ∧
    oldest_first city_mixed riding ∧ oldest_first city_mixed waiting.
Proof.
  split; [repeat constructor; simpl; eauto|].
  split; [reflexivity|]. split; [reflexivity|]. split; [reflexivity|].
  destruct (passengers_in_evaluation_order city_mixed) as (Hspec & _ & _).
  destruct (Hspec [1; 0; 3; 2]%nat eq_refl)
    as (riding & waiting & Hl & Hr & Hw & Hor & How & _).
  by exists riding, waiting.
Defined.


(** ** Commands that end the batch with an exception *)

Lemma bind_Raise {A B} (e : exn) (f : A → result B) : (Raise e ≫= f) = Raise e.
Proof. reflexivity. Qed.

Lemma batch_aborts c a rest e :
  SimulationM.apply_action c a = Raise e →
  SimulationM._process_user_actions c (Some (a :: rest)) = Raise e.
Proof.
  intros Ha. unfold SimulationM._process_user_actions.
  rewrite for_each_cons. cbn [fst]. by rewrite Ha.
Qed.

Section Commands.
Variables (c : City) (a : SimulationM.action).
Hypothesis Hparsed : SimulationM.success a = true.

Lemma clear_line_command :
  SimulationM.obj_type a = Some "line"%string →
  SimulationM.act a = Some "remove"%string →
  SimulationM.apply_action c a = Raise TypeError.
Proof.
  intros Hty Hact. unfold SimulationM.apply_action, SimulationM.equals.
  by rewrite Hparsed, Hty, Hact.
Qed.

Lemma move_train_command :
  SimulationM.obj_type a = Some "train"%string →
  SimulationM.act a = Some "move"%string →
  SimulationM.apply_action c a = Raise AttributeError.
Proof.
  intros Hty Hact. unfold SimulationM.apply_action, SimulationM.equals.
  by rewrite Hparsed, Hty, Hact.
Qed.

Lemma add_train_without_station l :
  SimulationM.obj_type a = Some "train"%string →
  SimulationM.act a = Some "add"%string →
  SimulationM.act_line a = Some l →
  SimulationM.act_station a = None →
  Z.of_nat (length (trains c)) < max_trains c →
  SimulationM.apply_action c a = Raise AttributeError.
Proof.
  intros Hty Hact Hline Hst Hroom.
  unfold SimulationM.apply_action, SimulationM.equals.
  rewrite Hparsed, Hty, Hact, Hline, Hst. cbn [negb].
  rewrite !bool_decide_eq_true_2 by done. cbn [andb].
  unfold CityM.add_train. rewrite bool_decide_eq_true_2 by done.
  unfold TrainM.set_line, get_train. cbn [trains set_trains].
  rewrite lookup_app_r by done. rewrite Nat.sub_diag. reflexivity.
Qed.
End Commands.

Lemma clear_line_raises c l :
  is_Some (lines c !! l) → CityM.clear_line c (Some l) = Raise AttributeError.
Proof.
  intros Hl. unfold CityM.clear_line, CityM.known.
  by rewrite bool_decide_eq_true_2.
Qed.

(** C5: what the batch processing does with the three commands the claim
    names.  A well-formed line+remove command raises TypeError
    (clear_line is called without its argument, and would itself raise
    AttributeError for an existing line); a well-formed train+move command
    raises AttributeError; a well-formed train+add command that names a line
    but no station raises AttributeError once the new train has been
    appended.  In each case the exception leaves the batch loop, so the
    commands after it are not processed and the navigation map is not
    rebuilt. *)
Theorem commands_that_abort (c : City) (a : SimulationM.action)
    (rest : list SimulationM.action) :
  SimulationM.success a = true →
  (SimulationM.obj_type a = Some "line"%string →
   SimulationM.act a = Some "remove"%string →
   SimulationM._process_user_actions c (Some (a :: rest)) = Raise TypeError) ∧
  (∀ l, is_Some (lines c !! l) →
        CityM.clear_line c (Some l) = Raise AttributeError) ∧
  (SimulationM.obj_type a = Some "train"%string →
   SimulationM.act a = Some "move"%string →
   SimulationM._process_user_actions c (Some (a :: rest)) = Raise AttributeError) ∧
  (SimulationM.obj_type a = Some "train"%string →
   SimulationM.act a = Some "add"%string →
   is_Some (SimulationM.act_line a) → SimulationM.act_station a = None →
   Z.of_nat (length (trains c)) < max_trains c →
   SimulationM._process_user_actions c (Some (a :: rest)) = Raise AttributeError).
Proof.
  intros Hparsed. split; [|split; [|split]].
  - intros. by apply batch_aborts, clear_line_command.
  - apply clear_line_raises.
  - intros. by apply batch_aborts, move_train_command.
  - intros Hty Hact [l Hl] Hst Hroom.
    by apply batch_aborts, (add_train_without_station c a Hparsed l).
Qed.

Lemma commands_that_abort_witness :
  SimulationM._process_user_actions city_abc (Some [clear_blue_line])
  = Raise TypeError ∧
  SimulationM._process_user_actions city_abc (Some [move_train_0])
  = Raise AttributeError ∧
  SimulationM._process_user_actions city_abc (Some [add_train_no_station])
  = Raise AttributeError.
Proof.
  destruct (commands_that_abort city_abc clear_blue_line [] eq_refl)
    as (Hclear & _).
  destruct (commands_that_abort city_abc move_train_0 [] eq_refl)
    as (_ & _ & Hmove & _).
  destruct (commands_that_abort city_abc add_train_no_station [] eq_refl)
    as (_ & _ & _ & Hadd).
  split; [by apply Hclear|]. split; [by apply Hmove|].
  apply Hadd; first [reflexivity | by eexists | simpl; lia].
Defined.


(** * Further properties *)

(** ** Line.find_node and Line.remove_station *)

Lemma station_seq_lookup h ns (i : nat) a :
  ns !! i = Some a → station_seq h ns !! i = Some (station <$> h !! a).
Proof. intros Hi. unfold station_seq. by rewrite list_lookup_fmap, Hi. Qed.

Lemma find_node_in_absent h ns s :
  nodes_valid h ns → Some s ∉ station_seq h ns →
  LineM.find_node_in h ns s = Ok None.
Proof.
  induction ns as [|a ns IH]; intros Hv Hno; [done|].
  apply Forall_cons in Hv as [[nd Hnd] Hv]. simpl. rewrite Hnd. simpl.
  unfold station_seq in Hno. rewrite fmap_cons, Hnd in Hno. simpl in Hno.
  apply not_elem_of_cons in Hno as [Hne Hno].
  rewrite decide_False by congruence. by apply IH.
Qed.

Lemma find_node_in_first h ns s i :
  nodes_valid h ns → first_at h ns s i →
  ∃ a, ns !! i = Some a ∧ LineM.find_node_in h ns s = Ok (Some a).
Proof.
  revert i. induction ns as [|a ns IH]; intros i Hv [Hi Hfirst].
  { by destruct i. }
  apply Forall_cons in Hv as [[nd Hnd] Hv]. simpl. rewrite Hnd. simpl.
  destruct i as [|i].
  - exists a. split; [done|].
    unfold station_seq in Hi. simpl in Hi. rewrite Hnd in Hi. simpl in Hi.
    rewrite decide_True by congruence. done.
  - assert (station nd ≠ s) as Hne.
    { intros Heq. apply (Hfirst 0%nat); [lia|].
      unfold station_seq. simpl. by rewrite Hnd, <- Heq. }
    rewrite decide_False by done.
    destruct (IH i Hv) as (b & Hb & Hrun).
    { split; [exact Hi|]. intros j Hj. apply (Hfirst (S j)). lia. }
    by exists b.
Qed.

Lemma find_node_in_found h ns s a :
  LineM.find_node_in h ns s = Ok (Some a) →
  ∃ i, ns !! i = Some a ∧ first_at h ns s i.
Proof.
  induction ns as [|b ns IH]; [done|]. simpl.
  destruct (h !! b) as [nd|] eqn:Hnd; [|done]. simpl.
  destruct (decide (station nd = s)) as [Hs|Hs].
  - intros [= ->]. exists 0%nat. split; [done|]. split.
    + unfold station_seq. simpl. by rewrite Hnd, <- Hs.
    + intros j Hj. lia.
  - intros (i & Hi & Hat & Hfirst)%IH. exists (S i). split; [done|]. split.
    + exact Hat.
    + intros [|j] Hj.
      * unfold station_seq. simpl. rewrite Hnd. simpl. congruence.
      * apply Hfirst. lia.
Qed.

Lemma find_node_in_none h ns s :
  LineM.find_node_in h ns s = Ok None → Some s ∉ station_seq h ns.
Proof.
  induction ns as [|b ns IH]; simpl.
  - intros _. unfold station_seq. simpl. apply not_elem_of_nil.
  - destruct (h !! b) as [nd|] eqn:Hnd; [|done]. simpl.
    destruct (decide (station nd = s)) as [Hs|Hs]; [done|].
    intros Hrun%IH. unfold station_seq in *. simpl.
    apply not_elem_of_cons. split; [congruence | done].
Qed.

(** One step of a run: a read that succeeded, a bind of a value. *)
Ltac run := cbn [deref mbind result_bind Py.bind].

Lemma remove_at `{EqDecision A} (l : list A) (i : nat) (x : A) :
  NoDup l → l !! i = Some x → Py.remove x l = Ok (delete i l).
Proof.
  revert i. induction l as [|y l IH]; intros i Hnd Hi; [done|].
  apply NoDup_cons in Hnd as [Hy Hnd]. destruct i as [|i]; simpl in *.
  - simplify_eq. by rewrite decide_True.
  - rewrite decide_False.
    2:{ intros ->. apply Hy. by eapply list_elem_of_lookup_2. }
    by rewrite (IH i).
Qed.

Lemma update_link_alter h b g nd :
  h !! b = Some nd → update_link h (Some (ToNode b)) g = Ok (alter g b h).
Proof.
  intros Hb. unfold update_link. rewrite Hb. simpl. f_equal.
  by apply insert_alter.
Qed.

Section Unsplice.
Variables (h : heap) (ns : list node_ref) (i : nat) (a : node_ref).
Hypothesis Hlinked : linked h ns.
Hypothesis Hi : ns !! i = Some a.

Let before := match i with O => None | S j => ns !! j end.
Let after := ns !! S i.

Lemma unspliced_lookup (j : nat) b nd :
  ns !! j = Some b → h !! b = Some nd →
  ∃ nd', unspliced h ns i !! b = Some nd'
         ∧ station nd' = station nd
         ∧ previous_node nd'
           = (if decide (j = S i) then ToNode <$> before else previous_node nd)
         ∧ next_node nd'
           = (if decide (S j = i) then ToNode <$> after else next_node nd).
Proof.
  intros Hj Hb. destruct Hlinked as [Hdup _]. unfold unspliced.
  fold before after.
  set (h1 := match before with
             | Some b0 => alter (set_next_node (ToNode <$> after)) b0 h
             | None => h
             end).
  set (x1 := if decide (S j = i)
             then set_next_node (ToNode <$> after) nd else nd).
  assert (h1 !! b = Some x1) as H1.
  { unfold h1, x1, before. destruct (decide (S j = i)) as [<-|Hne].
    - by rewrite Hj, list_lookup_alter_eq, Hb.
    - destruct i as [|i']; [done|].
      destruct (ns !! i') as [b0|] eqn:Hb0; [|done].
      rewrite list_lookup_alter_ne; [done|].
      intros ->. apply Hne. f_equal. by eapply NoDup_lookup. }
  clearbody h1.
  exists (if decide (j = S i)
          then set_previous_node (ToNode <$> before) x1 else x1).
  split; [|unfold x1; repeat case_decide; try lia; by destruct nd].
  unfold after. destruct (decide (j = S i)) as [->|Hne].
  - by rewrite Hj, list_lookup_alter_eq, H1.
  - destruct (ns !! S i) as [b0|] eqn:Hb0; [|done].
    rewrite list_lookup_alter_ne; [done|].
    intros ->. apply Hne. by eapply NoDup_lookup.
Qed.

Lemma unspliced_linked : linked (unspliced h ns i) (delete i ns).
Proof.
  pose proof Hlinked as [Hdup Hl]. split.
  - rewrite delete_take_drop. rewrite <- (take_drop_middle ns i a Hi) in Hdup.
    apply NoDup_app in Hdup as (H1 & H2 & H3).
    apply NoDup_cons in H3 as [_ H3].
    apply NoDup_app. split; [done|]. split; [|done].
    intros x Hx Hx'. apply (H2 x Hx). by right.
  - pose proof (lookup_lt_Some _ _ _ Hi) as Hlen.
    intros j b. rewrite list_lookup_delete. intros Hj.
    destruct (decide (j < i)%nat) as [Hlt|Hge].
    + destruct (Hl _ _ Hj) as (nd & Hb & Hp & Hn).
      destruct (unspliced_lookup j b nd Hj Hb) as (nd' & Hb' & _ & Hp' & Hn').
      exists nd'. split; [done|]. split.
      * rewrite Hp'. destruct (decide (j = S i)); [lia|]. rewrite Hp.
        destruct j as [|j']; [done|].
        rewrite list_lookup_delete. by destruct (decide (j' < i)%nat); [|lia].
      * rewrite Hn', list_lookup_delete.
        destruct (decide (S j = i)) as [<-|Hne].
        -- unfold after. by destruct (decide (S j < S j)%nat); [lia|].
        -- rewrite Hn. by destruct (decide (S j < i)%nat); [|lia].
    + destruct (Hl _ _ Hj) as (nd & Hb & Hp & Hn).
      destruct (unspliced_lookup (S j) b nd Hj Hb) as (nd' & Hb' & _ & Hp' & Hn').
      exists nd'. split; [done|]. split.
      * rewrite Hp'. destruct (decide (S j = S i)) as [Heq|Hne].
        -- assert (j = i) as -> by lia. unfold before.
           destruct i as [|i']; [done|].
           rewrite list_lookup_delete. by destruct (decide (i' < S i')%nat); [|lia].
        -- rewrite Hp. destruct j as [|j']; [lia|].
           rewrite list_lookup_delete. by destruct (decide (j' < i)%nat); [lia|].
      * rewrite Hn'. destruct (decide (S (S j) = i)); [lia|]. rewrite Hn.
        rewrite list_lookup_delete. by destruct (decide (S j < i)%nat); [lia|].
Qed.

Lemma unspliced_stations :
  station_seq (unspliced h ns i) (delete i ns) = delete i (station_seq h ns).
Proof.
  destruct Hlinked as [_ Hl]. apply list_eq. intros j.
  unfold station_seq. rewrite list_lookup_fmap, !list_lookup_delete, !list_lookup_fmap.
  destruct (decide (j < i)%nat).
  - destruct (ns !! j) as [b|] eqn:Hj; [|done]. simpl.
    destruct (Hl _ _ Hj) as (nd & Hb & _).
    destruct (unspliced_lookup j b nd Hj Hb) as (nd' & Hb' & Hst & _).
    rewrite Hb, Hb'. simpl. by rewrite Hst.
  - destruct (ns !! S j) as [b|] eqn:Hj; [|done]. simpl.
    destruct (Hl _ _ Hj) as (nd & Hb & _).
    destruct (unspliced_lookup (S j) b nd Hj Hb) as (nd' & Hb' & Hst & _).
    rewrite Hb, Hb'. simpl. by rewrite Hst.
Qed.

Lemma unspliced_elsewhere b :
  b ∉ ns → unspliced h ns i !! b = h !! b.
Proof.
  intros Hb. unfold unspliced.
  assert (∀ (j : nat) b0, ns !! j = Some b0 → b0 ≠ b) as Hne.
  { intros j b0 Hj ->. apply Hb. by eapply list_elem_of_lookup_2. }
  destruct (ns !! S i) as [b1|] eqn:H1;
    [rewrite list_lookup_alter_ne by (by eapply Hne)|];
    (destruct i as [|i']; [done|]);
    (destruct (ns !! i') as [b0|] eqn:H0; [|done]);
    by rewrite list_lookup_alter_ne by (by eapply Hne).
Qed.

Lemma remove_station_unsplices l s :
  station_nodes l = ns → first_at h ns s i →
  LineM.remove_station h l s
  = Ok (unspliced h ns i, set_station_nodes (delete i ns) l, true).
Proof.
  intros Hns Hat. pose proof Hlinked as [Hdup Hl].
  assert (nodes_valid h ns) as Hvalid.
  { rewrite <- Hns. apply linked_valid. by rewrite Hns. }
  destruct (find_node_in_first h ns s i Hvalid Hat) as (a' & Ha' & Hfind).
  assert (a' = a) as -> by congruence.
  unfold LineM.remove_station, LineM.find_node. rewrite Hns, Hfind. run.
  destruct (Hl _ _ Hi) as (nd & Hnd & Hp & Hn).
  rewrite Hnd. run. unfold unspliced.
  assert (previous_node nd = ToNode <$> before) as Hp' by (by destruct i).
  fold before after. rewrite Hp'.
  set (h1 := match before with
             | Some b0 => alter (set_next_node (ToNode <$> after)) b0 h
             | None => h
             end).
  assert ((match ToNode <$> before with
           | Some p => update_link h (Some p) (set_next_node (next_node nd))
           | None => Ok h
           end) = Ok h1) as ->.
  { unfold h1. rewrite Hn. fold after. unfold before.
    destruct i as [|i']; [done|].
    destruct (ns !! i') as [b0|] eqn:Hb0; [|done].
    cbn [fmap option_fmap option_map].
    destruct (Hl _ _ Hb0) as (nd0 & Hnd0 & _).
    by rewrite (update_link_alter _ _ _ nd0). }
  run.
  assert (h1 !! a = Some nd) as H1.
  { unfold h1, before. destruct i as [|i']; [done|].
    destruct (ns !! i') as [b0|] eqn:Hb0; [|done].
    rewrite list_lookup_alter_ne; [done|].
    intros ->. assert (i' = S i') by (by eapply NoDup_lookup). lia. }
  rewrite H1. run. rewrite Hn. fold after. rewrite Hp'.
  assert ((match ToNode <$> after with
           | Some q => update_link h1 (Some q) (set_previous_node (ToNode <$> before))
           | None => Ok h1
           end)
          = Ok (match after with
                | Some b => alter (set_previous_node (ToNode <$> before)) b h1
                | None => h1
                end)) as ->.
  { unfold after. destruct (ns !! S i) as [b1|] eqn:Hb1; [|done].
    cbn [fmap option_fmap option_map].
    destruct (Hl _ _ Hb1) as (nd1 & Hnd1 & _).
    assert (is_Some (h1 !! b1)) as [x Hx].
    { apply lookup_lt_is_Some. unfold h1, before.
      destruct i as [|i']; [by eapply lookup_lt_Some|].
      destruct (ns !! i'); [rewrite length_alter|]; by eapply lookup_lt_Some. }
    by rewrite (update_link_alter _ _ _ x). }
  run. by rewrite (remove_at ns i a).
Qed.
End Unsplice.

(** ** What Line.add_station leaves in the heap *)

Section SplicedHeap.
Variables (h : heap) (ns : list node_ref) (k : nat) (s : station_ref).
Hypothesis Hlinked : linked h ns.

Lemma spliced_fresh :
  spliced h ns k s !! length h
  = Some {| station := s;
            previous_node := ToNode <$> match k with O => None | S j => ns !! j end;
            next_node := ToNode <$> ns !! k |}.
Proof.
  unfold spliced.
  set (before := match k with O => None | S j => ns !! j end).
  assert (∀ b, before = Some b → b ≠ length h) as Hb.
  { intros b Hbef. unfold before in Hbef. destruct k as [|j]; [done|].
    by eapply (linked_lookup h ns). }
  assert (∀ b, ns !! k = Some b → b ≠ length h) as Ha
    by (intros b ?; by eapply (linked_lookup h ns)).
  destruct before as [b|]; [rewrite list_lookup_alter_ne by (by apply Hb)|];
    (destruct (ns !! k) as [b'|];
       [rewrite list_lookup_alter_ne by (by apply Ha)|]);
    apply fresh_lookup.
Qed.

Lemma spliced_lookup (i : nat) a nd :
  ns !! i = Some a → h !! a = Some nd →
  ∃ nd', spliced h ns k s !! a = Some nd'
         ∧ station nd' = station nd
         ∧ previous_node nd'
           = (if decide (i = k) then Some (ToNode (length h)) else previous_node nd)
         ∧ next_node nd'
           = (if decide (S i = k) then Some (ToNode (length h)) else next_node nd).
Proof.
  intros Hi Hnd. unfold spliced. destruct Hlinked as [Hdup _].
  set (a0 := length h).
  set (h1 := h ++ _).
  assert (h1 !! a = Some nd) as H1 by (by apply lookup_app_l_Some).
  set (h2 := match ns !! k with
             | Some b => alter (set_previous_node (Some (ToNode a0))) b h1
             | None => h1
             end).
  set (x2 := if decide (i = k)
             then set_previous_node (Some (ToNode a0)) nd else nd).
  assert (h2 !! a = Some x2) as H2.
  { unfold h2, x2. destruct (decide (i = k)) as [->|Hne].
    - by rewrite Hi, list_lookup_alter_eq, H1.
    - destruct (ns !! k) as [b|] eqn:Hb; [|done].
      rewrite list_lookup_alter_ne; [done|].
      intros ->. apply Hne. by eapply NoDup_lookup. }
  clearbody h2.
  exists (if decide (S i = k) then set_next_node (Some (ToNode a0)) x2 else x2).
  split; [|unfold x2; repeat case_decide; try lia; by destruct nd].
  destruct (decide (S i = k)) as [<-|Hne].
  - by rewrite Hi, list_lookup_alter_eq, H2.
  - destruct k as [|j]; [exact H2|].
    destruct (ns !! j) as [b|] eqn:Hb; [|exact H2].
    rewrite list_lookup_alter_ne; [exact H2|].
    intros ->. apply Hne. f_equal. by eapply NoDup_lookup.
Qed.

Lemma spliced_elsewhere b :
  (b < length h)%nat → b ∉ ns → spliced h ns k s !! b = h !! b.
Proof.
  intros Hlt Hb. unfold spliced.
  assert (∀ (j : nat) b0, ns !! j = Some b0 → b0 ≠ b) as Hne.
  { intros j b0 Hj ->. apply Hb. by eapply list_elem_of_lookup_2. }
  set (before := match k with O => None | S j => ns !! j end).
  assert (∀ b0, before = Some b0 → b0 ≠ b) as Hne'.
  { intros b0 Hb0. unfold before in Hb0. destruct k as [|j]; [done|].
    by eapply Hne. }
  destruct before as [b0|]; [rewrite list_lookup_alter_ne by (by apply Hne')|];
    (destruct (ns !! k) as [b1|] eqn:H1;
       [rewrite list_lookup_alter_ne by (by eapply Hne)|]);
    by rewrite lookup_app_l.
Qed.

Lemma spliced_stations :
  station_seq (spliced h ns k s) ns = station_seq h ns.
Proof.
  destruct Hlinked as [_ Hl]. apply list_eq. intros j.
  unfold station_seq. rewrite !list_lookup_fmap.
  destruct (ns !! j) as [b|] eqn:Hj; [|done]. simpl.
  destruct (Hl _ _ Hj) as (nd & Hb & _).
  destruct (spliced_lookup j b nd Hj Hb) as (nd' & Hb' & Hst & _).
  rewrite Hb, Hb'. simpl. by rewrite Hst.
Qed.

Lemma spliced_length : length (spliced h ns k s) = S (length h).
Proof.
  unfold spliced.
  destruct (match k with O => None | S j => ns !! j end);
    destruct (ns !! k); rewrite ?length_alter, length_app; simpl; lia.
Qed.
End SplicedHeap.

Lemma add_station_off_line h l s position h' l' :
  nodes_valid h (station_nodes l) →
  LineM.add_station h l s position = Ok (h', l', true) →
  ¬ on_line h l s.
Proof.
  intros Hvalid. unfold LineM.add_station, on_line.
  destruct (bool_decide (_ = 0) && bool_decide (position ≤ 0)) eqn:Hfirst.
  - apply andb_true_iff in Hfirst as [Hn%bool_decide_eq_true _].
    assert (station_nodes l = []) as -> by (apply length_zero_iff_nil; lia).
    intros _. apply not_elem_of_nil.
  - destruct (stations_of_seq h l Hvalid) as (ss & -> & ->). run.
    destruct (bool_decide (s ∈ ss)) eqn:Hin; [by intros [=]|].
    apply bool_decide_eq_false in Hin.
    intros _ (x & [= <-] & Hx)%list_elem_of_fmap. done.
Qed.

Lemma add_station_color h l s position h' l' b :
  LineM.add_station h l s position = Ok (h', l', b) → color l' = color l.
Proof.
  unfold LineM.add_station. intros Hrun.
  repeat (first
    [ progress simplify_eq/=
    | match type of Hrun with
      | (if ?b then _ else _) = _ => destruct b
      | (_ ≫= _) = Ok _ => apply bind_Ok in Hrun as (? & ? & Hrun)
      end ]); done.
Qed.

Lemma find_node_in_total h ns s :
  nodes_valid h ns → ∃ r, LineM.find_node_in h ns s = Ok r.
Proof.
  induction ns as [|a ns IH]; intros Hv; [by eexists|].
  apply Forall_cons in Hv as [[nd Hnd] Hv]. simpl. rewrite Hnd. run.
  case_decide; [by eexists | by apply IH].
Qed.

Lemma on_line_first h ns s :
  nodes_valid h ns → Some s ∈ station_seq h ns → ∃ i, first_at h ns s i.
Proof.
  intros Hv Hon. destruct (find_node_in_total h ns s Hv) as [[a|] Hr].
  - apply find_node_in_found in Hr as (i & _ & Hat). by exists i.
  - by apply find_node_in_none in Hr.
Qed.

(** X1: Line.add_station keeps a line an open chain.  Whenever add_station
    returns True on a line whose nodes form an open doubly linked chain, the
    station was not on the line before and is on it afterwards, the line has
    one node more and is again an open chain (so is_circular is False), its
    colour is unchanged, and every node of the heap that is not on this line
    is left as it was. *)
Theorem add_station_keeps_chain (h : heap) (l : Line) (s : station_ref)
    (position : Z) (h' : heap) (l' : Line) :
  linked h (station_nodes l) →
  LineM.add_station h l s position = Ok (h', l', true) →
  linked h' (station_nodes l')
  ∧ LineM.is_circular h' l' = Ok false
  ∧ length (station_nodes l') = S (length (station_nodes l))
  ∧ color l' = color l
  ∧ ¬ on_line h l s
  ∧ on_line h' l' s
  ∧ ∀ b, (b < length h)%nat → b ∉ station_nodes l → h' !! b = h !! b.
Proof.
  intros Hlinked Hrun.
  pose proof (add_station_color _ _ _ _ _ _ _ Hrun) as Hcol.
  pose proof (add_station_off_line _ _ _ _ _ _ (linked_valid _ _ Hlinked) Hrun) as Hoff.
  destruct (add_station_splices _ _ _ _ _ _ Hlinked Hrun) as (k & Hk & -> & Hns).
  assert (linked (spliced h (station_nodes l) k s) (station_nodes l')) as Hl'
    by (rewrite Hns; by apply spliced_linked).
  split; [done|]. split; [by apply linked_not_circular|]. split.
  { rewrite Hns, length_app. simpl. rewrite length_take, length_drop. lia. }
  split; [done|]. split; [done|]. split.
  - unfold on_line. rewrite Hns. apply list_elem_of_lookup. exists k.
    erewrite station_seq_lookup.
    2:{ rewrite lookup_app_r by (rewrite length_take; lia).
        rewrite length_take, Nat.min_l by lia. by rewrite Nat.sub_diag. }
    by rewrite (spliced_fresh _ _ _ _ Hlinked).
  - intros b Hb Hnot. by apply spliced_elsewhere.
Qed.

Lemma add_station_keeps_chain_witness :
  linked three_nodes (station_nodes three_line) ∧
  ∃ h' l', LineM.add_station three_nodes three_line 7%nat 1 = Ok (h', l', true)
           ∧ station_nodes l' = [0; 3; 1; 2]%nat
           ∧ linked h' (station_nodes l')
           ∧ LineM.is_circular h' l' = Ok false.
Proof.
  split; [apply three_line_linked|].
  eexists _, _. split; [reflexivity|]. split; [reflexivity|].
  destruct (add_station_keeps_chain three_nodes three_line 7%nat 1 _ _
              three_line_linked eq_refl) as (Hl & Hc & _).
  by split.
Defined.

(** X2: Line.remove_station on an open chain.  Asked for a station that is
    not on the line, remove_station returns False and changes nothing.
    Asked for a station that is on it, it returns True, the node of the
    station's first occurrence is taken out of the node list, the remaining
    nodes keep their stations and order and are again an open chain, and
    nodes that are not on the line are left as they were. *)
Theorem remove_station_on_chain (h : heap) (l : Line) (s : station_ref) :
  linked h (station_nodes l) →
  let ns := station_nodes l in
  (¬ on_line h l s → LineM.remove_station h l s = Ok (h, l, false)) ∧
  (on_line h l s → ∃ i, first_at h ns s i) ∧
  (∀ i, first_at h ns s i →
     ∃ h', LineM.remove_station h l s
           = Ok (h', set_station_nodes (delete i ns) l, true)
           ∧ linked h' (delete i ns)
           ∧ station_seq h' (delete i ns) = delete i (station_seq h ns)
           ∧ ∀ b, b ∉ ns → h' !! b = h !! b).
Proof.
  intros Hlinked ns. pose proof (linked_valid _ _ Hlinked) as Hvalid.
  split; [|split].
  - intros Hoff. unfold LineM.remove_station, LineM.find_node.
    by rewrite (find_node_in_absent _ _ _ Hvalid Hoff).
  - intros Hon. by apply on_line_first.
  - intros i Hat.
    destruct (find_node_in_first _ _ _ _ Hvalid Hat) as (a & Ha & _).
    exists (unspliced h ns i). split.
    + by apply (remove_station_unsplices h ns i a).
    + split; [by apply (unspliced_linked h ns i a)|].
      split; [by apply (unspliced_stations h ns i a)|].
      intros b Hb. by apply (unspliced_elsewhere h ns i a).
Qed.

Lemma remove_station_on_chain_witness :
  linked three_nodes (station_nodes three_line) ∧
  first_at three_nodes (station_nodes three_line) 1%nat 1%nat ∧
  ∃ h', LineM.remove_station three_nodes three_line 1%nat
        = Ok (h', set_station_nodes [0; 2]%nat three_line, true)
        ∧ linked h' [0; 2]%nat
        ∧ station_seq h' [0; 2]%nat = [Some 0; Some 2]%nat.
Proof.
  assert (first_at three_nodes (station_nodes three_line) 1%nat 1%nat) as Hat.
  { split; [reflexivity|]. intros [|j] Hj; [discriminate | lia]. }
  split; [apply three_line_linked|]. split; [exact Hat|].
  destruct (remove_station_on_chain three_nodes three_line 1%nat three_line_linked)
    as (_ & _ & Hrem).
  destruct (Hrem 1%nat Hat) as (h' & Hrun & Hl & Hseq & _).
  exists h'. by split.
Defined.

(** ** Line.add_station followed by Line.remove_station *)

Lemma splice_lookup_lt {A} (l : list A) (k j : nat) (x : A) :
  (k ≤ length l)%nat → (j < k)%nat → (take k l ++ x :: drop k l) !! j = l !! j.
Proof. intros Hk Hj. rewrite splice_lookup by done. by rewrite decide_True. Qed.

Lemma splice_lookup_eq {A} (l : list A) (k : nat) (x : A) :
  (k ≤ length l)%nat → (take k l ++ x :: drop k l) !! k = Some x.
Proof.
  intros Hk. rewrite splice_lookup by done.
  destruct (decide (k < k)%nat); [lia|]. by destruct (decide (k = k)).
Qed.

Lemma splice_lookup_gt {A} (l : list A) (k j : nat) (x : A) :
  (k ≤ length l)%nat → (k ≤ j)%nat → (take k l ++ x :: drop k l) !! S j = l !! j.
Proof.
  intros Hk Hj. rewrite splice_lookup by done.
  destruct (decide (S j < k)%nat); [lia|]. by destruct (decide (S j = k)); [lia|].
Qed.

Lemma delete_splice {A} (l : list A) (k : nat) (x : A) :
  (k ≤ length l)%nat → delete k (take k l ++ x :: drop k l) = l.
Proof.
  intros Hk. rewrite <- (take_drop k l) at 3.
  rewrite <- (delete_middle (take k l) (drop k l) x).
  by rewrite length_take, Nat.min_l.
Qed.

Section RoundTrip.
Variables (h : heap) (ns : list node_ref) (k : nat) (s : station_ref).
Hypothesis Hlinked : linked h ns.
Hypothesis Hk : (k ≤ length ns)%nat.
Hypothesis Hoff : Some s ∉ station_seq h ns.

Let h' := spliced h ns k s.
Let ns' := take k ns ++ length h :: drop k ns.

Lemma spliced_first_at : first_at h' ns' s k.
Proof.
  split.
  - erewrite station_seq_lookup by (by apply splice_lookup_eq).
    unfold h'. by rewrite (spliced_fresh _ _ _ _ Hlinked).
  - intros j Hj Hat. apply Hoff. apply list_elem_of_lookup. exists j.
    rewrite <- Hat. unfold station_seq at 2.
    rewrite list_lookup_fmap. unfold ns'. rewrite splice_lookup_lt by done.
    rewrite <- (spliced_stations h ns k s Hlinked).
    unfold station_seq. by rewrite list_lookup_fmap.
Qed.

Lemma unspliced_spliced b :
  (b < length h)%nat → unspliced h' ns' k !! b = h !! b.
Proof.
  intros Hb. pose proof Hlinked as [Hdup Hl].
  assert (linked h' ns') as Hl' by (by apply spliced_linked).
  destruct (decide (b ∈ ns)) as [Hin|Hnot].
  - apply list_elem_of_lookup in Hin as [j Hj].
    destruct (Hl _ _ Hj) as (nd & Hnd & Hp & Hn).
    destruct (spliced_lookup h ns k s Hlinked j b nd Hj Hnd)
      as (nd1 & Hnd1 & Hs1 & Hp1 & Hn1).
    fold h' in Hnd1.
    set (j' := if decide (j < k)%nat then j else S j).
    assert (ns' !! j' = Some b) as Hj'.
    { unfold j', ns'. destruct (decide (j < k)%nat).
      - rewrite splice_lookup_lt by (done || lia). done.
      - rewrite splice_lookup_gt by (done || lia). done. }
    destruct (unspliced_lookup h' ns' k (length h) Hl' (splice_lookup_eq _ _ _ Hk)
                j' b nd1 Hj' Hnd1) as (nd2 & Hnd2 & Hs2 & Hp2 & Hn2).
    rewrite Hnd2, Hnd. f_equal.
    assert (previous_node nd2 = previous_node nd) as Hpe.
    { rewrite Hp2. unfold j'. destruct (decide (j < k)%nat).
      - destruct (decide (j = S k)); [lia|]. rewrite Hp1.
        by destruct (decide (j = k)); [lia|].
      - destruct (decide (S j = S k)) as [Heq|Hne].
        + assert (j = k) as -> by lia. rewrite Hp.
          destruct k as [|k0]; [done|].
          unfold ns'. by rewrite splice_lookup_lt by lia.
        + rewrite Hp1. by destruct (decide (j = k)); [lia|]. }
    assert (next_node nd2 = next_node nd) as Hne.
    { rewrite Hn2. unfold j'. destruct (decide (j < k)%nat).
      - destruct (decide (S j = k)) as [<-|Hne].
        + rewrite Hn. unfold ns'. by rewrite splice_lookup_gt by lia.
        + rewrite Hn1. by destruct (decide (S j = k)); [lia|].
      - destruct (decide (S (S j) = k)); [lia|]. rewrite Hn1.
        by destruct (decide (S j = k)); [lia|]. }
    destruct nd2, nd. simpl in *. congruence.
  - rewrite (unspliced_elsewhere h' ns' k (length h)).
    + by apply spliced_elsewhere.
    + by apply splice_lookup_eq.
    + unfold ns'. intros [Hx|[Hx|Hx]%elem_of_cons]%elem_of_app.
      * apply Hnot. by eapply subseteq_take.
      * lia.
      * apply Hnot. by eapply subseteq_drop.
Qed.
End RoundTrip.

(** X3: Line.add_station, Line.find_node and Line.remove_station compose.
    After add_station has returned True on an open chain, find_node of the
    station returns the node just created, and remove_station of it returns
    True and gives back the line as it was: the same node list and colour,
    and every node that existed before holds its old station and links. *)
Theorem add_then_remove (h : heap) (l : Line) (s : station_ref) (position : Z)
    (h' : heap) (l' : Line) :
  linked h (station_nodes l) →
  LineM.add_station h l s position = Ok (h', l', true) →
  LineM.find_node h' l' s = Ok (Some (length h)) ∧
  ∃ h'', LineM.remove_station h' l' s = Ok (h'', l, true)
         ∧ ∀ b, (b < length h)%nat → h'' !! b = h !! b.
Proof.
  intros Hlinked Hrun.
  pose proof (add_station_color _ _ _ _ _ _ _ Hrun) as Hcol.
  pose proof (add_station_off_line _ _ _ _ _ _ (linked_valid _ _ Hlinked) Hrun) as Hoff.
  destruct (add_station_splices _ _ _ _ _ _ Hlinked Hrun) as (k & Hk & -> & Hns).
  set (ns := station_nodes l) in *.
  set (ns' := take k ns ++ length h :: drop k ns) in *.
  assert (linked (spliced h ns k s) ns') as Hl' by (by apply spliced_linked).
  pose proof (spliced_first_at h ns k s Hlinked Hk Hoff) as Hat. fold ns' in Hat.
  split.
  - assert (nodes_valid (spliced h ns k s) ns') as Hv'
      by apply (linked_valid _ {| color := color l'; station_nodes := ns' |} Hl').
    destruct (find_node_in_first _ _ _ _ Hv' Hat) as (a & Ha & Hfind).
    unfold LineM.find_node. rewrite Hns, Hfind.
    unfold ns' in Ha. rewrite splice_lookup_eq in Ha by done. by simplify_eq.
  - exists (unspliced (spliced h ns k s) ns' k). split.
    + rewrite (remove_station_unsplices (spliced h ns k s) ns' k (length h) Hl'
                 (splice_lookup_eq _ _ _ Hk) l' s Hns Hat).
      unfold ns'. rewrite delete_splice by done.
      do 3 f_equal. unfold set_station_nodes, ns. rewrite Hcol. by destruct l.
    + intros b Hb. by apply unspliced_spliced.
Qed.

Lemma add_then_remove_witness :
  linked three_nodes (station_nodes three_line) ∧
  ∃ h' l', LineM.add_station three_nodes three_line 7%nat 1 = Ok (h', l', true)
    ∧ LineM.find_node h' l' 7%nat = Ok (Some 3%nat)
    ∧ ∃ h'', LineM.remove_station h' l' 7%nat = Ok (h'', three_line, true)
             ∧ take 3 h'' = three_nodes.
Proof.
  split; [apply three_line_linked|].
  eexists _, _. split; [reflexivity|].
  destruct (add_then_remove three_nodes three_line 7%nat 1 _ _
              three_line_linked eq_refl) as (Hfind & h'' & Hrem & Hsame).
  split; [exact Hfind|]. exists h''. split; [exact Hrem|].
  apply list_eq. intros b. destruct (decide (b < 3)%nat) as [Hb|Hb].
  - rewrite lookup_take_lt by done. by apply Hsame.
  - rewrite lookup_take_ge by lia. symmetry. apply lookup_ge_None_2. simpl. lia.
Defined.


(** ** Train.move along an open line *)

Lemma next_station_single h l a dir :
  station_nodes l = [a] → LineM.next_station h l (Some a) dir = Ok (Some a, dir).
Proof.
  intros Hns. unfold LineM.next_station. rewrite Hns.
  rewrite bool_decide_eq_false_2 by (intros Hn; apply Hn; by left).
  by rewrite bool_decide_eq_true_2.
Qed.

Lemma rides_put_train c t x tr ln i :
  rides c tr ln i → rides (put_train c t x) tr ln i.
Proof. by intros (Hline & Hl & Ha & Hd). Qed.

Lemma move_arrives c t tr ln i :
  trains c !! t = Some tr → rides c tr ln i → state tr = LEFT_STATION →
  let n := length (station_nodes ln) in
  let tr' := set_direction (ahead n i (direction tr)).2
               (set_station_node (station_nodes ln !! (ahead n i (direction tr)).1)
                  (set_state AT_STATION tr)) in
  TrainM.move c t = Ok (put_train c t tr')
  ∧ rides (put_train c t tr') tr' ln (ahead n i (direction tr)).1.
Proof.
  intros Ht ((l & Hline & Hln) & Hl & (a & Ha & Hi) & Hdir) Hstate n tr'.
  pose proof (lookup_lt_Some _ _ _ Hi) as Hlt.
  assert (LineM.next_station (nodes c) ln (station_node tr) (direction tr)
          = Ok (station_nodes ln !! (ahead n i (direction tr)).1,
                (ahead n i (direction tr)).2)
          ∧ is_Some (station_nodes ln !! (ahead n i (direction tr)).1)
          ∧ (n = 1%nat
             ∨ ((ahead n i (direction tr)).2 = 1
                ∧ (S (ahead n i (direction tr)).1 < n)%nat)
             ∨ ((ahead n i (direction tr)).2 = -1
                ∧ (0 < (ahead n i (direction tr)).1)%nat)))
    as (Hnext & Hsome & Hdir').
  { rewrite Ha. unfold ahead. fold n in Hdir, Hlt.
    destruct Hdir as [Hone|[[Hd Hroom]|[Hd Hroom]]].
    - rewrite bool_decide_eq_true_2 by done. cbn [fst snd].
      assert (station_nodes ln = [a]) as Hns.
      { destruct (station_nodes ln) as [|x [|y r]] eqn:E; simpl in *; try lia.
        destruct i; simpl in Hi; [by simplify_eq | done]. }
      rewrite (next_station_single _ _ _ _ Hns), Hi. split; [done|]. split; eauto.
    - rewrite bool_decide_eq_false_2 by lia.
      rewrite bool_decide_eq_true_2 by done. cbn [fst snd].
      destruct (lookup_lt_is_Some_2 (station_nodes ln) (S i)) as [b Hb]; [done|].
      rewrite Hd, (next_station_forward _ _ Hl i a b Hi Hb), Hb.
      fold n. split; [done|]. split; [eauto|].
      right. case_bool_decide; [right|left]; split; (done || lia).
    - rewrite bool_decide_eq_false_2 by lia.
      rewrite bool_decide_eq_false_2 by lia. cbn [fst snd].
      destruct i as [|j]; [lia|].
      destruct (lookup_lt_is_Some_2 (station_nodes ln) j) as [b Hb]; [lia|].
      rewrite Hd, (next_station_backward _ _ Hl j a b Hi Hb). simpl pred.
      rewrite Hb. split; [done|]. split; [eauto|].
      right. case_bool_decide; [left|right]; split; (done || lia). }
  split.
  - unfold TrainM.move. rewrite (get_train_Ok _ _ _ Ht). run.
    rewrite decide_False by (rewrite Hstate; done).
    rewrite Hline. cbn [attr]. run. rewrite (get_line_Ok _ _ _ Hln). run.
    by rewrite Hnext.
  - apply rides_put_train. split; [by exists l|]. split; [done|].
    split; [|exact Hdir'].
    destruct Hsome as [b Hb]. exists b. by rewrite Hb.
Qed.

Lemma move_departs c t tr ln i :
  trains c !! t = Some tr → rides c tr ln i → state tr = AT_STATION →
  TrainM.move c t = Ok (put_train c t (set_state LEFT_STATION tr))
  ∧ rides (put_train c t (set_state LEFT_STATION tr)) (set_state LEFT_STATION tr) ln i.
Proof.
  intros Ht Hr Hstate. split.
  - unfold TrainM.move. rewrite (get_train_Ok _ _ _ Ht). run.
    by rewrite decide_True.
  - apply rides_put_train. by destruct Hr as (Hline & Hl & Ha & Hd).
Qed.

(** X4: Train.move never derails a train that is on track.  For a train
    that rides an open line at the node at place i with a direction that
    does not point off the line's end: a move from AT_STATION only sets the
    state to LEFT_STATION; a move from LEFT_STATION completes, sets the
    state to AT_STATION and puts the train on the next node in its
    direction, with the direction reversed exactly when that node is an end
    of the line (on a single-node line node and direction stay).  In both
    cases the train is on track again, so it can go on moving. *)
Theorem move_keeps_on_track (c : City) (t : train_ref) (tr : Train)
    (ln : Line) (i : nat) :
  trains c !! t = Some tr → rides c tr ln i →
  let n := length (station_nodes ln) in
  (state tr = AT_STATION →
     TrainM.move c t = Ok (put_train c t (set_state LEFT_STATION tr))
     ∧ rides (put_train c t (set_state LEFT_STATION tr))
             (set_state LEFT_STATION tr) ln i) ∧
  (state tr = LEFT_STATION →
     let tr' := set_direction (ahead n i (direction tr)).2
                  (set_station_node (station_nodes ln !! (ahead n i (direction tr)).1)
                     (set_state AT_STATION tr)) in
     TrainM.move c t = Ok (put_train c t tr')
     ∧ rides (put_train c t tr') tr' ln (ahead n i (direction tr)).1) ∧
  ∃ c' tr', TrainM.move c t = Ok c' ∧ trains c' !! t = Some tr' ∧ on_track c' tr'.
Proof.
  intros Ht Hr n. split; [|split].
  - intros Hs. by apply move_departs.
  - intros Hs. by apply move_arrives.
  - pose proof (lookup_lt_Some _ _ _ Ht) as Hlt.
    destruct (state tr) eqn:Hs.
    + destruct (move_departs c t tr ln i Ht Hr Hs) as [Hrun Hr'].
      eexists _, _. split; [exact Hrun|]. split.
      * simpl. by apply list_lookup_insert_eq.
      * by exists ln, i.
    + destruct (move_arrives c t tr ln i Ht Hr Hs) as [Hrun Hr'].
      eexists _, _. split; [exact Hrun|]. split.
      * simpl. by apply list_lookup_insert_eq.
      * by eexists ln, _.
Qed.

Lemma move_keeps_on_track_witness :
  trains city_abc !! 0%nat = Some (train_at 0 1) ∧
  rides city_abc (train_at 0 1) three_line 0 ∧
  TrainM.move city_abc 0
  = Ok (put_train city_abc 0 (set_state LEFT_STATION (train_at 0 1))) ∧
  ∃ c' tr', TrainM.move city_abc 0 = Ok c' ∧ trains c' !! 0%nat = Some tr'
            ∧ on_track c' tr'.
Proof.
  assert (rides city_abc (train_at 0 1) three_line 0) as Hr.
  { split; [exists 0%nat; split; reflexivity|]. split; [apply three_line_linked|].
    split; [exists 0%nat; split; reflexivity|].
    right. left. split; [reflexivity | simpl; lia]. }
  split; [reflexivity|]. split; [exact Hr|].
  destruct (move_keeps_on_track city_abc 0 (train_at 0 1) three_line 0 eq_refl Hr)
    as (Hdep & _ & Hgo).
  split; [by apply Hdep | exact Hgo].
Defined.

(** ** Wagons *)

Lemma evict_capacity fuel c t c' :
  TrainM.evict fuel c t = Ok c' →
  (capacity <$> trains c' !! t) = (capacity <$> trains c !! t).
Proof.
  revert c. induction fuel as [|fuel IH]; intros c Hrun.
  - simpl in Hrun. unfold get_train in Hrun.
    destruct (trains c !! t) as [tr|] eqn:Ht; simplify_eq/=.
    case_bool_decide; simplify_eq/=. by rewrite Ht.
  - simpl in Hrun. unfold get_train in Hrun.
    destruct (trains c !! t) as [tr|] eqn:Ht; simplify_eq/=.
    case_bool_decide; [|simplify_eq/=; by rewrite Ht].
    apply bind_Ok in Hrun as ([ps p] & Hpop & Hrun).
    apply bind_Ok in Hrun as (s & Hs & Hrun).
    apply bind_Ok in Hrun as (c2 & Hc2 & Hrun).
    rewrite (IH c2 Hrun).
    unfold station_append in Hc2.
    apply bind_Ok in Hc2 as (st & _ & Hc2). simplify_eq/=.
    rewrite list_lookup_insert_eq by (by eapply lookup_lt_Some). done.
Qed.

Lemma wagons_well_sized tr w :
  1 ≤ w ≤ MAX_WAGONS → capacity tr = w * WAGON_CAPACITY → TrainM.wagons tr = w.
Proof.
  intros Hw Hcap. unfold TrainM.wagons. rewrite Hcap.
  by rewrite Z.div_mul.
Qed.

(** X5: the wagon count stays between 1 and MAX_WAGONS.  A new train has
    one wagon (its capacity is WAGON_CAPACITY).  For a train whose capacity is w wagons with 1 <= w <= 5:
    Train.add_wagon always returns, True exactly when w < 5, and the train
    then has w + 1 wagons (otherwise nothing changes); Train.remove_wagon,
    when it returns, returns True exactly when w > 1 and the train then has
    w - 1 wagons; and when the passengers on board fit the train, adding a
    wagon and removing it again gives back the city as it was. *)
Theorem wagons_stay_in_range (c : City) (t : train_ref) (tr : Train) (w : Z) :
  trains c !! t = Some tr →
  1 ≤ w ≤ MAX_WAGONS → capacity tr = w * WAGON_CAPACITY →
  (capacity (TrainM.init c) = WAGON_CAPACITY ∧ TrainM.wagons (TrainM.init c) = 1
   ∧ well_sized (TrainM.init c)) ∧
  (∃ c' tr', TrainM.add_wagon c t = Ok (c', bool_decide (w < MAX_WAGONS))
             ∧ trains c' !! t = Some tr' ∧ well_sized tr'
             ∧ capacity tr'
               = (if bool_decide (w < MAX_WAGONS) then w + 1 else w) * WAGON_CAPACITY
             ∧ (w = MAX_WAGONS → c' = c)) ∧
  (∀ c' b, TrainM.remove_wagon c t = Ok (c', b) →
           b = bool_decide (1 < w)
           ∧ ∃ tr', trains c' !! t = Some tr' ∧ well_sized tr'
                    ∧ capacity tr' = (if b then w - 1 else w) * WAGON_CAPACITY) ∧
  (fits tr → w < MAX_WAGONS →
   ∃ c1, TrainM.add_wagon c t = Ok (c1, true)
         ∧ TrainM.remove_wagon c1 t = Ok (c, true)).
Proof.
  intros Ht Hw Hcap. pose proof (wagons_well_sized tr w Hw Hcap) as Hwag.
  pose proof (lookup_lt_Some _ _ _ Ht) as Hlt.
  unfold MAX_WAGONS, WAGON_CAPACITY in *.
  split; [|split; [|split]].
  - split; [reflexivity|]. split; [reflexivity|].
    exists 1. split; [unfold MAX_WAGONS; lia | reflexivity].
  - unfold TrainM.add_wagon. rewrite (get_train_Ok _ _ _ Ht). run.
    rewrite Hwag. unfold MAX_WAGONS, WAGON_CAPACITY.
    destruct (decide (w < 5)) as [Hroom|Hfull].
    + rewrite (bool_decide_eq_false_2 (5 ≤ w)) by lia.
      rewrite (bool_decide_eq_true_2 (w < 5)) by done.
      eexists _, _. split; [reflexivity|]. split.
      { simpl. by apply list_lookup_insert_eq. }
      split; [|split; [simpl; lia | lia]].
      exists (w + 1). unfold MAX_WAGONS, WAGON_CAPACITY. simpl. lia.
    + rewrite (bool_decide_eq_true_2 (5 ≤ w)) by lia.
      rewrite (bool_decide_eq_false_2 (w < 5)) by done.
      exists c, tr. split; [done|]. split; [done|].
      split; [|done]. exists w. unfold MAX_WAGONS, WAGON_CAPACITY. lia.
  - intros c' b Hrun. unfold TrainM.remove_wagon in Hrun.
    rewrite (get_train_Ok _ _ _ Ht) in Hrun. cbn [mbind result_bind Py.bind] in Hrun.
    rewrite Hwag in Hrun.
    destruct (decide (w ≤ 1)) as [Hmin|Hmore].
    + rewrite bool_decide_eq_true_2 in Hrun by done. injection Hrun as <- <-.
      rewrite bool_decide_eq_false_2 by lia. split; [done|].
      exists tr. split; [done|]. split; [|done].
      exists w. unfold MAX_WAGONS, WAGON_CAPACITY. lia.
    + rewrite bool_decide_eq_false_2 in Hrun by done.
      apply bind_Ok in Hrun as (c2 & Hev & Hrun). injection Hrun as -> <-.
      rewrite bool_decide_eq_true_2 by lia. split; [done|].
      apply evict_capacity in Hev. simpl in Hev.
      rewrite list_lookup_insert_eq in Hev by done. simpl in Hev.
      destruct (trains c' !! t) as [tr'|]; [|done]. simpl in Hev.
      exists tr'. split; [done|].
      assert (capacity tr' = (w - 1) * 6) as Hc'
        by (injection Hev as ->; unfold WAGON_CAPACITY; lia).
      split; [|done]. exists (w - 1). unfold MAX_WAGONS, WAGON_CAPACITY. lia.
  - intros Hfit Hroom. unfold TrainM.add_wagon. rewrite (get_train_Ok _ _ _ Ht). run.
    rewrite Hwag. rewrite (bool_decide_eq_false_2 (MAX_WAGONS ≤ w))
      by (unfold MAX_WAGONS; lia).
    eexists. split; [reflexivity|].
    unfold TrainM.remove_wagon.
    rewrite get_put_train by done. run.
    rewrite (wagons_well_sized _ (w + 1))
      by (unfold MAX_WAGONS, WAGON_CAPACITY; simpl; lia).
    rewrite bool_decide_eq_false_2 by lia.
    assert (set_capacity
              (capacity (set_capacity (capacity tr + WAGON_CAPACITY) tr) - WAGON_CAPACITY)
              (set_capacity (capacity tr + WAGON_CAPACITY) tr) = tr) as ->.
    { destruct tr. unfold set_capacity, WAGON_CAPACITY. simpl. f_equal. lia. }
    rewrite put_train_put_train, (put_train_id _ _ _ Ht).
    cbn [TrainM.evict]. rewrite (get_train_Ok _ _ _ Ht). run.
    rewrite bool_decide_eq_false_2 by (unfold fits in Hfit; lia).
    done.
Qed.

Lemma wagons_stay_in_range_witness :
  ∃ c1, TrainM.add_wagon city_abc 0 = Ok (c1, true)
        ∧ TrainM.remove_wagon c1 0 = Ok (city_abc, true).
Proof.
  destruct (wagons_stay_in_range city_abc 0 (train_at 0 1) 1 eq_refl)
    as (_ & _ & _ & Hround).
  - unfold MAX_WAGONS. lia.
  - reflexivity.
  - apply Hround; [unfold fits; vm_compute; discriminate | unfold MAX_WAGONS; lia].
Defined.

(** ** City.add_train *)

Lemma lines_fit_same c c' :
  stations c' = stations c → lines c' = lines c → nodes c' = nodes c →
  lines_fit c → lines_fit c'.
Proof. unfold lines_fit. by intros -> -> ->. Qed.

Lemma update_navmap_same c c' :
  NavMap._update_navmap c = Ok c' → trains c' = trains c ∧ same_network c c'.
Proof.
  intros (d & nv & _ & ->)%update_navmap_sets. by repeat split.
Qed.

Section AddTrain.
Variables (c : City) (l : line_ref) (ln : Line) (s : station_ref) (dir : Z).
Hypothesis Hln : lines c !! l = Some ln.
Hypothesis Hlinked : linked (nodes c) (station_nodes ln).
Hypothesis Hfit : lines_fit c.
Hypothesis Hroom : Z.of_nat (length (trains c)) < max_trains c.
Hypothesis Hsome : stations c ≠ [].

Let t := length (trains c).
Let c1 := set_trains (trains c ++ [TrainM.init c]) c.

Lemma new_train_lookup : get_train c1 t = Ok (TrainM.init c).
Proof.
  unfold get_train, c1, t. simpl.
  by rewrite lookup_app_r, Nat.sub_diag.
Qed.

Lemma rebuild_after c2 :
  trains c2 = trains c ++ [TrainM.init c] ∨ (∃ x, trains c2 = trains c ++ [x]) →
  same_network c c2 →
  ∃ c3, (ln' ← get_line c2 l;
         circ ← LineM.is_circular (nodes c2) ln';
         c3 ← (if circ || bool_decide (length (NavMap.trains_of c2 l) = 1%nat)
               then NavMap._update_navmap c2 else Ok c2);
         Ok (c3, Some t)) = Ok (c3, Some t)
        ∧ trains c3 = trains c2 ∧ same_network c c3.
Proof.
  intros _ (Hst & Hli & Hno & Hpa & Hti).
  unfold get_line. rewrite Hli, Hln. run. rewrite Hno.
  rewrite (linked_not_circular _ _ Hlinked). run. cbn [orb].
  destruct (bool_decide _).
  - destruct (update_navmap_total c2) as [c3 Hc3].
    { by rewrite Hst. }
    { by apply (lines_fit_same c). }
    rewrite Hc3. run. exists c3. split; [done|].
    destruct (update_navmap_same _ _ Hc3) as (Htr & H1 & H2 & H3 & H4 & H5).
    split; [done|]. unfold same_network. by rewrite H1, H2, H3, H4, H5.
  - exists c2. by repeat split.
Qed.

Lemma add_train_on_line i a :
  first_at (nodes c) (station_nodes ln) s i → station_nodes ln !! i = Some a →
  ∃ c', CityM.add_train c (Some l) (Some s) dir = Ok (c', Some t)
        ∧ trains c' = trains c ++ [commissioned c l a dir]
        ∧ same_network c c'.
Proof.
  intros Hat Ha.
  destruct (find_node_in_first _ _ _ _ (linked_valid _ _ Hlinked) Hat)
    as (a' & Ha' & Hfind).
  assert (a' = a) as -> by congruence.
  unfold CityM.add_train. rewrite bool_decide_eq_true_2 by done.
  cbv zeta. fold t c1. unfold TrainM.set_line.
  rewrite new_train_lookup. run. cbn [attr]. run.
  assert (get_line c1 l = Ok ln) as -> by (by apply get_line_Ok).
  run. unfold LineM.find_node.
  assert (nodes c1 = nodes c) as -> by done.
  rewrite Hfind. run.
  set (c2 := put_train c1 t _).
  assert (trains c2 = trains c ++ [commissioned c l a dir]) as Htr.
  { unfold c2, c1, t. simpl.
    rewrite insert_app_r_alt by lia. by rewrite Nat.sub_diag. }
  destruct (rebuild_after c2) as (c3 & -> & Htr3 & Hsame);
    [right; by eexists | by repeat split |].
  exists c3. split; [done|]. split; [by rewrite Htr3 | done].
Qed.

Lemma add_train_off_line :
  ¬ on_line (nodes c) ln s →
  ∃ c', CityM.add_train c (Some l) (Some s) dir = Ok (c', Some t)
        ∧ trains c' = trains c ++ [TrainM.init c]
        ∧ same_network c c'.
Proof.
  intros Hoff.
  unfold CityM.add_train. rewrite bool_decide_eq_true_2 by done.
  cbv zeta. fold t c1. unfold TrainM.set_line.
  rewrite new_train_lookup. run. cbn [attr]. run.
  assert (get_line c1 l = Ok ln) as -> by (by apply get_line_Ok).
  run. unfold LineM.find_node.
  assert (nodes c1 = nodes c) as -> by done.
  rewrite (find_node_in_absent _ _ _ (linked_valid _ _ Hlinked) Hoff). run.
  destruct (rebuild_after c1) as (c3 & -> & Htr3 & Hsame);
    [by left | by repeat split |].
  exists c3. split; [done|]. split; [by rewrite Htr3 | done].
Qed.
End AddTrain.

Lemma rides_same c c' tr ln i :
  lines c' = lines c → nodes c' = nodes c → rides c tr ln i → rides c' tr ln i.
Proof.
  intros Hli Hno ((l & Hline & Hl) & Hlk & Ha & Hd).
  split; [exists l; by rewrite Hli|]. split; [by rewrite Hno|]. done.
Qed.

(** X6: City.add_train.  When the city already holds max_trains trains,
    add_train returns None and changes nothing.  Otherwise, for an open
    line of the city and a station: if the station is on the line, the
    call returns a new train, appended to the city's trains with the next
    idx, one wagon, no passengers, standing AT_STATION at the station's
    node on that line and heading as asked; if the direction does not point
    off the line's end there, the train is on track.  If the station is
    not on the line, a train is appended all the same (in a city that has
    a station, so that the rebuild the call may end with does not raise),
    but it stays uncommissioned (no line, no station node).  Stations,
    lines, nodes, passengers and the clock are untouched in every case. *)
Theorem add_train_places (c : City) (l : line_ref) (ln : Line) (s : station_ref)
    (dir : Z) :
  lines c !! l = Some ln → linked (nodes c) (station_nodes ln) → lines_fit c →
  let t := length (trains c) in
  (max_trains c ≤ Z.of_nat (length (trains c)) →
     CityM.add_train c (Some l) (Some s) dir = Ok (c, None)) ∧
  (Z.of_nat (length (trains c)) < max_trains c →
     (∀ i a, first_at (nodes c) (station_nodes ln) s i →
             station_nodes ln !! i = Some a →
        ∃ c', CityM.add_train c (Some l) (Some s) dir = Ok (c', Some t)
              ∧ trains c' = trains c ++ [commissioned c l a dir]
              ∧ same_network c c'
              ∧ (length (station_nodes ln) = 1%nat
                 ∨ (dir = 1 ∧ (S i < length (station_nodes ln))%nat)
                 ∨ (dir = -1 ∧ (0 < i)%nat) →
                 rides c' (commissioned c l a dir) ln i)) ∧
     (¬ on_line (nodes c) ln s → stations c ≠ [] →
        ∃ c', CityM.add_train c (Some l) (Some s) dir = Ok (c', Some t)
              ∧ trains c' = trains c ++ [TrainM.init c]
              ∧ same_network c c')).
Proof.
  intros Hln Hlinked Hfit t. split; [|intros Hroom; split].
  - intros Hfull. unfold CityM.add_train.
    by rewrite bool_decide_eq_false_2 by lia.
  - intros i a Hat Ha.
    assert (stations c ≠ []) as Hsome.
    { unfold lines_fit in Hfit. rewrite Forall_lookup in Hfit.
      destruct (Hfit _ _ Hln) as [_ Hlen].
      apply lookup_lt_Some in Ha. intros Hnone. rewrite Hnone in Hlen.
      simpl in Hlen. lia. }
    destruct (add_train_on_line c l ln s dir Hln Hlinked Hfit Hroom Hsome i a Hat Ha)
      as (c' & Hrun & Htr & Hsame).
    exists c'. split; [done|]. split; [done|]. split; [done|].
    intros Hdir. destruct Hsame as (_ & Hli & Hno & _).
    split; [exists l; by rewrite Hli|]. split; [by rewrite Hno|].
    split; [by exists a | done].
  - intros Hoff Hsome. by apply (add_train_off_line c l ln s dir).
Qed.

Lemma add_train_places_witness :
  lines city_abc !! 0%nat = Some three_line ∧
  lines_fit city_abc ∧
  ∃ c', CityM.add_train city_abc (Some 0%nat) (Some 1%nat) 1 = Ok (c', Some 1%nat)
        ∧ trains c' = trains city_abc ++ [commissioned city_abc 0 1 1]
        ∧ rides c' (commissioned city_abc 0 1 1) three_line 1.
Proof.
  split; [reflexivity|]. split; [apply lines_fit_abc|].
  destruct (add_train_places city_abc 0 three_line 1 1 eq_refl three_line_linked
              lines_fit_abc) as (_ & Hadd & _).
  { simpl. lia. }
  destruct (Hadd 1%nat 1%nat) as (c' & Hrun & Htr & _ & Hrides).
  { split; [reflexivity|]. intros [|j] Hj; [discriminate | lia]. }
  { reflexivity. }
  exists c'. split; [exact Hrun|]. split; [exact Htr|].
  apply Hrides. right. left. split; [reflexivity | simpl; lia].
Defined.


(** ** Invariants of City._update_navmap *)

Lemma compute_inv (P : NavMap.maps → Prop) (c : City) (d : matrix dist)
    (nv : matrix routes) :
  let n := length (stations c) in
  P (NavMap.fresh_maps n) →
  (∀ l ln dirs i s s',
     lines c !! l = Some ln → NavMap.directions_of c l ln = Ok dirs →
     P s → NavMap.connect c (color ln) dirs s i = Ok s' → P s') →
  (∀ s k i j, (k < n)%nat → (i < n)%nat → (j < n)%nat →
              P s → P (NavMap.relax s (k, i, j))) →
  NavMap.compute c = Ok (d, nv) → P (d, nv).
Proof.
  intros n Hinit Hconnect Hrelax (_ & s & Hedges & Hrun)%compute_stages.
  rewrite <- Hrun. fold n. apply foldl_inv.
  { intros s' [[k i] j] (Hk & Hi & Hj)%elem_of_triples Hs'. by apply Hrelax. }
  eapply (for_each_inv P); [|exact Hinit|exact Hedges].
  intros s0 [l ln] s1 Hin Hs0 Hline.
  apply list_elem_of_lookup in Hin as [x Hx]. rewrite list_lookup_imap in Hx.
  destruct (lines c !! x) as [ln'|] eqn:Hln; [|done]. simpl in Hx.
  injection Hx as <- <-.
  unfold NavMap.connect_line in Hline.
  apply bind_Ok in Hline as (dirs & Hdirs & Hline).
  eapply (for_each_inv P); [|exact Hs0|exact Hline].
  intros s2 i s3 _ Hs2 Hstep. by eapply (Hconnect x ln' dirs i).
Qed.

Lemma index_in_bounds {A} (l : list A) (i : nat) x :
  index l (Z.of_nat i) = Ok x → (i < length l)%nat.
Proof.
  intros (j & Hj & [[_ ->]|[? _]])%index_Ok_inv; [|lia].
  apply lookup_lt_Some in Hj. lia.
Qed.

(** What one round of the edge loop does, when it completes. *)
Lemma connect_result (c : City) (col : string) (dirs : gset Z) (s s' : NavMap.maps)
    (i : nat) :
  NavMap.connect c col dirs s i = Ok s' →
  let s1 := if bool_decide (1 ∈ dirs)
            then (mset s.1 i (i + 1) (Hops 1),
                  mset s.2 i (i + 1) ({[ (col, 1) ]} ∪ mget s.2 i (i + 1)))
            else s in
  s' = (if bool_decide (-1 ∈ dirs)
        then (mset s1.1 (i + 1) i (Hops 1),
              mset s1.2 (i + 1) i ({[ (col, -1) ]} ∪ mget s1.2 (i + 1) i))
        else s1)
  ∧ (1 ∈ dirs ∨ -1 ∈ dirs → (i + 1 < length (stations c))%nat).
Proof.
  destruct s as [d nv]. unfold NavMap.connect. intros Hrun.
  apply bind_Ok in Hrun as ([d1 nv1] & Hfst & Hsnd). cbn [fst snd].
  destruct (bool_decide (1 ∈ dirs)) eqn:Hone.
  - apply bind_Ok in Hfst as (? & _ & Hfst).
    apply bind_Ok in Hfst as (? & Hin%index_in_bounds & Hfst).
    injection Hfst as <- <-.
    destruct (bool_decide (-1 ∈ dirs)).
    + apply bind_Ok in Hsnd as (? & _ & Hsnd).
      apply bind_Ok in Hsnd as (? & _ & Hsnd). by injection Hsnd as <-.
    + by injection Hsnd as <-.
  - injection Hfst as <- <-. apply bool_decide_eq_false in Hone.
    destruct (bool_decide (-1 ∈ dirs)) eqn:Hback.
    + apply bind_Ok in Hsnd as (? & Hin%index_in_bounds & Hsnd).
      apply bind_Ok in Hsnd as (? & _ & Hsnd). by injection Hsnd as <-.
    + injection Hsnd as <-. apply bool_decide_eq_false in Hback.
      split; [done|]. tauto.
Qed.

(** *** Reachable stations have a route *)

Lemma dgtb_finite a b : dgtb a b = true → b ≠ Inf.
Proof. dist_cases. Qed.

Lemma dadd_finite a b : dadd a b ≠ Inf → a ≠ Inf ∧ b ≠ Inf.
Proof. dist_cases. Qed.

Lemma dgtb_via_l a : dgtb a (dadd (Hops 0) a) = false.
Proof. dist_cases. Qed.

Lemma dgtb_via_r a : dgtb a (dadd a (Hops 0)) = false.
Proof. dist_cases. Qed.

Section Routed.
Variables (n : nat) (c : City).

Let P (s : NavMap.maps) : Prop := diagonal_clear n s ∧ routed n c s.

Lemma init_routed : P (NavMap.fresh_maps n).
Proof.
  pose proof (init_maps_clear n) as Hclear. split; [done|].
  unfold NavMap.fresh_maps, routed. cbn [fst snd]. split.
  - intros i j Hi Hj Hne Hfin. exfalso. apply Hfin.
    destruct (fill_diagonal n (seq 0 n) (mfull n Inf)) as [_ Hd].
    { apply mfull_square. }
    { apply Forall_forall. intros x Hx. apply elem_of_seq in Hx. lia. }
    rewrite Hd by done. rewrite bool_decide_eq_false_2 by (by intros [? _]).
    by apply mget_mfull.
  - intros i j o Hi Hj Ho. rewrite mget_mfull in Ho by done.
    by apply not_elem_of_empty in Ho.
Qed.

Lemma set_edge_routed (s : NavMap.maps) (i j : nat) (ln : Line) (dir : Z) :
  i ≠ j → (i < n)%nat → (j < n)%nat → ln ∈ lines c → dir = 1 ∨ dir = -1 → P s →
  P (mset s.1 i j (Hops 1), mset s.2 i j ({[ (color ln, dir) ]} ∪ mget s.2 i j)).
Proof.
  intros Hne Hi Hj Hln Hdir [Hclear [Hfin Hsound]].
  split; [by apply (set_edge_clear n s)|].
  destruct Hclear as (Hd & Hnv & _). split; cbn [fst snd].
  - intros x y Hx Hy Hxy Hreach.
    destruct (decide ((i, j) = (x, y))) as [Heq|Hneq].
    + injection Heq as <- <-. rewrite (mget_mset_eq n) by done.
      intros Hempty. assert ((color ln, dir) ∈ (∅ : routes)) as Hin.
      { rewrite <- Hempty. apply elem_of_union. left. by apply elem_of_singleton. }
      by apply not_elem_of_empty in Hin.
    + rewrite mget_mset_ne in Hreach by done. rewrite mget_mset_ne by done.
      by apply Hfin.
  - intros x y o Hx Hy Ho.
    destruct (decide ((i, j) = (x, y))) as [Heq|Hneq].
    + injection Heq as <- <-. rewrite (mget_mset_eq n) in Ho by done.
      apply elem_of_union in Ho as [->%elem_of_singleton|Ho];
        [|by apply (Hsound i j)].
      split; [by exists ln | done].
    + rewrite mget_mset_ne in Ho by done. by apply (Hsound x y).
Qed.

Lemma connect_routed l ln dirs i s s' :
  length (stations c) = n →
  lines c !! l = Some ln → P s →
  NavMap.connect c (color ln) dirs s i = Ok s' → P s'.
Proof.
  intros Hn Hln Hs Hrun. apply connect_result in Hrun as [-> Hin].
  assert (ln ∈ lines c) as Hel by (by eapply list_elem_of_lookup_2).
  rewrite Hn in Hin.
  set (s1 := if bool_decide (1 ∈ dirs) then _ else s).
  assert (P s1) as H1.
  { unfold s1. case_bool_decide as H; [|done].
    assert (i + 1 < n)%nat by tauto.
    apply (set_edge_routed s i (i + 1) ln 1); [lia | lia | done | done | by left | done]. }
  case_bool_decide as H; [|done].
  assert (i + 1 < n)%nat by tauto.
  apply (set_edge_routed s1 (i + 1) i ln (-1)); [lia | done | lia | done | by right | done].
Qed.

Lemma relax_routed s k i j :
  (k < n)%nat → (i < n)%nat → (j < n)%nat → P s → P (NavMap.relax s (k, i, j)).
Proof.
  intros Hk Hi Hj [Hclear [Hfin Hsound]].
  split; [by apply relax_clear|].
  destruct Hclear as (Hd & Hnv & Hdiag & Hoff).
  destruct s as [d nv]. cbn [fst snd] in *. unfold NavMap.relax.
  set (via := dadd (mget d i k) (mget d k j)).
  set (nv1 := if bool_decide (mget d i j = via)
              then mset nv i j (mget nv i j ∪ mget nv i k) else nv).
  assert (square n nv1) as Hsq1.
  { unfold nv1. case_bool_decide; [by apply mset_square | done]. }
  assert (∀ x y, (x < n)%nat → (y < n)%nat → mget nv x y ⊆ mget nv1 x y) as Hgrow.
  { intros x y Hx Hy. unfold nv1. case_bool_decide; [|done].
    destruct (decide ((i, j) = (x, y))) as [Heq|Hneq].
    - injection Heq as <- <-. rewrite (mget_mset_eq n) by done.
      apply union_subseteq_l.
    - by rewrite mget_mset_ne. }
  assert (∀ x y o, (x < n)%nat → (y < n)%nat → o ∈ mget nv1 x y →
            (∃ ln, ln ∈ lines c ∧ o.1 = color ln) ∧ (o.2 = 1 ∨ o.2 = -1)) as Hsound1.
  { intros x y o Hx Hy. unfold nv1. case_bool_decide; [|by apply Hsound].
    destruct (decide ((i, j) = (x, y))) as [Heq|Hneq].
    - injection Heq as <- <-. rewrite (mget_mset_eq n) by done.
      intros [Ho|Ho]%elem_of_union; [by apply (Hsound i j) | by apply (Hsound i k)].
    - rewrite mget_mset_ne by done. by apply Hsound. }
  destruct (dgtb (mget d i j) via) eqn:Hgt; split; cbn [fst snd].
  - intros x y Hx Hy Hxy Hreach.
    destruct (decide ((i, j) = (x, y))) as [Heq|Hneq].
    + injection Heq as <- <-. rewrite (mget_mset_eq n) by done.
      pose proof (dgtb_finite _ _ Hgt) as [Hik Hkj]%dadd_finite.
      assert (i ≠ k) as Hne_ik.
      { intros ->. unfold via in Hgt. rewrite (proj1 (Hdiag k Hk)) in Hgt.
        by rewrite dgtb_via_l in Hgt. }
      intros Hempty. apply (Hfin i k Hi Hk Hne_ik Hik).
      apply (anti_symm (⊆)); [|apply empty_subseteq].
      rewrite <- Hempty. by apply Hgrow.
    + rewrite mget_mset_ne in Hreach by done. rewrite mget_mset_ne by done.
      intros Hempty. apply (Hfin x y Hx Hy Hxy Hreach).
      apply (anti_symm (⊆)); [|apply empty_subseteq].
      rewrite <- Hempty. by apply Hgrow.
  - intros x y o Hx Hy.
    destruct (decide ((i, j) = (x, y))) as [Heq|Hneq].
    + injection Heq as <- <-. rewrite (mget_mset_eq n) by done. by apply Hsound1.
    + rewrite mget_mset_ne by done. by apply Hsound1.
  - intros x y Hx Hy Hxy Hreach Hempty. apply (Hfin x y Hx Hy Hxy Hreach).
    apply (anti_symm (⊆)); [|apply empty_subseteq].
    rewrite <- Hempty. by apply Hgrow.
  - done.
Qed.
End Routed.

(** X7: after City._update_navmap every reachable station has a route.
    In the maps a completed rebuild leaves, whenever the distance from
    station i to a different station j is finite, the option set
    navmap[i][j] is not empty; and every option in any cell is the colour
    of one of the city's lines paired with direction 1 or -1. *)
Theorem reachable_is_routed (c c' : City) :
  NavMap._update_navmap c = Ok c' →
  ∃ d nv, distmap c' = Some d ∧ navmap c' = Some nv ∧
    (∀ i j, (i < length (stations c))%nat → (j < length (stations c))%nat →
            i ≠ j → mget d i j ≠ Inf → mget nv i j ≠ ∅) ∧
    (∀ i j o, (i < length (stations c))%nat → (j < length (stations c))%nat →
              o ∈ mget nv i j →
              (∃ ln, ln ∈ lines c ∧ o.1 = color ln) ∧ (o.2 = 1 ∨ o.2 = -1)).
Proof.
  intros (d & nv & Hcomp & ->)%update_navmap_sets.
  exists d, nv. split; [done|]. split; [done|].
  assert (diagonal_clear (length (stations c)) (d, nv)
          ∧ routed (length (stations c)) c (d, nv)) as [_ [Hfin Hsound]].
  { apply (compute_inv (λ s, diagonal_clear (length (stations c)) s
                              ∧ routed (length (stations c)) c s) c d nv);
      [| | |done].
    - apply init_routed.
    - intros l ln dirs i s s' Hln _ Hs Hrun. by eapply connect_routed.
    - intros s k i j Hk Hi Hj Hs. by apply relax_routed. }
  split; [exact Hfin | exact Hsound].
Qed.

Lemma reachable_is_routed_witness :
  ∃ c' d nv, NavMap._update_navmap city_abc = Ok c'
             ∧ distmap c' = Some d ∧ navmap c' = Some nv
             ∧ (mget d 0 2 ≠ Inf → mget nv 0 2 ≠ ∅).
Proof.
  destruct (update_navmap_total city_abc ltac:(done) lines_fit_abc) as [c' Hrun].
  destruct (reachable_is_routed city_abc c' Hrun) as (d & nv & Hd & Hnv & Hfin & _).
  exists c', d, nv. split; [exact Hrun|]. split; [exact Hd|]. split; [exact Hnv|].
  apply (Hfin 0 2)%nat; simpl; lia.
Defined.

(** *** Distances between stations without a circular line *)

Lemma dadd_comm a b : dadd a b = dadd b a.
Proof. dist_cases. f_equal; lia. Qed.

Lemma symmetric_phase n k d :
  (k < n)%nat → closed_below n k d → symmetric n d →
  symmetric n (foldl relax_dist d ((λ p, (k, p.1, p.2)) <$> pairs n)).
Proof.
  intros Hk (Hsq & Hdiag & _) Hsym.
  destruct (phase_relaxes n k d Hsq Hk (Hdiag k Hk)) as [_ Hd].
  intros i j Hi Hj. rewrite !Hd by done. unfold relaxed.
  rewrite (Hsym i j), (Hsym i k), (Hsym k j) by done.
  by rewrite dadd_comm.
Qed.

Lemma relaxation_symmetric n d :
  closed_below n 0 d → symmetric n d →
  symmetric n (foldl relax_dist d (NavMap.triples n)).
Proof.
  intros H0 Hsym. rewrite triples_by_phase, foldl_bind.
  assert (∀ m, (m ≤ n)%nat →
            let d' := foldl (λ a k, foldl relax_dist a ((λ p, (k, p.1, p.2)) <$> pairs n))
                            d (seq 0 m) in
            closed_below n m d' ∧ symmetric n d') as Hall.
  { induction m as [|m IH]; intros Hm; [done|].
    destruct IH as [Hc Hs]; [lia|].
    cbv zeta. rewrite seq_S, foldl_app. simpl. split.
    - apply closed_below_step; [lia | done].
    - apply symmetric_phase; [lia | done | done]. }
  by apply Hall.
Qed.

Lemma set_edges_symmetric n d i :
  square n d → (i + 1 < n)%nat → symmetric n d →
  symmetric n (mset (mset d i (i + 1) (Hops 1)) (i + 1) i (Hops 1)).
Proof.
  intros Hsq Hi Hsym x y Hx Hy.
  assert (square n (mset d i (i + 1) (Hops 1))) as Hsq1 by (by apply mset_square).
  assert (∀ a b, (a < n)%nat → (b < n)%nat →
            mget (mset (mset d i (i + 1) (Hops 1)) (i + 1) i (Hops 1)) a b
            = if bool_decide ((a, b) = (i, i + 1)%nat ∨ (a, b) = (i + 1, i)%nat)
              then Hops 1 else mget d a b) as Hcell.
  { intros a b Ha Hb.
    destruct (decide ((i + 1, i)%nat = (a, b))) as [Heq|Hne].
    - injection Heq as <- <-. rewrite (mget_mset_eq n) by (done || lia).
      by rewrite bool_decide_eq_true_2 by (by right).
    - rewrite mget_mset_ne by done.
      destruct (decide ((i, i + 1)%nat = (a, b))) as [Heq|Hne'].
      + injection Heq as <- <-. rewrite (mget_mset_eq n) by (done || lia).
        by rewrite bool_decide_eq_true_2 by (by left).
      + rewrite mget_mset_ne by done.
        by rewrite bool_decide_eq_false_2 by (intros [?|?]; congruence). }
  rewrite !Hcell by done. rewrite (Hsym x y) by done.
  apply (f_equal (λ b : bool, if b then Hops 1 else mget d y x)).
  apply bool_decide_ext. split; intros [?|?]; simplify_eq; auto.
Qed.

(** X8: without a circular line the distance map is symmetric.  If
    is_circular is False for every line of the city, then in the distance
    map a completed City._update_navmap leaves, the distance from i to j
    equals the distance from j to i for all stations i and j. *)
Theorem distances_symmetric (c c' : City) :
  (∀ ln, ln ∈ lines c → LineM.is_circular (nodes c) ln = Ok false) →
  NavMap._update_navmap c = Ok c' →
  ∃ d, distmap c' = Some d ∧
       ∀ i j, (i < length (stations c))%nat → (j < length (stations c))%nat →
              mget d i j = mget d j i.
Proof.
  intros Hopen (d & nv & Hcomp & ->)%update_navmap_sets.
  exists d. split; [done|].
  set (n := length (stations c)).
  apply compute_stages in Hcomp as (_ & s & Hedges & Hrelax).
  assert (diagonal_clear n s ∧ symmetric n s.1) as [Hclear Hsym].
  { eapply (for_each_inv (λ s, diagonal_clear n s ∧ symmetric n s.1));
      [| |exact Hedges].
    - intros s0 [l ln] s1 Hin [Hc0 Hs0] Hline.
      split; [by eapply connect_line_clear|].
      assert (ln ∈ lines c) as Hln.
      { apply list_elem_of_lookup in Hin as [x Hx]. rewrite list_lookup_imap in Hx.
        destruct (lines c !! x) as [ln'|] eqn:E; [|done]. simpl in Hx.
        injection Hx as _ <-. by eapply list_elem_of_lookup_2. }
      unfold NavMap.connect_line, NavMap.directions_of in Hline.
      rewrite (Hopen ln Hln) in Hline. cbn [mbind result_bind Py.bind] in Hline.
      revert Hline.
      apply (for_each_inv (λ s, diagonal_clear n s ∧ symmetric n s.1)
               (NavMap.connect c (color ln) {[ -1; 1 ]})); [|done].
      intros s2 i s3 _ [Hc2 Hs2] Hstep.
      split; [by eapply connect_clear|].
      apply connect_result in Hstep as [-> Hin'].
      rewrite !bool_decide_eq_true_2
        by (apply elem_of_union; (by left; apply elem_of_singleton)
                                  || (by right; apply elem_of_singleton)).
      cbn [fst snd]. apply set_edges_symmetric; [by destruct Hc2 | | done].
      apply Hin'. left. apply elem_of_union. right. by apply elem_of_singleton.
    - split; [apply init_maps_clear|].
      intros i j Hi Hj. unfold NavMap.fresh_maps. cbn [fst].
      destruct (fill_diagonal n (seq 0 n) (mfull n Inf)) as [_ Hd].
      { apply mfull_square. }
      { apply Forall_forall. intros x Hx. apply elem_of_seq in Hx. lia. }
      rewrite !Hd by done. rewrite !mget_mfull by done.
      apply (f_equal (λ b : bool, if b then Hops 0 else Inf)).
      apply bool_decide_ext. split; intros [-> ?]; done. }
  assert (d = (foldl NavMap.relax s (NavMap.triples n)).1) as ->
    by (unfold n; by rewrite Hrelax).
  rewrite foldl_relax_fst. apply relaxation_symmetric; [|done].
  destruct Hclear as (Hsq & _ & Hdiag & _).
  split; [done|]. split; [intros i Hi; by apply Hdiag | lia].
Qed.

Lemma distances_symmetric_witness :
  ∃ c' d, NavMap._update_navmap city_abc = Ok c' ∧ distmap c' = Some d
          ∧ mget d 0 2 = mget d 2 0.
Proof.
  destruct (update_navmap_total city_abc ltac:(done) lines_fit_abc) as [c' Hrun].
  destruct (distances_symmetric city_abc c') as (d & Hd & Hsym).
  - intros ln ->%list_elem_of_singleton. reflexivity.
  - exact Hrun.
  - exists c', d. split; [exact Hrun|]. split; [exact Hd|].
    apply (Hsym 0 2)%nat; simpl; lia.
Defined.

(** *** Stations beyond the reach of the lines *)

Lemma relaxation_inv (Q : matrix dist → Prop) n d :
  closed_below n 0 d → Q d →
  (∀ k d', (k < n)%nat → closed_below n k d' → Q d' →
           Q (foldl relax_dist d' ((λ p, (k, p.1, p.2)) <$> pairs n))) →
  Q (foldl relax_dist d (NavMap.triples n)).
Proof.
  intros H0 HQ Hstep. rewrite triples_by_phase, foldl_bind.
  assert (∀ m, (m ≤ n)%nat →
            let d' := foldl (λ a k, foldl relax_dist a ((λ p, (k, p.1, p.2)) <$> pairs n))
                            d (seq 0 m) in
            closed_below n m d' ∧ Q d') as Hall.
  { induction m as [|m IH]; intros Hm; [done|].
    destruct IH as [Hc Hs]; [lia|].
    cbv zeta. rewrite seq_S, foldl_app. simpl. split.
    - apply closed_below_step; [lia | done].
    - apply Hstep; [lia | done | done]. }
  by apply Hall.
Qed.

Lemma cut_off_phase n m k d :
  (k < n)%nat → closed_below n k d → cut_off n m d →
  cut_off n m (foldl relax_dist d ((λ p, (k, p.1, p.2)) <$> pairs n)).
Proof.
  intros Hk (Hsq & Hdiag & _) Hcut.
  destruct (phase_relaxes n k d Hsq Hk (Hdiag k Hk)) as [_ Hd].
  intros i j Hi Hj Hne Hfar. rewrite Hd by done. unfold relaxed.
  rewrite (Hcut i j) by done.
  assert (dadd (mget d i k) (mget d k j) = Inf) as ->; [|done].
  destruct Hfar as [Hfar|Hfar].
  - destruct (decide (i = k)) as [->|Hik].
    + by rewrite (Hdiag k Hk), dadd_zero_l, (Hcut k j) by auto.
    + by rewrite (Hcut i k) by auto.
  - destruct (decide (k = j)) as [->|Hkj].
    + by rewrite (Hdiag j Hj), dadd_zero_r, (Hcut i j) by auto.
    + rewrite (Hcut k j) by auto. by destruct (mget d i k).
Qed.

(** X9: stations beyond the reach of the lines stay cut off.  The edge
    loop of City._update_navmap joins the stations at places i and i + 1
    of the city's station list for i below the line's node count, so when
    no line has more than m nodes, the distance map of a completed rebuild
    holds inf between every two different stations of which one is at
    place m or later. *)
Theorem stations_beyond_lines (c c' : City) (m : nat) :
  (∀ ln, ln ∈ lines c → (length (station_nodes ln) ≤ m)%nat) →
  NavMap._update_navmap c = Ok c' →
  ∃ d, distmap c' = Some d ∧
       ∀ i j, (i < length (stations c))%nat → (j < length (stations c))%nat →
              i ≠ j → (m ≤ i)%nat ∨ (m ≤ j)%nat → mget d i j = Inf.
Proof.
  intros Hshort (d & nv & Hcomp & ->)%update_navmap_sets.
  exists d. split; [done|].
  set (n := length (stations c)).
  apply compute_stages in Hcomp as (_ & s & Hedges & Hrelax).
  assert (diagonal_clear n s ∧ cut_off n m s.1) as [Hclear Hcut].
  { eapply (for_each_inv (λ s, diagonal_clear n s ∧ cut_off n m s.1));
      [| |exact Hedges].
    - intros s0 [l ln] s1 Hin [Hc0 Hs0] Hline.
      split; [by eapply connect_line_clear|].
      assert (ln ∈ lines c) as Hln.
      { apply list_elem_of_lookup in Hin as [x Hx]. rewrite list_lookup_imap in Hx.
        destruct (lines c !! x) as [ln'|] eqn:E; [|done]. simpl in Hx.
        injection Hx as _ <-. by eapply list_elem_of_lookup_2. }
      pose proof (Hshort ln Hln) as Hlen.
      unfold NavMap.connect_line in Hline.
      apply bind_Ok in Hline as (dirs & _ & Hline). revert Hline.
      apply (for_each_inv (λ s, diagonal_clear n s ∧ cut_off n m s.1)
               (NavMap.connect c (color ln) dirs)); [|done].
      intros s2 i s3 Hi%elem_of_seq [Hc2 Hs2] Hstep.
      split; [by eapply connect_clear|].
      apply connect_result in Hstep as [-> _].
      assert (∀ (d0 : matrix dist) a b, (a < m)%nat → (b < m)%nat →
                cut_off n m d0 → cut_off n m (mset d0 a b (Hops 1))) as Hedge.
      { intros d0 a b Ha Hb Hd0 x y Hx Hy Hxy Hfar.
        rewrite mget_mset_ne by (intros [= -> ->]; lia). by apply Hd0. }
      repeat case_bool_decide; cbn [fst snd]; try done;
        repeat apply Hedge; done || lia.
    - split; [apply init_maps_clear|].
      intros i j Hi Hj Hne _. unfold NavMap.fresh_maps. cbn [fst].
      destruct (fill_diagonal n (seq 0 n) (mfull n Inf)) as [_ Hd].
      { apply mfull_square. }
      { apply Forall_forall. intros x Hx. apply elem_of_seq in Hx. lia. }
      rewrite Hd by done. rewrite bool_decide_eq_false_2 by (by intros [? _]).
      by apply mget_mfull. }
  assert (d = (foldl NavMap.relax s (NavMap.triples n)).1) as ->
    by (unfold n; by rewrite Hrelax).
  rewrite foldl_relax_fst.
  apply (relaxation_inv (cut_off n m)); [|done|].
  - destruct Hclear as (Hsq & _ & Hdiag & _).
    split; [done|]. split; [intros i Hi; by apply Hdiag | lia].
  - intros k d' Hk Hc Hq. by apply cut_off_phase.
Qed.

Lemma lines_fit_outpost : lines_fit city_outpost.
Proof.
  apply Forall_singleton. split; [apply three_line_valid | simpl; lia].
Qed.

Lemma stations_beyond_lines_witness :
  ∃ c' d, NavMap._update_navmap city_outpost = Ok c' ∧ distmap c' = Some d
          ∧ mget d 0 3 = Inf ∧ mget d 3 2 = Inf.
Proof.
  destruct (update_navmap_total city_outpost ltac:(done) lines_fit_outpost) as [c' Hrun].
  destruct (stations_beyond_lines city_outpost c' 3) as (d & Hd & Hcut).
  - intros ln Hln. apply list_elem_of_singleton in Hln. rewrite Hln. simpl. lia.
  - exact Hrun.
  - exists c', d. split; [exact Hrun|]. split; [exact Hd|].
    split; apply Hcut; simpl; lia.
Defined.

(** *** What the rebuild reads of a line *)

Lemma bind_ext {A B} (m1 m2 : result A) (f g : A → result B) :
  m1 = m2 → (∀ x, f x = g x) → (m1 ≫= f) = (m2 ≫= g).
Proof. intros -> Hfg. destruct m2; simpl; auto. Qed.

Lemma index_discard {A A' B} (l1 : list A) (l2 : list A') (z : Z) (k1 k2 : result B) :
  length l1 = length l2 → k1 = k2 →
  (index l1 z ≫= λ _, k1) = (index l2 z ≫= λ _, k2).
Proof.
  intros Hlen ->. unfold index. rewrite Hlen.
  case_bool_decide.
  - destruct (lookup_lt_is_Some_2 l1 (Z.to_nat z)) as [x ->]; [lia|].
    by destruct (lookup_lt_is_Some_2 l2 (Z.to_nat z)) as [y ->]; [lia|].
  - case_bool_decide; [|done].
    destruct (lookup_lt_is_Some_2 l1 (Z.to_nat (Z.of_nat (length l2) + z)))
      as [x ->]; [lia|].
    by destruct (lookup_lt_is_Some_2 l2 (Z.to_nat (Z.of_nat (length l2) + z)))
      as [y ->]; [lia|].
Qed.

Lemma for_each_ext {S A} (f g : S → A → result S) l s :
  (∀ s x, f s x = g s x) → for_each f l s = for_each g l s.
Proof.
  intros Hfg. revert s. induction l as [|x l IH]; intros s; [done|].
  simpl. rewrite Hfg. by apply bind_ext.
Qed.

Section SameLayout.
Variables (c1 c2 : City).
Hypothesis Hstations : length (stations c1) = length (stations c2).
Hypothesis Htrains : trains c1 = trains c2.

Lemma connect_same col dirs s i :
  NavMap.connect c1 col dirs s i = NavMap.connect c2 col dirs s i.
Proof.
  destruct s as [d nv]. unfold NavMap.connect. apply bind_ext.
  - case_bool_decide; [|done].
    apply index_discard; [done|]. by apply index_discard.
  - intros [d1 nv1]. case_bool_decide; [|done].
    apply index_discard; [done|]. by apply index_discard.
Qed.

Lemma connect_line_same l ln1 ln2 s :
  color ln1 = color ln2 →
  length (station_nodes ln1) = length (station_nodes ln2) →
  LineM.is_circular (nodes c1) ln1 = LineM.is_circular (nodes c2) ln2 →
  NavMap.connect_line c1 s (l, ln1) = NavMap.connect_line c2 s (l, ln2).
Proof.
  intros Hcol Hlen Hcirc. unfold NavMap.connect_line, NavMap.directions_of.
  rewrite Hcirc, Hcol, Hlen. unfold NavMap.trains_of. rewrite Htrains.
  apply bind_ext; [done|]. intros dirs. apply for_each_ext.
  intros ??. apply connect_same.
Qed.

Lemma connect_lines_same (l1 l2 : list Line) (k : nat) s :
  Forall2 (λ ln1 ln2, color ln1 = color ln2
                      ∧ length (station_nodes ln1) = length (station_nodes ln2)
                      ∧ LineM.is_circular (nodes c1) ln1
                        = LineM.is_circular (nodes c2) ln2) l1 l2 →
  for_each (NavMap.connect_line c1) (imap (λ i, pair (k + i)%nat) l1) s
  = for_each (NavMap.connect_line c2) (imap (λ i, pair (k + i)%nat) l2) s.
Proof.
  intros Hall. revert k s.
  induction Hall as [|ln1 ln2 l1 l2 (Hcol & Hlen & Hcirc) _ IH]; intros k s; [done|].
  simpl. apply bind_ext; [by apply connect_line_same|].
  intros s'. specialize (IH (S k) s').
  assert (∀ l : list Line,
            imap ((λ i, pair (k + i)%nat) ∘ S) l = imap (λ i, pair (S k + i)%nat) l)
    as Hshift.
  { intros l. apply imap_ext. intros i x _. simpl. f_equal. lia. }
  by rewrite !Hshift.
Qed.
End SameLayout.

Lemma compute_same c1 c2 :
  same_layout c1 c2 → NavMap.compute c1 = NavMap.compute c2.
Proof.
  intros (Hst & Htr & Hlines). unfold NavMap.compute. rewrite Hst.
  apply bind_ext; [done|]. intros s0. apply bind_ext; [|done].
  apply (connect_lines_same c1 c2 Hst Htr (lines c1) (lines c2) 0 _ Hlines).
Qed.

(** X10: City._update_navmap never reads which stations a line serves.
    For two cities with as many stations, the same trains, and lines that
    agree one by one in colour, number of nodes and circularity, the
    rebuild computes the same distance map and the same navigation map -
    whatever stations the nodes of the lines hold. *)
Theorem rebuild_ignores_stations (c1 c2 c1' : City) :
  same_layout c1 c2 →
  NavMap._update_navmap c1 = Ok c1' →
  ∃ c2', NavMap._update_navmap c2 = Ok c2'
         ∧ distmap c2' = distmap c1' ∧ navmap c2' = navmap c1'.
Proof.
  intros Hsame (d & nv & Hcomp & ->)%update_navmap_sets.
  rewrite (compute_same _ _ Hsame) in Hcomp.
  unfold NavMap._update_navmap. rewrite Hcomp.
  eexists. split; [reflexivity|]. by split.
Qed.

Lemma rebuild_ignores_stations_witness :
  same_layout city_abc (set_nodes shuffled_nodes city_abc) ∧
  ∃ c1' c2', NavMap._update_navmap city_abc = Ok c1'
    ∧ NavMap._update_navmap (set_nodes shuffled_nodes city_abc) = Ok c2'
    ∧ distmap c2' = distmap c1' ∧ navmap c2' = navmap c1'.
Proof.
  assert (same_layout city_abc (set_nodes shuffled_nodes city_abc)) as Hsame.
  { split; [reflexivity|]. split; [reflexivity|].
    apply Forall2_cons. split; [|apply Forall2_nil_2].
    split; [reflexivity|]. split; reflexivity. }
  split; [exact Hsame|].
  destruct (update_navmap_total city_abc ltac:(done) lines_fit_abc) as [c1' Hrun].
  destruct (rebuild_ignores_stations _ _ c1' Hsame Hrun) as (c2' & Hrun' & Hd & Hnv).
  exists c1', c2'. exact (conj Hrun (conj Hrun' (conj Hd Hnv))).
Defined.


(** ** Passenger.move neither loses nor duplicates a passenger *)

Lemma bind_insert_more {A B} (f : A → list B) (l : list A) (i : nat) (a b : A) x :
  l !! i = Some a → f b ≡ₚ x :: f a → (<[i := b]> l ≫= f) ≡ₚ x :: (l ≫= f).
Proof.
  intros Hi Hf. destruct (bind_insert f l i a b Hi) as [-> ->].
  rewrite Hf. simpl. by rewrite <- Permutation_middle.
Qed.

Lemma bind_insert_less {A B} (f : A → list B) (l : list A) (i : nat) (a b : A) x :
  l !! i = Some a → f a ≡ₚ x :: f b → (l ≫= f) ≡ₚ x :: (<[i := b]> l ≫= f).
Proof.
  intros Hi Hf. destruct (bind_insert f l i a b Hi) as [-> ->].
  rewrite Hf. simpl. by rewrite <- Permutation_middle.
Qed.

Lemma bind_insert_same {A B} (f : A → list B) (l : list A) (i : nat) (a b : A) :
  l !! i = Some a → f b = f a → (<[i := b]> l ≫= f) = (l ≫= f).
Proof.
  intros Hi Hf. destruct (bind_insert f l i a b Hi) as [-> ->]. by rewrite Hf.
Qed.

Lemma get_train_inv c t tr : get_train c t = Ok tr → trains c !! t = Some tr.
Proof. unfold get_train. by destruct (trains c !! t); intros [=]; subst. Qed.

Lemma get_station_inv c s st : get_station c s = Ok st → stations c !! s = Some st.
Proof. unfold get_station. by destruct (stations c !! s); intros [=]; subst. Qed.

Lemma get_passenger_inv c p x : get_passenger c p = Ok x → passengers c !! p = Some x.
Proof. unfold get_passenger. by destruct (passengers c !! p); intros [=]; subst. Qed.

Lemma start_times_insert (l : list Passenger) (p : nat) x y :
  l !! p = Some x → starttime y = starttime x →
  starttime <$> <[p := y]> l = starttime <$> l.
Proof.
  intros Hp Hy. rewrite list_fmap_insert, Hy.
  apply list_insert_id. by rewrite list_lookup_fmap, Hp.
Qed.

Lemma steady_refl c : steady c c.
Proof. by repeat split. Qed.

Lemma steady_trans c1 c2 c3 : steady c1 c2 → steady c2 c3 → steady c1 c3.
Proof.
  intros (A1 & A2 & A3 & A4 & A5 & A6 & A7 & A8) (B1 & B2 & B3 & B4 & B5 & B6 & B7 & B8).
  repeat split; congruence.
Qed.

Lemma alight_conserves c p c' :
  PassengerM.alight c p = Ok c' →
  held c' ≡ₚ held c ∧ arrived_passengers c' = arrived_passengers c ∧ steady c c'.
Proof.
  intros Hrun. unfold PassengerM.alight in Hrun.
  apply bind_Ok in Hrun as (x & Hx%get_passenger_inv & Hrun).
  destruct (position x) as [s0|t];
    [injection Hrun as <-; split; [done|]; split; [done | apply steady_refl]|].
  apply bind_Ok in Hrun as (tr & Htr%get_train_inv & Hrun).
  apply bind_Ok in Hrun as (hd & _ & Hrun).
  apply bind_Ok in Hrun as (opts & _ & Hrun).
  destruct (bool_decide (hd ∉ opts) && TrainM.can_exit tr);
    [|injection Hrun as <-; split; [done|]; split; [done | apply steady_refl]].
  apply bind_Ok in Hrun as (ps & Hps%remove_Permutation & Hrun).
  apply bind_Ok in Hrun as (tr1 & _ & Hrun).
  apply bind_Ok in Hrun as (s & _ & Hrun).
  apply bind_Ok in Hrun as (c2 & Happ & Hrun). injection Hrun as <-.
  unfold station_append in Happ.
  apply bind_Ok in Happ as (st & Hst%get_station_inv & Happ). injection Happ as <-.
  simpl in Hst. split; [|split; [done|]].
  - unfold held, CityM.on_trains, CityM.on_stations. simpl.
    rewrite (bind_insert_less (λ t0, train_passengers t0) (trains c) t tr
               (set_train_passengers ps tr) p Htr Hps).
    rewrite (bind_insert_more (λ s0, station_passengers s0) (stations c) s st _ p Hst).
    + simpl. by rewrite <- Permutation_middle.
    + simpl. by rewrite Permutation_app_comm.
  - repeat split; simpl; rewrite ?length_insert; try done.
    unfold start_times. simpl. by apply (start_times_insert _ p x).
Qed.

Lemma board_conserves c p c' :
  PassengerM.board c p = Ok c' →
  held c' ≡ₚ held c ∧ arrived_passengers c' = arrived_passengers c ∧ steady c c'.
Proof.
  intros Hrun. unfold PassengerM.board in Hrun.
  apply bind_Ok in Hrun as (x & Hx%get_passenger_inv & Hrun).
  destruct (position x) as [s|t0];
    [|injection Hrun as <-; split; [done|]; split; [done | apply steady_refl]].
  apply bind_Ok in Hrun as (candidates & _ & Hrun).
  destruct candidates as [|t rest];
    [injection Hrun as <-; split; [done|]; split; [done | apply steady_refl]|].
  apply bind_Ok in Hrun as (st & Hst%get_station_inv & Hrun).
  apply bind_Ok in Hrun as (ps & Hps%remove_Permutation & Hrun).
  apply bind_Ok in Hrun as (tr & Htr%get_train_inv & Hrun). injection Hrun as <-.
  simpl in Htr. split; [|split; [done|]].
  - unfold held, CityM.on_trains, CityM.on_stations. simpl.
    rewrite (bind_insert_more (λ t0, train_passengers t0) (trains c) t tr _ p Htr).
    2:{ simpl. by rewrite Permutation_app_comm. }
    rewrite (bind_insert_less (λ s0, station_passengers s0) (stations c) s st
               (set_station_passengers ps st) p Hst Hps).
    simpl. by rewrite <- Permutation_middle.
  - repeat split; simpl; rewrite ?length_insert; try done.
    unfold start_times. simpl. by apply (start_times_insert _ p x).
Qed.

Lemma arrive_conserves c p c' :
  PassengerM.arrive c p = Ok c' →
  steady c c' ∧
  ((held c' = held c ∧ arrived_passengers c' = arrived_passengers c)
   ∨ ∃ x, passengers c !! p = Some x
          ∧ held c ≡ₚ p :: held c'
          ∧ arrived_passengers c'
            = arrived_passengers c ++ [time c - starttime x]).
Proof.
  intros Hrun. unfold PassengerM.arrive in Hrun.
  apply bind_Ok in Hrun as (x & Hx%get_passenger_inv & Hrun).
  case_decide; [|injection Hrun as <-; split; [apply steady_refl | by left]].
  apply bind_Ok in Hrun as (st & Hst%get_station_inv & Hrun).
  apply bind_Ok in Hrun as (ps & Hps%remove_Permutation & Hrun). injection Hrun as <-.
  simpl in Hst. split.
  - repeat split; simpl; rewrite ?length_insert; done.
  - right. exists x. split; [done|]. split; [|done].
    unfold held, CityM.on_trains, CityM.on_stations. simpl.
    rewrite (bind_insert_less (λ s0, station_passengers s0) (stations c)
               (destination x) st (set_station_passengers ps st) p Hst Hps).
    by rewrite <- Permutation_middle.
Qed.

Lemma move_conserves_steps (c : City) (p : passenger_ref) (c' : City) :
  PassengerM.move c p = Ok c' →
  ((held c' ≡ₚ held c ∧ arrived_passengers c' = arrived_passengers c)
   ∨ ∃ x, passengers c !! p = Some x
          ∧ held c ≡ₚ p :: held c'
          ∧ arrived_passengers c'
            = arrived_passengers c ++ [time c - starttime x])
  ∧ time c' = time c ∧ lines c' = lines c ∧ nodes c' = nodes c
  ∧ navmap c' = navmap c ∧ distmap c' = distmap c
  ∧ length (trains c') = length (trains c)
  ∧ length (stations c') = length (stations c)
  ∧ start_times c' = start_times c.
Proof.
  intros Hrun. unfold PassengerM.move in Hrun.
  apply bind_Ok in Hrun as (c1 & (Hh1 & Ha1 & Hs1)%alight_conserves & Hrun).
  apply bind_Ok in Hrun as (c2 & (Hh2 & Ha2 & Hs2)%board_conserves & Hrun).
  apply arrive_conserves in Hrun as [Hs3 Hend].
  pose proof (steady_trans _ _ _ Hs1 Hs2) as Hs12.
  split; [|exact (steady_trans _ _ _ Hs12 Hs3)].
  destruct Hend as [[Hh3 Ha3]|(x & Hx & Hh3 & Ha3)].
  - left. split; [by rewrite Hh3, Hh2, Hh1 | congruence].
  - right. destruct Hs12 as (Ht & _ & _ & _ & _ & _ & _ & Hst).
    assert (∃ x0, passengers c !! p = Some x0 ∧ starttime x0 = starttime x)
      as (x0 & Hx0 & Hst0).
    { unfold start_times in Hst.
      assert ((starttime <$> passengers c) !! p = Some (starttime x)) as Hlk
        by (by rewrite <- Hst, list_lookup_fmap, Hx).
      rewrite list_lookup_fmap in Hlk.
      destruct (passengers c !! p) as [x0|]; [|done].
      exists x0. split; [done|]. by injection Hlk. }
    exists x0. split; [done|]. split.
    + by rewrite <- Hh1, <- Hh2.
    + rewrite Ha3, Ha2, Ha1, Ht, Hst0. done.
Qed.

(** X11: Passenger.move neither loses nor duplicates a passenger.  When a
    move completes, either the passengers held by trains and stations are
    the same as before (perhaps held elsewhere) and no arrival is
    recorded, or exactly the moved passenger has left them and exactly one
    travel time, now minus that passenger's start time, has been appended
    to arrived_passengers.  The clock, the lines and nodes, the maps, the
    numbers of trains and stations and every passenger's start time are
    untouched. *)
Theorem move_conserves (c : City) (p : passenger_ref) (c' : City) :
  PassengerM.move c p = Ok c' →
  ((held c' ≡ₚ held c ∧ arrived_passengers c' = arrived_passengers c)
   ∨ ∃ x, passengers c !! p = Some x
          ∧ held c ≡ₚ p :: held c'
          ∧ arrived_passengers c'
            = arrived_passengers c ++ [time c - starttime x])
  ∧ time c' = time c ∧ lines c' = lines c ∧ nodes c' = nodes c
  ∧ navmap c' = navmap c ∧ distmap c' = distmap c
  ∧ length (trains c') = length (trains c)
  ∧ length (stations c') = length (stations c)
  ∧ start_times c' = start_times c.
Proof. apply move_conserves_steps. Qed.

Lemma move_conserves_witness :
  ∃ c', PassengerM.move city_arriving 0 = Ok c'
        ∧ held city_arriving ≡ₚ 0%nat :: held c'
        ∧ arrived_passengers c' = [5].
Proof.
  eexists. split; [vm_compute; reflexivity|].
  match goal with
  | |- _ ≡ₚ _ :: held ?c ∧ _ =>
      destruct (move_conserves city_arriving 0 c ltac:(vm_compute; reflexivity))
        as [[[_ Hsame]|(x & _ & Hheld & _)] _]
  end.
  - discriminate Hsame.
  - split; [exact Hheld | reflexivity].
Defined.

(** ** A tick accounts for every passenger *)

Lemma grown_refl c : grown c c 0.
Proof.
  repeat split; try done; try (simpl; by rewrite app_nil_r); try lia.
Qed.

Lemma train_move_grown c0 c k t c' :
  grown c0 c k → TrainM.move c t = Ok c' → grown c0 c' k.
Proof.
  intros (Ht & Hl & Hn & Htr & Hst & Hstart & Hacc) Hrun.
  unfold TrainM.move in Hrun.
  apply bind_Ok in Hrun as (tr & Htrain%get_train_inv & Hrun).
  assert (∀ tr', train_passengers tr' = train_passengers tr →
            grown c0 (put_train c t tr') k) as Hput.
  { intros tr' Hps. repeat split; try done.
    - simpl. by rewrite length_insert.
    - unfold accounted, held, CityM.on_trains. simpl.
      rewrite (bind_insert_same (λ t0, train_passengers t0) _ _ tr tr') by done.
      exact Hacc. }
  case_decide.
  - injection Hrun as <-. by apply Hput.
  - apply bind_Ok in Hrun as (l & _ & Hrun).
    apply bind_Ok in Hrun as (ln & _ & Hrun).
    apply bind_Ok in Hrun as ([node dir] & _ & Hrun). injection Hrun as <-.
    by apply Hput.
Qed.

Lemma spawn_one_grown c0 c k s rnd i c' rnd' :
  grown c0 c k → StationM.spawn_one s (c, rnd) i = Ok (c', rnd') →
  grown c0 c' (S k).
Proof.
  intros (Ht & Hl & Hn & Htr & Hst & Hstart & Hacc) Hrun.
  unfold StationM.spawn_one in Hrun.
  apply bind_Ok in Hrun as ([dest r2] & _ & Hrun).
  apply bind_Ok in Hrun as ([x r3] & Hinit & Hrun).
  apply bind_Ok in Hrun as (c2 & Happ & Hrun). injection Hrun as <- <-.
  unfold PassengerM.init in Hinit. cbn [mbind result_bind Py.bind] in Hinit.
  apply bind_Ok in Hinit as (? & _ & Hinit).
  apply bind_Ok in Hinit as (? & _ & Hinit). injection Hinit as <- <-.
  unfold station_append in Happ.
  apply bind_Ok in Happ as (st & Hstn%get_station_inv & Happ). injection Happ as <-.
  simpl in Hstn.
  repeat split; try done.
  - simpl. by rewrite length_insert.
  - unfold start_times in *. simpl. rewrite fmap_app, Hstart. simpl.
    rewrite Ht, <- app_assoc. f_equal. by rewrite replicate_cons_app.
  - unfold accounted, held, CityM.on_trains, CityM.on_stations in *. simpl.
    rewrite length_app in *.
    rewrite (bind_insert_more (λ s0, station_passengers s0) (stations c) s st _
               (length (passengers c)) Hstn).
    + simpl. lia.
    + simpl. by rewrite Permutation_app_comm.
Qed.

Lemma spawn_passengers_grown c0 c k s rnd c' rnd' :
  grown c0 c k → StationM.spawn_passengers (c, rnd) s = Ok (c', rnd') →
  ∃ k', grown c0 c' k'.
Proof.
  intros Hg Hrun. unfold StationM.spawn_passengers in Hrun.
  apply bind_Ok in Hrun as ([m rnd1] & _ & Hrun).
  apply (for_each_inv (λ cr, ∃ k', grown c0 cr.1 k')) in Hrun; [done| |by exists k].
  intros [c1 r1] i [c2 r2] _ [k1 Hk1] Hone. exists (S k1).
  by eapply spawn_one_grown.
Qed.

Lemma passenger_move_grown c0 c k p c' :
  grown c0 c k → PassengerM.move c p = Ok c' → grown c0 c' k.
Proof.
  intros (Ht & Hl & Hn & Htr & Hst & Hstart & Hacc) Hrun.
  apply move_conserves_steps in Hrun
    as (Hend & Ht' & Hl' & Hn' & _ & _ & Htr' & Hst' & Hstart').
  repeat split; try congruence.
  rewrite <- Hacc. unfold accounted.
  destruct Hend as [[Hh Ha]|(x & _ & Hh & Ha)].
  - by rewrite Hh, Ha.
  - rewrite Hh, Ha, length_app. simpl. lia.
Qed.

Lemma add_station_grown c rnd c' s rnd' :
  CityM.add_station c rnd = Ok (c', s, rnd') →
  s = length (stations c) ∧
  time c' = time c ∧ lines c' = lines c ∧ nodes c' = nodes c ∧
  trains c' = trains c ∧ passengers c' = passengers c ∧
  arrived_passengers c' = arrived_passengers c ∧
  (∃ pos, (pos ∉ station_position <$> stations c) ∧
          stations c' = stations c ++ [{| station_idx := length (stations c);
                                          station_position := pos;
                                          station_passengers := [] |}]) ∧
  held c' = held c.
Proof.
  intros (-> & pos & Hfree & (d & nv & _ & ->)%update_navmap_sets)
    %add_station_stages.
  split; [done|]. do 6 (split; [done|]). split; [by exists pos|].
  unfold held, CityM.on_trains, CityM.on_stations. simpl.
  rewrite bind_app. simpl. by rewrite !app_nil_r.
Qed.

(** X12: a tick accounts for every passenger.  When
    Simulation.simulate_step completes, the clock has advanced by one;
    lines, nodes and the number of trains are as before; the city has one
    station more exactly when the old time is positive and a multiple of
    NEW_STATION_INTERVAL; and for some k, exactly k passenger objects were
    created, all with the old time as start time, while the number of
    passengers held by trains and stations plus the number of recorded
    arrivals has grown by exactly k. *)
Theorem tick_accounts (c : City) (rnd : draws) (c' : City) (rnd' : draws) :
  SimulationM.simulate_step c rnd = Ok (c', rnd') →
  time c' = time c + 1 ∧ lines c' = lines c ∧ nodes c' = nodes c ∧
  length (trains c') = length (trains c) ∧
  length (stations c')
  = (if bool_decide (time c > 0)
        && bool_decide (time c `mod` SimulationM.NEW_STATION_INTERVAL = 0)
     then S (length (stations c)) else length (stations c)) ∧
  ∃ k, start_times c' = start_times c ++ replicate k (time c)
       ∧ accounted c' = (accounted c + k)%nat.
Proof.
  intros (ce & c1 & rnd0 & c2 & c3 & c4 & H0 & H1 & H2 & H3 & H4 & ->)
    %simulate_step_stages.
  set (grow := bool_decide (time c > 0)
               && bool_decide (time c `mod` SimulationM.NEW_STATION_INTERVAL = 0)) in *.
  assert (time ce = time c ∧ lines ce = lines c ∧ nodes ce = nodes c
          ∧ trains ce = trains c ∧ stations ce = stations c
          ∧ passengers ce = passengers c
          ∧ arrived_passengers ce = arrived_passengers c)
    as (Ct & Cl & Cn & Ctr & Cst & Cp & Ca).
  { destruct (bool_decide (time c `mod` _ = 0)); [|by subst].
    by destruct H0 as (edge & _ & ->). }
  assert (time c1 = time c ∧ lines c1 = lines c ∧ nodes c1 = nodes c
          ∧ length (trains c1) = length (trains c)
          ∧ length (stations c1)
            = (if grow then S (length (stations c)) else length (stations c))
          ∧ start_times c1 = start_times c ∧ accounted c1 = accounted c)
    as (Et & El & En & Etr & Est & Estart & Eacc).
  { assert (accounted ce = accounted c) as Cacc.
    { unfold accounted, held, CityM.on_trains, CityM.on_stations.
      by rewrite Ctr, Cst, Ca. }
    destruct grow.
    2:{ destruct H1 as [-> _]. unfold start_times. by rewrite Ctr, Cst, Cp. }
    destruct H1 as (s0 & Hadd).
    apply add_station_grown in Hadd
      as (_ & A1 & A2 & A3 & A4 & A5 & A6 & (pos & _ & A7) & A8).
    split; [congruence|]. split; [congruence|]. split; [congruence|].
    split; [congruence|]. split; [|split].
    - rewrite A7, length_app, Cst. simpl. lia.
    - unfold start_times. by rewrite A5, Cp.
    - rewrite <- Cacc. unfold accounted. by rewrite A8, A6. }
  assert (grown c1 c2 0) as G2.
  { eapply (for_each_inv (λ s, grown c1 s 0)); [|apply grown_refl|exact H2].
    intros s t s' _ Hs Hmove. by eapply train_move_grown. }
  assert (∃ k, grown c1 c3 k) as [k3 G3].
  { apply (for_each_inv (λ cr, ∃ k, grown c1 cr.1 k)) in H3; [done| |by exists 0%nat].
    intros [s r] st [s' r'] _ [k Hk] Hsp. by eapply spawn_passengers_grown. }
  assert (grown c1 c4 k3) as (Gt & Gl & Gn & Gtr & Gst & Gstart & Gacc).
  { unfold SimulationM.move_passengers in H4.
    apply bind_Ok in H4 as (ps & _ & H4).
    eapply (for_each_inv (λ s, grown c1 s k3)); [|exact G3|exact H4].
    intros s p s' _ Hs Hmove. by eapply passenger_move_grown. }
  simpl. split; [lia|]. split; [congruence|]. split; [congruence|].
  split; [congruence|]. split; [congruence|].
  exists k3. split.
  - change (start_times c4 = start_times c ++ replicate k3 (time c)).
    by rewrite Gstart, Estart, Et.
  - change (accounted c4 = (accounted c + k3)%nat).
    by rewrite Gacc, Eacc.
Qed.

Lemma tick_accounts_witness :
  ∃ c' rnd', SimulationM.simulate_step city_abc [1; 2; 0; 0]%nat = Ok (c', rnd')
    ∧ time c' = 1
    ∧ start_times c' = [0]
    ∧ ∃ k, start_times c' = start_times city_abc ++ replicate k 0
           ∧ accounted c' = (accounted city_abc + k)%nat.
Proof.
  eexists _, _. split; [vm_compute; reflexivity|].
  match goal with
  | |- time ?c = _ ∧ _ =>
      destruct (tick_accounts city_abc [1; 2; 0; 0]%nat c []
                  ltac:(vm_compute; reflexivity))
        as (Ht & _ & _ & _ & _ & Hk)
  end.
  split; [exact Ht|]. split; [reflexivity | exact Hk].
Defined.

(** ** Station.spawn_passengers draws a destination *)

Lemma draw_other_first (n : nat) (s : station_ref) pre r rest fuel :
  (0 < n)%nat → Forall (λ r', (r' `mod` n)%nat = s) pre → (r `mod` n)%nat ≠ s →
  (length pre < fuel)%nat →
  StationM.draw_other fuel n s s (pre ++ r :: rest) = Ok ((r `mod` n)%nat, rest).
Proof.
  intros Hn Hpre Hr. revert fuel.
  induction Hpre as [|r' pre Hr' _ IH]; intros fuel Hfuel.
  - destruct fuel as [|fuel]; [simpl in Hfuel; lia|]. simpl.
    rewrite bool_decide_eq_true_2 by done. unfold choice.
    rewrite bool_decide_eq_false_2 by lia. run.
    destruct fuel; simpl; by rewrite bool_decide_eq_false_2.
  - destruct fuel as [|fuel]; [simpl in Hfuel; lia|]. simpl.
    rewrite bool_decide_eq_true_2 by done. unfold choice.
    rewrite bool_decide_eq_false_2 by lia. run. rewrite Hr'.
    apply IH. simpl in Hfuel. lia.
Qed.

Lemma draw_other_never (n : nat) (s : station_ref) rnd fuel x :
  Forall (λ r, (r `mod` n)%nat = s) rnd →
  StationM.draw_other fuel n s s rnd ≠ Ok x.
Proof.
  intros Hall. revert fuel. induction Hall as [|r rnd Hr _ IH]; intros fuel.
  - destruct fuel; simpl; rewrite bool_decide_eq_true_2 by done; [done|].
    unfold choice. by case_bool_decide.
  - destruct fuel; simpl; rewrite bool_decide_eq_true_2 by done; [done|].
    unfold choice. case_bool_decide; [done|]. run. rewrite Hr. apply IH.
Qed.

(** X13: the destination Station.spawn_passengers draws.  Spawning one
    passenger at station s consumes random draws up to and including the
    first that is not s: the passenger created has that station as
    destination, s as origin and position, and the current time as start
    time, and is appended to the station's list.  If no draw differs from s
    - as in a city whose only station is s - the loop never ends and the
    call does not return. *)
Theorem spawn_draws_first_other (c : City) (s : station_ref) (st : Station)
    (i : nat) :
  stations c !! s = Some st →
  let n := length (stations c) in
  (∀ pre r rest,
     Forall (λ r', (r' `mod` n)%nat = s) pre → (r `mod` n)%nat ≠ s →
     StationM.spawn_one s (c, pre ++ r :: rest) i
     = Ok (put_station
             (set_passengers
                (passengers c ++ [{| starttime := time c; origin := s;
                                     destination := (r `mod` n)%nat;
                                     position := AtStation s |}]) c)
             s (set_station_passengers
                  (station_passengers st ++ [length (passengers c)]) st),
           rest)) ∧
  (∀ rnd x, Forall (λ r, (r `mod` n)%nat = s) rnd →
            StationM.spawn_one s (c, rnd) i ≠ Ok x) ∧
  (n = 1%nat → ∀ rnd x, StationM.spawn_one s (c, rnd) i ≠ Ok x).
Proof.
  intros Hst n. pose proof (lookup_lt_Some _ _ _ Hst) as Hlt. fold n in Hlt.
  assert (∀ rnd x, Forall (λ r, (r `mod` n)%nat = s) rnd →
            StationM.spawn_one s (c, rnd) i ≠ Ok x) as Hnever.
  { intros rnd x Hall Hrun. unfold StationM.spawn_one in Hrun.
    apply bind_Ok in Hrun as (y & Hdraw & _). fold n in Hdraw.
    by apply (draw_other_never n s rnd (S (length rnd)) y Hall). }
  split; [|split; [exact Hnever|]].
  - intros pre r rest Hpre Hr. unfold StationM.spawn_one. fold n.
    rewrite (draw_other_first n s pre r rest (S (length (pre ++ r :: rest))));
      [|lia|done|done|rewrite length_app; simpl; lia].
    run.
    unfold PassengerM.init. run.
    rewrite (get_station_Ok _ _ _ Hst). run.
    destruct (lookup_lt_is_Some_2 (stations c) (r `mod` n)%nat) as [st' Hst'].
    { apply Nat.mod_upper_bound. lia. }
    rewrite (get_station_Ok _ _ _ Hst'). run.
    unfold station_append.
    assert (get_station
              (set_passengers
                 (passengers c ++ [{| starttime := time c; origin := s;
                                      destination := (r `mod` n)%nat;
                                      position := AtStation s |}]) c) s = Ok st)
      as -> by (by apply get_station_Ok).
    done.
  - intros Hone rnd x. apply Hnever. apply Forall_forall. intros r _.
    rewrite Hone in *. assert (s = 0)%nat as -> by lia. apply Nat.mod_1_r.
Qed.

Lemma spawn_draws_first_other_witness :
  StationM.spawn_one 0 (city_abc, [3; 0; 2; 7]%nat) 0
  = Ok (put_station
          (set_passengers [{| starttime := 0; origin := 0%nat;
                              destination := 2%nat;
                              position := AtStation 0%nat |}] city_abc)
          0 {| station_idx := 0; station_position := (0, 0);
             station_passengers := [0%nat] |},
        [7%nat]).
Proof.
  destruct (spawn_draws_first_other city_abc 0
              {| station_idx := 0; station_position := (0, 0);
                 station_passengers := [] |} 0 eq_refl)
    as (Hfirst & _).
  apply (Hfirst [3; 0]%nat 2%nat [7%nat]).
  - repeat constructor.
  - simpl. lia.
Defined.

(** ** Boarding *)

Lemma filter_m_first {A} (g : A → result bool) l x rest :
  filter_m g l = Ok (x :: rest) →
  ∃ pre post, l = pre ++ x :: post ∧ Forall (λ y, g y = Ok false) pre
              ∧ g x = Ok true.
Proof.
  revert x rest. induction l as [|y l IH]; intros x rest Hrun; simpl in Hrun; [done|].
  apply bind_Ok in Hrun as (b & Hb & Hrun).
  apply bind_Ok in Hrun as (ys & Hys & Hrun).
  destruct b.
  - injection Hrun as -> ->. exists [], l. by split.
  - injection Hrun as ->.
    destruct (IH _ _ Hys) as (pre & post & -> & Hpre & Hx).
    exists (y :: pre), post. split; [done|]. split; [by constructor | done].
Qed.

Lemma filter_m_empty {A} (g : A → result bool) l :
  filter_m g l = Ok [] → Forall (λ y, g y = Ok false) l.
Proof.
  induction l as [|y l IH]; intros Hrun; simpl in Hrun; [done|].
  apply bind_Ok in Hrun as (b & Hb & Hrun).
  apply bind_Ok in Hrun as (ys & Hys & Hrun).
  destruct b; [done|]. injection Hrun as ->. constructor; [done | by apply IH].
Qed.

Section Boarding.
Variables (c : City) (x : Passenger) (s : station_ref).

Let test (t : train_ref) : result bool :=
  tr ← get_train c t;
  ok ← TrainM.can_enter c tr s;
  if ok : bool then
    hd ← PassengerM.heading c tr;
    opts ← PassengerM.navigate_step_to c x (destination x);
    Ok (bool_decide (hd ∈ opts))
  else Ok false.

Lemma test_true t :
  test t = Ok true → ∃ tr, trains c !! t = Some tr ∧ takes c x s tr.
Proof.
  unfold test. intros Hrun.
  apply bind_Ok in Hrun as (tr & Htr%get_train_inv & Hrun).
  apply bind_Ok in Hrun as (ok & Henter & Hrun).
  destruct ok; [|done].
  apply bind_Ok in Hrun as (hd & Hhd & Hrun).
  apply bind_Ok in Hrun as (opts & Hopts & Hrun).
  injection Hrun as Hin. apply bool_decide_eq_true in Hin.
  unfold TrainM.can_enter in Henter. case_decide as Hstate; [|done].
  apply bind_Ok in Henter as (s' & Hs' & Henter). injection Henter as Henter.
  apply andb_prop in Henter as [->%bool_decide_eq_true Hroom%bool_decide_eq_true].
  exists tr. split; [done|]. split; [done|]. split; [done|]. split; [done|].
  by exists hd, opts.
Qed.

Lemma test_false t tr :
  test t = Ok false → trains c !! t = Some tr → ¬ takes c x s tr.
Proof.
  unfold test. intros Hrun Htr (Hstate & Hat & Hroom & hd & opts & Hhd & Hopts & Hin).
  rewrite (get_train_Ok _ _ _ Htr) in Hrun. cbn [mbind result_bind Py.bind] in Hrun.
  unfold TrainM.can_enter in Hrun. rewrite decide_True in Hrun by done.
  rewrite Hat in Hrun. cbn [mbind result_bind Py.bind] in Hrun.
  rewrite !bool_decide_eq_true_2 in Hrun by done.
  cbn [andb mbind result_bind Py.bind] in Hrun.
  rewrite Hhd in Hrun. cbn [mbind result_bind Py.bind] in Hrun.
  rewrite Hopts in Hrun. cbn [mbind result_bind Py.bind] in Hrun.
  by rewrite bool_decide_eq_true_2 in Hrun.
Qed.
End Boarding.

(** X14: whom a waiting passenger boards.  When the boarding step of
    Passenger.move completes for a passenger waiting at station s, then
    either no train of the city stands at s with a free place and a line
    and direction among the route options to the passenger's destination,
    and nothing changes; or the passenger leaves the station's list and is
    appended to the passengers of the first such train in the city's train
    list, and its position becomes that train. *)
Theorem boards_first_fitting_train (c : City) (p : passenger_ref) (x : Passenger)
    (s : station_ref) (c' : City) :
  passengers c !! p = Some x → position x = AtStation s →
  PassengerM.board c p = Ok c' →
  (c' = c ∧ ∀ t tr, trains c !! t = Some tr → ¬ takes c x s tr) ∨
  (∃ t tr st ps,
     trains c !! t = Some tr ∧ takes c x s tr ∧
     (∀ t' tr', (t' < t)%nat → trains c !! t' = Some tr' → ¬ takes c x s tr') ∧
     stations c !! s = Some st ∧ Py.remove p (station_passengers st) = Ok ps ∧
     c' = put_passenger
            (put_train (put_station c s (set_station_passengers ps st)) t
               (set_train_passengers (train_passengers tr ++ [p]) tr))
            p (set_position (OnTrain t) x)).
Proof.
  intros Hx Hpos Hrun. unfold PassengerM.board in Hrun.
  rewrite (get_passenger_Ok _ _ _ Hx) in Hrun.
  cbn [mbind result_bind Py.bind] in Hrun. rewrite Hpos in Hrun.
  apply bind_Ok in Hrun as (candidates & Hcand & Hrun).
  destruct candidates as [|t rest].
  - injection Hrun as <-. left. split; [done|].
    intros t tr Htr. apply filter_m_empty in Hcand.
    rewrite Forall_forall in Hcand.
    apply (test_false c x s t tr); [|done].
    apply Hcand. apply elem_of_seq. apply lookup_lt_Some in Htr. lia.
  - right. apply filter_m_first in Hcand as (pre & post & Hseq & Hpre & Ht).
    apply (test_true c x s) in Ht as (tr & Htr & Htakes).
    apply bind_Ok in Hrun as (st & Hst%get_station_inv & Hrun).
    apply bind_Ok in Hrun as (ps & Hps & Hrun).
    apply bind_Ok in Hrun as (tr1 & Htr1%get_train_inv & Hrun).
    injection Hrun as <-. simpl in Htr1. assert (tr1 = tr) as -> by congruence.
    exists t, tr, st, ps. split; [done|]. split; [done|].
    split; [|by repeat split].
    intros t' tr' Hlt Htr'.
    apply (test_false c x s t' tr'); [|done].
    rewrite Forall_forall in Hpre. apply Hpre.
    assert (seq 0 (length (trains c)) !! t' = Some t') as Hlk.
    { apply lookup_seq. split; [done|]. apply lookup_lt_Some in Htr'. lia. }
    assert (seq 0 (length (trains c)) !! t = Some t) as Hlk_t.
    { apply lookup_seq. split; [done|]. apply lookup_lt_Some in Htr. lia. }
    rewrite Hseq in Hlk, Hlk_t.
    assert (length pre = t) as Hlen.
    { destruct (decide (length pre = t)) as [|Hne]; [done|]. exfalso.
      pose proof (NoDup_seq 0 (length (trains c))) as Hnd. rewrite Hseq in Hnd.
      assert ((pre ++ t :: post) !! length pre = Some t) as Hmid
        by (by rewrite lookup_app_r, Nat.sub_diag).
      apply Hne. by eapply NoDup_lookup. }
    rewrite lookup_app_l in Hlk by lia. by eapply list_elem_of_lookup_2.
Qed.

Lemma boards_first_fitting_train_witness :
  ∃ c', PassengerM.board city_boarding 0 = Ok c'
        ∧ (position <$> passengers c' !! 0%nat) = Some (OnTrain 1%nat)
        ∧ ∃ t tr, trains city_boarding !! t = Some tr
                  ∧ takes city_boarding
                      {| starttime := 2; origin := 0%nat; destination := 2%nat;
                         position := AtStation 0%nat |} 0 tr.
Proof.
  eexists. split; [vm_compute; reflexivity|]. split; [reflexivity|].
  destruct (boards_first_fitting_train city_boarding 0
              {| starttime := 2; origin := 0%nat; destination := 2%nat;
                 position := AtStation 0%nat |} 0 _ eq_refl eq_refl
              ltac:(vm_compute; reflexivity))
    as [[Hsame _]|(t & tr & _ & _ & Htr & Htakes & _)].
  - discriminate Hsame.
  - by exists t, tr.
Defined.


(** * The city's lookup tables and the commands *)

(** ** Lookup by id and by colour *)

Lemma dict_of_snoc {K} `{Countable K} {A} (key : A → K) (l : list A) (a : A) :
  dict_of key (l ++ [a]) = <[key a := length l]> (dict_of key l).
Proof.
  unfold dict_of. rewrite imap_app, foldl_app. simpl.
  by rewrite Nat.add_0_r.
Qed.

Lemma dict_of_lookup {K} `{Countable K} {A} (key : A → K) (l : list A) (k : K) :
  match dict_of key l !! k with
  | Some i => last_with key l k i
  | None => ∀ a, a ∈ l → key a ≠ k
  end.
Proof.
  induction l as [|a l IH] using rev_ind.
  - unfold dict_of. simpl. rewrite lookup_empty. intros a Ha. by apply elem_of_nil in Ha.
  - rewrite dict_of_snoc. destruct (decide (key a = k)) as [<-|Hne].
    + rewrite lookup_insert_eq. split.
      * exists a. split; [|done]. by rewrite lookup_app_r, Nat.sub_diag by lia.
      * intros j b Hj Hb. apply lookup_lt_Some in Hb.
        rewrite length_app in Hb. simpl in Hb. lia.
    + rewrite lookup_insert_ne by done.
      destruct (dict_of key l !! k) as [i|].
      * destruct IH as [(x & Hx & Hk) Hlater]. split.
        -- exists x. split; [|done]. by apply lookup_app_l_Some.
        -- intros j b Hj Hb. apply lookup_app_Some in Hb as [Hb|[_ Hb]].
           ++ by eapply Hlater.
           ++ apply list_lookup_singleton_Some in Hb as [_ <-]. done.
      * intros b [Hb|Hb%list_elem_of_singleton]%elem_of_app; [by apply IH | by subst].
Qed.

Lemma dict_of_distinct {K} `{Countable K} {A} (key : A → K) (l : list A) (k : K) (i : nat) :
  (∀ i j a b, l !! i = Some a → l !! j = Some b → key a = key b → i = j) →
  dict_of key l !! k = Some i ↔ ∃ a, l !! i = Some a ∧ key a = k.
Proof.
  intros Hinj. pose proof (dict_of_lookup key l k) as Hd. split.
  - intros Hi. rewrite Hi in Hd. by destruct Hd.
  - intros (a & Ha & Hk). destruct (dict_of key l !! k) as [j|].
    + destruct Hd as [(b & Hb & Hkb) _]. f_equal. eapply Hinj; [done..|congruence].
    + exfalso. eapply Hd; [|done]. by eapply list_elem_of_lookup_2.
Qed.

Lemma dict_of_places {A} (key : A → nat) (l : list A) (k : nat) :
  (∀ i a, l !! i = Some a → key a = i) →
  dict_of key l !! k = (if decide (k < length l)%nat then Some k else None).
Proof.
  intros Hidx. case_decide as Hk.
  - apply dict_of_distinct.
    + intros i j a b Ha Hb Hab. apply Hidx in Ha, Hb. congruence.
    + destruct (lookup_lt_is_Some_2 l k Hk) as [a Ha]. exists a. split; [done|].
      by apply Hidx.
  - pose proof (dict_of_lookup key l k) as Hd.
    destruct (dict_of key l !! k) as [i|]; [|done].
    destruct Hd as [(a & Ha & Hka) _]. pose proof (Hidx _ _ Ha).
    apply lookup_lt_Some in Ha. lia.
Qed.

Lemma palette_distinct : NoDup palette.
Proof. apply (bool_decide_unpack (NoDup palette)). vm_compute. exact I. Qed.

Lemma colours_distinct c i j a b :
  colours_in_order c →
  lines c !! i = Some a → lines c !! j = Some b → color a = color b → i = j.
Proof.
  intros Hc Ha Hb Hab. apply Hc in Ha, Hb. rewrite <- Hab in Hb.
  by eapply NoDup_lookup; [apply palette_distinct|..].
Qed.

Lemma abc_catalogued : catalogued city_abc.
Proof.
  split; [|split].
  - intros s st Hs. by repeat (destruct s as [|s]; simplify_eq/=).
  - intros t tr Ht. by repeat (destruct t as [|t]; simplify_eq/=).
  - intros l ln Hl. by repeat (destruct l as [|l]; simplify_eq/=).
Qed.

(** X15: what the city's lookup tables find.  station_ids, line_colors and
    train_ids map a key to the last object of the list that carries it.  In
    a city whose stations and trains carry their place as id the two id
    tables map exactly the ids below the number of objects, each to the
    object at that place; where the lines carry the palette's colours in
    order, a colour is mapped to a line exactly when that line has the
    colour. *)
Theorem tables_resolve (c : City) :
  (∀ k s, station_ids c !! k = Some s → last_with station_idx (stations c) k s) ∧
  (∀ col l, line_colors c !! col = Some l → last_with color (lines c) col l) ∧
  (∀ k t, train_ids c !! k = Some t → last_with train_idx (trains c) k t) ∧
  (stations_indexed c →
   ∀ s, station_ids c !! s
        = (if decide (s < length (stations c))%nat then Some s else None)) ∧
  (trains_indexed c →
   ∀ t, train_ids c !! t
        = (if decide (t < length (trains c))%nat then Some t else None)) ∧
  (colours_in_order c →
   ∀ col l, line_colors c !! col = Some l
            ↔ ∃ ln, lines c !! l = Some ln ∧ color ln = col).
Proof.
  split; [|split; [|split; [|split; [|split]]]].
  - intros k s Hs. pose proof (dict_of_lookup station_idx (stations c) k) as Hd.
    unfold station_ids in Hs. by rewrite Hs in Hd.
  - intros k s Hs. pose proof (dict_of_lookup color (lines c) k) as Hd.
    unfold line_colors in Hs. by rewrite Hs in Hd.
  - intros k s Hs. pose proof (dict_of_lookup train_idx (trains c) k) as Hd.
    unfold train_ids in Hs. by rewrite Hs in Hd.
  - intros Hidx s. by apply dict_of_places.
  - intros Hidx t. by apply dict_of_places.
  - intros Hcol col l. apply dict_of_distinct.
    intros i j a b. by apply colours_distinct.
Qed.

Lemma tables_resolve_witness :
  catalogued city_abc ∧
  station_ids city_abc !! 2%nat = Some 2%nat ∧
  station_ids city_abc !! 3%nat = None ∧
  train_ids city_abc !! 0%nat = Some 0%nat ∧
  (line_colors city_abc !! "blue"%string = Some 0%nat
   ↔ ∃ ln, lines city_abc !! 0%nat = Some ln ∧ color ln = "blue"%string).
Proof.
  pose proof abc_catalogued as (Hs & Ht & Hc).
  destruct (tables_resolve city_abc) as (_ & _ & _ & Hst & Htr & Hln).
  split; [by repeat split|].
  split; [apply (Hst Hs 2%nat)|]. split; [apply (Hst Hs 3%nat)|].
  split; [apply (Htr Ht 0%nat)|]. apply (Hln Hc).
Defined.

(** ** The constructors keep the keys *)

Lemma add_train_shape c l st dir c' r :
  CityM.add_train c l st dir = Ok (c', r) →
  stations c' = stations c ∧ lines c' = lines c ∧ nodes c' = nodes c ∧
  ((r = None ∧ c' = c ∧ max_trains c ≤ Z.of_nat (length (trains c)))
   ∨ (r = Some (length (trains c))
      ∧ Z.of_nat (length (trains c)) < max_trains c
      ∧ ∃ tr, trains c' = trains c ++ [tr] ∧ train_idx tr = length (trains c))).
Proof.
  unfold CityM.add_train. case_bool_decide as Hroom.
  2:{ intros [= <- <-]. repeat split. left. repeat split. lia. }
  destruct l as [l|].
  2:{ intros [= <- <-]. repeat split. right. repeat split; [done|]. by eexists. }
  intros ([c2 ?] & Hset & Hrun)%bind_Ok.
  apply bind_Ok in Hrun as (ln & _ & Hrun).
  apply bind_Ok in Hrun as (circ & _ & Hrun).
  apply bind_Ok in Hrun as (c3 & Hc3 & Hrun). injection Hrun as <- <-.
  assert (stations c2 = stations c ∧ lines c2 = lines c ∧ nodes c2 = nodes c
          ∧ ∃ tr, trains c2 = trains c ++ [tr] ∧ train_idx tr = length (trains c))
    as (Hs2 & Hl2 & Hn2 & tr & Ht2 & Hidx).
  { unfold TrainM.set_line in Hset.
    apply bind_Ok in Hset as (tr & Htr & Hset).
    unfold get_train in Htr. simpl in Htr.
    rewrite lookup_app_r, Nat.sub_diag in Htr by lia. simpl in Htr.
    injection Htr as <-.
    destruct st as [s|]; [|done].
    apply bind_Ok in Hset as (l' & _ & Hset).
    apply bind_Ok in Hset as (ln' & _ & Hset).
    apply bind_Ok in Hset as ([a|] & _ & Hset); injection Hset as <- _.
    - repeat split. eexists. split; [|shelve]. simpl.
      by rewrite insert_app_r_alt, Nat.sub_diag by lia.
      Unshelve. done.
    - repeat split. by eexists. }
  assert (trains c3 = trains c2 ∧ stations c3 = stations c2
          ∧ lines c3 = lines c2 ∧ nodes c3 = nodes c2) as (Ht3 & Hs3 & Hl3 & Hn3).
  { destruct (_ || _).
    - apply update_navmap_same in Hc3 as (? & ? & ? & ? & _). done.
    - by injection Hc3 as <-. }
  split; [congruence|]. split; [congruence|]. split; [congruence|].
  right. split; [done|]. split; [done|]. exists tr. split; [congruence|done].
Qed.

Lemma add_line_shape c c' r :
  CityM.add_line c = Ok (c', r) →
  (r = None ∧ c' = c ∧ max_lines c ≤ Z.of_nat (length (lines c)))
  ∨ (r = Some (length (lines c))
     ∧ Z.of_nat (length (lines c)) < max_lines c
     ∧ ∃ col, palette !! length (lines c) = Some col
              ∧ c' = set_lines (lines c ++ [{| color := col; station_nodes := [] |}]) c).
Proof.
  unfold CityM.add_line, CityM.Line_init. case_bool_decide as Hroom.
  2:{ intros [= <- <-]. left. repeat split. lia. }
  intros (ln & (col & Hcol & [= <-])%bind_Ok & [= <- <-])%bind_Ok.
  right. split; [done|]. split; [done|]. exists col. split; [|done].
  apply index_Ok_inv in Hcol as (j & Hcol & [(_ & ->)|(Hneg & _)]); [|lia].
  by rewrite Nat2Z.id in Hcol.
Qed.

Lemma add_station_catalogued c rnd c' s rnd' :
  catalogued c → CityM.add_station c rnd = Ok (c', s, rnd') → catalogued c'.
Proof.
  intros (Hs & Ht & Hc)
    (_ & _ & Hl & _ & Htr & _ & _ & (pos & _ & Hst) & _)%add_station_grown.
  split; [|split].
  - intros i st. rewrite Hst.
    intros [Hi|[Hle Hi]]%lookup_app_Some; [by apply Hs|].
    apply list_lookup_singleton_Some in Hi as [Hi <-]. simpl. lia.
  - intros i tr. rewrite Htr. apply Ht.
  - intros i ln. rewrite Hl. apply Hc.
Qed.

(** X16: the constructors hand out the keys the tables rely on.  A new city
    has no objects; and in a city whose stations and trains carry their
    place as id and whose lines carry the palette's colours in order,
    City.add_station, City.add_line and City.add_train leave a city of that
    kind.  add_station returns the new last station.  add_line returns None
    and changes nothing when max_lines is reached, and else appends a line
    without nodes in the next colour of the palette; with the thirteen
    colours used up and max_lines above thirteen it raises IndexError.
    add_train returns None and changes nothing when max_trains is reached,
    and else appends one train. *)
Theorem creation_keeps_catalogue :
  catalogued City_init ∧
  ∀ c, catalogued c →
    (∀ rnd c' s rnd', CityM.add_station c rnd = Ok (c', s, rnd') →
       catalogued c' ∧ s = length (stations c)
       ∧ length (stations c') = S (length (stations c))) ∧
    (∀ c' r, CityM.add_line c = Ok (c', r) →
       catalogued c' ∧
       match r with
       | None => c' = c ∧ max_lines c ≤ Z.of_nat (length (lines c))
       | Some l =>
           l = length (lines c) ∧ Z.of_nat l < max_lines c ∧
           ∃ col, palette !! l = Some col ∧
                  c' = set_lines (lines c ++ [{| color := col; station_nodes := [] |}]) c
       end) ∧
    ((length palette ≤ length (lines c))%nat →
     Z.of_nat (length (lines c)) < max_lines c →
     CityM.add_line c = Raise IndexError) ∧
    (∀ l st dir c' r, CityM.add_train c l st dir = Ok (c', r) →
       catalogued c' ∧
       match r with
       | None => c' = c ∧ max_trains c ≤ Z.of_nat (length (trains c))
       | Some t =>
           t = length (trains c) ∧ Z.of_nat t < max_trains c ∧
           length (trains c') = S (length (trains c))
       end).
Proof.
  split; [by split; [|split]; intros i x Hi; simpl in Hi; destruct i|].
  intros c (Hs & Ht & Hc). split; [|split; [|split]].
  - intros rnd c' s rnd' Hadd.
    split; [by eapply (add_station_catalogued c)|].
    apply add_station_grown in Hadd
      as (-> & _ & _ & _ & _ & _ & _ & (pos & _ & Hst) & _).
    split; [done | rewrite Hst, length_app; simpl; lia].
  - intros c' r [(-> & -> & Hmax)|(-> & Hroom & col & Hcol & ->)]%add_line_shape.
    + by repeat split.
    + split; [|by eauto]. split; [done|]. split; [done|].
      intros i ln. simpl.
      intros [Hi|[Hle Hi]]%lookup_app_Some; [by apply Hc|].
      apply list_lookup_singleton_Some in Hi as [Hi <-]. simpl.
      by replace (length (lines c)) with i in Hcol by lia.
  - intros Hfull Hroom. unfold CityM.add_line, CityM.Line_init.
    rewrite bool_decide_eq_true_2 by done.
    rewrite index_out; [done|]. lia.
  - intros l st dir c' r
      (Hst & Hl & _ & [(-> & -> & Hmax)|(-> & Hroom & tr & Htr & Hidx)])%add_train_shape.
    + by repeat split.
    + split; [|split; [done|split; [done|rewrite Htr, length_app; simpl; lia]]].
      split; [|split].
      * intros i x. rewrite Hst. apply Hs.
      * intros i x. rewrite Htr.
        intros [Hi|[Hle Hi]]%lookup_app_Some; [by apply Ht|].
        apply list_lookup_singleton_Some in Hi as [Hi <-]. lia.
      * intros i x. rewrite Hl. apply Hc.
Qed.

Lemma creation_keeps_catalogue_witness :
  catalogued City_init ∧
  ∃ c', CityM.add_line City_init = Ok (c', Some 0%nat)
        ∧ catalogued c'
        ∧ (color <$> lines c') = ["blue"%string].
Proof.
  destruct creation_keeps_catalogue as [H0 H]. split; [exact H0|].
  eexists. split; [reflexivity|].
  destruct (H City_init H0) as (_ & Hline & _).
  destruct (Hline _ _ eq_refl) as [Hcat _].
  split; [exact Hcat | reflexivity].
Defined.

(** ** Simulation.continue_simulation *)

Lemma waiting_times_of c ps :
  Forall (λ p, is_Some (passengers c !! p)) ps →
  map_m (λ p, x ← get_passenger c p; Ok (time c - starttime x)) ps
  = Ok (waited c <$> ps).
Proof.
  induction 1 as [|p ps [x Hx] _ IH]; [done|].
  cbn [map_m]. unfold get_passenger at 1. rewrite Hx.
  cbn [deref mbind result_bind Py.bind]. rewrite IH.
  cbn [mbind result_bind Py.bind fmap list_fmap].
  unfold waited at 2, start_of. by rewrite Hx.
Qed.

Lemma foldl_max_lt (w : Z) (ws : list Z) (m : Z) :
  foldl Z.max w ws < m ↔ Forall (λ x, x < m) (w :: ws).
Proof.
  revert w. induction ws as [|v ws IH]; intros w; simpl.
  - rewrite Forall_singleton. done.
  - rewrite IH, !Forall_cons. split.
    + intros [Hmax Hws]. repeat split; [lia..|done].
    + intros (Hw & Hv & Hws). split; [lia|done].
Qed.

(** X17: when the simulation goes on.  In a city where every handle held by
    a train or a station stands for a passenger, continue_simulation
    returns, and it returns True exactly when the clock is below
    max_iterations and every passenger held by a train or a station
    started less than MAX_WAITING_TIME ticks ago.  Passengers that have
    arrived no longer count, passengers riding a train do. *)
Theorem continues_while_fresh (c : City) (max_iterations : Z) :
  passengers_exist c →
  ∃ b, continue_simulation c max_iterations = Ok b ∧
       (b = true ↔ time c < max_iterations
                   ∧ ∀ p, p ∈ held c → waited c p < MAX_WAITING_TIME).
Proof.
  intros Hex. destruct (all_passengers_total c Hex) as [l Hl].
  destruct (all_passengers_spec c l Hl) as (riding & waiting & -> & Hr & Hw & _).
  assert (riding ++ waiting ≡ₚ held c) as Hperm by (unfold held; by rewrite Hr, Hw).
  set (ps := riding ++ waiting) in *.
  unfold continue_simulation. rewrite Hl. cbn [mbind result_bind Py.bind].
  rewrite waiting_times_of.
  2:{ unfold passengers_exist in Hex. by rewrite Hperm. }
  cbn [mbind result_bind Py.bind]. eexists. split; [reflexivity|].
  rewrite andb_true_iff, bool_decide_eq_true.
  apply and_iff_compat_l.
  assert ((∀ p, p ∈ held c → waited c p < MAX_WAITING_TIME)
          ↔ Forall (λ x, x < MAX_WAITING_TIME) (waited c <$> ps)) as ->.
  { rewrite Forall_fmap, Forall_forall. setoid_rewrite <- Hperm. done. }
  destruct (waited c <$> ps) as [|w ws].
  - simpl. split; [intros _; apply Forall_nil_2 | done].
  - rewrite orb_true_iff, !bool_decide_eq_true, foldl_max_lt. simpl.
    split; [by intros [?|?] | by right].
Qed.

Lemma continues_while_fresh_witness :
  passengers_exist city_mixed ∧
  continue_simulation city_mixed 1000 = Ok true ∧
  continue_simulation city_mixed 9 = Ok false ∧
  continue_simulation (set_time 26 city_mixed) 1000 = Ok false.
Proof.
  assert (passengers_exist city_mixed) as Hex.
  { apply Forall_forall. intros p Hp. vm_compute in Hp.
    repeat (apply elem_of_cons in Hp as [->|Hp]; [by eexists|]).
    by apply elem_of_nil in Hp. }
  split; [exact Hex|].
  destruct (continues_while_fresh city_mixed 1000 Hex) as (b & Hb & _).
  split; [|split; reflexivity].
  rewrite Hb. f_equal. vm_compute in Hb. by injection Hb as <-.
Defined.

(** ** The commands keep the network well laid *)

Lemma linked_ext h h' ns :
  (∀ a, a ∈ ns → h' !! a = h !! a) → linked h ns → linked h' ns.
Proof.
  intros Hsame [Hdup Hl]. split; [done|]. intros i a Hi.
  rewrite Hsame by (by eapply list_elem_of_lookup_2). by apply Hl.
Qed.

Lemma station_seq_ext h h' ns :
  (∀ a, a ∈ ns → h' !! a = h !! a) → station_seq h' ns = station_seq h ns.
Proof.
  intros Hsame. unfold station_seq. apply Forall_fmap_ext_1, Forall_forall.
  intros a Ha. by rewrite Hsame.
Qed.

Lemma well_laid_frame c c' :
  lines c' = lines c → nodes c' = nodes c →
  (length (stations c) ≤ length (stations c'))%nat →
  well_laid c → well_laid c'.
Proof.
  intros Hl Hn Hs [H1 H2]. split.
  - intros l ln. rewrite Hl, Hn. intros Hln.
    destruct (H1 _ _ Hln) as (A & B & C).
    split; [done|]. split; [done|]. intros s Hon. apply C in Hon. lia.
  - intros l1 l2 ln1 ln2 a. rewrite Hl. apply H2.
Qed.

Lemma well_laid_fits c : well_laid c → lines_fit c.
Proof.
  intros [H1 _]. apply Forall_forall. intros ln Hln.
  apply list_elem_of_lookup in Hln as [l Hl].
  destruct (H1 _ _ Hl) as (Hlinked & Hdup & Hin).
  pose proof (linked_valid _ _ Hlinked) as Hvalid. split; [done|].
  destruct (stations_of_seq _ _ Hvalid) as (ss & _ & Hseq).
  assert (length (station_nodes ln) = length ss) as ->.
  { rewrite <- (length_fmap Some ss), <- Hseq. unfold station_seq.
    by rewrite length_fmap. }
  rewrite Hseq in Hdup. apply NoDup_fmap_1 in Hdup.
  rewrite <- (length_seq (length (stations c)) 0).
  apply submseteq_length, NoDup_submseteq; [done|].
  intros s Hs. apply elem_of_seq. split; [lia|]. simpl. apply Hin.
  unfold on_line. rewrite Hseq. by apply list_elem_of_fmap_2.
Qed.

Lemma well_laid_open c ln :
  well_laid c → ln ∈ lines c → LineM.is_circular (nodes c) ln = Ok false.
Proof.
  intros [H1 _] [l Hl]%list_elem_of_lookup.
  destruct (H1 _ _ Hl) as (Hlinked & _). by apply linked_not_circular.
Qed.

Lemma add_station_refused h l s position h' l' :
  LineM.add_station h l s position = Ok (h', l', false) → h' = h ∧ l' = l.
Proof.
  unfold LineM.add_station. intros Hrun.
  repeat (first
    [ progress simplify_eq/=
    | match type of Hrun with
      | (if ?b then _ else _) = _ => destruct b
      | (_ ≫= _) = Ok _ => apply bind_Ok in Hrun as (? & ? & Hrun)
      end ]); done.
Qed.

Lemma station_seq_spliced h ns k s :
  linked h ns →
  station_seq (spliced h ns k s) (take k ns ++ length h :: drop k ns)
  = take k (station_seq h ns) ++ Some s :: drop k (station_seq h ns).
Proof.
  intros Hlinked. rewrite <- (spliced_stations h ns k s Hlinked).
  unfold station_seq. rewrite fmap_app, fmap_cons, fmap_take, fmap_drop.
  by rewrite (spliced_fresh h ns k s Hlinked).
Qed.

Lemma add_line_laid c c' r :
  well_laid c → CityM.add_line c = Ok (c', r) →
  well_laid c' ∧ stations c' = stations c.
Proof.
  intros Hwl [(-> & -> & _)|(-> & _ & col & _ & ->)]%add_line_shape; [done|].
  split; [|done]. destruct Hwl as [H1 H2]. split.
  - intros l ln. simpl. intros [Hl|[_ Hl]]%lookup_app_Some; [by apply (H1 l)|].
    apply list_lookup_singleton_Some in Hl as [_ <-]. simpl.
    split; [apply empty_linked|]. split; [apply NoDup_nil_2|].
    intros s Hs. by apply elem_of_nil in Hs.
  - intros l1 l2 ln1 ln2 a. simpl.
    intros [Hl1|[_ Hl1]]%lookup_app_Some [Hl2|[_ Hl2]]%lookup_app_Some Ha1 Ha2.
    + by eapply H2.
    + apply list_lookup_singleton_Some in Hl2 as [_ <-]. by apply elem_of_nil in Ha2.
    + apply list_lookup_singleton_Some in Hl1 as [_ <-]. by apply elem_of_nil in Ha1.
    + apply list_lookup_singleton_Some in Hl1 as [_ <-]. by apply elem_of_nil in Ha1.
Qed.

Lemma add_station_to_line_laid c l s index c' ok :
  well_laid c → CityM.add_station_to_line c l s index = Ok (c', ok) →
  well_laid c' ∧ stations c' = stations c.
Proof.
  intros Hwl Hrun. unfold CityM.add_station_to_line in Hrun.
  destruct l as [l|], s as [s|]; try (by injection Hrun as <- <-).
  destruct (negb _ || negb _) eqn:Hknown; [by injection Hrun as <- <-|].
  apply orb_false_iff in Hknown as [Hkl Hks].
  apply negb_false_iff, bool_decide_eq_true in Hkl as [ln Hln].
  apply negb_false_iff, bool_decide_eq_true in Hks.
  apply bind_Ok in Hrun as (ln0 & Hget & Hrun).
  unfold get_line in Hget. rewrite Hln in Hget. injection Hget as <-.
  apply bind_Ok in Hrun as ([[h ln'] b] & Hadd & Hrun). injection Hrun as <- <-.
  destruct b.
  2:{ apply add_station_refused in Hadd as [-> ->]. split; [|done].
      apply (well_laid_frame c); simpl; [by rewrite list_insert_id|done..]. }
  destruct Hwl as [H1 H2]. destruct (H1 _ _ Hln) as (Hlinked & Hdup & Hin).
  pose proof (add_station_off_line _ _ _ _ _ _ (linked_valid _ _ Hlinked) Hadd) as Hoff.
  destruct (add_station_splices _ _ _ _ _ _ Hlinked Hadd) as (k & Hk & -> & Hns).
  pose proof (station_seq_spliced (nodes c) (station_nodes ln) k s Hlinked) as Hseq.
  rewrite <- Hns in Hseq.
  assert (∀ l0 ln0 a, <[l:=ln']> (lines c) !! l0 = Some ln0 → a ∈ station_nodes ln0 →
            (l0 = l ∧ a = length (nodes c))
            ∨ ((a < length (nodes c))%nat
               ∧ ∃ ln1, lines c !! l0 = Some ln1 ∧ a ∈ station_nodes ln1)) as Hor.
  { intros l0 ln0 a Hl0 Ha. destruct (decide (l0 = l)) as [->|Hne].
    - rewrite list_lookup_insert_eq in Hl0 by (by eapply lookup_lt_Some).
      injection Hl0 as <-. rewrite Hns in Ha.
      apply elem_of_app in Ha as [Ha|[->|Ha]%elem_of_cons]; [|by left|].
      + right. apply subseteq_take in Ha. split; [|by eauto].
        apply list_elem_of_lookup in Ha as [i Hi].
        by destruct (linked_lookup _ _ _ _ Hlinked Hi) as [?%lookup_lt_is_Some _].
      + right. apply subseteq_drop in Ha. split; [|by eauto].
        apply list_elem_of_lookup in Ha as [i Hi].
        by destruct (linked_lookup _ _ _ _ Hlinked Hi) as [?%lookup_lt_is_Some _].
    - rewrite list_lookup_insert_ne in Hl0 by done. right. split; [|by eauto].
      destruct (H1 _ _ Hl0) as (Hlinked0 & _).
      apply list_elem_of_lookup in Ha as [i Hi].
      by destruct (linked_lookup _ _ _ _ Hlinked0 Hi) as [?%lookup_lt_is_Some _]. }
  split; [|done]. split.
  - intros l2 ln2 Hl2. simpl in Hl2 |- *. destruct (decide (l2 = l)) as [->|Hne].
    + rewrite list_lookup_insert_eq in Hl2 by (by eapply lookup_lt_Some).
      injection Hl2 as <-. rewrite Hseq.
      split; [rewrite Hns; by apply spliced_linked|].
      split.
      * rewrite <- Permutation_middle, take_drop. by apply NoDup_cons.
      * intros s0 Hs0. unfold on_line in Hs0. rewrite Hseq in Hs0.
        rewrite <- Permutation_middle, take_drop in Hs0.
        apply elem_of_cons in Hs0 as [[= ->]|Hs0];
          [by apply lookup_lt_is_Some | by apply Hin].
    + rewrite list_lookup_insert_ne in Hl2 by done.
      destruct (H1 _ _ Hl2) as (A & B & C).
      assert (∀ b, b ∈ station_nodes ln2 →
                spliced (nodes c) (station_nodes ln) k s !! b = nodes c !! b) as Hsame.
      { intros b Hb. apply spliced_elsewhere.
        - apply list_elem_of_lookup in Hb as [i Hi].
          by destruct (linked_lookup _ _ _ _ A Hi) as [?%lookup_lt_is_Some _].
        - intros Hb'. apply Hne. by eapply (H2 l2 l). }
      split; [by apply (linked_ext (nodes c))|].
      rewrite (station_seq_ext _ _ _ Hsame). split; [done|].
      intros s0 Hs0. apply C. unfold on_line in *.
      by rewrite (station_seq_ext _ _ _ Hsame) in Hs0.
  - intros l1 l2 ln1 ln2 a Hl1 Hl2 Ha1 Ha2. simpl in Hl1, Hl2.
    destruct (Hor _ _ _ Hl1 Ha1) as [[-> ->]|(Hlt1 & ln1' & Hl1' & Ha1')],
             (Hor _ _ _ Hl2 Ha2) as [[-> E2]|(Hlt2 & ln2' & Hl2' & Ha2')];
      try done; try lia.
    by eapply H2.
Qed.

Lemma remove_station_cases h l s h' l' ok :
  linked h (station_nodes l) →
  LineM.remove_station h l s = Ok (h', l', ok) →
  (h' = h ∧ l' = l)
  ∨ ∃ i a, station_nodes l !! i = Some a
           ∧ h' = unspliced h (station_nodes l) i
           ∧ l' = set_station_nodes (delete i (station_nodes l)) l.
Proof.
  intros Hlinked Hrun. pose proof (linked_valid _ _ Hlinked) as Hvalid.
  destruct (decide (Some s ∈ station_seq h (station_nodes l))) as [Hon|Hoff].
  - destruct (on_line_first _ _ _ Hvalid Hon) as [i Hat].
    destruct (find_node_in_first _ _ _ _ Hvalid Hat) as (a & Ha & _).
    rewrite (remove_station_unsplices h (station_nodes l) i a Hlinked Ha l s eq_refl Hat)
      in Hrun.
    injection Hrun as <- <- <-. right. by exists i, a.
  - unfold LineM.remove_station, LineM.find_node in Hrun.
    rewrite (find_node_in_absent _ _ _ Hvalid Hoff) in Hrun.
    injection Hrun as <- <- <-. by left.
Qed.

Lemma remove_station_from_line_laid c l s c' ok :
  well_laid c → CityM.remove_station_from_line c l s = Ok (c', ok) →
  well_laid c' ∧ stations c' = stations c.
Proof.
  intros Hwl Hrun. unfold CityM.remove_station_from_line in Hrun.
  destruct l as [l|]; [|by injection Hrun as <- <-].
  destruct (negb _) eqn:Hkl; [by injection Hrun as <- <-|].
  apply negb_false_iff, bool_decide_eq_true in Hkl as [ln Hln].
  apply bind_Ok in Hrun as (ln0 & Hget & Hrun).
  unfold get_line in Hget. rewrite Hln in Hget. injection Hget as <-.
  destruct s as [s|]; [|by injection Hrun as <- <-].
  apply bind_Ok in Hrun as ([[h ln'] r] & Hrem & Hrun). injection Hrun as <- <-.
  destruct Hwl as [H1 H2]. destruct (H1 _ _ Hln) as (Hlinked & Hdup & Hin).
  apply (remove_station_cases _ _ _ _ _ _ Hlinked) in Hrem
    as [[-> ->]|(i & a & Hi & -> & ->)].
  { split; [|done].
    apply (well_laid_frame c); simpl; [by rewrite list_insert_id|done..]. }
  set (ns := station_nodes ln) in *.
  set (ln1 := set_station_nodes (delete i ns) ln).
  assert (∀ l0 ln0 b, <[l:=ln1]> (lines c) !! l0 = Some ln0 → b ∈ station_nodes ln0 →
            ∃ ln2, lines c !! l0 = Some ln2 ∧ b ∈ station_nodes ln2) as Hsub.
  { intros l0 ln0 b Hl0 Hb. destruct (decide (l0 = l)) as [->|Hne].
    - rewrite list_lookup_insert_eq in Hl0 by (by eapply lookup_lt_Some).
      injection Hl0 as <-. exists ln. split; [done|].
      subst ln1. simpl in Hb. by eapply list_elem_of_delete_inv.
    - rewrite list_lookup_insert_ne in Hl0 by done. by eauto. }
  split; [|done]. split.
  - intros l2 ln2 Hl2. simpl in Hl2 |- *. destruct (decide (l2 = l)) as [->|Hne].
    + rewrite list_lookup_insert_eq in Hl2 by (by eapply lookup_lt_Some).
      injection Hl2 as <-. simpl.
      split; [by apply (unspliced_linked (nodes c) ns i a)|].
      unfold on_line. simpl.
      rewrite (unspliced_stations (nodes c) ns i a Hlinked Hi).
      split; [eapply sublist_NoDup; [done | apply sublist_delete]|].
      intros s0 Hs0. apply Hin. unfold on_line.
      by eapply list_elem_of_delete_inv.
    + rewrite list_lookup_insert_ne in Hl2 by done.
      destruct (H1 _ _ Hl2) as (A & B & C).
      assert (∀ b, b ∈ station_nodes ln2 →
                unspliced (nodes c) ns i !! b = nodes c !! b) as Hsame.
      { intros b Hb. apply (unspliced_elsewhere (nodes c) ns i a Hi).
        intros Hb'. apply Hne. by eapply (H2 l2 l). }
      split; [by apply (linked_ext (nodes c))|].
      rewrite (station_seq_ext _ _ _ Hsame). split; [done|].
      intros s0 Hs0. apply C. unfold on_line in *.
      by rewrite (station_seq_ext _ _ _ Hsame) in Hs0.
  - intros l1 l2 x1 x2 b Hl1 Hl2 Hb1 Hb2. simpl in Hl1, Hl2.
    destruct (Hsub _ _ _ Hl1 Hb1) as (y1 & Hl1' & Hb1'),
             (Hsub _ _ _ Hl2 Hb2) as (y2 & Hl2' & Hb2').
    by eapply H2.
Qed.

Lemma add_train_laid c l st dir c' r :
  well_laid c → CityM.add_train c l st dir = Ok (c', r) →
  well_laid c' ∧ stations c' = stations c.
Proof.
  intros Hwl (Hs & Hl & Hn & _)%add_train_shape. split; [|done].
  apply (well_laid_frame c); [done..|by rewrite Hs|done].
Qed.

Lemma remove_wagon_unchanged c t c' :
  TrainM.remove_wagon c t = Ok (c', false) → c' = c.
Proof.
  unfold TrainM.remove_wagon. intros (tr & _ & Hrun)%bind_Ok.
  case_bool_decide; [by injection Hrun as <-|].
  by apply bind_Ok in Hrun as (c2 & _ & [=]).
Qed.

Lemma apply_action_laid c a c' ok :
  well_laid c → SimulationM.apply_action c a = Ok (c', ok) →
  well_laid c' ∧ stations c' = stations c.
Proof.
  intros Hwl Hrun. unfold SimulationM.apply_action in Hrun.
  repeat match type of Hrun with
         | (if ?b then _ else _) = _ => destruct b
         end.
  - by injection Hrun as <- <-.
  - apply bind_Ok in Hrun as ([c1 t] & Hadd & Hrun). injection Hrun as <- <-.
    by eapply add_train_laid.
  - apply bind_Ok in Hrun as ([c1 t] & Hrem & Hrun). injection Hrun as <- <-.
    unfold CityM.remove_train in Hrem.
    destruct (negb _); [by injection Hrem as <- | done].
  - done.
  - done.
  - unfold CityM.remove_wagon in Hrun.
    apply bind_Ok in Hrun as (t & _ & Hrun).
    apply bind_Ok in Hrun as ([c1 [|]] & Hrem & Hrun); [done|].
    injection Hrun as <- <-. by apply remove_wagon_unchanged in Hrem as ->.
  - apply bind_Ok in Hrun as ([c1 t] & Hadd & Hrun). injection Hrun as <- <-.
    by eapply add_line_laid.
  - done.
  - apply bind_Ok in Hrun as (idx & _ & Hrun). by eapply add_station_to_line_laid.
  - by eapply remove_station_from_line_laid.
  - done.
  - by injection Hrun as <- <-.
Qed.

Lemma commands_laid c actions c1 ok :
  well_laid c →
  for_each (λ s a, SimulationM.apply_action s.1 a) actions (c, true) = Ok (c1, ok) →
  well_laid c1 ∧ stations c1 = stations c.
Proof.
  intros Hwl Hrun.
  apply (for_each_inv (λ s, well_laid s.1 ∧ stations s.1 = stations c)) in Hrun;
    [done| |done].
  intros [s b] a [s' b'] _ [Hs Hst] Hstep. simpl in *.
  apply (apply_action_laid _ _ _ _ Hs) in Hstep as [? ?]. split; [done|congruence].
Qed.

Lemma rebuild_laid c :
  well_laid c → stations c ≠ [] →
  ∃ c', NavMap._update_navmap c = Ok c' ∧ well_laid c'
        ∧ stations c' = stations c.
Proof.
  intros Hwl Hsome.
  destruct (update_navmap_total c Hsome (well_laid_fits c Hwl)) as [c' Hrun].
  exists c'. split; [done|].
  apply update_navmap_same in Hrun as (_ & Hs & Hl & Hn & _).
  split; [|done]. apply (well_laid_frame c); [done..|by rewrite Hs|done].
Qed.

(** X18: user commands keep the network well laid, so the rebuild that ends
    a batch can only fail for want of a station.  Call a city well laid when
    every line is an open chain of nodes holding different stations of the
    city and no node is on two lines.  In such a city every command that
    returns leaves a well-laid city with the same stations.  Once the
    commands of a batch have all returned, the closing City._update_navmap
    returns as well if the city has a station, and _process_user_actions
    then returns the flag of the commands with a well-laid city; in a city
    without stations the closing rebuild raises ValueError. *)
Theorem commands_keep_layout (c : City) :
  well_laid c →
  (∀ a c' ok, SimulationM.apply_action c a = Ok (c', ok) →
     well_laid c' ∧ stations c' = stations c) ∧
  (∀ l s index c' ok, CityM.add_station_to_line c l s index = Ok (c', ok) →
     well_laid c' ∧ stations c' = stations c) ∧
  (∀ l s c' ok, CityM.remove_station_from_line c l s = Ok (c', ok) →
     well_laid c' ∧ stations c' = stations c) ∧
  (∀ actions c1 ok,
     for_each (λ s a, SimulationM.apply_action s.1 a) actions (c, true) = Ok (c1, ok) →
     (stations c ≠ [] →
      ∃ c', SimulationM._process_user_actions c (Some actions) = Ok (c', ok)
            ∧ well_laid c' ∧ stations c' = stations c) ∧
     (stations c = [] →
      SimulationM._process_user_actions c (Some actions) = Raise ValueError)).
Proof.
  intros Hwl. split; [|split; [|split]].
  - intros a c' ok. by apply apply_action_laid.
  - intros l s index c' ok. by apply add_station_to_line_laid.
  - intros l s c' ok. by apply remove_station_from_line_laid.
  - intros actions c1 ok Hrun.
    destruct (commands_laid _ _ _ _ Hwl Hrun) as [Hwl1 Hs1].
    unfold SimulationM._process_user_actions.
    rewrite Hrun. cbn [mbind result_bind Py.bind]. split.
    + intros Hsome.
      destruct (rebuild_laid c1 Hwl1) as (c' & Hreb & Hwl' & Hs');
        [by rewrite Hs1|].
      exists c'. rewrite Hreb. split; [done|]. split; [done|congruence].
    + intros Hnone. rewrite update_navmap_no_stations; [done|congruence].
Qed.

Lemma outpost_laid : well_laid city_outpost.
Proof.
  split.
  - intros [|l] ln Hl; [|by destruct l]. injection Hl as <-.
    split; [apply three_line_linked|]. split.
    + apply (bool_decide_unpack (NoDup _)). vm_compute. exact I.
    + intros s Hs. unfold on_line in Hs. vm_compute in Hs.
      repeat (apply elem_of_cons in Hs as [[= ->]|Hs]; [simpl; lia|]).
      by apply elem_of_nil in Hs.
  - intros [|l1] [|l2] ln1 ln2 a Hl1 Hl2 _ _; try done;
      try (by destruct l2); by destruct l1.
Qed.

Lemma city_init_laid : well_laid City_init.
Proof.
  split.
  - intros l ln Hl. by destruct l.
  - intros l1 l2 ln1 ln2 a Hl1. by destruct l1.
Qed.

Lemma commands_keep_layout_witness :
  well_laid city_outpost ∧
  (∃ c', SimulationM._process_user_actions city_outpost (Some batch_outpost)
         = Ok (c', true)
         ∧ well_laid c' ∧ stations c' = stations city_outpost) ∧
  SimulationM._process_user_actions City_init (Some [command "line" "add" None None])
  = Raise ValueError.
Proof.
  split; [apply outpost_laid|]. split.
  - destruct (commands_keep_layout city_outpost outpost_laid)
      as (_ & _ & _ & Hbatch).
    edestruct (Hbatch batch_outpost) as [Hreturns _];
      [vm_compute; reflexivity|].
    destruct Hreturns as (c' & Hrun & Hwl & Hs); [done|].
    exists c'. split; [exact Hrun|]. split; [exact Hwl | exact Hs].
  - destruct (commands_keep_layout City_init city_init_laid)
      as (_ & _ & _ & Hbatch).
    edestruct (Hbatch [command "line" "add" None None]) as [_ Hraises];
      [vm_compute; reflexivity|].
    by apply Hraises.
Defined.

(** ** The layout lasts through the simulation *)

Lemma with_station_laid c pos : well_laid c → well_laid (with_station c pos).
Proof.
  intros Hwl. apply (well_laid_frame c); [done..| |done].
  unfold with_station. simpl. rewrite length_app. lia.
Qed.

Lemma add_station_laid c rnd c' s rnd' :
  well_laid c → CityM.add_station c rnd = Ok (c', s, rnd') → well_laid c'.
Proof.
  intros Hwl (_ & pos & _ & Hnav)%add_station_stages.
  apply update_navmap_same in Hnav as (_ & Hs & Hl & Hn & _).
  apply (well_laid_frame (with_station c pos));
    [done | done | by rewrite Hs | by apply with_station_laid].
Qed.

Lemma tick_network c rnd c' rnd' :
  SimulationM.simulate_step c rnd = Ok (c', rnd') →
  lines c' = lines c ∧ nodes c' = nodes c
  ∧ (length (stations c) ≤ length (stations c'))%nat.
Proof.
  intros (ce & c1 & rnd0 & c2 & c3 & c4 & H0 & H1 & H2 & H3 & H4 & ->)
    %simulate_step_stages.
  assert (lines ce = lines c ∧ nodes ce = nodes c ∧ stations ce = stations c)
    as (Cl & Cn & Cst).
  { destruct (bool_decide (time c `mod` _ = 0)); [|by subst].
    by destruct H0 as (edge & _ & ->). }
  assert (lines c1 = lines c ∧ nodes c1 = nodes c
          ∧ (length (stations c) ≤ length (stations c1))%nat) as (El & En & Est).
  { destruct (_ && _); [|destruct H1 as [-> _]; by rewrite Cst].
    destruct H1 as (s0 & Hadd).
    apply add_station_grown in Hadd
      as (_ & _ & A2 & A3 & _ & _ & _ & (pos & _ & A7) & _).
    split; [congruence|]. split; [congruence|].
    rewrite A7, length_app, Cst. lia. }
  assert (grown c1 c2 0) as G2.
  { eapply (for_each_inv (λ s, grown c1 s 0)); [|apply grown_refl|exact H2].
    intros s t s' _ Hs Hmove. by eapply train_move_grown. }
  assert (∃ k, grown c1 c3 k) as [k3 G3].
  { apply (for_each_inv (λ cr, ∃ k, grown c1 cr.1 k)) in H3; [done| |by exists 0%nat].
    intros [s r] st [s' r'] _ [k Hk] Hsp. by eapply spawn_passengers_grown. }
  assert (grown c1 c4 k3) as (_ & Gl & Gn & _ & Gst & _).
  { unfold SimulationM.move_passengers in H4.
    apply bind_Ok in H4 as (ps & _ & H4).
    eapply (for_each_inv (λ s, grown c1 s k3)); [|exact G3|exact H4].
    intros s p s' _ Hs Hmove. by eapply passenger_move_grown. }
  simpl. split; [congruence|]. split; [congruence|lia].
Qed.

(** The city while initialize_simulation adds its stations. *)
Lemma add_station_spread c rnd c' s rnd' :
  spread c → CityM.add_station c rnd = Ok (c', s, rnd') → spread c'.
Proof.
  intros Hsp (_ & _ & _ & _ & _ & _ & _ & (pos & Hfree & Hst) & _)%add_station_grown.
  unfold spread. rewrite Hst, fmap_app. simpl.
  apply NoDup_app. split; [done|]. split; [|apply NoDup_singleton].
  intros x Hx ->%list_elem_of_singleton. done.
Qed.

Lemma initial_stations l c news r c' news' r' :
  for_each (λ (st : City * list station_ref * draws) (_ : nat),
              let '(c, new_stations, r) := st in
              '(c', s, r') ← CityM.add_station c r;
              Ok (c', new_stations ++ [s], r'))
           l (c, news, r) = Ok (c', news', r') →
  well_laid c → catalogued c → spread c →
  well_laid c' ∧ catalogued c' ∧ spread c'
  ∧ news' = news ++ seq (length (stations c)) (length l)
  ∧ length (stations c') = (length (stations c) + length l)%nat
  ∧ lines c' = lines c ∧ trains c' = trains c ∧ time c' = time c
  ∧ edgelength c' = edgelength c.
Proof.
  revert c news r. induction l as [|x l IH]; intros c news r Hrun Hwl Hcat Hsp.
  - injection Hrun as <- <- <-. rewrite app_nil_r, Nat.add_0_r.
    split; [done|]. split; [done|]. split; [done|]. by repeat split.
  - cbn [for_each] in Hrun.
    apply bind_Ok in Hrun as ([[c1 news1] r1] & Hstep & Hrun).
    apply bind_Ok in Hstep as ([[c2 s] r2] & Hadd & [= <- <- <-]).
    pose proof (add_station_laid _ _ _ _ _ Hwl Hadd) as Hwl2.
    pose proof (add_station_spread _ _ _ _ _ Hsp Hadd) as Hsp2.
    pose proof (add_station_catalogued _ _ _ _ _ Hcat Hadd) as Hcat2.
    pose proof Hadd
      as (-> & Ht & Hl & _ & Htr & _ & _ & (pos' & _ & Hst) & _)%add_station_grown.
    assert (length (stations c2) = S (length (stations c))) as Hlen
      by (rewrite Hst, length_app; simpl; lia).
    pose proof Hadd as (_ & pos & _ & (d & nv & _ & Hc2)%update_navmap_sets)
      %add_station_stages.
    destruct (IH _ _ _ Hrun Hwl2 Hcat2 Hsp2)
      as (A1 & A2 & A3 & A4 & A5 & A6 & A7 & A8 & A9).
    split; [done|]. split; [done|]. split; [done|]. split.
    { rewrite A4, Hlen, <- app_assoc. done. }
    split; [rewrite A5, Hlen; simpl; lia|].
    split; [congruence|]. split; [congruence|]. split; [congruence|].
    rewrite A9, Hc2. done.
Qed.

(** X19: the network stays well laid for the whole simulation.  Call a
    city well laid when every line is an open chain of nodes holding
    different stations of the city and no node is on two lines.  Whenever
    initialize_simulation returns, it returns a well-laid city of five
    stations, numbered 0 to 4 and standing at different positions, without
    lines or trains, with the clock at 0 and the edge length 10, and
    new_stations lists the five.  In any well-laid city no line is circular
    and no line has more nodes than the city has stations;
    City._update_navmap returns if the city has a station; and the rebuild,
    every City.add_station that returns (it returns the new last station)
    and every Simulation.simulate_step that completes leave the city well
    laid. *)
Theorem layout_lasts :
  (∀ rnd c news rnd',
     initialize_simulation rnd = Ok (c, news, rnd') →
     well_laid c ∧ catalogued c ∧ spread c ∧ news = [0; 1; 2; 3; 4]%nat
     ∧ length (stations c) = 5%nat ∧ lines c = [] ∧ trains c = []
     ∧ time c = 0 ∧ edgelength c = 10) ∧
  ∀ c, well_laid c →
    (∀ ln, ln ∈ lines c →
       LineM.is_circular (nodes c) ln = Ok false
       ∧ (length (station_nodes ln) ≤ length (stations c))%nat) ∧
    (stations c ≠ [] → ∃ c', NavMap._update_navmap c = Ok c' ∧ well_laid c') ∧
    (∀ rnd c' s rnd', CityM.add_station c rnd = Ok (c', s, rnd') →
       well_laid c' ∧ s = length (stations c)) ∧
    (∀ rnd c' rnd', SimulationM.simulate_step c rnd = Ok (c', rnd') → well_laid c').
Proof.
  split.
  - intros rnd c news rnd' Hrun.
    apply initial_stations in Hrun; [|apply city_init_laid| |apply NoDup_nil_2].
    2:{ by split; [|split]; intros i x Hi; simpl in Hi; destruct i. }
    destruct Hrun as (A1 & A2 & A3 & A4 & A5 & A6 & A7 & A8 & A9).
    by repeat (split; [done|]).
  - intros c Hwl. split; [|split; [|split]].
    + intros ln Hln. split; [by apply well_laid_open|].
      pose proof (well_laid_fits c Hwl) as Hfit. unfold lines_fit in Hfit.
      rewrite Forall_forall in Hfit. by destruct (Hfit ln Hln).
    + intros Hsome. destruct (rebuild_laid c Hwl Hsome) as (c' & ? & ? & _).
      by exists c'.
    + intros rnd c' s rnd' Hadd. split; [by eapply add_station_laid|].
      by apply add_station_stages in Hadd as [-> _].
    + intros rnd c' rnd' (Hl & Hn & Hs)%tick_network.
      by apply (well_laid_frame c).
Qed.

Lemma layout_lasts_witness :
  (∃ c rnd', initialize_simulation [0; 0; 0; 0; 1; 1; 2; 2; 3; 3; 4; 4; 9]%nat
             = Ok (c, [0; 1; 2; 3; 4]%nat, rnd')
             ∧ well_laid c ∧ spread c) ∧
  well_laid city_outpost ∧
  (∃ c', NavMap._update_navmap city_outpost = Ok c' ∧ well_laid c') ∧
  ∃ c' rnd', SimulationM.simulate_step city_outpost [1; 2; 0; 0; 0]%nat = Ok (c', rnd')
             ∧ well_laid c'.
Proof.
  destruct layout_lasts as [Hinit H].
  split.
  - eexists _, _. split; [vm_compute; reflexivity|].
    edestruct (Hinit [0; 0; 0; 0; 1; 1; 2; 2; 3; 3; 4; 4; 9]%nat)
      as (Hwl & _ & Hsp & _); [vm_compute; reflexivity|].
    split; [exact Hwl | exact Hsp].
  - destruct (H city_outpost outpost_laid) as (_ & Hreb & _ & Htick).
    split; [apply outpost_laid|]. split; [by apply Hreb|].
    eexists _, _. split; [vm_compute; reflexivity|].
    apply (Htick [1; 2; 0; 0; 0]%nat _ []). vm_compute. reflexivity.
Defined.

(** ** City.add_station looks for a free position *)

Lemma random_position_empty c rnd :
  edgelength c ≤ 0 → CityM._random_position c rnd = Raise ValueError.
Proof.
  intros He. unfold CityM._random_position, randint2.
  rewrite bool_decide_eq_true_2; [done|].
  assert (edgelength c `div` 2 ≤ 0) by (apply Z.div_le_upper_bound; lia).
  assert (0 ≤ (- edgelength c) `div` 2) by (apply Z.div_pos; lia).
  lia.
Qed.

Lemma random_position_drawn c rnd pos rest :
  CityM._random_position c rnd = Ok (pos, rest) →
  in_square c pos ∧ ∃ r1 r2, rnd = r1 :: r2 :: rest.
Proof.
  unfold CityM._random_position, randint2, in_square.
  case_bool_decide as Hrange; [done|].
  destruct rnd as [|r1 [|r2 rnd]]; [done..|]. intros [= <- <-]. split; [|by eauto].
  set (low := (- edgelength c) `div` 2) in *.
  set (high := edgelength c `div` 2) in *. cbn [fst snd].
  pose proof (Z.mod_pos_bound (Z.of_nat r1) (high - low)).
  pose proof (Z.mod_pos_bound (Z.of_nat r2) (high - low)). lia.
Qed.

Lemma free_position_fuel f1 f2 c taken pos rnd :
  (length rnd < f1)%nat → (length rnd < f2)%nat →
  CityM.free_position f1 c taken pos rnd = CityM.free_position f2 c taken pos rnd.
Proof.
  revert f2 pos rnd. induction f1 as [|f1 IH]; intros f2 pos rnd H1 H2; [lia|].
  destruct f2 as [|f2]; [lia|]. simpl. case_bool_decide; [|done].
  destruct (CityM._random_position c rnd) as [[[x y] rest]| |] eqn:Hpos; [|done..].
  cbn [mbind result_bind Py.bind].
  apply random_position_drawn in Hpos as [_ (r1 & r2 & ->)].
  simpl in H1, H2. apply IH; lia.
Qed.

Lemma free_position_in_square fuel c taken pos rnd pos' rnd' :
  in_square c pos →
  CityM.free_position fuel c taken pos rnd = Ok (pos', rnd') → in_square c pos'.
Proof.
  revert pos rnd. induction fuel as [|fuel IH]; intros pos rnd Hin; simpl.
  - case_bool_decide; [done|]. by intros [= <- <-].
  - case_bool_decide; [|by intros [= <- <-]].
    intros ([p1 r1] & Hpos & Hrun)%bind_Ok.
    apply random_position_drawn in Hpos as [Hin1 _]. by eapply IH.
Qed.

Lemma add_station_position c rnd c' s rnd' :
  CityM.add_station c rnd = Ok (c', s, rnd') →
  ∃ pos, in_square c pos ∧ (pos ∉ station_position <$> stations c)
         ∧ NavMap._update_navmap (with_station c pos) = Ok c'.
Proof.
  unfold CityM.add_station.
  intros ([pos0 rnd0] & Hpos & Hrun)%bind_Ok.
  apply bind_Ok in Hrun as ([pos rnd1] & Hfree & Hrun).
  apply bind_Ok in Hrun as (c2 & Hnav & [= <- <- <-]).
  exists pos. apply random_position_drawn in Hpos as [Hin _].
  split; [by eapply free_position_in_square|].
  split; [by eapply free_position_free | done].
Qed.

(** X20: City.add_station looks for a free position.  A position drawn by
    _random_position lies in the city square.  If the first position drawn
    holds a station already, add_station goes on as if called with the
    remaining draws; if it is free, add_station puts the new last station
    there and rebuilds the maps, and in a well-laid city the call returns,
    with the city well laid and the stations at different positions if they
    were before.  Whenever add_station returns, the new station stands in
    the square at a position no other station has.  With an edge length
    of 0 or less the call raises ValueError, and in a city whose square has
    a station at every position it never returns. *)
Theorem add_station_search (c : City) :
  (edgelength c ≤ 0 → ∀ rnd, CityM.add_station c rnd = Raise ValueError) ∧
  (∀ rnd pos rest,
     CityM._random_position c rnd = Ok (pos, rest) →
     in_square c pos ∧
     (pos ∈ station_position <$> stations c →
      CityM.add_station c rnd = CityM.add_station c rest) ∧
     ((pos ∉ station_position <$> stations c) →
      CityM.add_station c rnd
      = (c2 ← NavMap._update_navmap (with_station c pos);
         Ok (c2, length (stations c), rest))
      ∧ (well_laid c →
         ∃ c', CityM.add_station c rnd = Ok (c', length (stations c), rest)
               ∧ well_laid c' ∧ (spread c → spread c')))) ∧
  (∀ rnd c' s rnd',
     CityM.add_station c rnd = Ok (c', s, rnd') →
     ∃ pos, in_square c pos ∧ (pos ∉ station_position <$> stations c)
            ∧ stations c' = stations (with_station c pos)) ∧
  (square_full c → ∀ rnd r, CityM.add_station c rnd ≠ Ok r).
Proof.
  split; [|split; [|split]].
  - intros He rnd. unfold CityM.add_station.
    by rewrite random_position_empty.
  - intros rnd pos rest Hpos.
    pose proof (random_position_drawn _ _ _ _ Hpos) as [Hin (r1 & r2 & ->)].
    split; [done|]. split.
    + intros Htaken. unfold CityM.add_station at 1. rewrite Hpos.
      cbn [mbind result_bind Py.bind CityM.free_position].
      rewrite bool_decide_eq_true_2 by done.
      unfold CityM.add_station.
      destruct (CityM._random_position c rest) as [[pos1 rest1]| |] eqn:Hnext;
        [|done..].
      cbn [mbind result_bind Py.bind].
      apply random_position_drawn in Hnext as [_ (r3 & r4 & ->)].
      rewrite (free_position_fuel (length (r3 :: r4 :: rest1)) (S (length rest1)));
        [done | simpl; lia | lia].
    + intros Hfree.
      assert (CityM.add_station c (r1 :: r2 :: rest)
              = (c2 ← NavMap._update_navmap (with_station c pos);
                 Ok (c2, length (stations c), rest))) as Heq.
      { unfold CityM.add_station at 1. rewrite Hpos.
        cbn [mbind result_bind Py.bind CityM.free_position].
        by rewrite bool_decide_eq_false_2 by done. }
      split; [done|]. intros Hwl.
      destruct (rebuild_laid (with_station c pos)) as (c' & Hreb & Hwl' & Hst).
      { by apply with_station_laid. }
      { unfold with_station. simpl. by destruct (stations c). }
      exists c'. rewrite Heq, Hreb. split; [done|]. split; [done|].
      intros Hsp. unfold spread. rewrite Hst. unfold with_station. simpl.
      rewrite fmap_app. simpl.
      apply NoDup_app. split; [done|]. split; [|apply NoDup_singleton].
      intros x Hx ->%list_elem_of_singleton. done.
  - intros rnd c' s rnd' (pos & Hin & Hfree & Hnav)%add_station_position.
    exists pos. split; [done|]. split; [done|].
    by apply update_navmap_same in Hnav as (_ & -> & _).
  - intros Hfull rnd [[c' s] rnd'] (pos & Hin & Hfree & _)%add_station_position.
    by apply Hfree, Hfull.
Qed.

Lemma add_station_search_witness :
  (∃ c', CityM.add_station city_outpost [5; 5; 7; 7; 1]%nat = Ok (c', 4%nat, [1%nat])
         ∧ well_laid c' ∧ spread c') ∧
  square_full city_tiny ∧
  ∀ r, CityM.add_station city_tiny [0; 0; 3; 4]%nat ≠ Ok r.
Proof.
  destruct (add_station_search city_outpost) as (_ & Hdraw & _ & _).
  destruct (add_station_search city_tiny) as (_ & _ & _ & Hfull).
  assert (square_full city_tiny) as Htiny.
  { intros [x y]. unfold in_square. cbn [fst snd].
    change ((- edgelength city_tiny) `div` 2) with (-1).
    change (edgelength city_tiny `div` 2) with 0.
    intros [Hx Hy]. assert (x = -1) as -> by lia. assert (y = -1) as -> by lia.
    simpl. by left. }
  split; [|split; [exact Htiny | exact (Hfull Htiny _)]].
  destruct (Hdraw [5; 5; 7; 7; 1]%nat (0, 0) [7; 7; 1]%nat) as (_ & Htaken & _);
    [vm_compute; reflexivity|].
  rewrite Htaken by (simpl; by left).
  destruct (Hdraw [7; 7; 1]%nat (2, 2) [1%nat]) as (_ & _ & Hfree);
    [vm_compute; reflexivity|].
  destruct Hfree as [_ Hreturns].
  { simpl. intros Hin. repeat (apply elem_of_cons in Hin as [[=]|Hin]).
    by apply elem_of_nil in Hin. }
  destruct (Hreturns outpost_laid) as (c' & Hrun & Hwl & Hsp).
  exists c'. split; [exact Hrun|]. split; [exact Hwl|].
  apply Hsp. apply (bool_decide_unpack (NoDup _)). vm_compute. exact I.
Defined.

